(* ===== verification/_CoqProject ===== *)
-Q . S2P
Prelude.v
ObjectPath.v
Vtable.v
Message.v
BusState.v
NodeStore.v
Registration.v
RegistrationInv.v
Reachable.v
VtableTypes.v
VtableOrder.v
DispatchCore.v
Access.v
Callbacks.v
Tree.v
Introspect.v
ObjectManager.v
Signals.v
Dispatch.v
DispatchProps.v
Fresh.v
Preserve.v
SingleReply.v
DispatchLoop.v
Precedence.v
AtMostOnce.v
IntrospectProps.v
GetAllProps.v
InterfaceProps.v
SignalsProps.v
EmitResult.v
Scenarios.v
