(* ===== verification/Prelude.v ===== *)
(** * A verification development of the sd-bus object-tree dispatch engine

    Source: [src/src/libsystemd-bus/bus-objects.c] of systemd (2013).  That
    file implements, for one bus connection, the registry of exported
    objects (the "node tree"), the dispatch of incoming method calls to the
    registered handlers, the four standard D-Bus meta-interfaces
    (Properties, Introspectable, Peer, ObjectManager), and the emission of
    the PropertiesChanged / InterfacesAdded / InterfacesRemoved signals.
    The second source file, [src/src/test/test-execute.c], is an
    integration test of the service manager: it has nothing to do with
    bus-objects.c and is not modelled.

    ** How the parts of the program interact

    - The node store ([bus->nodes], a hashmap from object path to
      [struct node]) is the shared substrate.  Every node keeps its
      children, its raw callbacks, its vtables, its enumerators and an
      object-manager flag.  Two secondary indices, [bus->vtable_methods] and
      [bus->vtable_properties], map (path, interface, member) to the vtable
      member that serves it.
    - The registration API ([bus_add_object], [add_object_vtable_internal],
      [sd_bus_add_node_enumerator], [sd_bus_add_object_manager] and their
      removals) allocates nodes ([bus_node_allocate]), keeps the indices in
      step and collects empty nodes ([bus_node_gc]).  Every change sets
      [bus->nodes_modified].
    - The dispatch engine ([bus_process_object], [object_find_and_run])
      looks the message path up exactly, then every ancestor prefix for
      fallback registrations; user handlers run synchronously and may call
      the registration API, in which case the engine restarts.  The
      [last_iteration] markers keep a restarted dispatch from running a
      handler twice.
    - The access check ([check_access]) decides, from the member's flags,
      the bus's trust and the caller's credentials, whether a method call or
      property write is allowed.

    ** Files of the development (in dependency order)

    - [Prelude] (this file): the [sdbus_scope] notations, the errno values
      the code returns, the list operations the intrusive lists of the C
      code perform ([LIST_REMOVE] of the first match, [LIST_INSERT_AFTER]),
      the hint databases [sdbus] and [sdbus_rw], string lemmas and the
      shared tactics.
    - [ObjectPath] (Module [ObjectPath]): object-path strings:
      [object_path_is_valid], [object_path_startswith], the prefix walk
      [OBJECT_PATH_FOREACH_PREFIX] ([object_path_prefixes], fuel = the
      length of the path, which bounds the number of steps since each
      step strictly shortens the prefix) and the parent computation of
      [bus_node_allocate] ([node_parent_path], source lines 1356-1362).
      A path is also described by its list of segments
      ([path_of_segments]); the prefix walk is proved against the list of
      ancestors of that list, and the parent computation is shown to
      return "/" at every depth (the [MAX(1, path - e)] bug).
    - [Vtable] (Module [Vtable]): [struct sd_bus_vtable] as an inductive
      type, the flag bits, [CAPABILITY_SHIFT] (line 269) with its bounds
      and its round trip with [SD_BUS_VTABLE_CAPABILITY], the entry checks
      of the [switch] of [add_object_vtable_internal] (lines 1668-1762),
      and the name/signature validators as the class [BusValidators] with
      an executable instance [lib_validators].
    - [Message] (Module [Message]): messages as header fields and a list
      of typed values; the replies the engine sends.
    - [BusState] (Module [BusState]): [struct node], [node_callback],
      [node_vtable], [vtable_member] and the fields of [sd_bus] the engine
      uses, as records (with [bus_open] for [BUS_IS_OPEN(bus->state)],
      true for the started connection [empty_bus]); nodes are identified
      by their path, heap objects by an allocation number drawn from
      [bus_next_id].
    - [NodeStore] (Module [NodeStore]): [bus_node_allocate] and
      [bus_node_gc] (lines 1334-1412), recursive over the parent with fuel
      [String.length path], which is enough because every parent is
      strictly shorter ([bus_node_allocate_fuel_spec] and
      [bus_node_gc_fuel_spec] are proved for every fuel at least the
      length).  The store invariant [nodes_wf] (paths, parent links and
      child lists agree) is kept by both.
    - [Registration] (Module [Registration]): every registration entry
      point of lines 1414-1937 and 2385-2420, each returning the C return
      code with the new bus.
    - [RegistrationInv] (Module [RegistrationInv]): the invariant
      [bus_inv] (well-formed store, no empty node, vtables start with
      START, both indices sound) and its preservation by every operation;
      the functional behaviour of [add_object_vtable_internal] on success
      (every member indexed) and on failure (error codes, registered
      vtables unchanged).
    - [Reachable] (Module [Reachable]): the registration API as a
      transition system from the empty bus; [bus_inv] holds of every
      reachable bus (rule induction), and a two-step run shows that index
      completeness does not: a refused registration deletes the index
      entries of the vtable it collided with.
    - [VtableTypes] (Module [VtableTypes]): the type invariant of the
      store.  Every vtable of a reachable bus passed the entry checks of
      [add_object_vtable_internal] ([vtables_typed]): each registration
      call's vtables are traced back to the store before it
      ([vtables_back]) except the one a successful registration links,
      whose entries the member loop accepted.  Hence every method index
      entry is a well-typed METHOD entry ([method_typed]).
    - [VtableOrder] (Module [VtableOrder]): the order of each node's
      vtable list (spec section 5).  [scan_node_vtables] finds the last
      vtable of the interface and [list_insert_after_opt] links the new
      one right after it, so on a reachable bus the vtables of one
      interface are adjacent ([grouped]), of one fallback kind, and each
      registration appears once ([reachable_vtables_grouped]).  Every
      other call only drops vtables from a list ([lists_back]: a
      sublist).  With unique identities, a successful
      [remove_object_vtable_internal] leaves no node holding the vtable
      and no index entry pointing to it ([remove_vtable_unindexed], spec
      property 2).
    - [DispatchCore] (Module [DispatchCore]): the dispatch state
      [dstate] (the bus, the [*found_object] flag, a store of property
      cells addressed by (userdata, offset), and a trace of the user
      callbacks invoked) and the state monad [DM] over it, written with
      stdpp's [≫=]; the primitives ([nodes_modified], [unless_modified] for
      [if (bus->nodes_modified) return 0;], [set_found], [send]); the user
      callbacks as the class [DispatchEnv]: each handler, [find],
      getter, setter and enumerator returns its code, its error and its
      effects (registration calls, replayed through [Reachable.run_calls],
      and messages sent); [bus_maybe_reply_error] and the reply helpers.
    - [Access] (Module [Access]): [check_access] (lines 271-325) with the
      capability computation of lines 305-311, and the policy of the spec
      it implements.
    - [Callbacks] (Module [Callbacks]): [node_callbacks_run],
      [node_vtable_get_userdata], [vtable_property_get_userdata],
      [method_callbacks_run], [invoke_property_get]/[invoke_property_set]
      with the automatic getter and setter, [property_get_set_callbacks_run]
      and the GetAll functions (lines 34-754).  The error object
      [sd_bus_error] is an [option string], the first error set winning.
    - [Tree] (Module [Tree]): the child-set walk [add_enumerated_to_set],
      [add_subtree_to_set] (fuel one more than the longest path, enough
      because every child is strictly longer than its parent and the walk
      descends one level per call), [get_child_nodes],
      [bus_node_with_object_manager] (fuel the path length, bounding the
      ancestors) and [bus_node_exists].
    - [Introspect] (Module [Introspect]): [process_introspect]; the XML
      writer of bus-introspect.c is a list of items with a rendering.
    - [ObjectManager] (Module [ObjectManager]): GetManagedObjects
      ([object_manager_serialize_path], its fallbacks,
      [process_get_managed_objects]) building the [a{oa{sa{sv}}}] value;
      the loop that reads the stale [r] of lines 1111-1123 is kept.
    - [Signals] (Module [Signals]): the emitters of lines 1939-2383:
      PropertiesChanged ([emit_properties_changed_on_interface], its two
      loops over the vtables and the names, and the restart loop of
      [sd_bus_emit_properties_changed_strv], fuel = passes),
      InterfacesAdded and InterfacesRemoved.  A failed [assert] of the C
      code is the outcome [AssertFailed]; the signals are typed values.
    - [Dispatch] (Module [Dispatch]): [object_find_and_run] (lines
      1152-1271) and [bus_process_object] (lines 1273-1332); the
      [do ... while (bus->nodes_modified)] loop takes the number of passes
      as fuel ([bus_process_object_fuel] returns [None] when it runs out),
      since a handler that registers something at every run restarts it
      for ever; [process_message] adds the iteration counter of bus.c.
    - [DispatchProps] (Module [DispatchProps]): the behaviour of
      [method_callbacks_run] on each of its branches: the handler runs
      once with the vtable's userdata; a wrong signature is answered
      InvalidArgs; a refused caller is answered AccessDenied and nothing
      runs; a [find] that sets an error without failing lets the handler
      run with uninitialised userdata.  A concrete environment
      [example_env] serves the witnesses, which evaluate the model.
    - [Fresh] (Module [Fresh]): what every registration call
      ([api_step]) does to the identities the dispatch bookkeeping reads
      ([fresh_ext]): the iteration counter is unchanged, and every index
      entry and node callback afterwards was there before or belongs to
      a registration allocated by [alloc_id] during the call; callback
      identities stay allocated, distinct in a node's list and at one
      path ([cb_wf]).  Every reachable bus satisfies [bus_ids_wf].
    - [Preserve] (Module [Preserve]): invariants of the engine, generically.
      [dm_pres P x] says the monadic computation [x] keeps the state
      predicate [P]; the tactic [keep_with] composes it through [≫=] and
      the branches of a body.  The record [Preserved P] lists what [P]
      must survive (the state-changing primitives and the effects of
      callbacks); from it every function of the engine keeps [P], the
      two runs of guarded members ([method_callbacks_run],
      [property_get_set_callbacks_run]) being hypotheses of Section
      [Guarded], discharged for predicates every invocation keeps in
      Section [Unguarded].
    - [SingleReply] (Module [SingleReply]): the replies of the dispatch
      (spec property 4).  [replies Q x]: [x] queues at most one message,
      and only with a result in [Q]; it composes through binds with
      [quiet_then] for what follows a reply, and the send-free functions
      are the [Kept] instances of [Preserve] for "the queue is [q]".
      Every engine reply is followed by a non-zero return that every
      caller passes on, so with silent callbacks a pass returning 0, the
      only kind that restarts the loop, queues nothing, and
      [process_message] queues at most one message
      ([process_message_single_reply]).
    - [DispatchLoop] (Module [DispatchLoop]): the whole dispatch of one
      message.  The tree stays unmodified when no callback calls the
      registration API (an instance of [Preserved]), hence one pass of the
      restart loop suffices and more fuel changes nothing
      ([process_message_one_pass]).  In general, once the fuel of the
      restart loop gives a result, more fuel gives the same result and
      state ([process_message_fuel_adequate]): the bound is not
      observable.  A call to a path where nothing is
      registered gets no reply at all ([process_message_unknown_object]),
      where the spec asks for UnknownMethod.
    - [Precedence] (Module [Precedence]): the order of the passes of
      [bus_process_object] end to end (spec property 6).  A method the
      index finds at the exact path, whose handler handles the call, is
      the only callback [process_message] runs
      ([process_message_exact_first], scenario S1); with no node at the
      path, the first prefix with a node answers, a fallback method there
      running after its [find] resolved the full path
      ([process_message_fallback], scenario S3).  A Properties.Get of
      a property registered nowhere, on an object that exists, ends the
      walk with the single reply UnknownProperty
      ([process_message_unknown_property], spec section 4.2, step 5).
      The pass lemmas
      ([process_message_exact_pass], [process_message_prefix_pass],
      [run_prefixes_skip]) compose the dispatch from
      [object_find_and_run] and [method_callbacks_run].
    - [AtMostOnce] (Module [AtMostOnce]): the [last_iteration] marks of
      lines 251-254, 359-362 and 588-591.  The invariant [once_inv it]
      (counter, well-formed identities, every guarded run marked, no run
      twice) is an instance of [Preserved]; the vtable runs keep it
      because they check the mark of the member looked up before the find
      callback ran, the loop over a node's callbacks by the loop
      invariant [cb_pending].  Hence one message runs each node callback,
      handler and setter at most once per registration
      ([process_message_at_most_once]); [restart_env] shows a handler
      that registers an object and returns 0 (two passes, one run), and
      [reregister_env] one that registers its own vtable again and runs
      at every pass, the loop never ending.
    - [IntrospectProps] (Module [IntrospectProps]): Introspect on a
      prefix where nothing answers for the path returns 0 and changes
      nothing ([process_introspect_nonexistent]); on a node with vtables
      it sends one reply whose document writes exactly the vtables that
      are not HIDDEN ([vtable_hidden], line 862), each inside the element
      of its interface ([process_introspect_reply]).
    - [GetAllProps] (Module [GetAllProps]): Properties.GetAll against
      the spec's section 4.5.  [get_all_reference] is the reply the spec
      describes, a pure function of the property store; for properties
      read by the automatic getter the loops of
      [property_get_all_callbacks_run] compute exactly it
      ([property_get_all_auto]).  An interface no vtable has is answered
      UnknownInterface unless it is Properties, Peer or Introspectable
      ([property_get_all_unknown_interface]); ObjectManager, a standard
      interface for the spec, is not exempt.
    - [InterfaceProps] (Module [InterfaceProps]): the Properties and
      ObjectManager interfaces: a Set through the automatic setter then a
      Get through the automatic getter returns the value written; a Set by
      a refused caller writes nothing; [bus_node_with_object_manager]
      decides the ancestor relation [om_ancestor] on a well-formed store
      with its fuel; GetManagedObjects on a childless object manager sends
      nothing because of the stale [r] of lines 1111-1123.
    - [SignalsProps] (Module [SignalsProps]): PropertiesChanged
      partitions the names into changed values and invalidated names
      (scenario S4 of the spec), refuses a name without EMITS_CHANGE with
      -EDOM before sending, and aborts on an INVALIDATE_ONLY property
      when two vtables of the interface share the object;
      InterfacesAdded of an unknown interface returns -ENOENT.
    - [EmitResult] (Module [EmitResult]): the return code of
      [sd_bus_emit_properties_changed_strv] against the messages sent.
      The registration API sends nothing ([api_step_wqueue], in
      [SingleReply]); the loops
      of the emitter keep the queue and never return 1, so with silent
      callbacks a call returns 1 exactly when it sent one
      PropertiesChanged signal and otherwise sent nothing
      ([emit_properties_changed_strv_signal]), which settles the spec's
      open question about -ENOENT after a send.
    - [Scenarios] (Module [Scenarios]): scenario S6 of the spec run end
      to end, registrations through [run_calls] and the call through
      [process_message]: because of the wrong parent links and the stale
      return code of GetManagedObjects, the object manager /root answers
      UnknownMethod instead of listing /root/a and /root/b
      ([s6_get_managed_objects_unknown_method]).

    ** What the theorems show, by group

    - Registration: the invariant [bus_inv] of every reachable bus, the
      type invariant of the registered vtables and of the method index,
      the order of each node's vtables (one interface's vtables adjacent,
      one fallback kind, each registration once), that a removed vtable
      leaves no node or index entry behind, the functional and error
      behaviour of [add_object_vtable_internal], and two defects: the
      wrong parent of [bus_node_allocate] and the index entries a refused
      registration deletes.
    - Access: [check_access] is exactly the spec's policy, and the
      capability a member declares is the one required, up to the 16-bit
      wrap-around of the capability field.
    - Dispatch: each branch of [method_callbacks_run], termination of the
      restart loop in one pass, the missing reply for unknown objects, at
      most one run of each node callback, method handler and property
      setter per message and registration whatever the callbacks
      register, the endless loop of a handler that registers itself
      again, that the fuel of the loop is unobservable, that the exact
      path is served before any fallback, the UnknownProperty answer, and
      that with silent callbacks no pass that restarts the loop has
      queued a reply and a message gets at most one.
    - Introspection: the not-found result on a nonexistent path and the
      reply that describes every interface that is not hidden.
    - Interfaces: the GetAll reply equal to its reference and the
      UnknownInterface answer, the Set/Get round trip of the automatic
      property handlers, the refused Set, the fuel of the object-manager lookup,
      and the missing GetManagedObjects reply.
    - Signals: the S4 partition, the -EDOM and -ENOENT errors, the
      abort of the invalidation loop, and that the emitter's return code
      tells whether its signal was sent.

    ** What is not modelled

    The wire codec (message reader and writer, modelled as typed values:
    rewinding, container errors other than a value of the wrong type, and
    reply allocation are not), transport, credentials acquisition (the
    sender's credentials come from [DispatchEnv]), the introspection XML
    text beyond element names, and allocation failure
    ([-ENOMEM] paths), which the model treats as never happening.  The
    helper functions of the library that live outside src/ (object-path
    validation, [object_path_startswith], the prefix macro, the vtable
    flag constants, [bus_maybe_reply_error], [sd_bus_reply_method_errorf],
    [sd_bus_send], the creds queries, the [process_message] caller in
    bus.c) are modelled from their documented behaviour. *)

From Stdlib Require Export String Ascii ZArith Lia.
From stdpp Require Export base list gmap strings.

Declare Scope sdbus_scope.
Delimit Scope sdbus_scope with sdbus.
Open Scope sdbus_scope.

(** ** errno values returned (negated) by the code *)

Module Errno.
Definition ENOENT : Z := 2.
Definition EIO : Z := 5.
Definition ENXIO : Z := 6.
Definition ECHILD : Z := 10.
Definition ENOMEM : Z := 12.
Definition EACCES : Z := 13.
Definition EEXIST : Z := 17.
Definition EINVAL : Z := 22.
Definition EDOM : Z := 33.
Definition ENODATA : Z := 61.
Definition EPROTOTYPE : Z := 91.
Definition ENOTCONN : Z := 107.
End Errno.

(** ** The intrusive lists of the C code

    [LIST_PREPEND] is [cons].  [LIST_FOREACH ... if (match) break;
    LIST_REMOVE] removes the first element satisfying a test; the model
    returns the removed element with the rest of the list.
    [LIST_INSERT_AFTER(head, a, x)] inserts [x] right after the element [a],
    or at the head when [a] is NULL. *)

Fixpoint list_remove_first {A} (p : A -> bool) (l : list A) : option (A * list A) :=
  match l with
  | [] => None
  | x :: l' =>
      if p x then Some (x, l')
      else match list_remove_first p l' with
           | Some (y, r) => Some (y, x :: r)
           | None => None
           end
  end.

Fixpoint list_insert_after {A} (anchor : A -> bool) (x : A) (l : list A) : list A :=
  match l with
  | [] => [x]
  | y :: l' => if anchor y then y :: x :: l' else y :: list_insert_after anchor x l'
  end.

Definition list_insert_after_opt {A} (anchor : option (A -> bool)) (x : A) (l : list A) : list A :=
  match anchor with
  | None => x :: l
  | Some a => list_insert_after a x l
  end.

(** A nullable pointer is an [option]; [if (p)] tests [nonnull p]. *)
Definition nonnull {A} (o : option A) : bool :=
  match o with Some _ => true | None => false end.

(** ** Generic lemmas on the list operations *)

Create HintDb sdbus.
Create Rewrite HintDb sdbus_rw.

Section ListOps.
  Context {A : Type}.

Lemma list_remove_first_perm (p : A -> bool) l y r :
  list_remove_first p l = Some (y, r) -> l ≡ₚ y :: r.
Proof.
  revert y r. induction l as [|x l IH]; intros y r H; simpl in H; [done|].
  destruct (p x); [by simplify_eq|].
  destruct (list_remove_first p l) as [[y' r']|] eqn:E; simplify_eq.
  rewrite (IH _ _ eq_refl). apply Permutation_swap.
Qed.

Lemma list_remove_first_Some (p : A -> bool) l y r :
  list_remove_first p l = Some (y, r) -> p y = true.
Proof.
  revert y r. induction l as [|x l IH]; intros y r H; simpl in H; [done|].
  destruct (p x) eqn:Hp; [by simplify_eq|].
  destruct (list_remove_first p l) as [[y' r']|] eqn:E; simplify_eq; eauto.
Qed.

Lemma list_remove_first_None (p : A -> bool) l :
  list_remove_first p l = None <-> Forall (fun x => p x = false) l.
Proof.
  induction l as [|x l IH]; simpl; [split; auto|].
  rewrite Forall_cons. destruct (p x) eqn:Hp.
  - split; [done|]. intros [? _]; congruence.
  - destruct (list_remove_first p l) as [[y r]|]; split.
    + done.
    + intros [_ H]. apply IH in H. done.
    + intros _. split; [done|]. by apply IH.
    + done.
Qed.

Lemma list_insert_after_perm (a : A -> bool) x l :
  list_insert_after a x l ≡ₚ x :: l.
Proof.
  induction l as [|y l IH]; simpl; [done|].
  destruct (a y); [apply Permutation_swap|].
  rewrite IH. apply Permutation_swap.
Qed.

Lemma list_insert_after_opt_perm (a : option (A -> bool)) x l :
  list_insert_after_opt a x l ≡ₚ x :: l.
Proof. destruct a; simpl; [apply list_insert_after_perm|done]. Qed.
(** What [list_remove_first] leaves is a sub-multiset of the list. *)
Lemma list_remove_first_submseteq (p : A -> bool) l y r :
  list_remove_first p l = Some (y, r) -> r ⊆+ l.
Proof. intros H. rewrite (list_remove_first_perm p l y r H). by apply submseteq_cons. Qed.

Lemma NoDup_submseteq_l (l k : list A) : l ⊆+ k -> NoDup k -> NoDup l.
Proof.
  intros Hs Hk. destruct (submseteq_Permutation _ _ Hs) as [k' Hp].
  rewrite Hp in Hk. by apply NoDup_app in Hk as [? _].
Qed.

(** [LIST_REMOVE] of the first match: the list splits around it, and
    what is left keeps the order of the others. *)
Lemma list_remove_first_split (p : A -> bool) l y r :
  list_remove_first p l = Some (y, r) ->
  exists l1 l2, l = l1 ++ y :: l2 /\ r = l1 ++ l2 /\ Forall (fun x => p x = false) l1.
Proof.
  revert y r. induction l as [|x l IH]; intros y r H; simpl in H; [done|].
  destruct (p x) eqn:Hp; [simplify_eq; by exists [], r|].
  destruct (list_remove_first p l) as [[y' r']|] eqn:E; simplify_eq.
  destruct (IH _ _ eq_refl) as (l1 & l2 & -> & -> & Hf). exists (x :: l1), l2. auto.
Qed.

Lemma list_remove_first_sublist (p : A -> bool) l y r :
  list_remove_first p l = Some (y, r) -> r `sublist_of` l.
Proof.
  intros (l1 & l2 & -> & -> & _)%list_remove_first_split.
  apply sublist_app; [done|]. by apply sublist_cons.
Qed.

(** [LIST_INSERT_AFTER] puts the element right after the first element
    the anchor test accepts. *)
Lemma list_insert_after_split (a : A -> bool) x l1 y l2 :
  Forall (fun z => a z = false) l1 -> a y = true ->
  list_insert_after a x (l1 ++ y :: l2) = l1 ++ y :: x :: l2.
Proof.
  intros Hf Hy. induction Hf as [|z l1 Hz _ IH]; simpl; [by rewrite Hy|]. by rewrite Hz, IH.
Qed.

End ListOps.

Lemma sublist_fmap {A B} (f : A -> B) (l1 l2 : list A) :
  l1 `sublist_of` l2 -> f <$> l1 `sublist_of` f <$> l2.
Proof. induction 1; simpl; by constructor. Qed.

#[export] Hint Resolve list_remove_first_perm list_insert_after_perm
  list_insert_after_opt_perm : sdbus.

(** ** Shared tactics *)

(** Turn the boolean tests of the code into propositions. *)
Ltac bool_simpl :=
  repeat match goal with
  | H : (_ && _)%bool = true |- _ => apply andb_prop in H as [? ?]
  | H : (_ || _)%bool = false |- _ => apply orb_false_elim in H as [? ?]
  | H : negb _ = true |- _ => apply negb_true_iff in H
  | H : negb _ = false |- _ => apply negb_false_iff in H
  | H : String.eqb _ _ = true |- _ => apply String.eqb_eq in H
  | H : String.eqb _ _ = false |- _ => apply String.eqb_neq in H
  | H : Ascii.eqb _ _ = true |- _ => apply Ascii.eqb_eq in H
  | H : Nat.eqb _ _ = true |- _ => apply Nat.eqb_eq in H
  | H : Nat.eqb _ _ = false |- _ => apply Nat.eqb_neq in H
  | H : Z.eqb _ _ = true |- _ => apply Z.eqb_eq in H
  | H : Z.eqb _ _ = false |- _ => apply Z.eqb_neq in H
  end.

(** A node update [f] keeps the fields a goal [forall n, P (f n) /\ ...]
    asks about (the path and the parent and child links). *)
Ltac fields_kept := intros ?; simpl; split_and!; done.

(** Case on the first [if] or [match] of the goal, naming its equation. *)
Ltac case_if :=
  match goal with
  | |- context [if ?c then _ else _] => let E := fresh "E" in destruct c eqn:E
  end.

(** ** Generic lemmas on strings (C strings are modelled as [string]) *)

(** stdpp declares [append] [simpl never]; the development lets [simpl]
    unfold it on a constructor, and states its two equations. *)
#[global] Arguments String.append : simpl nomatch.

Lemma string_app_nil_l (s : string) : "" +:+ s = s.
Proof. reflexivity. Qed.

Lemma string_app_cons (a : ascii) (s t : string) : String a s +:+ t = String a (s +:+ t).
Proof. reflexivity. Qed.

Lemma string_app_assoc (s1 s2 s3 : string) :
  s1 +:+ (s2 +:+ s3) = (s1 +:+ s2) +:+ s3.
Proof. induction s1 as [|a s1 IH]; [done|]. rewrite !string_app_cons, IH. done. Qed.

Lemma string_app_nil_r (s : string) : s +:+ "" = s.
Proof. induction s as [|a s IH]; [done|]. rewrite string_app_cons, IH. done. Qed.

Lemma string_length_app (s1 s2 : string) :
  String.length (s1 +:+ s2) = String.length s1 + String.length s2.
Proof. induction s1 as [|a s1 IH]; [done|]. rewrite string_app_cons. simpl. by rewrite IH. Qed.

(** [strndup(s, n)] for [n <= strlen(s)] returns the first [n] characters. *)
Lemma substring_app_l (s t : string) :
  substring 0 (String.length s) (s +:+ t) = s.
Proof. induction s as [|a s IH]; [by destruct t|]. rewrite string_app_cons. simpl. by rewrite IH. Qed.

#[export] Hint Rewrite string_app_nil_l string_app_cons string_length_app string_app_nil_r substring_app_l : sdbus_rw.
