(* ===== verification/ObjectPath.v ===== *)
(** * Object paths

    D-Bus object paths as C strings: the validity test
    [object_path_is_valid], the ancestor test [object_path_startswith], the
    prefix walk [OBJECT_PATH_FOREACH_PREFIX] that the dispatcher and the
    signal emitters use to find fallback registrations, and the parent
    computation of [bus_node_allocate] (bus-objects.c).  The first three
    live in bus-internal.[ch], outside src/, and are modelled from their
    documented behaviour; the parent computation is translated from
    bus-objects.c.

    The abstract view of a valid path is its list of segments; the main
    theorems relate the string functions to that view. *)

From S2P Require Import Prelude.

Module ObjectPath.

(** ** String primitives of libc used by the code *)

(** [strrchr(s, c)], as the offset of the last occurrence of [c]. *)
Fixpoint strrchr (c : ascii) (s : string) : option nat :=
  match s with
  | EmptyString => None
  | String a s' =>
      match strrchr c s' with
      | Some k => Some (S k)
      | None => if Ascii.eqb a c then Some 0 else None
      end
  end.

(** [strndup(s, n)] / [strndupa(s, n)]: at most the first [n] characters. *)
Definition strndup (s : string) (n : nat) : string := substring 0 n s.

(** [startswith(s, prefix)]: the rest of [s] after [prefix], if any. *)
Fixpoint startswith (s prefix : string) : option string :=
  match prefix with
  | EmptyString => Some s
  | String c p' =>
      match s with
      | EmptyString => None
      | String d s' => if Ascii.eqb c d then startswith s' p' else None
      end
  end.

(** ** [object_path_is_valid] (bus-internal.c) *)

Definition is_path_char (a : ascii) : bool :=
  let n := nat_of_ascii a in
  ((97 <=? n) && (n <=? 122)) || ((65 <=? n) && (n <=? 90)) ||
  ((48 <=? n) && (n <=? 57)) || (n =? 95).

(** The loop [for (slash = true, q = p+1; *q; q++)] of the C function. *)
Fixpoint path_tail_valid (slash : bool) (q : string) : bool :=
  match q with
  | EmptyString => negb slash
  | String a q' =>
      if Ascii.eqb a "/" then (if slash then false else path_tail_valid true q')
      else if is_path_char a then path_tail_valid false q'
      else false
  end.

Definition object_path_is_valid (p : string) : bool :=
  match p with
  | EmptyString => false
  | String a q =>
      Ascii.eqb a "/" &&
      match q with
      | EmptyString => true
      | _ => path_tail_valid true q
      end
  end.

(** ** [object_path_startswith(a, b)] (bus-internal.c): if [a] is [b] or
    lies below [b], the rest of [a] after [b] and its separator. *)
Definition object_path_startswith (a b : string) : option string :=
  if negb (object_path_is_valid a) || negb (object_path_is_valid b) then None
  else if String.eqb b "/" then
    Some (match a with EmptyString => EmptyString | String _ a' => a' end)
  else
    match startswith a b with
    | None => None
    | Some EmptyString => Some EmptyString
    | Some (String c p') => if Ascii.eqb c "/" then Some p' else None
    end.

(** ** [OBJECT_PATH_FOREACH_PREFIX(prefix, path)] (bus-internal.h)

    The macro copies [path] into [prefix]; while [prefix] is not "/" it cuts
    [prefix] at its last slash (keeping the slash itself when it is the
    first character, [_slash[_slash == prefix] = 0]) and runs the body.  The
    model lists the successive values of [prefix]; each step strictly
    shortens the string, so [String.length path] steps of fuel suffice. *)
Fixpoint object_path_prefixes_fuel (fuel : nat) (prefix : string) : list string :=
  match fuel with
  | O => []
  | S fuel' =>
      if String.eqb prefix "/" then []
      else
        match strrchr "/" prefix with
        | None => []
        | Some k =>
            let p' := strndup prefix (if k =? 0 then 1 else k) in
            p' :: object_path_prefixes_fuel fuel' p'
        end
  end.

Definition object_path_prefixes (path : string) : list string :=
  object_path_prefixes_fuel (String.length path) path.

(** ** The parent path computed by [bus_node_allocate]

    [e = strrchr(path, '/'); p = strndupa(path, MAX(1, path - e));]
    The offset [path - e] is a [ptrdiff_t]; it is minus the offset of the
    last slash, never positive, so [MAX(1, path - e)] is always 1. *)
Definition ptr_diff (a b : nat) : Z := (Z.of_nat a - Z.of_nat b)%Z.

Definition node_parent_path (path : string) : option string :=
  if String.eqb path "/" then None
  else
    match strrchr "/" path with
    | None => None
    | Some e => Some (strndup path (Z.to_nat (Z.max 1 (ptr_diff 0 e))))
    end.

(** ** The abstract view: a valid path is a list of segments *)

Definition segment_valid (s : string) : bool :=
  match s with
  | EmptyString => false
  | _ => forallb is_path_char (list_ascii_of_string s)
  end.

Fixpoint segments_join (segs : list string) : string :=
  match segs with
  | [] => EmptyString
  | s :: segs' => String "/" (s +:+ segments_join segs')
  end.

Definition path_of_segments (segs : list string) : string :=
  match segs with
  | [] => "/"
  | _ => segments_join segs
  end.

(** The strict ancestors of a segment list, nearest first. *)
Definition segment_ancestors (segs : list string) : list (list string) :=
  map (fun k => take k segs) (reverse (seq 0 (length segs))).

(** ** Lemmas on the string primitives *)

Lemma strrchr_Some c s k :
  strrchr c s = Some k -> k < String.length s /\ String.get k s = Some c.
Proof.
  revert k. induction s as [|a s IH]; intros k H; simpl in H; [done|].
  destruct (strrchr c s) as [k'|] eqn:E.
  - injection H as <-. destruct (IH k' eq_refl). simpl. split; [lia|done].
  - destruct (Ascii.eqb a c) eqn:Ea; [|done]. injection H as <-.
    apply Ascii.eqb_eq in Ea as ->. simpl. split; [lia|done].
Qed.

Lemma strrchr_app c s t :
  strrchr c (s +:+ t) =
  match strrchr c t with
  | Some k => Some (String.length s + k)
  | None => strrchr c s
  end.
Proof.
  induction s as [|a s IH]; simpl; [by destruct (strrchr c t)|].
  rewrite IH. by destruct (strrchr c t).
Qed.

Lemma strndup_length s n : String.length (strndup s n) = Nat.min n (String.length s).
Proof.
  unfold strndup. revert n. induction s as [|a s IH]; intros [|n]; simpl; try done.
  by rewrite IH.
Qed.

Lemma strndup_1 a s : strndup (String a s) 1 = String a "".
Proof. by destruct s. Qed.

Lemma strndup_app s t : strndup (s +:+ t) (String.length s) = s.
Proof. apply substring_app_l. Qed.

(** A segment has no slash, so [strrchr] finds none. *)
Lemma segment_no_slash s :
  forallb is_path_char (list_ascii_of_string s) = true -> strrchr "/" s = None.
Proof.
  induction s as [|a s IH]; simpl; [done|]. intros H. bool_simpl.
  rewrite IH by done. destruct (Ascii.eqb a "/") eqn:E; [|done].
  apply Ascii.eqb_eq in E as ->. done.
Qed.

Lemma segment_valid_chars s :
  segment_valid s = true -> forallb is_path_char (list_ascii_of_string s) = true.
Proof. by destruct s. Qed.

(** ** Fuel: each step of the prefix walk shortens the prefix *)

Lemma object_path_prefixes_step_shorter p k :
  String.eqb p "/" = false -> strrchr "/" p = Some k ->
  String.length (strndup p (if k =? 0 then 1 else k)) < String.length p.
Proof.
  intros Hp Hk. apply strrchr_Some in Hk as [Hlt Hget].
  rewrite strndup_length. destruct (Nat.eqb_spec k 0) as [->|]; [|lia].
  destruct p as [|a [|b q]]; simpl in *; try lia.
  injection Hget as ->. done.
Qed.

Lemma object_path_prefixes_fuel_enough f1 f2 p :
  String.length p <= f1 -> String.length p <= f2 ->
  object_path_prefixes_fuel f1 p = object_path_prefixes_fuel f2 p.
Proof.
  revert f2 p. induction f1 as [|f1 IH]; intros f2 p H1 H2.
  - destruct p; simpl in *; [|lia]. by destruct f2.
  - destruct f2 as [|f2].
    + destruct p; simpl in *; [done|lia].
    + simpl. destruct (String.eqb p "/") eqn:Ep; [done|].
      destruct (strrchr "/" p) as [k|] eqn:Ek; [|done].
      pose proof (object_path_prefixes_step_shorter p k Ep Ek).
      f_equal. apply IH; lia.
Qed.

(** The walk takes one step, from [p] to [p'], and continues from [p']. *)
Lemma object_path_prefixes_unfold p k :
  String.eqb p "/" = false -> strrchr "/" p = Some k ->
  object_path_prefixes p =
    strndup p (if k =? 0 then 1 else k) ::
    object_path_prefixes (strndup p (if k =? 0 then 1 else k)).
Proof.
  intros Hp Hk. pose proof (object_path_prefixes_step_shorter p k Hp Hk) as Hs.
  unfold object_path_prefixes.
  destruct (String.length p) as [|n] eqn:Hn; [lia|].
  cbn [object_path_prefixes_fuel]. rewrite Hp, Hk. f_equal.
  apply object_path_prefixes_fuel_enough; lia.
Qed.

(** ** Segment lists *)

Lemma segments_join_app segs x :
  segments_join (segs ++ [x]) = segments_join segs +:+ String "/" x.
Proof.
  induction segs as [|s segs IH]; simpl; [by rewrite string_app_nil_r|].
  rewrite IH, string_app_assoc. done.
Qed.

Lemma path_of_segments_snoc segs x :
  segs <> [] -> path_of_segments (segs ++ [x]) = path_of_segments segs +:+ String "/" x.
Proof.
  intros Hne. unfold path_of_segments. destruct segs; [done|].
  rewrite <- segments_join_app. done.
Qed.

Lemma path_of_segments_length segs :
  segs <> [] -> Forall (fun s => segment_valid s = true) segs ->
  2 <= String.length (path_of_segments segs).
Proof.
  intros Hne Hv. destruct segs as [|s segs]; [done|]. inversion Hv; subst.
  destruct s; [done|]. simpl. lia.
Qed.

Lemma segment_ancestors_snoc segs x :
  segment_ancestors (segs ++ [x]) = segs :: segment_ancestors segs.
Proof.
  unfold segment_ancestors. rewrite length_app. simpl.
  rewrite Nat.add_1_r, seq_S, reverse_snoc. simpl.
  rewrite take_app_length. f_equal. apply map_ext_in.
  intros k Hk. apply list_elem_of_In, elem_of_reverse, elem_of_seq in Hk.
  rewrite take_app_le by lia. done.
Qed.

Lemma object_path_prefixes_snoc segs x :
  segment_valid x = true ->
  Forall (fun s => segment_valid s = true) segs ->
  object_path_prefixes (path_of_segments (segs ++ [x])) =
    path_of_segments segs :: object_path_prefixes (path_of_segments segs).
Proof.
  intros Hx Hv. pose proof (segment_no_slash x (segment_valid_chars x Hx)) as Hns.
  assert (Hslash : strrchr "/" (String "/" x) = Some 0) by (simpl; by rewrite Hns).
  destruct (decide (segs = [])) as [->|Hne].
  - simpl. rewrite string_app_nil_r.
    rewrite (object_path_prefixes_unfold _ 0); [by rewrite strndup_1| |done].
    destruct x; [done|]. done.
  - pose proof (path_of_segments_length segs Hne Hv) as Hlen.
    rewrite path_of_segments_snoc by done.
    assert (Hk : strrchr "/" (path_of_segments segs +:+ String "/" x) =
                 Some (String.length (path_of_segments segs))).
    { rewrite strrchr_app, Hslash. f_equal. lia. }
    assert (Hp : String.eqb (path_of_segments segs +:+ String "/" x) "/" = false).
    { apply String.eqb_neq. intros Heq.
      apply (f_equal String.length) in Heq. rewrite string_length_app in Heq.
      simpl in Heq. lia. }
    rewrite (object_path_prefixes_unfold _ _ Hp Hk).
    destruct (Nat.eqb_spec (String.length (path_of_segments segs)) 0); [lia|].
    by rewrite strndup_app.
Qed.

(** ** Validity of a path is the segment-list shape *)

Lemma path_tail_valid_chars w r :
  forallb is_path_char (list_ascii_of_string w) = true ->
  path_tail_valid false (w +:+ r) = path_tail_valid false r.
Proof.
  induction w as [|a w IH]; intros Hw; [done|]. simpl in *. bool_simpl.
  destruct (Ascii.eqb a "/") eqn:E.
  - apply Ascii.eqb_eq in E as ->. done.
  - rewrite H. by apply IH.
Qed.

Lemma path_tail_valid_segment b w r :
  segment_valid w = true -> path_tail_valid b (w +:+ r) = path_tail_valid false r.
Proof.
  destruct w as [|a w]; intros Hw; [done|]. simpl in *. bool_simpl.
  destruct (Ascii.eqb a "/") eqn:E.
  - apply Ascii.eqb_eq in E as ->. done.
  - rewrite H. by apply path_tail_valid_chars.
Qed.

Lemma path_tail_valid_join segs :
  Forall (fun s => segment_valid s = true) segs ->
  path_tail_valid false (segments_join segs) = true.
Proof.
  induction 1 as [|s segs Hs _ IH]; [done|]. simpl.
  by rewrite path_tail_valid_segment.
Qed.

Lemma path_tail_valid_inv b q :
  path_tail_valid b q = true ->
  exists w segs,
    forallb is_path_char (list_ascii_of_string w) = true /\
    (b = true -> w <> EmptyString) /\
    Forall (fun s => segment_valid s = true) segs /\
    q = w +:+ segments_join segs.
Proof.
  revert b. induction q as [|a q IH]; intros b H; simpl in H.
  - exists EmptyString, []. destruct b; done.
  - destruct (Ascii.eqb a "/") eqn:Ea.
    + destruct b; [done|]. apply Ascii.eqb_eq in Ea as ->.
      destruct (IH true H) as (w & segs & Hw & Hne & Hv & ->).
      exists EmptyString, (w :: segs). repeat split; [done|].
      constructor; [|done]. destruct w; [by destruct Hne|done].
    + destruct (is_path_char a) eqn:Hc; [|done].
      destruct (IH false H) as (w & segs & Hw & _ & Hv & ->).
      exists (String a w), segs. simpl. rewrite Hc, Hw. done.
Qed.

(** [object_path_is_valid] accepts exactly the paths built from valid
    segments. *)
Lemma object_path_is_valid_segments p :
  object_path_is_valid p = true <->
  exists segs, Forall (fun s => segment_valid s = true) segs /\ p = path_of_segments segs.
Proof.
  split.
  - destruct p as [|a q]; [done|]. simpl. intros H.
    apply andb_prop in H as [Ha Hq]. apply Ascii.eqb_eq in Ha as ->.
    destruct q as [|c q']; [by exists []|].
    destruct (path_tail_valid_inv true (String c q') Hq)
      as (w & segs & Hw & Hne & Hv & Heq).
    exists (w :: segs). split.
    + constructor; [|done]. destruct w; [by destruct Hne|done].
    + simpl. by rewrite Heq.
  - intros (segs & Hv & ->). destruct Hv as [|s segs Hs Hv]; [done|].
    destruct s as [|c s']; [done|].
    change (path_tail_valid true (String c s' +:+ segments_join segs) = true).
    rewrite path_tail_valid_segment by done.
    by apply path_tail_valid_join.
Qed.

Lemma segments_join_app_all a b :
  segments_join (a ++ b) = segments_join a +:+ segments_join b.
Proof.
  induction a as [|s a IH]; [done|]. simpl. by rewrite IH, string_app_assoc.
Qed.

Lemma path_of_segments_take_shorter segs k :
  Forall (fun s => segment_valid s = true) segs -> k < length segs ->
  String.length (path_of_segments (take k segs)) < String.length (path_of_segments segs).
Proof.
  intros Hv Hk. assert (Hne : segs <> []) by (intros ->; simpl in Hk; lia).
  pose proof (path_of_segments_length segs Hne Hv).
  destruct k as [|k]; [simpl; lia|].
  assert (Hd : drop (S k) segs <> []).
  { intros Hd. apply (f_equal length) in Hd. rewrite length_drop in Hd. simpl in Hd. lia. }
  rewrite <- (take_drop (S k) segs) at 2.
  destruct segs as [|s segs]; [done|]. simpl take. simpl drop in *.
  destruct (drop k segs) as [|t r]; [done|].
  cbn [path_of_segments app].
  cbn [segments_join]. rewrite segments_join_app_all.
  cbn [segments_join]. simpl String.length. rewrite !string_length_app. simpl. lia.
Qed.

(** ** Theorems *)

(** The prefix walk on a path given by its segments. *)
Lemma object_path_prefixes_segments segs :
  Forall (fun s => segment_valid s = true) segs ->
  object_path_prefixes (path_of_segments segs) =
    map path_of_segments (segment_ancestors segs).
Proof.
  induction segs as [|x segs IH] using rev_ind; intros Hv; [done|].
  apply Forall_app in Hv as [Hv Hx]. inversion Hx; subst.
  rewrite object_path_prefixes_snoc, segment_ancestors_snoc by done.
  simpl. by rewrite IH.
Qed.

Lemma segment_ancestors_bounded segs :
  Forall (fun s => segment_valid s = true) segs ->
  Forall (fun q => object_path_is_valid q = true /\ String.length q < String.length (path_of_segments segs))
    (map path_of_segments (segment_ancestors segs)).
Proof.
  intros Hv. apply Forall_forall. intros q Hq. unfold segment_ancestors in Hq.
  rewrite map_map in Hq. apply list_elem_of_In, in_map_iff in Hq as (k & <- & Hk).
  apply list_elem_of_In, elem_of_reverse, elem_of_seq in Hk. split.
  - apply object_path_is_valid_segments. exists (take k segs).
    split; [by apply Forall_take|done].
  - apply path_of_segments_take_shorter; [done|lia].
Qed.

Lemma strrchr_head c s : exists k, strrchr c (String c s) = Some k.
Proof.
  simpl. destruct (strrchr c s); [by eexists|]. rewrite Ascii.eqb_refl. by eexists.
Qed.

(** The parent [bus_node_allocate] computes for a valid path other than
    "/": [MAX(1, path - e)] is always 1. *)
Lemma node_parent_path_root p :
  object_path_is_valid p = true -> p <> "/" -> node_parent_path p = Some "/".
Proof.
  intros Hv Hne. destruct p as [|a q]; [done|]. simpl in Hv.
  apply andb_prop in Hv as [Ha _]. apply Ascii.eqb_eq in Ha as ->.
  unfold node_parent_path. rewrite (proj2 (String.eqb_neq _ _) Hne).
  destruct (strrchr_head "/" q) as [e ->]. unfold ptr_diff.
  rewrite Z.max_l by lia. by rewrite strndup_1.
Qed.

(** What the store needs of the parent computation: the root has no
    parent, every other valid path has a valid, strictly shorter one. *)
Lemma node_parent_path_spec p :
  object_path_is_valid p = true ->
  match node_parent_path p with
  | None => p = "/"
  | Some q => object_path_is_valid q = true /\ String.length q < String.length p
  end.
Proof.
  intros Hv. destruct (decide (p = "/")) as [->|Hne]; [done|].
  rewrite node_parent_path_root by done. split; [done|].
  apply object_path_is_valid_segments in Hv as (segs & Hs & ->).
  destruct segs as [|s segs]; [done|].
  pose proof (path_of_segments_length (s :: segs) ltac:(done) Hs). simpl String.length at 1; lia.
Qed.

(** ** Properties *)

(** C?: refinement and termination of the prefix walk
    [OBJECT_PATH_FOREACH_PREFIX].  A valid path is made of valid segments;
    the walk visits exactly the strict ancestors of the path, nearest
    first, ending at "/", one per segment; each is a valid object path
    strictly shorter than the path. *)
Theorem object_path_prefixes_correct p :
  object_path_is_valid p = true ->
  exists segs, Forall (fun s => segment_valid s = true) segs /\ p = path_of_segments segs /\
    object_path_prefixes p = map path_of_segments (segment_ancestors segs) /\
    length (object_path_prefixes p) = length segs /\
    Forall (fun q => object_path_is_valid q = true /\ String.length q < String.length p)
      (object_path_prefixes p).
Proof.
  intros (segs & Hv & ->)%object_path_is_valid_segments. exists segs.
  rewrite object_path_prefixes_segments by done. split_and!; try done.
  - unfold segment_ancestors. by rewrite !length_map, length_reverse, length_seq.
  - by apply segment_ancestors_bounded.
Qed.

Lemma object_path_prefixes_correct_witness :
  object_path_is_valid "/a/b/c" = true /\ object_path_prefixes "/a/b/c" = ["/a/b"; "/a"; "/"] /\
  exists segs, Forall (fun s => segment_valid s = true) segs /\ "/a/b/c" = path_of_segments segs /\
    object_path_prefixes "/a/b/c" = map path_of_segments (segment_ancestors segs) /\
    length (object_path_prefixes "/a/b/c") = length segs /\
    Forall (fun q => object_path_is_valid q = true /\ String.length q < String.length "/a/b/c")
      (object_path_prefixes "/a/b/c").
Proof.
  split; [reflexivity|]. split; [reflexivity|].
  exact (object_path_prefixes_correct "/a/b/c" eq_refl).
Defined.

(** C9: the parent [bus_node_allocate] links a new node under is wrong at
    every depth below the first: for a path of two or more valid segments
    the code computes "/" ([MAX(1, path - e)] takes the pointer difference
    in the wrong order, so it is never more than 1), never the path
    without its last segment (spec section 3: "/a/b" belongs under "/a"). *)
Theorem node_parent_path_wrong segs :
  Forall (fun s => segment_valid s = true) segs -> 2 <= length segs ->
  node_parent_path (path_of_segments segs) = Some "/" /\
  node_parent_path (path_of_segments segs) <> Some (path_of_segments (removelast segs)).
Proof.
  intros Hv Hlen.
  assert (Hne : forall l, l <> [] -> Forall (fun s => segment_valid s = true) l ->
            path_of_segments l <> "/").
  { intros l Hl Hl' Heq. pose proof (path_of_segments_length l Hl Hl') as Hle.
    rewrite Heq in Hle. simpl in Hle. lia. }
  rewrite node_parent_path_root.
  - split; [done|]. intros [= Heq]. symmetry in Heq. revert Heq. apply Hne.
    + destruct segs as [|? [|? ?]]; simpl in *; [lia|lia|done].
    + rewrite (app_removelast_last "" (l:=segs)) in Hv by (intros ->; simpl in *; lia).
      by apply Forall_app in Hv as [? _].
  - apply object_path_is_valid_segments. by exists segs.
  - apply Hne; [intros ->; simpl in *; lia|done].
Qed.

Lemma node_parent_path_wrong_witness :
  Forall (fun s => segment_valid s = true) ["a"; "b"] /\ 2 <= length ["a"; "b"] /\
  node_parent_path "/a/b" = Some "/" /\ node_parent_path "/a/b" <> Some "/a".
Proof.
  split; [repeat constructor|]. split; [simpl; lia|].
  exact (node_parent_path_wrong ["a"; "b"] ltac:(repeat constructor) ltac:(simpl; lia)).
Defined.

End ObjectPath.
