(* ===== verification/Vtable.v ===== *)
(** * Vtables: entries, flag words, the capability field, validation

    A vtable is the caller-owned array of [sd_bus_vtable] entries that
    describes one interface: a START entry, METHOD / PROPERTY /
    WRITABLE_PROPERTY / SIGNAL entries, and an END entry.  This file holds
    - the flag bits and the capability field of the 64-bit flag word
      (sd-bus-vtable.h, outside src/: modelled from its documented layout)
      and the [CAPABILITY_SHIFT] macro of bus-objects.c;
    - the entry type, one constructor per entry kind;
    - the name and signature validators the code calls
      ([member_name_is_valid], [signature_is_valid], ...), as the
      [BusValidators] interface with the library's implementation as an
      instance (bus-signature.c, bus-type.c, bus-internal.c, outside src/);
    - the per-entry guards of [add_object_vtable_internal]. *)

From S2P Require Import Prelude.

Module Vtable.

(** ** Flag word (sd-bus-vtable.h) *)

Definition SD_BUS_VTABLE_DEPRECATED : Z := Z.shiftl 1 0.
Definition SD_BUS_VTABLE_HIDDEN : Z := Z.shiftl 1 1.
Definition SD_BUS_VTABLE_UNPRIVILEGED : Z := Z.shiftl 1 2.
Definition SD_BUS_VTABLE_METHOD_NO_REPLY : Z := Z.shiftl 1 3.
Definition SD_BUS_VTABLE_PROPERTY_CONST : Z := Z.shiftl 1 4.
Definition SD_BUS_VTABLE_PROPERTY_EMITS_CHANGE : Z := Z.shiftl 1 5.
Definition SD_BUS_VTABLE_PROPERTY_INVALIDATE_ONLY : Z := Z.shiftl 1 6.
Definition _SD_BUS_VTABLE_CAPABILITY_MASK : Z := Z.shiftl 0xFFFF 40.

(** [SD_BUS_VTABLE_CAPABILITY(x)]: capability number plus one, in the
    16-bit field at bit 40; 0 there means "the interface default". *)
Definition SD_BUS_VTABLE_CAPABILITY (cap : Z) : Z :=
  Z.shiftl (Z.land (cap + 1) 0xFFFF) 40.

Definition flag_set (flags bit : Z) : bool := negb (Z.land flags bit =? 0)%Z.

(** [__builtin_ctzll(x)] for a non-zero 64-bit [x]. *)
Fixpoint ctz_fuel (fuel : nat) (x : Z) : Z :=
  match fuel with
  | O => 0
  | S f => if Z.testbit x 0 then 0 else 1 + ctz_fuel f (Z.shiftr x 1)
  end.

Definition ctzll (x : Z) : Z := ctz_fuel 64 x.

(** [#define CAPABILITY_SHIFT(x) (((x) >> __builtin_ctzll(MASK)) & 0xFFFF)] *)
Definition CAPABILITY_SHIFT (x : Z) : Z :=
  Z.land (Z.shiftr x (ctzll _SD_BUS_VTABLE_CAPABILITY_MASK)) 0xFFFF.

(** ** Entries *)

(** Function pointers of the vtable (method handlers, property getters and
    setters) are opaque references, compared by identity. *)
Definition fn_ref := nat.

Inductive sd_bus_vtable :=
| VtableStart (flags : Z) (element_size : Z)
| VtableMethod (flags : Z) (member signature result : string) (handler : option fn_ref)
| VtableSignal (flags : Z) (member signature : string)
| VtableProperty (flags : Z) (member signature : string) (get : option fn_ref) (offset : Z)
| VtableWritableProperty (flags : Z) (member signature : string)
    (get set : option fn_ref) (offset : Z)
| VtableEnd.

Definition vt_flags (v : sd_bus_vtable) : Z :=
  match v with
  | VtableStart f _ | VtableMethod f _ _ _ _ | VtableSignal f _ _
  | VtableProperty f _ _ _ _ | VtableWritableProperty f _ _ _ _ _ => f
  | VtableEnd => 0
  end.

Definition is_end (v : sd_bus_vtable) : bool :=
  match v with VtableEnd => true | _ => false end.

(** [for (v = c->vtable+1; v->type != _SD_BUS_VTABLE_END; v++)]: the
    entries after START, up to END. *)
Fixpoint until_end (l : list sd_bus_vtable) : list sd_bus_vtable :=
  match l with
  | [] => []
  | v :: l' => if is_end v then [] else v :: until_end l'
  end.

Definition vtable_body (vt : list sd_bus_vtable) : list sd_bus_vtable :=
  until_end (drop 1 vt).

(** The member an entry serves in the method index or the property index. *)
Definition method_member (v : sd_bus_vtable) : option string :=
  match v with VtableMethod _ m _ _ _ => Some m | _ => None end.

Definition property_member (v : sd_bus_vtable) : option string :=
  match v with
  | VtableProperty _ m _ _ _ | VtableWritableProperty _ m _ _ _ _ => Some m
  | _ => None
  end.

(** [sizeof(struct sd_bus_vtable)] on LP64: type and padding, the flag
    word, and the largest member of the union (the property record). *)
Definition sizeof_sd_bus_vtable : Z := 56.

(** ** The validators the code calls *)

Class BusValidators := {
  member_name_is_valid : string -> bool;
  interface_name_is_valid : string -> bool;
  signature_is_valid : string -> bool;   (** [signature_is_valid(s, false)] *)
  signature_is_single : string -> bool;  (** [signature_is_single(s, false)] *)
  bus_type_is_basic : ascii -> bool
}.

(** [bus_type_is_basic(c)]: the first character of the signature; an
    empty string has [NUL] there, which is not basic. *)
Definition first_char (s : string) : ascii :=
  match s with EmptyString => "000"%char | String c _ => c end.

(** ** The library's validators (bus-type.c, bus-signature.c, bus-internal.c) *)

Definition char_in (c : ascii) (set : string) : bool :=
  existsb (Ascii.eqb c) (list_ascii_of_string set).

Definition is_basic_type_char (c : ascii) : bool := char_in c "ybnqiuxtdsogh".

Definition char_between (c lo hi : ascii) : bool :=
  (nat_of_ascii lo <=? nat_of_ascii c) && (nat_of_ascii c <=? nat_of_ascii hi).

Definition is_alpha_ (c : ascii) : bool :=
  char_between c "a" "z" || char_between c "A" "Z" || Ascii.eqb c "_".

Definition is_digit (c : ascii) : bool := char_between c "0" "9".

(** One complete type at the head of a signature; the rest after it. *)
Fixpoint parse_complete_type (fuel : nat) (s : list ascii) : option (list ascii) :=
  match fuel with
  | O => None
  | S f =>
      match s with
      | [] => None
      | c :: r =>
          if is_basic_type_char c || Ascii.eqb c "v" then Some r
          else if Ascii.eqb c "a" then
            match r with
            | k :: r1 =>
                if Ascii.eqb k "{" then
                  match r1 with
                  | key :: r2 =>
                      if is_basic_type_char key then
                        match parse_complete_type f r2 with
                        | Some (e :: r3) => if Ascii.eqb e "}" then Some r3 else None
                        | _ => None
                        end
                      else None
                  | [] => None
                  end
                else parse_complete_type f r
            | [] => None
            end
          else if Ascii.eqb c "(" then
            match parse_complete_type f r with
            | Some r1 => parse_struct_rest f r1
            | None => None
            end
          else None
      end
  end
with parse_struct_rest (fuel : nat) (s : list ascii) : option (list ascii) :=
  match fuel with
  | O => None
  | S f =>
      match s with
      | c :: r =>
          if Ascii.eqb c ")" then Some r
          else match parse_complete_type f s with
               | Some r1 => parse_struct_rest f r1
               | None => None
               end
      | [] => None
      end
  end.

Fixpoint parse_complete_types (fuel : nat) (s : list ascii) : bool :=
  match s with
  | [] => true
  | _ =>
      match fuel with
      | O => false
      | S f =>
          match parse_complete_type (S (length s)) s with
          | Some r => parse_complete_types f r
          | None => false
          end
      end
  end.

Definition lib_signature_is_single (s : string) : bool :=
  let l := list_ascii_of_string s in
  match parse_complete_type (S (length l)) l with Some [] => true | _ => false end.

Definition lib_signature_is_valid (s : string) : bool :=
  let l := list_ascii_of_string s in
  (length l <=? 255) && parse_complete_types (length l) l.

Definition lib_member_name_is_valid (p : string) : bool :=
  let l := list_ascii_of_string p in
  match l with
  | [] => false
  | c :: _ =>
      forallb (fun q => is_alpha_ q || is_digit q) l && negb (is_digit c) &&
      (length l <=? 255)
  end.

(** The loop of [interface_name_is_valid]: [dot] is true at the start of an
    element; the result is whether the rest is valid and the name had a
    dot. *)
Fixpoint interface_name_loop (dot found_dot : bool) (q : list ascii) : bool :=
  match q with
  | [] => negb dot && found_dot
  | c :: q' =>
      if Ascii.eqb c "." then (if dot then false else interface_name_loop true true q')
      else if is_alpha_ c || (negb dot && is_digit c) then interface_name_loop false found_dot q'
      else false
  end.

Definition lib_interface_name_is_valid (p : string) : bool :=
  let l := list_ascii_of_string p in
  match l with
  | [] => false
  | _ => interface_name_loop true false l && (length l <=? 255)
  end.

#[export] Instance lib_validators : BusValidators := {
  member_name_is_valid := lib_member_name_is_valid;
  interface_name_is_valid := lib_interface_name_is_valid;
  signature_is_valid := lib_signature_is_valid;
  signature_is_single := lib_signature_is_single;
  bus_type_is_basic := is_basic_type_char
}.

(** ** The per-entry guards of [add_object_vtable_internal] *)

Section EntryChecks.
  Context `{BusValidators}.

Definition isempty (s : string) : bool := String.eqb s "".

(** The condition of the [_SD_BUS_VTABLE_METHOD] case: the entry is
    accepted when it holds. *)
Definition method_entry_ok (flags : Z) (member signature result : string)
    (handler : option fn_ref) : bool :=
  member_name_is_valid member && signature_is_valid signature &&
  signature_is_valid result &&
  (nonnull handler || (isempty signature && isempty result)) &&
  negb (flag_set flags (Z.lor SD_BUS_VTABLE_PROPERTY_EMITS_CHANGE
                               SD_BUS_VTABLE_PROPERTY_INVALIDATE_ONLY)).

(** The condition of the [_SD_BUS_VTABLE_PROPERTY] case, which the
    writable case falls through to; [writable] is
    [v->type == _SD_BUS_VTABLE_WRITABLE_PROPERTY]. *)
Definition property_entry_ok (writable : bool) (flags : Z) (member signature : string)
    (get : option fn_ref) : bool :=
  member_name_is_valid member && signature_is_single signature &&
  (nonnull get || bus_type_is_basic (first_char signature) ||
   String.eqb signature "as") &&
  negb (flag_set flags SD_BUS_VTABLE_METHOD_NO_REPLY) &&
  negb (flag_set flags SD_BUS_VTABLE_PROPERTY_INVALIDATE_ONLY &&
        negb (flag_set flags SD_BUS_VTABLE_PROPERTY_EMITS_CHANGE)) &&
  negb (flag_set flags SD_BUS_VTABLE_UNPRIVILEGED && negb writable).

(** The switch over one entry of the body: [true] when the entry passes
    every check of its case, [false] when the code jumps to [fail] with
    [-EINVAL] (the [default] case included). *)
Definition vtable_entry_ok (v : sd_bus_vtable) : bool :=
  match v with
  | VtableMethod flags member sig res handler =>
      method_entry_ok flags member sig res handler
  | VtableWritableProperty flags member sig get set _ =>
      (nonnull set || bus_type_is_basic (first_char sig)) &&
      property_entry_ok true flags member sig get
  | VtableProperty flags member sig get _ =>
      property_entry_ok false flags member sig get
  | VtableSignal flags member sig =>
      member_name_is_valid member && signature_is_valid sig &&
      negb (flag_set flags SD_BUS_VTABLE_UNPRIVILEGED)
  | VtableStart _ _ | VtableEnd => false
  end.
End EntryChecks.

(** ** The capability field *)

Lemma ctzll_capability_mask : ctzll _SD_BUS_VTABLE_CAPABILITY_MASK = 40%Z.
Proof. reflexivity. Qed.

Lemma CAPABILITY_SHIFT_eq x : CAPABILITY_SHIFT x = (Z.shiftr x 40 mod 2 ^ 16)%Z.
Proof.
  unfold CAPABILITY_SHIFT. rewrite ctzll_capability_mask.
  change 0xFFFF%Z with (Z.ones 16). by rewrite Z.land_ones by lia.
Qed.


(** Encoding round trip.  Decoding a flag word whose low 40 bits hold
    ordinary flags and whose capability field was written with
    [SD_BUS_VTABLE_CAPABILITY(cap)] gives back [cap + 1] modulo 2^16: the
    number is kept for every capability below 0xFFFF, and 0xFFFF wraps to
    0, the "interface default". *)
Theorem CAPABILITY_SHIFT_roundtrip flags cap :
  (0 <= flags < 2 ^ 40)%Z ->
  CAPABILITY_SHIFT (Z.lor flags (SD_BUS_VTABLE_CAPABILITY cap)) = ((cap + 1) mod 2 ^ 16)%Z.
Proof.
  intros Hf. rewrite CAPABILITY_SHIFT_eq. unfold SD_BUS_VTABLE_CAPABILITY.
  rewrite Z.shiftr_lor, Z.shiftr_shiftl_r, Z.sub_diag, Z.shiftr_0_r by lia.
  rewrite (Z.shiftr_div_pow2 flags), Z.div_small, Z.lor_0_l by lia.
  change 0xFFFF%Z with (Z.ones 16). rewrite Z.land_ones by lia.
  apply Z.mod_mod. lia.
Qed.

End Vtable.
