(* ===== verification/Message.v ===== *)
(** * Messages

    The engine calls the wire codec through the [sd_bus_message] API
    (bus-message.c, outside src/).  The model keeps what the engine reads
    and writes: the header fields (type, serial, path, interface, member,
    error name, reply serial) and the body as a list of typed values, whose
    signature is computed from the values, so that the signature the
    engine compares and the arguments it reads never disagree. *)

From S2P Require Import Prelude.

Module Message.

Inductive dvalue :=
| DByte (z : Z)
| DBool (b : bool)
| DInt16 (z : Z)
| DUInt16 (z : Z)
| DInt32 (z : Z)
| DUInt32 (z : Z)
| DInt64 (z : Z)
| DUInt64 (z : Z)
| DDouble (bits : Z)
| DUnixFd (z : Z)
| DString (s : string)
| DObjectPath (s : string)
| DSignature (s : string)
| DStrv (l : list string)
| DVariant (v : dvalue)
| DArray (elem_sig : string) (l : list dvalue)
| DDictEntry (k v : dvalue).

(** The signature character(s) of a value. *)
Fixpoint dvalue_signature (v : dvalue) : string :=
  match v with
  | DByte _ => "y" | DBool _ => "b" | DInt16 _ => "n" | DUInt16 _ => "q"
  | DInt32 _ => "i" | DUInt32 _ => "u" | DInt64 _ => "x" | DUInt64 _ => "t"
  | DDouble _ => "d" | DUnixFd _ => "h" | DString _ => "s" | DObjectPath _ => "o"
  | DSignature _ => "g" | DStrv _ => "as" | DVariant _ => "v"
  | DArray sig _ => "a" +:+ sig
  | DDictEntry k v => "{" +:+ dvalue_signature k +:+ dvalue_signature v +:+ "}"
  end%string.

Fixpoint body_signature (body : list dvalue) : string :=
  match body with
  | [] => ""
  | v :: body' => dvalue_signature v +:+ body_signature body'
  end.

Inductive message_type := METHOD_CALL | METHOD_RETURN | METHOD_ERROR | SIGNAL.

#[export] Instance message_type_eq_dec : EqDecision message_type.
Proof. solve_decision. Defined.

Record sd_bus_message := mk_message {
  m_type : message_type;
  m_serial : nat;
  m_reply_serial : option nat;
  m_path : option string;
  m_interface : option string;
  m_member : option string;
  m_error_name : option string;
  m_body : list dvalue
}.

(** [sd_bus_message_get_signature(m, true)] *)
Definition m_signature (m : sd_bus_message) : string := body_signature (m_body m).

(** [sd_bus_message_is_method_call(m, interface, member)] *)
Definition is_method_call (m : sd_bus_message) (iface member : string) : bool :=
  bool_decide (m_type m = METHOD_CALL) &&
  bool_decide (m_interface m = Some iface) && bool_decide (m_member m = Some member).

(** [sd_bus_message_read(m, "ss", &a, &b)] and [read(m, "s", &a)] from the
    start of the body (the code rewinds first). *)
Definition read_ss (m : sd_bus_message) : option (string * string) :=
  match m_body m with
  | DString a :: DString b :: _ => Some (a, b)
  | _ => None
  end.

Definition read_s (m : sd_bus_message) : option string :=
  match m_body m with
  | DString a :: _ => Some a
  | _ => None
  end.

(** The path of a method call, which [bus_process_object] asserts is set. *)
Definition m_path_str (m : sd_bus_message) : string := default EmptyString (m_path m).

(** [sd_bus_message_enter_container(m, 'v', sig)] after [read(m, "ss")]:
    the value of the variant, when its signature is [sig]. *)
Definition read_variant_after_ss (m : sd_bus_message) (sig : string) : option dvalue :=
  match m_body m with
  | DString _ :: DString _ :: DVariant v :: _ =>
      if String.eqb (dvalue_signature v) sig then Some v else None
  | _ => None
  end.

(** The replies the engine sends: [sd_bus_reply_method_return] and
    [sd_bus_reply_method_errorf]. *)
Definition method_return (call : sd_bus_message) (body : list dvalue) : sd_bus_message :=
  {| m_type := METHOD_RETURN; m_serial := 0; m_reply_serial := Some (m_serial call);
     m_path := None; m_interface := None; m_member := None; m_error_name := None;
     m_body := body |}.

Definition method_error (call : sd_bus_message) (name : string) : sd_bus_message :=
  {| m_type := METHOD_ERROR; m_serial := 0; m_reply_serial := Some (m_serial call);
     m_path := None; m_interface := None; m_member := None; m_error_name := Some name;
     m_body := [] |}.

Definition signal (path iface member : string) (body : list dvalue) : sd_bus_message :=
  {| m_type := SIGNAL; m_serial := 0; m_reply_serial := None;
     m_path := Some path; m_interface := Some iface; m_member := Some member;
     m_error_name := None; m_body := body |}.

(** The error names of the D-Bus specification used by the engine. *)
Definition SD_BUS_ERROR_INVALID_ARGS := "org.freedesktop.DBus.Error.InvalidArgs"%string.
Definition SD_BUS_ERROR_ACCESS_DENIED := "org.freedesktop.DBus.Error.AccessDenied"%string.
Definition SD_BUS_ERROR_PROPERTY_READ_ONLY := "org.freedesktop.DBus.Error.PropertyReadOnly"%string.
Definition SD_BUS_ERROR_UNKNOWN_INTERFACE := "org.freedesktop.DBus.Error.UnknownInterface"%string.
Definition SD_BUS_ERROR_UNKNOWN_METHOD := "org.freedesktop.DBus.Error.UnknownMethod"%string.
Definition SD_BUS_ERROR_UNKNOWN_PROPERTY := "org.freedesktop.DBus.Error.UnknownProperty"%string.
Definition SD_BUS_ERROR_FAILED := "org.freedesktop.DBus.Error.Failed"%string.

End Message.
