(* ===== verification/BusState.v ===== *)
(** * The bus state

    The structures of bus-internal.h that bus-objects.c manipulates:
    [struct node], [struct node_callback], [struct node_enumerator],
    [struct node_vtable], [struct vtable_member] and the fields of
    [sd_bus] the engine reads or writes.

    Pointers are modelled as follows.
    - A node is identified by its path: [bus->nodes] is keyed by the path
      and no two nodes share one, so [n->parent] and the sibling links are
      paths.
    - Heap objects compared by address ([struct node_callback],
      [struct node_vtable]) carry an allocation identity drawn from
      [bus_next_id]; [new0] returns a fresh one.
    - A [struct vtable_member] points to its [node_vtable] ([parent]) and to
      its entry ([vtable]); neither target changes after registration, so
      the member holds a copy of both, and [c != v->parent] compares the
      identities.
    - The caller-owned vtable array is its address with its entries; two
      registrations pass "the same vtable" when the addresses are equal.
    - [userdata] and user function pointers are opaque numbers. *)

From S2P Require Import Prelude Vtable Message.
Import Vtable Message.

Module BusState.

Definition userdata := nat.

Record node_callback := mk_node_callback {
  nc_id : nat;
  nc_callback : fn_ref;
  nc_userdata : userdata;
  nc_is_fallback : bool;
  nc_last_iteration : nat
}.

Record node_enumerator := mk_node_enumerator {
  ne_callback : fn_ref;
  ne_userdata : userdata
}.

Record vtable_ref := mk_vtable_ref {
  vr_addr : nat;
  vr_entries : list sd_bus_vtable
}.

Record node_vtable := mk_node_vtable {
  nv_id : nat;
  nv_node : string;
  nv_interface : string;
  nv_vtable : vtable_ref;
  nv_userdata : userdata;
  nv_find : option fn_ref;
  nv_is_fallback : bool
}.

Record vtable_member := mk_vtable_member {
  vm_path : string;
  vm_interface : string;
  vm_member : string;
  vm_parent : node_vtable;
  vm_vtable : sd_bus_vtable;
  vm_last_iteration : nat
}.

(** The key of both indices: (path, interface, member), compared with
    [vtable_member_compare_func]. *)
Definition member_key : Type := string * string * string.

Definition vm_key (m : vtable_member) : member_key := (vm_path m, vm_interface m, vm_member m).

Record node := mk_node {
  node_path : string;
  node_parent : option string;
  node_child : list string;
  node_callbacks : list node_callback;
  node_vtables : list node_vtable;
  node_enumerators : list node_enumerator;
  node_object_manager : bool
}.

Record sd_bus := mk_bus {
  bus_nodes : gmap string node;
  bus_vtable_methods : gmap member_key vtable_member;
  bus_vtable_properties : gmap member_key vtable_member;
  bus_nodes_modified : bool;
  bus_iteration_counter : nat;
  bus_trusted : bool;
  bus_is_kernel : bool;
  bus_pid_changed : bool;
  bus_next_id : nat;
  bus_wqueue : list sd_bus_message;
  bus_open : bool                       (** [BUS_IS_OPEN(bus->state)] *)
}.

(** ** Field updates *)

Definition set_nodes (b : sd_bus) (ns : gmap string node) : sd_bus :=
  mk_bus ns (bus_vtable_methods b) (bus_vtable_properties b) (bus_nodes_modified b)
    (bus_iteration_counter b) (bus_trusted b) (bus_is_kernel b) (bus_pid_changed b)
    (bus_next_id b) (bus_wqueue b) (bus_open b).

Definition set_methods (b : sd_bus) (ms : gmap member_key vtable_member) : sd_bus :=
  mk_bus (bus_nodes b) ms (bus_vtable_properties b) (bus_nodes_modified b)
    (bus_iteration_counter b) (bus_trusted b) (bus_is_kernel b) (bus_pid_changed b)
    (bus_next_id b) (bus_wqueue b) (bus_open b).

Definition set_properties (b : sd_bus) (ps : gmap member_key vtable_member) : sd_bus :=
  mk_bus (bus_nodes b) (bus_vtable_methods b) ps (bus_nodes_modified b)
    (bus_iteration_counter b) (bus_trusted b) (bus_is_kernel b) (bus_pid_changed b)
    (bus_next_id b) (bus_wqueue b) (bus_open b).

Definition set_modified (b : sd_bus) (v : bool) : sd_bus :=
  mk_bus (bus_nodes b) (bus_vtable_methods b) (bus_vtable_properties b) v
    (bus_iteration_counter b) (bus_trusted b) (bus_is_kernel b) (bus_pid_changed b)
    (bus_next_id b) (bus_wqueue b) (bus_open b).

(** [new0]: a fresh allocation identity. *)
Definition alloc_id (b : sd_bus) : nat * sd_bus :=
  (bus_next_id b,
   mk_bus (bus_nodes b) (bus_vtable_methods b) (bus_vtable_properties b)
     (bus_nodes_modified b) (bus_iteration_counter b) (bus_trusted b) (bus_is_kernel b)
     (bus_pid_changed b) (S (bus_next_id b)) (bus_wqueue b) (bus_open b)).

(** [sd_bus_send]: the message joins the write queue. *)
Definition bus_send (b : sd_bus) (m : sd_bus_message) : sd_bus :=
  mk_bus (bus_nodes b) (bus_vtable_methods b) (bus_vtable_properties b)
    (bus_nodes_modified b) (bus_iteration_counter b) (bus_trusted b) (bus_is_kernel b)
    (bus_pid_changed b) (bus_next_id b) (bus_wqueue b ++ [m]) (bus_open b).

Definition node_set_child (n : node) (c : list string) : node :=
  mk_node (node_path n) (node_parent n) c (node_callbacks n) (node_vtables n)
    (node_enumerators n) (node_object_manager n).

Definition node_set_callbacks (n : node) (c : list node_callback) : node :=
  mk_node (node_path n) (node_parent n) (node_child n) c (node_vtables n)
    (node_enumerators n) (node_object_manager n).

Definition node_set_vtables (n : node) (v : list node_vtable) : node :=
  mk_node (node_path n) (node_parent n) (node_child n) (node_callbacks n) v
    (node_enumerators n) (node_object_manager n).

Definition node_set_enumerators (n : node) (e : list node_enumerator) : node :=
  mk_node (node_path n) (node_parent n) (node_child n) (node_callbacks n) (node_vtables n)
    e (node_object_manager n).

Definition node_set_object_manager (n : node) (om : bool) : node :=
  mk_node (node_path n) (node_parent n) (node_child n) (node_callbacks n) (node_vtables n)
    (node_enumerators n) om.

(** Update the node at [path] in place (a write through the node pointer). *)
Definition update_node (b : sd_bus) (path : string) (f : node -> node) : sd_bus :=
  set_nodes b (alter f path (bus_nodes b)).

(** The empty bus of a started connection (open, nothing registered). *)
Definition empty_bus (trusted is_kernel : bool) : sd_bus :=
  mk_bus ∅ ∅ ∅ false 1 trusted is_kernel false 1 [] true.

(** ** The emptiness test of [bus_node_gc] *)

Definition node_is_empty (n : node) : bool :=
  match node_child n, node_callbacks n, node_vtables n, node_enumerators n with
  | [], [], [], [] => negb (node_object_manager n)
  | _, _, _, _ => false
  end.

End BusState.
