(* ===== verification/NodeStore.v ===== *)
(** * The node store: allocation and garbage collection

    [bus_node_allocate] finds or creates the node of a path, creating its
    parent first (bus-objects.c, lines 1334-1389); [bus_node_gc] removes a
    node that holds nothing and continues with its parent (lines
    1391-1412).  Both recurse along the parent chain; the parent of a valid
    path is strictly shorter, so the length of the path bounds the
    recursion and is given as fuel.

    The invariants of the store: every node is stored under its own path,
    its parent exists and lists it as a child, its children exist and name
    it as their parent; after every public operation, no node is empty. *)

From S2P Require Import Prelude ObjectPath Vtable Message BusState.
Import ObjectPath Vtable Message BusState.

Module NodeStore.

(** [LIST_REMOVE(siblings, parent->child, n)] *)
Definition child_remove (path : string) (l : list string) : list string :=
  match list_remove_first (String.eqb path) l with
  | Some (_, r) => r
  | None => l
  end.

Fixpoint bus_node_allocate_fuel (fuel : nat) (b : sd_bus) (path : string) : sd_bus :=
  match bus_nodes b !! path with
  | Some _ => b
  | None =>
      match fuel with
      | O => b
      | S f =>
          let parent := node_parent_path path in
          let b1 := match parent with
                    | None => b
                    | Some p => bus_node_allocate_fuel f b p
                    end in
          let n := mk_node path parent [] [] [] [] false in
          let b2 := set_nodes b1 (<[path := n]> (bus_nodes b1)) in
          match parent with
          | None => b2
          | Some p => update_node b2 p (fun pn => node_set_child pn (path :: node_child pn))
          end
      end
  end.

Definition bus_node_allocate (b : sd_bus) (path : string) : sd_bus :=
  bus_node_allocate_fuel (String.length path) b path.

Fixpoint bus_node_gc_fuel (fuel : nat) (b : sd_bus) (path : string) : sd_bus :=
  match bus_nodes b !! path with
  | None => b
  | Some n =>
      if negb (node_is_empty n) then b
      else
        let b1 := set_nodes b (delete path (bus_nodes b)) in
        match node_parent n with
        | None => b1
        | Some q =>
            let b2 := update_node b1 q (fun pn => node_set_child pn (child_remove path (node_child pn))) in
            match fuel with
            | O => b2
            | S f => bus_node_gc_fuel f b2 q
            end
        end
  end.

Definition bus_node_gc (b : sd_bus) (path : string) : sd_bus :=
  bus_node_gc_fuel (String.length path) b path.

(** ** The invariant of the store *)

Record nodes_wf (ns : gmap string node) : Prop := {
  nwf_path : forall p n, ns !! p = Some n ->
    node_path n = p /\ object_path_is_valid p = true;
  nwf_parent : forall p n q, ns !! p = Some n -> node_parent n = Some q ->
    String.length q < String.length p /\ exists pn, ns !! q = Some pn /\ p ∈ node_child pn;
  nwf_child : forall p n c, ns !! p = Some n -> c ∈ node_child n ->
    exists cn, ns !! c = Some cn /\ node_parent cn = Some p;
  nwf_nodup : forall p n, ns !! p = Some n -> NoDup (node_child n)
}.

(** No node is empty, except possibly the one at [x]. *)
Definition nodes_nonempty_except (ns : gmap string node) (x : option string) : Prop :=
  forall p n, ns !! p = Some n -> x <> Some p -> node_is_empty n = false.

Lemma child_remove_sub y l x : x ∈ child_remove y l -> x ∈ l.
Proof.
  unfold child_remove. destruct (list_remove_first _ l) as [[z r]|] eqn:E; [|done].
  apply list_remove_first_perm in E. rewrite E. intros; by apply elem_of_cons; right.
Qed.

Lemma child_remove_keep y l x : x ∈ l -> x <> y -> x ∈ child_remove y l.
Proof.
  unfold child_remove. destruct (list_remove_first _ l) as [[z r]|] eqn:E; [|done].
  pose proof (list_remove_first_Some _ _ _ _ E) as Hz. apply String.eqb_eq in Hz as <-.
  apply list_remove_first_perm in E. rewrite E. intros [->|]%elem_of_cons ?; done.
Qed.

Lemma child_remove_nodup y l : NoDup l -> NoDup (child_remove y l) /\ y ∉ child_remove y l.
Proof.
  unfold child_remove. destruct (list_remove_first _ l) as [[z r]|] eqn:E.
  - pose proof (list_remove_first_Some _ _ _ _ E) as Hz. apply String.eqb_eq in Hz as <-.
    apply list_remove_first_perm in E. rewrite E. by intros [??]%NoDup_cons.
  - apply list_remove_first_None in E. intros Hnd. split; [done|].
    intros Hy. eapply Forall_forall in E; [|exact Hy]. by rewrite String.eqb_refl in E.
Qed.

(** The store after a leaf [path] is linked under [q]. *)
Definition insert_leaf (ns : gmap string node) (path q : string) : gmap string node :=
  alter (fun m => node_set_child m (path :: node_child m)) q
    (<[path := mk_node path (Some q) [] [] [] [] false]> ns).

Lemma insert_leaf_lookup ns path q p :
  q <> path ->
  insert_leaf ns path q !! p =
    if decide (p = path) then Some (mk_node path (Some q) [] [] [] [] false)
    else if decide (p = q) then (fun m => node_set_child m (path :: node_child m)) <$> ns !! q
    else ns !! p.
Proof.
  intros Hne. unfold insert_leaf. rewrite lookup_alter, lookup_insert.
  repeat case_decide; subst; simplify_map_eq; done.
Qed.

Lemma insert_leaf_Some ns path q p n :
  q <> path -> insert_leaf ns path q !! p = Some n ->
  (p = path /\ n = mk_node path (Some q) [] [] [] [] false) \/
  (p = q /\ exists pn, ns !! q = Some pn /\ n = node_set_child pn (path :: node_child pn)) \/
  (p <> path /\ p <> q /\ ns !! p = Some n).
Proof.
  intros Hne. rewrite insert_leaf_lookup by done.
  repeat case_decide; intros; simplify_eq; eauto.
  destruct (ns !! q) eqn:E; simplify_eq/=; eauto 10.
Qed.

(** [n'] is [n] with possibly more children. *)
Definition node_ext (n n' : node) : Prop :=
  n' = node_set_child n (node_child n') /\ node_child n ⊆ node_child n'.

Lemma node_ext_refl n : node_ext n n.
Proof. split; [by destruct n|done]. Qed.

Lemma node_ext_trans n1 n2 n3 : node_ext n1 n2 -> node_ext n2 n3 -> node_ext n1 n3.
Proof.
  intros [H12 S12] [H23 S23]. split; [|set_solver].
  rewrite H23, H12. by destruct n1.
Qed.

Lemma node_ext_parent n n' : node_ext n n' -> node_parent n' = node_parent n.
Proof. intros [-> _]. by destruct n. Qed.

Lemma node_ext_path n n' : node_ext n n' -> node_path n' = node_path n.
Proof. intros [-> _]. by destruct n. Qed.

(** Every node of the old store is still there, with the same parent and
    at least its children. *)
Lemma insert_leaf_keep ns path q r m :
  q <> path -> r <> path -> ns !! r = Some m ->
  exists m', insert_leaf ns path q !! r = Some m' /\ node_ext m m'.
Proof.
  intros Hne Hr H. rewrite insert_leaf_lookup by done.
  repeat case_decide; subst; try done; rewrite H; eexists; split; eauto using node_ext_refl.
  split; [by destruct m|]. simpl. set_solver.
Qed.

Lemma nodes_wf_insert_leaf ns path q pn :
  nodes_wf ns -> object_path_is_valid path = true -> ns !! path = None ->
  ns !! q = Some pn -> String.length q < String.length path ->
  nodes_wf (insert_leaf ns path q).
Proof.
  intros Hwf Hv Hnone Hq Hlt.
  assert (Hqp : q <> path) by (intros ->; congruence).
  assert (Hpc : path ∉ node_child pn).
  { intros Hin. destruct (nwf_child _ Hwf _ _ _ Hq Hin) as (? & ? & _). congruence. }
  constructor.
  - intros p n [(-> & ->)|[(-> & pn' & Hq' & ->)|(_ & _ & H)]]%(insert_leaf_Some _ _ _ _ _ Hqp); try done;
      simpl; by eapply (nwf_path _ Hwf).
  - intros p n r [(-> & ->)|[(-> & pn' & Hq' & ->)|(Hp & _ & H)]]%(insert_leaf_Some _ _ _ _ _ Hqp) Hr;
      simpl in Hr; simplify_eq; try done.
    + split; [done|]. rewrite insert_leaf_lookup, decide_False, decide_True by done.
      rewrite Hq. eexists; split; [done|]. set_solver.
    + destruct (nwf_parent _ Hwf _ _ _ Hq Hr) as (? & pn0 & Hr' & Hin).
      assert (r <> path) by congruence.
      destruct (insert_leaf_keep ns path q r pn0) as (m' & ? & _ & ?); eauto 10.
    + destruct (nwf_parent _ Hwf _ _ _ H Hr) as (? & pn0 & Hr' & Hin).
      assert (r <> path) by congruence.
      destruct (insert_leaf_keep ns path q r pn0) as (m' & ? & _ & ?); eauto 10.
  - intros p n c [(-> & ->)|[(-> & pn' & Hq' & ->)|(Hp & Hpq & H)]]%(insert_leaf_Some _ _ _ _ _ Hqp) Hc;
      simpl in Hc; simplify_eq; try set_solver.
    + apply elem_of_cons in Hc as [->|Hc].
      * rewrite insert_leaf_lookup, decide_True by done. by eexists.
      * destruct (nwf_child _ Hwf _ _ _ Hq Hc) as (cn & Hcn & Hpar).
        destruct (insert_leaf_keep ns path q c cn) as (m' & ? & Hext); [done|congruence|done|].
        exists m'. rewrite (node_ext_parent _ _ Hext). done.
    + destruct (nwf_child _ Hwf _ _ _ H Hc) as (cn & Hcn & Hpar).
      destruct (insert_leaf_keep ns path q c cn) as (m' & ? & Hext); [done|congruence|done|].
      exists m'. rewrite (node_ext_parent _ _ Hext). done.
  - intros p n [(-> & ->)|[(-> & pn' & Hq' & ->)|(_ & _ & H)]]%(insert_leaf_Some _ _ _ _ _ Hqp); try done.
    + constructor.
    + simplify_eq. constructor; [done|]. by apply (nwf_nodup _ Hwf _ _ Hq).
    + by apply (nwf_nodup _ Hwf _ _ H).
Qed.

Lemma nodes_wf_insert_root ns path :
  nodes_wf ns -> object_path_is_valid path = true -> ns !! path = None ->
  nodes_wf (<[path := mk_node path None [] [] [] [] false]> ns).
Proof.
  intros Hwf Hv Hnone. constructor.
  - intros p n. rewrite lookup_insert. destruct (decide (path = p)) as [<-|];
      intros; simplify_eq; try done. by eapply (nwf_path _ Hwf).
  - intros p n r. rewrite lookup_insert. destruct (decide (path = p)) as [<-|];
      intros Hn Hr; simplify_eq; try done.
    destruct (nwf_parent _ Hwf _ _ _ Hn Hr) as (? & pn & Hpn & ?).
    split; [done|]. exists pn. rewrite lookup_insert_ne by congruence. done.
  - intros p n c. rewrite lookup_insert. destruct (decide (path = p)) as [<-|];
      intros Hn Hc; simplify_eq; try set_solver.
    destruct (nwf_child _ Hwf _ _ _ Hn Hc) as (cn & Hcn & ?).
    exists cn. rewrite lookup_insert_ne by congruence. done.
  - intros p n. rewrite lookup_insert. destruct (decide (path = p)) as [<-|];
      intros; simplify_eq; try constructor. by eapply (nwf_nodup _ Hwf).
Qed.

(** ** Growth of the store by [bus_node_allocate] *)

(** [ns'] extends [ns]: old nodes only gained children; new nodes are no
    longer than [path], hold nothing, and all but [path] have a child. *)
Definition store_grows (path : string) (ns ns' : gmap string node) : Prop :=
  (forall r m, ns !! r = Some m -> exists m', ns' !! r = Some m' /\ node_ext m m') /\
  (forall r m', ns' !! r = Some m' -> ns !! r = None ->
     String.length r <= String.length path /\
     node_callbacks m' = [] /\ node_vtables m' = [] /\ node_enumerators m' = [] /\
     node_object_manager m' = false /\ (r <> path -> node_child m' <> [])).

Lemma store_grows_refl path ns : store_grows path ns ns.
Proof. split; [eauto using node_ext_refl|congruence]. Qed.

Lemma set_nodes_set_nodes b x y : set_nodes (set_nodes b x) y = set_nodes b y.
Proof. done. Qed.

Lemma update_node_set_nodes b x q f :
  update_node (set_nodes b x) q f = set_nodes b (alter f q x).
Proof. done. Qed.

Lemma bus_nodes_set_nodes b x : bus_nodes (set_nodes b x) = x.
Proof. done. Qed.

#[export] Hint Rewrite set_nodes_set_nodes update_node_set_nodes bus_nodes_set_nodes : sdbus_rw.

Lemma object_path_valid_length p : object_path_is_valid p = true -> 1 <= String.length p.
Proof. destruct p; simpl; [done|lia]. Qed.

Lemma bus_node_allocate_fuel_spec fuel b path :
  nodes_wf (bus_nodes b) -> object_path_is_valid path = true -> String.length path <= fuel ->
  let b' := bus_node_allocate_fuel fuel b path in
  b' = set_nodes b (bus_nodes b') /\ nodes_wf (bus_nodes b') /\
  is_Some (bus_nodes b' !! path) /\ store_grows path (bus_nodes b) (bus_nodes b').
Proof.
  revert b path. induction fuel as [|f IH]; intros b path Hwf Hv Hlen;
    pose proof (object_path_valid_length _ Hv); [lia|].
  cbn zeta. simpl. destruct (bus_nodes b !! path) as [n|] eqn:Hp.
  { destruct b; split_and!; eauto using store_grows_refl. }
  pose proof (node_parent_path_spec path Hv) as Hpar.
  destruct (node_parent_path path) as [q|] eqn:Eq.
  - destruct Hpar as [Hqv Hqlt].
    destruct (IH b q Hwf Hqv ltac:(lia)) as (Hb1 & Hwf1 & [pn Hpn] & Hg1 & Hg2).
    set (b1 := bus_node_allocate_fuel f b q) in *.
    assert (Hnone : bus_nodes b1 !! path = None).
    { destruct (bus_nodes b1 !! path) eqn:E; [|done].
      destruct (Hg2 _ _ E Hp); lia. }
    rewrite Hb1. autorewrite with sdbus_rw. fold (insert_leaf (bus_nodes b1) path q).
    split_and!; [done| |..].
    + by apply (nodes_wf_insert_leaf _ _ _ pn).
    + rewrite insert_leaf_lookup, decide_True by (try done; intros ->; lia). by eexists.
    + split.
      * intros r m Hr. destruct (Hg1 _ _ Hr) as (m1 & Hr1 & Hext1).
        destruct (insert_leaf_keep (bus_nodes b1) path q r m1) as (m' & ? & ?);
          [intros ->; lia|congruence|done|].
        eauto using node_ext_trans.
      * intros r m' Hr Hold.
        destruct (insert_leaf_Some (bus_nodes b1) path q r m' ltac:(intros ->; lia) Hr)
          as [(-> & ->)|[(-> & pn' & Hq' & ->)|(? & ? & Hr1)]].
        -- split_and!; done.
        -- rewrite Hpn in Hq'. simplify_eq.
           destruct (Hg2 _ _ Hpn Hold) as (? & ? & ? & ? & ? & _). split_and!; simpl; auto. lia.
        -- destruct (Hg2 _ _ Hr1 Hold) as (? & ? & ? & ? & ? & Hc). split_and!; auto. lia.
  - split_and!; [by destruct b| |..]; autorewrite with sdbus_rw.
    + by apply nodes_wf_insert_root.
    + rewrite lookup_insert_eq. by eexists.
    + split.
      * intros r m Hr. exists m. rewrite lookup_insert_ne by congruence.
        split; [done|apply node_ext_refl].
      * intros r m'. rewrite lookup_insert. destruct (decide (path = r)) as [<-|];
          intros Hr Hold; simplify_eq; try congruence. split_and!; done.
Qed.

(** ** Removal of an empty node by [bus_node_gc] *)

Definition unlink_child (path : string) (pn : node) : node :=
  node_set_child pn (child_remove path (node_child pn)).

(** The store after [hashmap_remove] and [LIST_REMOVE] of the node [n] at
    [path]. *)
Definition remove_leaf (ns : gmap string node) (path : string) (n : node) : gmap string node :=
  match node_parent n with
  | None => delete path ns
  | Some q => alter (unlink_child path) q (delete path ns)
  end.

Lemma remove_leaf_lookup ns path n p :
  remove_leaf ns path n !! p =
    if decide (p = path) then None
    else if decide (node_parent n = Some p) then unlink_child path <$> ns !! p
    else ns !! p.
Proof.
  unfold remove_leaf. destruct (node_parent n) as [q|];
    rewrite ?lookup_alter; repeat case_decide; simplify_eq;
    rewrite ?lookup_delete_eq, ?lookup_delete_ne by congruence; done.
Qed.

Lemma node_ext_unlink path m : node_ext (unlink_child path m) m.
Proof. split; [by destruct m|]. intros x. apply child_remove_sub. Qed.

Lemma remove_leaf_Some ns path n p m :
  remove_leaf ns path n !! p = Some m ->
  p <> path /\ exists m0, ns !! p = Some m0 /\ node_ext m m0 /\
    (forall c, c ∈ node_child m0 -> c <> path -> c ∈ node_child m).
Proof.
  rewrite remove_leaf_lookup. destruct (decide (p = path)); [done|].
  destruct (decide (node_parent n = Some p)); intros Hl; split; try done.
  - destruct (ns !! p) as [m0|] eqn:E; simplify_eq/=.
    exists m0. split_and!; [done|apply node_ext_unlink|]. intros. by apply child_remove_keep.
  - exists m. split_and!; [done|apply node_ext_refl|done].
Qed.

Lemma remove_leaf_keep ns path n r m0 :
  r <> path -> ns !! r = Some m0 ->
  exists m, remove_leaf ns path n !! r = Some m /\ node_ext m m0 /\
    (forall c, c ∈ node_child m0 -> c <> path -> c ∈ node_child m).
Proof.
  intros Hr H. rewrite remove_leaf_lookup, decide_False by done.
  destruct (decide (node_parent n = Some r)); rewrite H; simpl.
  - eexists. split_and!; [done|apply node_ext_unlink|]. intros. by apply child_remove_keep.
  - eexists. split_and!; [done|apply node_ext_refl|done].
Qed.

Lemma nodes_wf_remove_leaf ns path n :
  nodes_wf ns -> ns !! path = Some n -> node_child n = [] ->
  nodes_wf (remove_leaf ns path n).
Proof.
  intros Hwf Hn Hc. constructor.
  - intros p m (? & m0 & H0 & Hext & _)%remove_leaf_Some.
    rewrite <- (node_ext_path _ _ Hext). by eapply (nwf_path _ Hwf).
  - intros p m r (Hp & m0 & H0 & Hext & _)%remove_leaf_Some Hr.
    rewrite <- (node_ext_parent _ _ Hext) in Hr.
    destruct (nwf_parent _ Hwf _ _ _ H0 Hr) as (? & pn & Hpn & Hin).
    split; [done|].
    assert (r <> path) by (intros ->; simplify_eq; rewrite Hc in Hin; set_solver).
    destruct (remove_leaf_keep ns path n r pn) as (m' & ? & _ & Hkeep); eauto.
  - intros p m c Hl Hcm.
    destruct (remove_leaf_Some _ _ _ _ _ Hl) as (Hp & m0 & H0 & [_ Hsub] & _).
    destruct (nwf_child _ Hwf _ _ _ H0 (Hsub _ Hcm)) as (cn & Hcn & Hpar).
    assert (c <> path).
    { intros ->. rewrite Hn in Hcn. simplify_eq.
      rewrite remove_leaf_lookup, decide_False, decide_True, H0 in Hl by done.
      simplify_eq/=.
      by apply (child_remove_nodup path (node_child m0) (nwf_nodup _ Hwf _ _ H0)). }
    destruct (remove_leaf_keep ns path n c cn) as (m' & ? & Hext' & _); [done|done|].
    exists m'. by rewrite <- (node_ext_parent _ _ Hext').
  - intros p m. rewrite remove_leaf_lookup. destruct (decide (p = path)); [done|].
    destruct (decide (node_parent n = Some p)); intros H.
    + destruct (ns !! p) as [m0|] eqn:E; simplify_eq/=.
      by apply child_remove_nodup, (nwf_nodup _ Hwf _ _ E).
    + by apply (nwf_nodup _ Hwf _ _ H).
Qed.

Lemma node_is_empty_spec n :
  node_is_empty n = true <->
  node_child n = [] /\ node_callbacks n = [] /\ node_vtables n = [] /\
  node_enumerators n = [] /\ node_object_manager n = false.
Proof.
  destruct n as [? ? [|] [|] [|] [|] []]; cbn; split;
    try (intros (? & ? & ? & ? & ?); congruence); try done.
Qed.

(** [ns'] is [ns] less some nodes that held no registration, the others
    having possibly lost children. *)
Definition store_shrinks (ns' ns : gmap string node) : Prop :=
  (forall r m', ns' !! r = Some m' -> exists m, ns !! r = Some m /\ node_ext m' m) /\
  (forall r m, ns !! r = Some m -> ns' !! r = None ->
     node_callbacks m = [] /\ node_vtables m = [] /\ node_enumerators m = [] /\
     node_object_manager m = false).

Lemma store_shrinks_refl ns : store_shrinks ns ns.
Proof. split; [eauto using node_ext_refl|congruence]. Qed.

Lemma store_shrinks_trans ns1 ns2 ns3 :
  store_shrinks ns1 ns2 -> store_shrinks ns2 ns3 -> store_shrinks ns1 ns3.
Proof.
  intros [H1 H1'] [H2 H2']. split.
  - intros r m1 (m2 & Hr2 & E12)%H1. destruct (H2 _ _ Hr2) as (m3 & ? & E23).
    eauto using node_ext_trans.
  - intros r m3 Hr3 Hr1. destruct (ns2 !! r) as [m2|] eqn:Hr2; [|eauto].
    destruct (H1' _ _ Hr2 Hr1) as (? & ? & ? & ?).
    destruct (H2 _ _ Hr2) as (m3' & Hr3' & [Heq _]). rewrite Hr3 in Hr3'. simplify_eq.
    rewrite Heq. simpl. auto.
Qed.

Lemma remove_leaf_shrinks ns path n :
  ns !! path = Some n -> node_is_empty n = true ->
  store_shrinks (remove_leaf ns path n) ns.
Proof.
  intros Hn (_ & ? & ? & ? & ?)%node_is_empty_spec. split.
  - intros r m' (_ & m & ? & ? & _)%remove_leaf_Some. eauto.
  - intros r m Hr Hnone. destruct (decide (r = path)) as [->|Hne]; [by simplify_eq|].
    destruct (remove_leaf_keep ns path n r m Hne Hr) as (? & ? & _). congruence.
Qed.

Lemma remove_leaf_nonempty ns path n q :
  ns !! path = Some n -> node_parent n = Some q ->
  nodes_nonempty_except ns (Some path) ->
  nodes_nonempty_except (remove_leaf ns path n) (Some q).
Proof.
  intros Hn Hq Hne p m Hl Hpq.
  destruct (remove_leaf_Some _ _ _ _ _ Hl) as (Hp & m0 & H0 & _).
  rewrite remove_leaf_lookup, decide_False, decide_False, H0 in Hl by congruence.
  simplify_eq. apply (Hne _ _ H0). congruence.
Qed.

Lemma bus_node_gc_noop b path :
  nodes_wf (bus_nodes b) -> nodes_nonempty_except (bus_nodes b) (Some path) ->
  (forall n, bus_nodes b !! path = Some n -> node_is_empty n = false) ->
  b = set_nodes b (bus_nodes b) /\ nodes_wf (bus_nodes b) /\
  nodes_nonempty_except (bus_nodes b) None /\ store_shrinks (bus_nodes b) (bus_nodes b).
Proof.
  intros Hwf Hne Hp. destruct b; split_and!; eauto using store_shrinks_refl.
  intros p m Hm _. destruct (decide (p = path)) as [->|]; [by apply Hp|].
  apply (Hne _ _ Hm). congruence.
Qed.

Lemma bus_node_gc_fuel_spec fuel b path :
  nodes_wf (bus_nodes b) -> String.length path <= fuel ->
  nodes_nonempty_except (bus_nodes b) (Some path) ->
  let b' := bus_node_gc_fuel fuel b path in
  b' = set_nodes b (bus_nodes b') /\ nodes_wf (bus_nodes b') /\
  nodes_nonempty_except (bus_nodes b') None /\ store_shrinks (bus_nodes b') (bus_nodes b).
Proof.
  revert b path. induction fuel as [|f IH]; intros b path Hwf Hlen Hne; cbn zeta;
    destruct (bus_nodes b !! path) as [n|] eqn:Hp; simpl; rewrite ?Hp.
  - destruct (nwf_path _ Hwf _ _ Hp) as [_ ?%object_path_valid_length]. lia.
  - apply (bus_node_gc_noop _ path); [done|done|intros; simplify_eq; congruence].
  - destruct (node_is_empty n) eqn:He; simpl.
    2: { apply (bus_node_gc_noop _ path); [done|done|intros; simplify_eq; congruence]. }
    pose proof (nodes_wf_remove_leaf _ _ _ Hwf Hp (proj1 (proj1 (node_is_empty_spec n) He))).
    pose proof (remove_leaf_shrinks _ _ _ Hp He).
    destruct (node_parent n) as [q|] eqn:Hq.
    + destruct (nwf_parent _ Hwf _ _ _ Hp Hq) as [Hql _].
      assert (Hrl : alter (unlink_child path) q (delete path (bus_nodes b)) =
                    remove_leaf (bus_nodes b) path n) by (unfold remove_leaf; by rewrite Hq).
      unfold update_node. autorewrite with sdbus_rw. fold (unlink_child path).
      rewrite Hrl.
      destruct (IH (set_nodes b (remove_leaf (bus_nodes b) path n)) q)
        as (Hb' & ? & ? & ?); autorewrite with sdbus_rw; eauto using remove_leaf_nonempty.
      { lia. }
      rewrite Hb'. autorewrite with sdbus_rw. split_and!; eauto using store_shrinks_trans.
    + assert (Hrl : delete path (bus_nodes b) = remove_leaf (bus_nodes b) path n)
        by (unfold remove_leaf; by rewrite Hq).
      rewrite Hrl. autorewrite with sdbus_rw. split_and!; try done.
      intros p m Hm _. destruct (remove_leaf_Some _ _ _ _ _ Hm) as (Hpp & m0 & Hm0 & _).
      rewrite remove_leaf_lookup, decide_False, decide_False, Hm0 in Hm by congruence.
      simplify_eq. apply (Hne _ _ Hm0). congruence.
  - apply (bus_node_gc_noop _ path); [done|done|intros; simplify_eq; congruence].
Qed.

End NodeStore.
