(* ===== verification/Registration.v ===== *)
(** * The registration API

    [bus_add_object] / [bus_remove_object] (raw callbacks and fallbacks),
    [add_object_vtable_internal] / [remove_object_vtable_internal] with
    [free_node_vtable] (vtables and the method and property indices),
    [sd_bus_add_node_enumerator] / [sd_bus_remove_node_enumerator] and
    [sd_bus_add_object_manager] / [sd_bus_remove_object_manager]
    (bus-objects.c, lines 1414-1937 and 2385-2420).

    Every operation returns the C return code with the new bus.  The
    [assert_return] guards are checked in the order of the code; allocation
    failure ([-ENOMEM]) is not modelled. *)

From S2P Require Import Prelude ObjectPath Vtable Message BusState NodeStore.
Import ObjectPath Vtable Message BusState NodeStore.

Module Registration.

Section Registration.
  Context `{BusValidators}.

(** ** Raw callbacks *)

Definition bus_add_object (b : sd_bus) (fallback : bool) (path : string)
    (callback : option fn_ref) (ud : userdata) : Z * sd_bus :=
  if negb (object_path_is_valid path) then (- Errno.EINVAL, b)%Z
  else match callback with
  | None => (- Errno.EINVAL, b)%Z
  | Some cb =>
      if bus_pid_changed b then (- Errno.ECHILD, b)%Z
      else
        let b1 := bus_node_allocate b path in
        let (id, b2) := alloc_id b1 in
        let c := mk_node_callback id cb ud fallback 0 in
        let b3 := update_node b2 path (fun n => node_set_callbacks n (c :: node_callbacks n)) in
        (0%Z, set_modified b3 true)
  end.

Definition bus_remove_object (b : sd_bus) (fallback : bool) (path : string)
    (callback : option fn_ref) (ud : userdata) : Z * sd_bus :=
  if negb (object_path_is_valid path) then (- Errno.EINVAL, b)%Z
  else match callback with
  | None => (- Errno.EINVAL, b)%Z
  | Some cb =>
      if bus_pid_changed b then (- Errno.ECHILD, b)%Z
      else match bus_nodes b !! path with
      | None => (0%Z, b)
      | Some n =>
          match list_remove_first
                  (fun c => (nc_callback c =? cb) && (nc_userdata c =? ud) &&
                            Bool.eqb (nc_is_fallback c) fallback)
                  (node_callbacks n) with
          | None => (0%Z, b)
          | Some (_, rest) =>
              let b1 := update_node b path (fun n => node_set_callbacks n rest) in
              (1%Z, set_modified (bus_node_gc b1 path) true)
          end
      end
  end.

(** The four public entry points of the raw callbacks. *)
Definition sd_bus_add_object b path cb ud := bus_add_object b false path cb ud.
Definition sd_bus_remove_object b path cb ud := bus_remove_object b false path cb ud.
Definition sd_bus_add_fallback b prefix cb ud := bus_add_object b true prefix cb ud.
Definition sd_bus_remove_fallback b prefix cb ud := bus_remove_object b true prefix cb ud.

(** ** Vtables *)

Definition is_reserved_interface (iface : string) : bool :=
  String.eqb iface "org.freedesktop.DBus.Properties" ||
  String.eqb iface "org.freedesktop.DBus.Introspectable" ||
  String.eqb iface "org.freedesktop.DBus.Peer" ||
  String.eqb iface "org.freedesktop.DBus.ObjectManager".

(** The [assert_return] guards of [add_object_vtable_internal], in order;
    [Some r] is the early return. *)
Definition add_vtable_guards (b : sd_bus) (path iface : string)
    (vtable : option vtable_ref) : option Z :=
  if negb (object_path_is_valid path) then Some (- Errno.EINVAL)%Z
  else if negb (interface_name_is_valid iface) then Some (- Errno.EINVAL)%Z
  else match vtable with
  | None => Some (- Errno.EINVAL)%Z
  | Some vt =>
      match vr_entries vt with
      | VtableStart _ size :: _ =>
          if negb (size =? sizeof_sd_bus_vtable)%Z then Some (- Errno.EINVAL)%Z
          else if bus_pid_changed b then Some (- Errno.ECHILD)%Z
          else if is_reserved_interface iface then Some (- Errno.EINVAL)%Z
          else None
      | _ => Some (- Errno.EINVAL)%Z
      end
  end.

(** The scan of [n->vtables] before the new vtable is created: a vtable of
    the other fallback kind fails with [-EPROTOTYPE], the same vtable for
    the same interface with [-EEXIST]; otherwise the last vtable of the same
    interface is [existing]. *)
Fixpoint scan_node_vtables (l : list node_vtable) (iface : string) (vt_addr : nat)
    (fallback : bool) (existing : option node_vtable) : Z + option node_vtable :=
  match l with
  | [] => inr existing
  | i :: l' =>
      if negb (Bool.eqb (nv_is_fallback i) fallback) then inl (- Errno.EPROTOTYPE)%Z
      else if String.eqb (nv_interface i) iface then
        if (vr_addr (nv_vtable i) =? vt_addr) then inl (- Errno.EEXIST)%Z
        else scan_node_vtables l' iface vt_addr fallback (Some i)
      else scan_node_vtables l' iface vt_addr fallback existing
  end.

Definition new_member (c : node_vtable) (member : string) (v : sd_bus_vtable) : vtable_member :=
  mk_vtable_member (nv_node c) (nv_interface c) member c v 0.

(** The loop [for (v = c->vtable+1; v->type != END; v++)]: check each entry
    and [hashmap_put] its member into the method or property index.  A
    fresh member never equals the value already stored under its key, so
    [hashmap_put] fails with [-EEXIST] whenever the key is present. *)
Fixpoint add_vtable_members (c : node_vtable) (entries : list sd_bus_vtable)
    (b : sd_bus) : Z * sd_bus :=
  match entries with
  | [] => (0%Z, b)
  | v :: rest =>
      if negb (vtable_entry_ok v) then (- Errno.EINVAL, b)%Z
      else match method_member v, property_member v with
      | Some m, _ =>
          let k := (nv_node c, nv_interface c, m) in
          match bus_vtable_methods b !! k with
          | Some _ => (- Errno.EEXIST, b)%Z
          | None => add_vtable_members c rest
                      (set_methods b (<[k := new_member c m v]> (bus_vtable_methods b)))
          end
      | None, Some m =>
          let k := (nv_node c, nv_interface c, m) in
          match bus_vtable_properties b !! k with
          | Some _ => (- Errno.EEXIST, b)%Z
          | None => add_vtable_members c rest
                      (set_properties b (<[k := new_member c m v]> (bus_vtable_properties b)))
          end
      | None, None => add_vtable_members c rest b
      end
  end.

(** [free_node_vtable]: [hashmap_remove] the key of every method and
    property entry of the vtable, from its first entry up to END. *)
Definition free_member_key (w : node_vtable) (b : sd_bus) (v : sd_bus_vtable) : sd_bus :=
  match method_member v, property_member v with
  | Some m, _ => set_methods b (delete (nv_node w, nv_interface w, m) (bus_vtable_methods b))
  | None, Some m => set_properties b (delete (nv_node w, nv_interface w, m) (bus_vtable_properties b))
  | None, None => b
  end.

Definition free_node_vtable (b : sd_bus) (w : node_vtable) : sd_bus :=
  fold_left (free_member_key w) (until_end (vr_entries (nv_vtable w))) b.

Definition add_object_vtable_internal (b : sd_bus) (path iface : string)
    (vtable : option vtable_ref) (fallback : bool) (find : option fn_ref) (ud : userdata)
    : Z * sd_bus :=
  match add_vtable_guards b path iface vtable, vtable with
  | Some r, _ => (r, b)
  | None, None => (- Errno.EINVAL, b)%Z
  | None, Some vt =>
      let b1 := bus_node_allocate b path in
      let vts := match bus_nodes b1 !! path with Some n => node_vtables n | None => [] end in
      match scan_node_vtables vts iface (vr_addr vt) fallback None with
      | inl r => (r, bus_node_gc b1 path)
      | inr existing =>
          let (id, b2) := alloc_id b1 in
          let c := mk_node_vtable id path iface vt ud find fallback in
          match add_vtable_members c (vtable_body (vr_entries vt)) b2 with
          | (0%Z, b3) =>
              let anchor := option_map (fun e x => nv_id x =? nv_id e) existing in
              let b4 := update_node b3 path
                          (fun n => node_set_vtables n (list_insert_after_opt anchor c (node_vtables n))) in
              (0%Z, set_modified b4 true)
          | (r, b3) => (r, bus_node_gc (free_node_vtable b3 c) path)
          end
      end
  end.

Definition remove_object_vtable_internal (b : sd_bus) (path iface : string)
    (vt_addr : nat) (fallback : bool) (find : option fn_ref) (ud : userdata) : Z * sd_bus :=
  if negb (object_path_is_valid path) then (- Errno.EINVAL, b)%Z
  else if negb (interface_name_is_valid iface) then (- Errno.EINVAL, b)%Z
  else if bus_pid_changed b then (- Errno.ECHILD, b)%Z
  else match bus_nodes b !! path with
  | None => (0%Z, b)
  | Some n =>
      match list_remove_first
              (fun c => String.eqb (nv_interface c) iface && Bool.eqb (nv_is_fallback c) fallback &&
                        (vr_addr (nv_vtable c) =? vt_addr) &&
                        bool_decide (nv_find c = find) && (nv_userdata c =? ud))
              (node_vtables n) with
      | None => (0%Z, b)
      | Some (c, rest) =>
          let b1 := update_node b path (fun n => node_set_vtables n rest) in
          (1%Z, set_modified (bus_node_gc (free_node_vtable b1 c) path) true)
      end
  end.

(** The four public entry points. *)
Definition sd_bus_add_object_vtable b path iface vtable ud :=
  add_object_vtable_internal b path iface vtable false None ud.
Definition sd_bus_add_fallback_vtable b path iface vtable find ud :=
  add_object_vtable_internal b path iface vtable true find ud.
Definition sd_bus_remove_object_vtable b path iface vt_addr ud :=
  remove_object_vtable_internal b path iface vt_addr false None ud.
Definition sd_bus_remove_fallback_vtable b path iface vt_addr find ud :=
  remove_object_vtable_internal b path iface vt_addr true find ud.

(** ** Enumerators and object managers *)

Definition sd_bus_add_node_enumerator (b : sd_bus) (path : string)
    (callback : option fn_ref) (ud : userdata) : Z * sd_bus :=
  if negb (object_path_is_valid path) then (- Errno.EINVAL, b)%Z
  else match callback with
  | None => (- Errno.EINVAL, b)%Z
  | Some cb =>
      if bus_pid_changed b then (- Errno.ECHILD, b)%Z
      else
        let b1 := bus_node_allocate b path in
        let b2 := update_node b1 path
                    (fun n => node_set_enumerators n (mk_node_enumerator cb ud :: node_enumerators n)) in
        (0%Z, set_modified b2 true)
  end.

Definition sd_bus_remove_node_enumerator (b : sd_bus) (path : string)
    (callback : option fn_ref) (ud : userdata) : Z * sd_bus :=
  if negb (object_path_is_valid path) then (- Errno.EINVAL, b)%Z
  else match callback with
  | None => (- Errno.EINVAL, b)%Z
  | Some cb =>
      if bus_pid_changed b then (- Errno.ECHILD, b)%Z
      else match bus_nodes b !! path with
      | None => (0%Z, b)
      | Some n =>
          match list_remove_first (fun c => (ne_callback c =? cb) && (ne_userdata c =? ud))
                  (node_enumerators n) with
          | None => (0%Z, b)
          | Some (_, rest) =>
              let b1 := update_node b path (fun n => node_set_enumerators n rest) in
              (1%Z, set_modified (bus_node_gc b1 path) true)
          end
      end
  end.

Definition sd_bus_add_object_manager (b : sd_bus) (path : string) : Z * sd_bus :=
  if negb (object_path_is_valid path) then (- Errno.EINVAL, b)%Z
  else if bus_pid_changed b then (- Errno.ECHILD, b)%Z
  else
    let b1 := bus_node_allocate b path in
    (0%Z, set_modified (update_node b1 path (fun n => node_set_object_manager n true)) true).

Definition sd_bus_remove_object_manager (b : sd_bus) (path : string) : Z * sd_bus :=
  if negb (object_path_is_valid path) then (- Errno.EINVAL, b)%Z
  else if bus_pid_changed b then (- Errno.ECHILD, b)%Z
  else match bus_nodes b !! path with
  | None => (0%Z, b)
  | Some n =>
      if negb (node_object_manager n) then (0%Z, b)
      else
        let b1 := set_modified (update_node b path (fun n => node_set_object_manager n false)) true in
        (1%Z, bus_node_gc b1 path)
  end.

End Registration.

End Registration.
