(* ===== verification/RegistrationInv.v ===== *)
(** * Invariants of the registration API

    The invariant [bus_inv] of a bus reachable through the registration
    API: the node store is well formed (NodeStore), no node is empty, every
    registered vtable starts with its START entry, and both indices are
    sound: every index entry is the member of a vtable that is still
    registered at the entry's path, under the entry's key.

    Soundness is what the dispatcher relies on when it follows
    [v->parent]: no index entry outlives its vtable.  Completeness, the
    converse (every member of a registered vtable has its index entry), is
    what [add_object_vtable_internal] breaks on its failure path. *)

From S2P Require Import Prelude ObjectPath Vtable Message BusState NodeStore Registration.
Import ObjectPath Vtable Message BusState NodeStore Registration.

Module RegistrationInv.

Definition has_vtable (ns : gmap string node) (p : string) (c : node_vtable) : Prop :=
  exists n, ns !! p = Some n /\ c ∈ node_vtables n.

Definition index_sound (sel : sd_bus_vtable -> option string) (ns : gmap string node)
    (idx : gmap member_key vtable_member) : Prop :=
  forall k e, idx !! k = Some e ->
    k = vm_key e /\ sel (vm_vtable e) = Some (vm_member e) /\
    vm_vtable e ∈ vtable_body (vr_entries (nv_vtable (vm_parent e))) /\
    vm_path e = nv_node (vm_parent e) /\ vm_interface e = nv_interface (vm_parent e) /\
    has_vtable ns (vm_path e) (vm_parent e).

Definition starts_with_start (vt : list sd_bus_vtable) : Prop :=
  exists f s rest, vt = VtableStart f s :: rest.

Definition vtables_start (ns : gmap string node) : Prop :=
  forall p c, has_vtable ns p c -> starts_with_start (vr_entries (nv_vtable c)).

(** The invariant, allowing the node at [x] to be empty: that is the state
    between the allocation of a node and the registration at it, or between
    a removal and the garbage collection that follows. *)
Record bus_inv_except (x : option string) (b : sd_bus) : Prop := {
  inv_nodes : nodes_wf (bus_nodes b);
  inv_nonempty : nodes_nonempty_except (bus_nodes b) x;
  inv_start : vtables_start (bus_nodes b);
  inv_methods : index_sound method_member (bus_nodes b) (bus_vtable_methods b);
  inv_properties : index_sound property_member (bus_nodes b) (bus_vtable_properties b)
}.

Definition bus_inv (b : sd_bus) : Prop := bus_inv_except None b.

(** ** Monotonicity of the invariant's parts *)

Definition vtables_kept (ns ns' : gmap string node) : Prop :=
  forall p c, has_vtable ns p c -> has_vtable ns' p c.

Lemma index_sound_kept sel ns ns' idx :
  vtables_kept ns ns' -> index_sound sel ns idx -> index_sound sel ns' idx.
Proof. intros Hk Hs k e He. destruct (Hs k e He) as (? & ? & ? & ? & ? & ?). eauto 10. Qed.

Lemma index_sound_sub sel ns idx idx' :
  (forall k e, idx' !! k = Some e -> idx !! k = Some e) ->
  index_sound sel ns idx -> index_sound sel ns idx'.
Proof. intros Hsub Hs k e He. by apply Hs, Hsub. Qed.

Lemma store_grows_kept path ns ns' : store_grows path ns ns' -> vtables_kept ns ns'.
Proof.
  intros [Hg _] p c (n & Hn & Hc). destruct (Hg _ _ Hn) as (n' & Hn' & [Heq _]).
  exists n'. split; [done|]. rewrite Heq. by destruct n.
Qed.

Lemma store_shrinks_kept ns ns' : store_shrinks ns' ns -> vtables_kept ns ns'.
Proof.
  intros [Hs1 Hs2] p c (n & Hn & Hc). destruct (ns' !! p) as [n'|] eqn:Hn'.
  - destruct (Hs1 _ _ Hn') as (n0 & Hn0 & [Heq _]). rewrite Hn in Hn0. simplify_eq.
    exists n'. split; [done|]. rewrite Heq in Hc. by destruct n'.
  - destruct (Hs2 _ _ Hn Hn') as (_ & Hv & _). rewrite Hv in Hc. set_solver.
Qed.

Lemma vtables_start_kept ns ns' :
  (forall p c, has_vtable ns' p c -> has_vtable ns p c) -> vtables_start ns -> vtables_start ns'.
Proof. intros Hk Hs p c Hc. by eapply Hs, Hk. Qed.

(** A write through a node pointer that keeps the tree links. *)
Definition keeps_links (f : node -> node) : Prop :=
  forall n, node_path (f n) = node_path n /\ node_parent (f n) = node_parent n /\
            node_child (f n) = node_child n.

Lemma nodes_wf_alter f p ns : keeps_links f -> nodes_wf ns -> nodes_wf (alter f p ns).
Proof.
  intros Hf Hwf.
  assert (Hl : forall r m, alter f p ns !! r = Some m ->
             exists m0, ns !! r = Some m0 /\ node_path m = node_path m0 /\
                        node_parent m = node_parent m0 /\ node_child m = node_child m0).
  { intros r m. rewrite lookup_alter. case_decide; subst; [|eauto].
    destruct (ns !! r) eqn:E; intros; simplify_eq/=. eexists; split; [done|]. apply Hf. }
  assert (Hs : forall r m0, ns !! r = Some m0 -> exists m, alter f p ns !! r = Some m /\
             node_parent m = node_parent m0 /\ node_child m = node_child m0).
  { intros r m0 H. rewrite lookup_alter. case_decide; subst; rewrite H; simpl;
      [|by eexists]. eexists; split; [done|]. apply Hf. }
  constructor.
  - intros r m (m0 & H0 & -> & _)%Hl. by eapply (nwf_path _ Hwf).
  - intros r m q (m0 & H0 & _ & -> & _)%Hl Hq.
    destruct (nwf_parent _ Hwf _ _ _ H0 Hq) as (? & pn & Hpn & Hin).
    destruct (Hs _ _ Hpn) as (pm & ? & _ & Hc). split; [done|]. exists pm. by rewrite Hc.
  - intros r m c (m0 & H0 & _ & _ & ->)%Hl Hc.
    destruct (nwf_child _ Hwf _ _ _ H0 Hc) as (cn & Hcn & Hpar).
    destruct (Hs _ _ Hcn) as (cm & ? & Hp & _). exists cm. by rewrite Hp.
  - intros r m (m0 & H0 & _ & _ & ->)%Hl. by eapply (nwf_nodup _ Hwf).
Qed.

Lemma store_grows_nonempty path ns ns' :
  store_grows path ns ns' -> nodes_nonempty_except ns None ->
  nodes_nonempty_except ns' (Some path).
Proof.
  intros [Hg1 Hg2] Hne r m' Hr Hpr. destruct (ns !! r) as [m|] eqn:Hm.
  - destruct (Hg1 _ _ Hm) as (m'' & Hr' & [Heq Hsub]). rewrite Hr in Hr'. simplify_eq.
    pose proof (Hne _ _ Hm ltac:(done)) as Hm_ne.
    apply not_true_iff_false. rewrite node_is_empty_spec. intros (Hc & Hcb & Hv & He & Ho).
    apply not_true_iff_false in Hm_ne. apply Hm_ne, node_is_empty_spec.
    rewrite Heq in Hcb, Hv, He, Ho. simpl in *. split_and!; try done.
    destruct (node_child m) as [|x l] eqn:E; [done|]. exfalso.
    specialize (Hsub x). rewrite Hc in Hsub. apply (not_elem_of_nil x), Hsub.
    apply elem_of_cons. by left.
  - destruct (Hg2 _ _ Hr Hm) as (_ & _ & _ & _ & _ & Hc).
    apply not_true_iff_false. rewrite node_is_empty_spec. intros (? & _). apply Hc; [congruence|done].
Qed.

Lemma nonempty_alter path f ns :
  nodes_nonempty_except ns (Some path) ->
  (forall n, ns !! path = Some n -> node_is_empty (f n) = false) ->
  nodes_nonempty_except (alter f path ns) None.
Proof.
  intros Hne Hf r m. rewrite lookup_alter. case_decide; subst.
  - destruct (ns !! r) eqn:E; intros; simplify_eq/=. by apply Hf.
  - intros Hr _. apply (Hne _ _ Hr). congruence.
Qed.

Lemma store_grows_back path ns ns' p c :
  store_grows path ns ns' -> has_vtable ns' p c -> has_vtable ns p c.
Proof.
  intros [Hg1 Hg2] (n' & Hn' & Hc). destruct (ns !! p) as [n|] eqn:Hn.
  - destruct (Hg1 _ _ Hn) as (n'' & Hn'' & [Heq _]). rewrite Hn' in Hn''. simplify_eq.
    exists n. split; [done|]. rewrite Heq in Hc. by destruct n.
  - destruct (Hg2 _ _ Hn' Hn) as (_ & _ & Hv & _). rewrite Hv in Hc. set_solver.
Qed.

Lemma store_shrinks_back ns ns' p c :
  store_shrinks ns' ns -> has_vtable ns' p c -> has_vtable ns p c.
Proof.
  intros [Hs1 _] (n' & Hn' & Hc). destruct (Hs1 _ _ Hn') as (n & Hn & [Heq _]).
  exists n. split; [done|]. rewrite Heq. by destruct n'.
Qed.

(** The invariant reads only the nodes and the two indices. *)
Lemma bus_inv_except_fields x b b' :
  bus_nodes b' = bus_nodes b -> bus_vtable_methods b' = bus_vtable_methods b ->
  bus_vtable_properties b' = bus_vtable_properties b ->
  bus_inv_except x b -> bus_inv_except x b'.
Proof. intros H1 H2 H3 []. constructor; by rewrite ?H1, ?H2, ?H3. Qed.

Lemma bus_inv_except_set_modified x b v : bus_inv_except x b -> bus_inv_except x (set_modified b v).
Proof. by apply bus_inv_except_fields. Qed.

Lemma bus_inv_except_alloc_id x b : bus_inv_except x b -> bus_inv_except x (snd (alloc_id b)).
Proof. by apply bus_inv_except_fields. Qed.

Lemma bus_inv_except_send x b m : bus_inv_except x b -> bus_inv_except x (bus_send b m).
Proof. by apply bus_inv_except_fields. Qed.

Lemma bus_inv_except_weaken x b : bus_inv b -> bus_inv_except x b.
Proof.
  intros []. constructor; try done. intros p n Hn _. by apply (inv_nonempty0 _ _ Hn).
Qed.

#[export] Hint Resolve bus_inv_except_set_modified bus_inv_except_alloc_id
  bus_inv_except_send bus_inv_except_weaken : sdbus.

(** ** The steps the operations are made of *)

Lemma bus_node_allocate_inv b path :
  bus_inv b -> object_path_is_valid path = true ->
  let b' := bus_node_allocate b path in
  bus_inv_except (Some path) b' /\ is_Some (bus_nodes b' !! path) /\
  b' = set_nodes b (bus_nodes b') /\
  (forall p c, has_vtable (bus_nodes b') p c <-> has_vtable (bus_nodes b) p c).
Proof.
  intros [] Hv. destruct (bus_node_allocate_fuel_spec (String.length path) b path inv_nodes0 Hv
    ltac:(lia)) as (Hb & Hwf & Hs & Hg).
  fold (bus_node_allocate b path) in *. set (b' := bus_node_allocate b path) in *.
  assert (Hk : forall p c, has_vtable (bus_nodes b') p c <-> has_vtable (bus_nodes b) p c).
  { split; [by apply (store_grows_back _ _ _ _ _ Hg)|by apply (store_grows_kept _ _ _ Hg)]. }
  split_and!; [|done|done|done].
  rewrite Hb. autorewrite with sdbus_rw. constructor; simpl; try done.
  - by apply (store_grows_nonempty path (bus_nodes b)).
  - apply (vtables_start_kept (bus_nodes b)); [intros ??; apply Hk|done].
  - apply (index_sound_kept _ (bus_nodes b)); [intros ??; apply Hk|done].
  - apply (index_sound_kept _ (bus_nodes b)); [intros ??; apply Hk|done].
Qed.

Lemma bus_node_gc_inv b path :
  bus_inv_except (Some path) b ->
  let b' := bus_node_gc b path in
  bus_inv b' /\ b' = set_nodes b (bus_nodes b') /\
  (forall p c, has_vtable (bus_nodes b') p c <-> has_vtable (bus_nodes b) p c).
Proof.
  intros []. destruct (bus_node_gc_fuel_spec (String.length path) b path inv_nodes0 ltac:(lia)
    inv_nonempty0) as (Hb & Hwf & Hne & Hs).
  fold (bus_node_gc b path) in *. set (b' := bus_node_gc b path) in *.
  assert (Hk : forall p c, has_vtable (bus_nodes b') p c <-> has_vtable (bus_nodes b) p c).
  { split; [by apply (store_shrinks_back _ _ _ _ Hs)|by apply (store_shrinks_kept _ _ Hs)]. }
  split_and!; [|done|done].
  rewrite Hb. autorewrite with sdbus_rw. constructor; simpl; try done.
  - apply (vtables_start_kept (bus_nodes b)); [intros ??; apply Hk|done].
  - apply (index_sound_kept _ (bus_nodes b)); [intros ??; apply Hk|done].
  - apply (index_sound_kept _ (bus_nodes b)); [intros ??; apply Hk|done].
Qed.

Lemma has_vtable_alter_same f path ns p c :
  (forall n, node_vtables (f n) = node_vtables n) ->
  has_vtable (alter f path ns) p c <-> has_vtable ns p c.
Proof.
  intros Hf. unfold has_vtable. rewrite lookup_alter. case_decide; subst; [|done].
  destruct (ns !! p) as [m|]; simpl; split; intros (n & Hn & Hc); simplify_eq.
  - exists m. rewrite Hf in Hc. done.
  - exists (f n). rewrite Hf. done.
Qed.

(** A write at [path] that leaves the links and the vtables alone: the
    invariant holds, except possibly at [path]; and everywhere when the
    write leaves the node non-empty. *)
Lemma update_node_inv_both x b path f :
  bus_inv_except x b -> (x = None \/ x = Some path) ->
  keeps_links f -> (forall n, node_vtables (f n) = node_vtables n) ->
  bus_inv_except (Some path) (update_node b path f) /\
  ((forall n, node_is_empty (f n) = false) -> bus_inv (update_node b path f)).
Proof.
  intros [] Hx Hf Hv.
  assert (Hk : forall p c, has_vtable (alter f path (bus_nodes b)) p c <-> has_vtable (bus_nodes b) p c)
    by (intros; by apply has_vtable_alter_same).
  assert (Hne : nodes_nonempty_except (bus_nodes b) (Some path)).
  { intros p n Hn Hp. apply (inv_nonempty0 _ _ Hn). destruct Hx; congruence. }
  split; [|intros Hf'];
    (constructor; simpl;
     [by apply nodes_wf_alter| |
      apply (vtables_start_kept (bus_nodes b)); [intros ??; apply Hk|done] |
      apply (index_sound_kept _ (bus_nodes b)); [intros ??; apply Hk|done] |
      apply (index_sound_kept _ (bus_nodes b)); [intros ??; apply Hk|done]]).
  - intros p n. rewrite lookup_alter. case_decide; subst; [congruence|].
    intros Hn _. apply (Hne _ _ Hn). congruence.
  - apply nonempty_alter; auto.
Qed.

Lemma update_node_inv x b path f :
  bus_inv_except x b -> (x = None \/ x = Some path) ->
  keeps_links f -> (forall n, node_vtables (f n) = node_vtables n) ->
  bus_inv_except (Some path) (update_node b path f).
Proof. intros. by apply (update_node_inv_both x). Qed.

Lemma update_node_inv_nonempty x b path f :
  bus_inv_except x b -> (x = None \/ x = Some path) ->
  keeps_links f -> (forall n, node_vtables (f n) = node_vtables n) ->
  (forall n, node_is_empty (f n) = false) -> bus_inv (update_node b path f).
Proof. intros. by apply (update_node_inv_both x). Qed.

(** ** Preservation by the operations on callbacks, enumerators and
    object managers *)

Section Ops.
  Context `{BusValidators}.

Ltac nonempty_tac :=
  intros ?; apply not_true_iff_false; rewrite node_is_empty_spec; simpl;
  intros (? & ? & ? & ? & ?); congruence.

Lemma bus_add_object_inv b fallback path cb ud :
  bus_inv b -> bus_inv (snd (bus_add_object b fallback path cb ud)).
Proof.
  intros Hinv. unfold bus_add_object.
  destruct (object_path_is_valid path) eqn:Hv; [|done]. destruct cb as [cb|]; [|done].
  destruct (bus_pid_changed b); [done|]. simpl.
  destruct (bus_node_allocate_inv b path Hinv Hv) as (Hi1 & _).
  apply bus_inv_except_set_modified.
  apply (update_node_inv_nonempty (Some path)); auto;
    [exact (bus_inv_except_alloc_id _ _ Hi1)|fields_kept|].
  nonempty_tac.
Qed.

(** A removal from a node's list, followed by the garbage collection. *)
Lemma remove_then_gc_inv b path f :
  bus_inv b -> keeps_links f -> (forall n, node_vtables (f n) = node_vtables n) ->
  bus_inv (set_modified (bus_node_gc (update_node b path f) path) true).
Proof.
  intros Hinv Hl Hv. apply bus_inv_except_set_modified.
  apply bus_node_gc_inv, (update_node_inv None); auto.
Qed.

Lemma bus_remove_object_inv b fallback path cb ud :
  bus_inv b -> bus_inv (snd (bus_remove_object b fallback path cb ud)).
Proof.
  intros Hinv. unfold bus_remove_object.
  destruct (object_path_is_valid path); [|done]. destruct cb as [cb|]; [|done].
  destruct (bus_pid_changed b); [done|]. destruct (bus_nodes b !! path); [|done].
  destruct (list_remove_first _ _) as [[??]|]; [|done].
  apply remove_then_gc_inv; [done|fields_kept|done].
Qed.

Lemma sd_bus_add_node_enumerator_inv b path cb ud :
  bus_inv b -> bus_inv (snd (sd_bus_add_node_enumerator b path cb ud)).
Proof.
  intros Hinv. unfold sd_bus_add_node_enumerator.
  destruct (object_path_is_valid path) eqn:Hv; [|done]. destruct cb as [cb|]; [|done].
  destruct (bus_pid_changed b); [done|]. simpl.
  destruct (bus_node_allocate_inv b path Hinv Hv) as (Hi1 & _).
  apply bus_inv_except_set_modified.
  apply (update_node_inv_nonempty (Some path)); auto; [fields_kept|].
  nonempty_tac.
Qed.

Lemma sd_bus_remove_node_enumerator_inv b path cb ud :
  bus_inv b -> bus_inv (snd (sd_bus_remove_node_enumerator b path cb ud)).
Proof.
  intros Hinv. unfold sd_bus_remove_node_enumerator.
  destruct (object_path_is_valid path); [|done]. destruct cb as [cb|]; [|done].
  destruct (bus_pid_changed b); [done|]. destruct (bus_nodes b !! path); [|done].
  destruct (list_remove_first _ _) as [[??]|]; [|done].
  apply remove_then_gc_inv; [done|fields_kept|done].
Qed.

Lemma sd_bus_add_object_manager_inv b path :
  bus_inv b -> bus_inv (snd (sd_bus_add_object_manager b path)).
Proof.
  intros Hinv. unfold sd_bus_add_object_manager.
  destruct (object_path_is_valid path) eqn:Hv; [|done].
  destruct (bus_pid_changed b); [done|]. simpl.
  destruct (bus_node_allocate_inv b path Hinv Hv) as (Hi1 & _).
  apply bus_inv_except_set_modified.
  apply (update_node_inv_nonempty (Some path)); auto; [fields_kept|].
  nonempty_tac.
Qed.

Lemma sd_bus_remove_object_manager_inv b path :
  bus_inv b -> bus_inv (snd (sd_bus_remove_object_manager b path)).
Proof.
  intros Hinv. unfold sd_bus_remove_object_manager.
  destruct (object_path_is_valid path); [|done].
  destruct (bus_pid_changed b); [done|]. destruct (bus_nodes b !! path); [|done].
  destruct (node_object_manager n); [|done]. simpl.
  apply bus_node_gc_inv, bus_inv_except_set_modified, (update_node_inv None); auto.
  fields_kept.
Qed.

End Ops.

(** ** The member loop and [free_node_vtable] *)

(** The keys [free_node_vtable] removes from an index. *)
Definition vtable_keys (sel : sd_bus_vtable -> option string) (w : node_vtable) : list member_key :=
  map (fun m => (nv_node w, nv_interface w, m)) (omap sel (until_end (vr_entries (nv_vtable w)))).

Lemma free_member_key_nodes w b v : bus_nodes (free_member_key w b v) = bus_nodes b.
Proof. unfold free_member_key. by destruct (method_member v), (property_member v). Qed.

Lemma free_node_vtable_spec b w :
  bus_nodes (free_node_vtable b w) = bus_nodes b /\
  (forall k, bus_vtable_methods (free_node_vtable b w) !! k =
     if decide (k ∈ vtable_keys method_member w) then None else bus_vtable_methods b !! k) /\
  (forall k, bus_vtable_properties (free_node_vtable b w) !! k =
     if decide (k ∈ vtable_keys property_member w) then None else bus_vtable_properties b !! k).
Proof.
  unfold free_node_vtable, vtable_keys.
  generalize (until_end (vr_entries (nv_vtable w))) as es. intros es. revert b.
  induction es as [|v es IH]; intros b; simpl.
  - split_and!; done.
  - destruct (IH (free_member_key w b v)) as (Hn & Hm & Hp).
    rewrite free_member_key_nodes in Hn. split_and!; [done| |]; intros k; [rewrite Hm|rewrite Hp];
      unfold free_member_key; destruct v; simpl; rewrite ?lookup_delete;
      repeat case_decide; set_solver.
Qed.

(** What the member loop adds: entries of the new vtable [c], one per
    method or property of [es], under their own key. *)
Definition new_entry_of (sel : sd_bus_vtable -> option string) (c : node_vtable)
    (es : list sd_bus_vtable) (k : member_key) (e : vtable_member) : Prop :=
  vm_parent e = c /\ k = vm_key e /\ sel (vm_vtable e) = Some (vm_member e) /\
  vm_vtable e ∈ es /\ vm_path e = nv_node c /\ vm_interface e = nv_interface c.

Lemma add_vtable_members_spec `{BusValidators} c es b r b' :
  add_vtable_members c es b = (r, b') ->
  b' = set_properties (set_methods b (bus_vtable_methods b')) (bus_vtable_properties b') /\
  (forall k e, bus_vtable_methods b' !! k = Some e ->
     bus_vtable_methods b !! k = Some e \/ new_entry_of method_member c es k e) /\
  (forall k e, bus_vtable_properties b' !! k = Some e ->
     bus_vtable_properties b !! k = Some e \/ new_entry_of property_member c es k e).
Proof.
  revert b. induction es as [|v es IH]; intros b Hadd; simpl in Hadd.
  { simplify_eq. destruct b'; split_and!; auto. }
  destruct (vtable_entry_ok v); simpl in Hadd; [|simplify_eq; destruct b'; split_and!; auto].
  destruct (method_member v) as [m|] eqn:Hm; [|destruct (property_member v) as [m|] eqn:Hp].
  - destruct (bus_vtable_methods b !! _) eqn:Hk; [simplify_eq; destruct b'; split_and!; auto|].
    destruct (IH _ Hadd) as (Hb' & H1 & H2). split_and!; [by rewrite Hb'| |].
    + intros k e He. destruct (H1 _ _ He) as [He'|(? & ? & ? & ? & ? & ?)]; [|right; repeat split; set_solver].
      simpl in He'. rewrite lookup_insert in He'. case_decide; simplify_eq; [|auto].
      right. repeat split; [done|set_solver].
    + intros k e He. destruct (H2 _ _ He) as [?|(? & ? & ? & ? & ? & ?)]; [auto|right; repeat split; set_solver].
  - destruct (bus_vtable_properties b !! _) eqn:Hk; [simplify_eq; destruct b'; split_and!; auto|].
    destruct (IH _ Hadd) as (Hb' & H1 & H2). split_and!; [by rewrite Hb'| |].
    + intros k e He. destruct (H1 _ _ He) as [?|(? & ? & ? & ? & ? & ?)]; [auto|right; repeat split; set_solver].
    + intros k e He. destruct (H2 _ _ He) as [He'|(? & ? & ? & ? & ? & ?)]; [|right; repeat split; set_solver].
      simpl in He'. rewrite lookup_insert in He'. case_decide; simplify_eq; [|auto].
      right. repeat split; [done|set_solver].
  - destruct (IH _ Hadd) as (Hb' & H1 & H2). split_and!; [done| |]; intros k e He;
      [destruct (H1 _ _ He) as [?|(? & ? & ? & ? & ? & ?)]
      |destruct (H2 _ _ He) as [?|(? & ? & ? & ? & ? & ?)]];
      auto; right; repeat split; set_solver.
Qed.

Lemma vtable_body_until_end vt v :
  starts_with_start vt -> v ∈ vtable_body vt -> v ∈ until_end vt.
Proof. intros (f & sz & rest & ->). unfold vtable_body. simpl. set_solver. Qed.

(** A new entry of [c] is stored under one of the keys that
    [free_node_vtable c] removes. *)
Lemma new_entry_key sel c k e :
  starts_with_start (vr_entries (nv_vtable c)) ->
  new_entry_of sel c (vtable_body (vr_entries (nv_vtable c))) k e ->
  k ∈ vtable_keys sel c.
Proof.
  intros Hst (_ & -> & Hsel & Hin & Hp & Hi). unfold vm_key, vtable_keys.
  rewrite Hp, Hi. apply list_elem_of_fmap. exists (vm_member e). split; [done|].
  apply list_elem_of_omap. exists (vm_vtable e). split; [|done].
  by apply vtable_body_until_end.
Qed.

(** A sound entry whose vtable is [c] is stored under a key of [c]. *)
Lemma sound_entry_key sel ns idx k e :
  index_sound sel ns idx -> idx !! k = Some e ->
  starts_with_start (vr_entries (nv_vtable (vm_parent e))) ->
  k ∈ vtable_keys sel (vm_parent e).
Proof.
  intros Hs Hk Hst. destruct (Hs _ _ Hk) as (-> & ? & ? & ? & ? & _).
  apply (new_entry_key sel (vm_parent e) _ e Hst). repeat split; done.
Qed.

Lemma has_vtable_alter f path ns p c :
  has_vtable (alter f path ns) p c <->
  (p = path /\ exists n, ns !! path = Some n /\ c ∈ node_vtables (f n)) \/
  (p <> path /\ has_vtable ns p c).
Proof.
  unfold has_vtable. rewrite lookup_alter. case_decide; subst.
  - destruct (ns !! p); simpl; split; [intros (? & ? & ?)|intros [(_ & ? & ? & ?)|(? & _)]|
      intros (? & ? & ?)|intros [(_ & ? & ? & ?)|(? & _)]]; simplify_eq; eauto; done.
  - split; [eauto|]. intros [(? & _)|(_ & ?)]; [congruence|done].
Qed.

Lemma add_vtable_guards_ok `{BusValidators} b path iface vt :
  add_vtable_guards b path iface (Some vt) = None ->
  object_path_is_valid path = true /\ starts_with_start (vr_entries vt).
Proof.
  unfold add_vtable_guards. destruct (object_path_is_valid path); [|done].
  destruct (interface_name_is_valid iface); [|done].
  destruct (vr_entries vt) as [|[] rest]; try done. intros _. split; [done|]. by do 3 eexists.
Qed.

Lemma empty_bus_inv trusted is_kernel : bus_inv (empty_bus trusted is_kernel).
Proof.
  constructor; simpl.
  - split; intros ??; rewrite lookup_empty; done.
  - intros ??; rewrite lookup_empty; done.
  - intros ?? (? & Hn & _). by rewrite lookup_empty in Hn.
  - intros ??; rewrite lookup_empty; done.
  - intros ??; rewrite lookup_empty; done.
Qed.

Lemma add_vtable_guards_err `{BusValidators} b path iface vt r :
  add_vtable_guards b path iface vt = Some r ->
  r = (- Errno.EINVAL)%Z \/ r = (- Errno.ECHILD)%Z.
Proof. unfold add_vtable_guards. repeat case_match; intros; simplify_eq; auto. Qed.

Lemma add_vtable_members_ret `{BusValidators} c es b r b' :
  add_vtable_members c es b = (r, b') ->
  r = 0%Z \/ r = (- Errno.EINVAL)%Z \/ r = (- Errno.EEXIST)%Z.
Proof.
  revert b. induction es as [|v es IH]; intros b; simpl; [intros [= <- _]; auto|].
  destruct (vtable_entry_ok v); simpl; [|intros [= <- _]; auto].
  repeat case_match; try (intros [= <- _]; auto); apply IH.
Qed.

Section VtableOps.
  Context `{BusValidators}.

(** The failure path of the member loop: the index entries the loop added
    are all removed again, so what is left is part of the old index. *)
Lemma add_vtable_members_fail_inv b c r b3 path :
  bus_inv_except (Some path) b ->
  starts_with_start (vr_entries (nv_vtable c)) ->
  add_vtable_members c (vtable_body (vr_entries (nv_vtable c))) b = (r, b3) ->
  bus_inv_except (Some path) (free_node_vtable b3 c).
Proof.
  intros [] Hst Hadd. destruct (add_vtable_members_spec _ _ _ _ _ Hadd) as (Hb3 & Hm & Hp).
  destruct (free_node_vtable_spec b3 c) as (Hn & Hfm & Hfp).
  assert (Hnodes : bus_nodes (free_node_vtable b3 c) = bus_nodes b) by (rewrite Hn, Hb3; done).
  constructor; rewrite ?Hnodes; try done.
  - apply (index_sound_sub _ _ (bus_vtable_methods b)); [|done].
    intros k e. rewrite Hfm. case_decide as Hk; [done|].
    intros [?|Hnew]%Hm; [done|]. by destruct Hk; apply (new_entry_key _ c _ e).
  - apply (index_sound_sub _ _ (bus_vtable_properties b)); [|done].
    intros k e. rewrite Hfp. case_decide as Hk; [done|].
    intros [?|Hnew]%Hp; [done|]. by destruct Hk; apply (new_entry_key _ c _ e).
Qed.

Definition insert_vtable (a : option (node_vtable -> bool)) (c : node_vtable) (n : node) : node :=
  node_set_vtables n (list_insert_after_opt a c (node_vtables n)).

(** A write at [path] that adds [c] to the node's vtables, in any place. *)
Lemma has_vtable_alter_cons f c path ns p c' :
  is_Some (ns !! path) -> (forall n, node_vtables (f n) ≡ₚ c :: node_vtables n) ->
  has_vtable (alter f path ns) p c' <-> (p = path /\ c' = c) \/ has_vtable ns p c'.
Proof.
  intros [n Hn] Hf. rewrite has_vtable_alter. setoid_rewrite Hf. unfold has_vtable. split.
  - intros [(-> & m & Hm & [->|Hin]%elem_of_cons)|(_ & ?)]; eauto.
  - intros [(-> & ->)|(m & Hm & Hin)].
    + left. split; [done|]. exists n. split; [done|]. apply elem_of_cons; by left.
    + destruct (decide (p = path)) as [->|]; [|eauto].
      left. split; [done|]. exists m. split; [done|]. apply elem_of_cons; by right.
Qed.

Lemma has_vtable_insert_vtable a c path ns p c' :
  is_Some (ns !! path) ->
  has_vtable (alter (insert_vtable a c) path ns) p c' <-> (p = path /\ c' = c) \/ has_vtable ns p c'.
Proof. intros Hs. apply has_vtable_alter_cons; [done|]. intros n. apply list_insert_after_opt_perm. Qed.

Lemma add_vtable_members_success_inv b c r b3 path a :
  bus_inv_except (Some path) b -> is_Some (bus_nodes b !! path) -> nv_node c = path ->
  starts_with_start (vr_entries (nv_vtable c)) ->
  add_vtable_members c (vtable_body (vr_entries (nv_vtable c))) b = (r, b3) ->
  bus_inv (update_node b3 path (insert_vtable a c)).
Proof.
  intros [] Hs Hc Hst Hadd. destruct (add_vtable_members_spec _ _ _ _ _ Hadd) as (Hb3 & Hm & Hp).
  assert (Hnodes : bus_nodes b3 = bus_nodes b) by (rewrite Hb3; done).
  assert (Hk : forall p c', has_vtable (bus_nodes (update_node b3 path (insert_vtable a c))) p c' <->
                 (p = path /\ c' = c) \/ has_vtable (bus_nodes b) p c').
  { intros. simpl. rewrite Hnodes. by apply has_vtable_insert_vtable. }
  assert (Hsound : forall sel idx idx', index_sound sel (bus_nodes b) idx ->
            (forall k e, idx' !! k = Some e -> idx !! k = Some e \/
               new_entry_of sel c (vtable_body (vr_entries (nv_vtable c))) k e) ->
            index_sound sel (bus_nodes (update_node b3 path (insert_vtable a c))) idx').
  { intros sel idx idx' Hs0 Hsub k e [He|(Hpar & -> & ? & ? & Hpath & ?)]%Hsub.
    - destruct (Hs0 _ _ He) as (? & ? & ? & ? & ? & ?). split_and!; try done. apply Hk; by right.
    - subst. split_and!; try done. apply Hk. left. by rewrite Hpath. }
  constructor.
  - simpl. rewrite Hnodes. apply nodes_wf_alter; [intros ?; simpl; split_and!; done|done].
  - simpl. rewrite Hnodes. apply nonempty_alter; [done|]. intros n _.
    apply not_true_iff_false. rewrite node_is_empty_spec. simpl. intros (_ & _ & Hv & _).
    pose proof (list_insert_after_opt_perm a c (node_vtables n)) as P.
    rewrite Hv in P. apply Permutation_length in P. done.
  - intros p c' [(-> & ->)|?]%Hk; [done|]. by apply (inv_start0 p).
  - by apply (Hsound _ (bus_vtable_methods b)).
  - by apply (Hsound _ (bus_vtable_properties b)).
Qed.

(** Every reachable-state invariant of the store and the indices is
    kept by [add_object_vtable_internal], whether it succeeds or fails. *)
Lemma add_object_vtable_internal_inv b path iface vt fallback find ud :
  bus_inv b -> bus_inv (snd (add_object_vtable_internal b path iface vt fallback find ud)).
Proof.
  intros Hinv. unfold add_object_vtable_internal.
  destruct (add_vtable_guards b path iface vt) as [r|] eqn:Hg; [done|].
  destruct vt as [vt|]; [|done]. apply add_vtable_guards_ok in Hg as [Hv Hst].
  destruct (bus_node_allocate_inv b path Hinv Hv) as (Hi1 & Hs1 & _).
  set (b1 := bus_node_allocate b path) in *.
  destruct (scan_node_vtables _ _ _ _ _) as [r|existing]; [by apply bus_node_gc_inv|].
  unfold alloc_id. cbv zeta.
  match goal with |- context [add_vtable_members ?c ?es ?b2] =>
    destruct (add_vtable_members c es b2) as [r b3] eqn:Hadd end.
  assert (Hi2 := bus_inv_except_alloc_id _ _ Hi1). unfold alloc_id in Hi2. simpl in Hi2.
  destruct r; cbn -[list_insert_after_opt].
  - apply bus_inv_except_set_modified.
    eapply (add_vtable_members_success_inv _ _ _ _ _ _ Hi2); [exact Hs1|reflexivity|exact Hst|exact Hadd].
  - apply bus_node_gc_inv. refine (add_vtable_members_fail_inv _ _ _ _ _ Hi2 _ Hadd); exact Hst.
  - apply bus_node_gc_inv. refine (add_vtable_members_fail_inv _ _ _ _ _ Hi2 _ Hadd); exact Hst.
Qed.

Lemma remove_vtable_free_inv b path n c rest :
  bus_inv b -> bus_nodes b !! path = Some n -> node_vtables n ≡ₚ c :: rest ->
  bus_inv_except (Some path)
    (free_node_vtable (update_node b path (fun n => node_set_vtables n rest)) c).
Proof.
  intros [] Hn Hperm.
  set (b1 := update_node b path (fun n => node_set_vtables n rest)).
  destruct (free_node_vtable_spec b1 c) as (Hnodes & Hfm & Hfp).
  assert (Hcv : has_vtable (bus_nodes b) path c) by (exists n; rewrite Hperm; set_solver).
  assert (Hk : forall p c', has_vtable (bus_nodes (free_node_vtable b1 c)) p c' <->
             (p = path /\ c' ∈ rest) \/ (p <> path /\ has_vtable (bus_nodes b) p c')).
  { intros p c'. rewrite Hnodes. simpl. rewrite has_vtable_alter. simpl.
    split; [intros [(-> & m & Hm & ?)|?]; [rewrite Hn in Hm; simplify_eq|]; auto|].
    intros [(-> & ?)|?]; auto. left. eauto. }
  assert (Hback : forall p c', has_vtable (bus_nodes (free_node_vtable b1 c)) p c' ->
                    has_vtable (bus_nodes b) p c').
  { intros p c' [(-> & ?)|(_ & ?)]%Hk; [|done]. exists n. rewrite Hperm. set_solver. }
  assert (Hsound : forall sel idx idx', index_sound sel (bus_nodes b) idx ->
            (forall k e, idx' !! k = Some e -> idx !! k = Some e /\ k ∉ vtable_keys sel c) ->
            index_sound sel (bus_nodes (free_node_vtable b1 c)) idx').
  { intros sel idx idx' Hs0 Hsub k e [He Hnk]%Hsub.
    destruct (Hs0 _ _ He) as (? & ? & ? & ? & ? & (m & Hm & Hin)). split_and!; try done.
    apply Hk. destruct (decide (vm_path e = path)) as [Hp|Hp]; [left|right; split; [done|by exists m]].
    split; [done|]. rewrite Hp, Hn in Hm. injection Hm as <-. rewrite Hperm in Hin.
    apply elem_of_cons in Hin as [Hc|]; [|done]. destruct Hnk.
    rewrite <- Hc. apply (sound_entry_key _ _ _ _ _ Hs0 He). apply (inv_start0 (vm_path e)).
    rewrite Hc, Hp. done. }
  constructor.
  - rewrite Hnodes. apply nodes_wf_alter; [intros ?; simpl; split_and!; done|done].
  - rewrite Hnodes. intros p m. simpl. rewrite lookup_alter. case_decide; subst; [congruence|].
    intros Hm _. apply (inv_nonempty0 _ _ Hm). congruence.
  - intros p c' Hc'. by apply (inv_start0 p), Hback.
  - apply (Hsound _ (bus_vtable_methods b)); [done|]. intros k e. rewrite Hfm.
    case_decide; [done|]. simpl. auto.
  - apply (Hsound _ (bus_vtable_properties b)); [done|]. intros k e. rewrite Hfp.
    case_decide; [done|]. simpl. auto.
Qed.

(** [remove_object_vtable_internal] keeps the invariant: removing a
    vtable removes every index entry that points to it, and no other. *)
Lemma remove_object_vtable_internal_inv b path iface vt_addr fallback find ud :
  bus_inv b -> bus_inv (snd (remove_object_vtable_internal b path iface vt_addr fallback find ud)).
Proof.
  intros Hinv. unfold remove_object_vtable_internal.
  destruct (object_path_is_valid path); [|done]. destruct (interface_name_is_valid iface); [|done].
  destruct (bus_pid_changed b); [done|]. destruct (bus_nodes b !! path) as [n|] eqn:Hn; [|done].
  destruct (list_remove_first _ _) as [[c rest]|] eqn:Hr; [|done]. simpl.
  apply bus_inv_except_set_modified, bus_node_gc_inv.
  apply (remove_vtable_free_inv _ _ n); [done|done|]. by eapply list_remove_first_perm.
Qed.

(** The member loop only adds keys: an entry present before is still
    there, unchanged. *)
Lemma add_vtable_members_grows c es b r b' :
  add_vtable_members c es b = (r, b') ->
  bus_vtable_methods b ⊆ bus_vtable_methods b' /\ bus_vtable_properties b ⊆ bus_vtable_properties b'.
Proof.
  revert b. induction es as [|v es IH]; intros b Hadd; simpl in Hadd.
  { by simplify_eq. }
  destruct (vtable_entry_ok v); simpl in Hadd; [|by simplify_eq].
  destruct (method_member v) as [m|]; [|destruct (property_member v) as [m|]].
  - destruct (bus_vtable_methods b !! _) eqn:Hk; [by simplify_eq|].
    destruct (IH _ Hadd) as [H1 H2]. split; [|done]. etrans; [|exact H1]. by apply insert_subseteq.
  - destruct (bus_vtable_properties b !! _) eqn:Hk; [by simplify_eq|].
    destruct (IH _ Hadd) as [H1 H2]. split; [done|]. etrans; [|exact H2]. by apply insert_subseteq.
  - by apply IH.
Qed.

(** A member loop that returns 0 has indexed every method and property
    of the entries, each under its own key, pointing to [c]. *)
Lemma add_vtable_members_complete c es b b' :
  add_vtable_members c es b = (0%Z, b') ->
  (forall v m, v ∈ es -> method_member v = Some m ->
     bus_vtable_methods b' !! (nv_node c, nv_interface c, m) = Some (new_member c m v)) /\
  (forall v m, v ∈ es -> property_member v = Some m ->
     bus_vtable_properties b' !! (nv_node c, nv_interface c, m) = Some (new_member c m v)).
Proof.
  revert b. induction es as [|v es IH]; intros b Hadd; simpl in Hadd.
  { split; intros ????; set_solver. }
  destruct (vtable_entry_ok v); simpl in Hadd; [|done].
  assert (Hm_p : forall m, method_member v = Some m -> property_member v = None)
    by (intros m; destruct v; simpl; congruence).
  destruct (method_member v) as [m|] eqn:Hm; [|destruct (property_member v) as [m|] eqn:Hp].
  - destruct (bus_vtable_methods b !! _) eqn:Hk; [done|].
    destruct (IH _ Hadd) as [IH1 IH2]. destruct (add_vtable_members_grows _ _ _ _ _ Hadd) as [G1 _].
    split; intros v' m' [->|Hin]%elem_of_cons Hv'; auto.
    + rewrite Hm in Hv'. simplify_eq. eapply lookup_weaken; [|exact G1]. simpl. by rewrite lookup_insert_eq.
    + by rewrite (Hm_p m) in Hv'.
  - destruct (bus_vtable_properties b !! _) eqn:Hk; [done|].
    destruct (IH _ Hadd) as [IH1 IH2]. destruct (add_vtable_members_grows _ _ _ _ _ Hadd) as [_ G2].
    split; intros v' m' [->|Hin]%elem_of_cons Hv'; auto; [congruence|].
    rewrite Hp in Hv'. simplify_eq. eapply lookup_weaken; [|exact G2]. simpl. by rewrite lookup_insert_eq.
  - destruct (IH _ Hadd) as [IH1 IH2].
    split; intros v' m' [->|Hin]%elem_of_cons Hv'; auto; congruence.
Qed.

Lemma scan_node_vtables_err l iface addr fallback ex r :
  scan_node_vtables l iface addr fallback ex = inl r ->
  r = (- Errno.EPROTOTYPE)%Z \/ r = (- Errno.EEXIST)%Z.
Proof.
  revert ex. induction l as [|i l IH]; intros ex; simpl; [done|].
  destruct (negb _); [intros [= <-]; by left|].
  destruct (String.eqb _ _); [destruct (_ =? _); [intros [= <-]; by right|]|]; apply IH.
Qed.

(** C7: functional behaviour of a successful registration.  When
    [add_object_vtable_internal] returns 0, the node at [path] holds a new
    vtable [c] for [iface], [vt] and [fallback], and every method and
    every property of [vt] is indexed under (path, iface, member),
    pointing to [c]; the tree is marked modified. *)
Theorem add_object_vtable_internal_complete b path iface vt fallback find ud b' :
  bus_inv b -> add_object_vtable_internal b path iface (Some vt) fallback find ud = (0%Z, b') ->
  bus_nodes_modified b' = true /\
  exists c, has_vtable (bus_nodes b') path c /\ nv_interface c = iface /\ nv_vtable c = vt /\
    nv_is_fallback c = fallback /\
    (forall v m, v ∈ vtable_body (vr_entries vt) -> method_member v = Some m ->
       bus_vtable_methods b' !! (path, iface, m) = Some (new_member c m v)) /\
    (forall v m, v ∈ vtable_body (vr_entries vt) -> property_member v = Some m ->
       bus_vtable_properties b' !! (path, iface, m) = Some (new_member c m v)).
Proof.
  intros Hinv. unfold add_object_vtable_internal.
  destruct (add_vtable_guards b path iface (Some vt)) as [r|] eqn:Hg; [intros [= Hr _]; by destruct (add_vtable_guards_err _ _ _ _ _ Hg) as [-> | ->]|].
  apply add_vtable_guards_ok in Hg as [Hv Hst].
  destruct (bus_node_allocate_inv b path Hinv Hv) as (Hi1 & Hs1 & _).
  destruct (scan_node_vtables _ _ _ _ _) as [r|existing] eqn:Hscan.
  { intros [= Hr _]. by destruct (scan_node_vtables_err _ _ _ _ _ _ Hscan) as [->| ->]. }
  unfold alloc_id. cbv zeta.
  match goal with |- context [add_vtable_members ?c ?es ?b2] =>
    destruct (add_vtable_members c es b2) as [r b3] eqn:Hadd end.
  destruct r; [|done|done]. intros [= <-]. split; [done|].
  destruct (add_vtable_members_complete _ _ _ _ Hadd) as [Hm Hp].
  destruct (add_vtable_members_spec _ _ _ _ _ Hadd) as (Hb3 & _).
  match type of Hm with context [new_member ?c _ _] => exists c end.
  split; [refine (proj2 (has_vtable_alter_cons _ _ _ _ _ _ _ _) _); [by rewrite Hb3|intros ?; simpl; first [reflexivity|auto with sdbus]|by left]|].
  split_and!; [done|done|done|exact Hm|exact Hp].
Qed.


(** C8: error behaviour of [add_object_vtable_internal].  A registration
    that does not return 0 returns one of -EINVAL, -ECHILD, -EPROTOTYPE or
    -EEXIST, and leaves the set of registered vtables as it was: the node it
    may have allocated is collected again and the new vtable is never
    linked. *)
Theorem add_object_vtable_internal_error b path iface vt fallback find ud r b' :
  bus_inv b -> add_object_vtable_internal b path iface vt fallback find ud = (r, b') -> r <> 0%Z ->
  r ∈ [(- Errno.EINVAL)%Z; (- Errno.ECHILD)%Z; (- Errno.EPROTOTYPE)%Z; (- Errno.EEXIST)%Z] /\
  forall p c, has_vtable (bus_nodes b') p c <-> has_vtable (bus_nodes b) p c.
Proof.
  intros Hinv. unfold add_object_vtable_internal.
  destruct (add_vtable_guards b path iface vt) as [r0|] eqn:Hg.
  { intros [= <- <-] _. split; [|done].
    destruct (add_vtable_guards_err _ _ _ _ _ Hg) as [-> | ->]; set_solver. }
  destruct vt as [vt|]; [|intros [= <- <-] _; split; [set_solver|done]].
  apply add_vtable_guards_ok in Hg as [Hv Hst].
  destruct (bus_node_allocate_inv b path Hinv Hv) as (Hi1 & _ & _ & Hk1).
  destruct (scan_node_vtables _ _ _ _ _) as [r0|existing] eqn:Hscan.
  { intros [= <- <-] _. destruct (bus_node_gc_inv _ _ Hi1) as (_ & _ & Hk).
    split; [by destruct (scan_node_vtables_err _ _ _ _ _ _ Hscan) as [-> | ->]; set_solver|].
    intros p c. by rewrite Hk, Hk1. }
  unfold alloc_id. cbv zeta.
  match goal with |- context [add_vtable_members ?c ?es ?b2] =>
    destruct (add_vtable_members c es b2) as [r0 b3] eqn:Hadd end.
  assert (Hi2 := bus_inv_except_alloc_id _ _ Hi1). unfold alloc_id in Hi2. simpl in Hi2.
  assert (Hret := add_vtable_members_ret _ _ _ _ _ Hadd).
  assert (Hnodes := proj1 (add_vtable_members_spec _ _ _ _ _ Hadd)).
  set (c := mk_node_vtable (bus_next_id (bus_node_allocate b path)) path iface vt ud find fallback) in *.
  destruct (free_node_vtable_spec b3 c) as (Hfn & _).
  destruct r0 as [|r0|r0]; [intros [= <- _] []; reflexivity| |]; intros [= <- <-] _;
    (destruct (bus_node_gc_inv _ _ (add_vtable_members_fail_inv _ c _ _ _ Hi2 Hst Hadd)) as (_ & _ & Hk);
     split; [destruct Hret as [?|[-> | ->]]; [done|set_solver|set_solver]|];
     intros p c'; rewrite Hk, Hfn, Hnodes; simpl; apply Hk1).
Qed.

End VtableOps.

Lemma add_object_vtable_internal_complete_witness :
  let vt := mk_vtable_ref 7 [VtableStart 0 sizeof_sd_bus_vtable;
                             VtableMethod 0 "M" "" "" (Some 1%nat); VtableEnd] in
  let b' := snd (add_object_vtable_internal (empty_bus true false) "/a" "org.example.I"
                   (Some vt) false None 0) in
  bus_inv (empty_bus true false) /\
  add_object_vtable_internal (empty_bus true false) "/a" "org.example.I" (Some vt) false None 0 =
    (0%Z, b') /\
  bus_nodes_modified b' = true /\
  exists c, has_vtable (bus_nodes b') "/a" c /\ nv_interface c = "org.example.I" /\ nv_vtable c = vt /\
    nv_is_fallback c = false /\
    (forall v m, v ∈ vtable_body (vr_entries vt) -> method_member v = Some m ->
       bus_vtable_methods b' !! ("/a", "org.example.I", m)%string = Some (new_member c m v)) /\
    (forall v m, v ∈ vtable_body (vr_entries vt) -> property_member v = Some m ->
       bus_vtable_properties b' !! ("/a", "org.example.I", m)%string = Some (new_member c m v)).
Proof.
  intros vt b'. assert (E : add_object_vtable_internal (empty_bus true false) "/a" "org.example.I"
    (Some vt) false None 0 = (0%Z, b')) by (vm_compute; reflexivity).
  split; [apply empty_bus_inv|]. split; [exact E|].
  exact (add_object_vtable_internal_complete _ _ _ _ _ _ _ _ (empty_bus_inv true false) E).
Defined.

Lemma add_object_vtable_internal_error_witness :
  let vt := mk_vtable_ref 7 [VtableStart 0 sizeof_sd_bus_vtable;
                             VtableMethod 0 "M" "" "" (Some 1%nat); VtableEnd] in
  let b1 := snd (add_object_vtable_internal (empty_bus true false) "/a" "org.example.I"
                   (Some vt) false None 0) in
  let res := add_object_vtable_internal b1 "/a" "org.example.J" (Some vt) true None 0 in
  bus_inv b1 /\ res = ((- Errno.EPROTOTYPE)%Z, snd res) /\
  (- Errno.EPROTOTYPE)%Z ∈ [(- Errno.EINVAL)%Z; (- Errno.ECHILD)%Z; (- Errno.EPROTOTYPE)%Z; (- Errno.EEXIST)%Z] /\
  forall p c, has_vtable (bus_nodes (snd res)) p c <-> has_vtable (bus_nodes b1) p c.
Proof.
  intros vt b1 res.
  assert (Hi : bus_inv b1) by apply add_object_vtable_internal_inv, empty_bus_inv.
  assert (E : res = ((- Errno.EPROTOTYPE)%Z, snd res)) by (vm_compute; reflexivity).
  split; [exact Hi|]. split; [exact E|].
  exact (add_object_vtable_internal_error _ _ _ _ _ _ _ _ _ Hi E ltac:(discriminate)).
Defined.

End RegistrationInv.
