(* ===== verification/Reachable.v ===== *)
(** * Reachable buses

    The registration API as a transition system: one [api_call] per public
    registration entry point of bus-objects.c, [api_step] runs it, and
    [reachable] is the closure of the empty bus under the steps.  The
    invariant [bus_inv] holds of every reachable bus (by rule induction),
    while completeness of the method index does not: a failed registration
    that collides with a registered vtable removes the registered vtable's
    index entries. *)

From S2P Require Import Prelude ObjectPath Vtable Message BusState NodeStore Registration RegistrationInv.
Import ObjectPath Vtable Message BusState NodeStore Registration RegistrationInv.

Module Reachable.

Inductive api_call :=
| AddObject (fallback : bool) (path : string) (cb : option fn_ref) (ud : userdata)
| RemoveObject (fallback : bool) (path : string) (cb : option fn_ref) (ud : userdata)
| AddVtable (path iface : string) (vt : option vtable_ref) (fallback : bool)
    (find : option fn_ref) (ud : userdata)
| RemoveVtable (path iface : string) (vt_addr : nat) (fallback : bool)
    (find : option fn_ref) (ud : userdata)
| AddEnumerator (path : string) (cb : option fn_ref) (ud : userdata)
| RemoveEnumerator (path : string) (cb : option fn_ref) (ud : userdata)
| AddObjectManager (path : string)
| RemoveObjectManager (path : string).

Section Steps.
  Context `{BusValidators}.

(** [sd_bus_add_object] and [sd_bus_add_fallback] are [bus_add_object]
    with [fallback] false and true; the vtable entry points likewise. *)
Definition api_step (b : sd_bus) (a : api_call) : Z * sd_bus :=
  match a with
  | AddObject f p cb ud => bus_add_object b f p cb ud
  | RemoveObject f p cb ud => bus_remove_object b f p cb ud
  | AddVtable p i vt f find ud => add_object_vtable_internal b p i vt f find ud
  | RemoveVtable p i addr f find ud => remove_object_vtable_internal b p i addr f find ud
  | AddEnumerator p cb ud => sd_bus_add_node_enumerator b p cb ud
  | RemoveEnumerator p cb ud => sd_bus_remove_node_enumerator b p cb ud
  | AddObjectManager p => sd_bus_add_object_manager b p
  | RemoveObjectManager p => sd_bus_remove_object_manager b p
  end.

(** A sequence of calls, with the return code of each. *)
Fixpoint run_calls (b : sd_bus) (l : list api_call) : list Z * sd_bus :=
  match l with
  | [] => ([], b)
  | a :: l' =>
      let (r, b1) := api_step b a in
      let (rs, b2) := run_calls b1 l' in
      (r :: rs, b2)
  end.

Inductive reachable (trusted is_kernel : bool) : sd_bus -> Prop :=
| reach_init : reachable trusted is_kernel (empty_bus trusted is_kernel)
| reach_step b a : reachable trusted is_kernel b ->
    reachable trusted is_kernel (snd (api_step b a)).

End Steps.

(** Completeness of an index: every member of a registered vtable is
    indexed under its key, pointing to that vtable. *)
Definition index_complete (sel : sd_bus_vtable -> option string) (ns : gmap string node)
    (idx : gmap member_key vtable_member) : Prop :=
  forall p c v m, has_vtable ns p c -> v ∈ vtable_body (vr_entries (nv_vtable c)) ->
    sel v = Some m -> exists e, idx !! (p, nv_interface c, m) = Some e /\ vm_parent e = c.

(** The collision scenario: [vtA] registers method [M] at /foo; [vtB], a
    second vtable of the same interface with the same member, is refused. *)
Definition vtA : vtable_ref :=
  mk_vtable_ref 100 [VtableStart 0 sizeof_sd_bus_vtable; VtableMethod 0 "M" "" "" (Some 1%nat); VtableEnd].
Definition vtB : vtable_ref :=
  mk_vtable_ref 200 [VtableStart 0 sizeof_sd_bus_vtable; VtableMethod 0 "M" "" "" (Some 2%nat); VtableEnd].
Definition collision_calls : list api_call :=
  [AddVtable "/foo" "org.example.I" (Some vtA) false None 0;
   AddVtable "/foo" "org.example.I" (Some vtB) false None 0].

Section Proofs.
  Context `{BusValidators}.

Lemma api_step_inv b a : bus_inv b -> bus_inv (snd (api_step b a)).
Proof.
  destruct a; simpl.
  - apply bus_add_object_inv.
  - apply bus_remove_object_inv.
  - apply add_object_vtable_internal_inv.
  - apply remove_object_vtable_internal_inv.
  - apply sd_bus_add_node_enumerator_inv.
  - apply sd_bus_remove_node_enumerator_inv.
  - apply sd_bus_add_object_manager_inv.
  - apply sd_bus_remove_object_manager_inv.
Qed.

Lemma run_calls_reachable trusted is_kernel b l :
  reachable trusted is_kernel b -> reachable trusted is_kernel (snd (run_calls b l)).
Proof.
  revert b. induction l as [|a l IH]; intros b Hr; simpl; [done|].
  destruct (api_step b a) as [r b1] eqn:Hs. destruct (run_calls b1 l) as [rs b2] eqn:Hl.
  simpl. change b2 with (snd (rs, b2)). rewrite <- Hl. apply IH.
  change b1 with (snd (r, b1)). rewrite <- Hs. by constructor.
Qed.

(** C1: every bus reachable from a fresh connection through the
    registration API satisfies [bus_inv]: the node tree is well formed, no
    node is empty, every vtable starts with START, and every method and
    property index entry belongs to a vtable still registered at its path. *)
Theorem reachable_bus_inv trusted is_kernel b :
  reachable trusted is_kernel b -> bus_inv b.
Proof. induction 1; [apply empty_bus_inv|by apply api_step_inv]. Qed.

End Proofs.

(** C2: completeness of the method index is not an invariant.  After
    [vtA] is registered, the refused registration of [vtB] (-EEXIST) runs
    [free_node_vtable] on [vtB], which removes the key (/foo, I, M) that
    belongs to [vtA]: the bus is reachable, [vtA] is still registered, and
    its method has no index entry, so a call to it is answered
    UnknownMethod. *)
Theorem failed_registration_breaks_index :
  let (rs, b) := run_calls (empty_bus true false) collision_calls in
  rs = [0%Z; (- Errno.EEXIST)%Z] /\ reachable true false b /\
  ~ index_complete method_member (bus_nodes b) (bus_vtable_methods b).
Proof.
  pose proof (run_calls_reachable true false (empty_bus true false) collision_calls
                (reach_init _ _)) as Hr.
  destruct (run_calls _ _) as [rs b] eqn:Hrun. vm_compute in Hrun. injection Hrun as <- <-.
  split_and!; [reflexivity|exact Hr|]. intros Hc.
  edestruct (Hc "/foo"%string (mk_node_vtable 1 "/foo" "org.example.I" vtA 0 None false) (VtableMethod 0 "M" "" "" (Some 1%nat))) as (e & He & _);
    [eexists; split; [reflexivity|left]|vm_compute; left|reflexivity|].
  vm_compute in He. discriminate.
Qed.

Lemma reachable_bus_inv_witness :
  reachable true false (snd (run_calls (empty_bus true false) collision_calls)) /\
  bus_inv (snd (run_calls (empty_bus true false) collision_calls)).
Proof.
  assert (Hr : reachable true false (snd (run_calls (empty_bus true false) collision_calls)))
    by (apply run_calls_reachable; constructor).
  split; [exact Hr|exact (reachable_bus_inv _ _ _ Hr)].
Defined.

End Reachable.
