(* ===== verification/VtableTypes.v ===== *)
(** * The type invariant of registered vtables

    [add_object_vtable_internal] checks every entry of a vtable with the
    switch of lines 1668-1751 ([vtable_entry_ok]) and links the vtable into
    the node only when every check passed; on the failure path
    [free_node_vtable] and [bus_node_gc] undo the registration.  So every
    vtable of a reachable bus is well typed: every entry of its body
    passed its check ([vtables_typed]), and every member the dispatcher
    finds in the method index is a METHOD entry with a valid member name,
    valid signatures, and a handler unless both signatures are empty,
    which is what [method_callbacks_run] relies on when it calls the
    handler or replies for it.

    The proof follows every vtable of the store after a registration call
    back to the store before it ([vtables_back]), except the one vtable
    a successful [add_object_vtable_internal] links. *)

From S2P Require Import Prelude ObjectPath Vtable Message BusState NodeStore Registration RegistrationInv Reachable.
Import ObjectPath Vtable Message BusState NodeStore Registration RegistrationInv Reachable.

Module VtableTypes.

Create HintDb vtypes.

Section Typed.
  Context `{BusValidators}.

(** Every entry of the vtable's body passed the check of its case. *)
Definition vtable_typed (c : node_vtable) : Prop :=
  Forall (fun v => vtable_entry_ok v = true) (vtable_body (vr_entries (nv_vtable c))).

Definition vtables_typed (ns : gmap string node) : Prop :=
  forall p c, has_vtable ns p c -> vtable_typed c.

(** An index entry the dispatcher calls as a method: the METHOD entry of
    its member, accepted by the check of [_SD_BUS_VTABLE_METHOD]. *)
Definition method_typed (e : vtable_member) : Prop :=
  exists flags sig res handler,
    vm_vtable e = VtableMethod flags (vm_member e) sig res handler /\
    method_entry_ok flags (vm_member e) sig res handler = true.

(** Every vtable of [b'] was already registered in [b]. *)
Definition vtables_back (b b' : sd_bus) : Prop :=
  forall p c, has_vtable (bus_nodes b') p c -> has_vtable (bus_nodes b) p c.

Lemma vtables_typed_back b b' :
  vtables_back b b' -> vtables_typed (bus_nodes b) -> vtables_typed (bus_nodes b').
Proof. intros Hb Ht p c Hc. by eapply Ht, Hb. Qed.

Lemma vtables_back_trans b1 b2 b3 : vtables_back b1 b2 -> vtables_back b2 b3 -> vtables_back b1 b3.
Proof. intros H12 H23 p c Hc. by apply H12, H23. Qed.

Lemma vtables_back_nodes b b' : bus_nodes b' = bus_nodes b -> vtables_back b b'.
Proof. intros Hn p c. by rewrite Hn. Qed.

Lemma vtables_back_set_modified b v : vtables_back b (set_modified b v).
Proof. by apply vtables_back_nodes. Qed.

Lemma vtables_back_alloc_id b : vtables_back b (snd (alloc_id b)).
Proof. by apply vtables_back_nodes. Qed.

Lemma vtables_back_allocate b path :
  bus_inv b -> object_path_is_valid path = true -> vtables_back b (bus_node_allocate b path).
Proof. intros Hinv Hv p c. apply (bus_node_allocate_inv b path Hinv Hv). Qed.

Lemma vtables_back_gc b path : bus_inv_except (Some path) b -> vtables_back b (bus_node_gc b path).
Proof. intros Hinv p c. apply (bus_node_gc_inv b path Hinv). Qed.

(** A write at [path] that keeps or drops vtables of the node there. *)
Lemma vtables_back_update_node b path f :
  (forall n, bus_nodes b !! path = Some n -> node_vtables (f n) ⊆ node_vtables n) ->
  vtables_back b (update_node b path f).
Proof.
  intros Hf p c. simpl. rewrite has_vtable_alter.
  intros [(-> & n & Hn & Hc)|(_ & ?)]; [|done]. exists n. split; [done|]. by apply (Hf n Hn).
Qed.

Lemma vtables_back_update_same b path f :
  (forall n, node_vtables (f n) = node_vtables n) -> vtables_back b (update_node b path f).
Proof. intros Hf. apply vtables_back_update_node. intros n _. by rewrite Hf. Qed.

(** A member loop that returns 0 has checked every entry. *)
Lemma add_vtable_members_typed c es b b' :
  add_vtable_members c es b = (0%Z, b') -> Forall (fun v => vtable_entry_ok v = true) es.
Proof.
  revert b. induction es as [|v es IH]; intros b; simpl; [constructor|].
  destruct (vtable_entry_ok v) eqn:Hok; simpl; [|discriminate].
  repeat case_match; intros Hadd; simplify_eq; constructor; eauto.
Qed.

Lemma add_vtable_members_nodes c es b r b' :
  add_vtable_members c es b = (r, b') -> bus_nodes b' = bus_nodes b.
Proof. intros Hadd. destruct (add_vtable_members_spec _ _ _ _ _ Hadd) as (-> & _). done. Qed.

Lemma free_node_vtable_nodes b c : bus_nodes (free_node_vtable b c) = bus_nodes b.
Proof. apply free_node_vtable_spec. Qed.

Lemma vtables_back_refl b : vtables_back b b.
Proof. by intros p c. Qed.

(** The steps an operation is made of, composed on the right. *)
Lemma back_set_modified_r b b' v : vtables_back b b' -> vtables_back b (set_modified b' v).
Proof. intros Hb. exact Hb. Qed.

Lemma back_update_r b b' path f :
  (forall n, bus_nodes b' !! path = Some n -> node_vtables (f n) ⊆ node_vtables n) ->
  vtables_back b b' -> vtables_back b (update_node b' path f).
Proof. intros Hf Hb. eapply vtables_back_trans; [exact Hb|]. by apply vtables_back_update_node. Qed.

Lemma back_gc_r b b' path :
  bus_inv_except (Some path) b' -> vtables_back b b' -> vtables_back b (bus_node_gc b' path).
Proof. intros Hi Hb. eapply vtables_back_trans; [exact Hb|]. by apply vtables_back_gc. Qed.

Lemma back_alloc_r b b' id b'' : alloc_id b' = (id, b'') -> vtables_back b b' -> vtables_back b b''.
Proof. intros Ha Hb. injection Ha as _ <-. exact Hb. Qed.

Lemma back_free_r b b' c : vtables_back b b' -> vtables_back b (free_node_vtable b' c).
Proof. intros Hb. eapply vtables_back_trans; [exact Hb|]. apply vtables_back_nodes, free_node_vtable_nodes. Qed.

Lemma back_members_r b b' c es r b'' :
  add_vtable_members c es b' = (r, b'') -> vtables_back b b' -> vtables_back b b''.
Proof.
  intros Hadd Hb. eapply vtables_back_trans; [exact Hb|].
  apply vtables_back_nodes. exact (add_vtable_members_nodes _ _ _ _ _ Hadd).
Qed.

End Typed.

Ltac same_vtables := intros ? _; simpl; done.

Section Ops.
  Context `{BusValidators}.

(** A removal from a node's list other than its vtables, then the
    garbage collection. *)
Lemma remove_then_gc_back b path f :
  bus_inv b -> keeps_links f -> (forall n, node_vtables (f n) = node_vtables n) ->
  vtables_back b (set_modified (bus_node_gc (update_node b path f) path) true).
Proof.
  intros Hinv Hl Hv. apply back_set_modified_r, back_gc_r.
  - apply (update_node_inv None); auto with sdbus.
  - apply back_update_r; [intros n _; by rewrite Hv|apply vtables_back_refl].
Qed.

Lemma bus_add_object_back b fallback path cb ud :
  bus_inv b -> vtables_back b (snd (bus_add_object b fallback path cb ud)).
Proof.
  intros Hinv. unfold bus_add_object.
  destruct (object_path_is_valid path) eqn:Hv; [|apply vtables_back_refl].
  destruct cb as [cb|]; [|apply vtables_back_refl]. destruct (bus_pid_changed b); [apply vtables_back_refl|].
  destruct (alloc_id (bus_node_allocate b path)) as [id b2] eqn:Ha. simpl.
  apply back_set_modified_r, back_update_r; [same_vtables|].
  apply (back_alloc_r _ _ _ _ Ha). by apply vtables_back_allocate.
Qed.

Lemma bus_remove_object_back b fallback path cb ud :
  bus_inv b -> vtables_back b (snd (bus_remove_object b fallback path cb ud)).
Proof.
  intros Hinv. unfold bus_remove_object.
  destruct (object_path_is_valid path); [|apply vtables_back_refl].
  destruct cb as [cb|]; [|apply vtables_back_refl]. destruct (bus_pid_changed b); [apply vtables_back_refl|].
  destruct (bus_nodes b !! path); [|apply vtables_back_refl].
  destruct (list_remove_first _ _) as [[??]|]; [|apply vtables_back_refl].
  apply remove_then_gc_back; [done|fields_kept|done].
Qed.

Lemma sd_bus_add_node_enumerator_back b path cb ud :
  bus_inv b -> vtables_back b (snd (sd_bus_add_node_enumerator b path cb ud)).
Proof.
  intros Hinv. unfold sd_bus_add_node_enumerator.
  destruct (object_path_is_valid path) eqn:Hv; [|apply vtables_back_refl].
  destruct cb as [cb|]; [|apply vtables_back_refl]. destruct (bus_pid_changed b); [apply vtables_back_refl|].
  apply back_set_modified_r, back_update_r; [same_vtables|]. by apply vtables_back_allocate.
Qed.

Lemma sd_bus_remove_node_enumerator_back b path cb ud :
  bus_inv b -> vtables_back b (snd (sd_bus_remove_node_enumerator b path cb ud)).
Proof.
  intros Hinv. unfold sd_bus_remove_node_enumerator.
  destruct (object_path_is_valid path); [|apply vtables_back_refl].
  destruct cb as [cb|]; [|apply vtables_back_refl]. destruct (bus_pid_changed b); [apply vtables_back_refl|].
  destruct (bus_nodes b !! path); [|apply vtables_back_refl].
  destruct (list_remove_first _ _) as [[??]|]; [|apply vtables_back_refl].
  apply remove_then_gc_back; [done|fields_kept|done].
Qed.

Lemma sd_bus_add_object_manager_back b path :
  bus_inv b -> vtables_back b (snd (sd_bus_add_object_manager b path)).
Proof.
  intros Hinv. unfold sd_bus_add_object_manager.
  destruct (object_path_is_valid path) eqn:Hv; [|apply vtables_back_refl].
  destruct (bus_pid_changed b); [apply vtables_back_refl|].
  apply back_set_modified_r, back_update_r; [same_vtables|]. by apply vtables_back_allocate.
Qed.

Lemma sd_bus_remove_object_manager_back b path :
  bus_inv b -> vtables_back b (snd (sd_bus_remove_object_manager b path)).
Proof.
  intros Hinv. unfold sd_bus_remove_object_manager.
  destruct (object_path_is_valid path); [|apply vtables_back_refl].
  destruct (bus_pid_changed b); [apply vtables_back_refl|].
  destruct (bus_nodes b !! path) as [n|]; [|apply vtables_back_refl].
  destruct (node_object_manager n); [|apply vtables_back_refl]. simpl.
  apply back_gc_r.
  - apply bus_inv_except_set_modified, (update_node_inv None); auto with sdbus. fields_kept.
  - apply back_set_modified_r, back_update_r; [same_vtables|apply vtables_back_refl].
Qed.

Lemma remove_object_vtable_internal_back b path iface vt_addr fallback find ud :
  bus_inv b -> vtables_back b (snd (remove_object_vtable_internal b path iface vt_addr fallback find ud)).
Proof.
  intros Hinv. unfold remove_object_vtable_internal.
  destruct (object_path_is_valid path); [|apply vtables_back_refl].
  destruct (interface_name_is_valid iface); [|apply vtables_back_refl].
  destruct (bus_pid_changed b); [apply vtables_back_refl|].
  destruct (bus_nodes b !! path) as [n|] eqn:Hn; [|apply vtables_back_refl].
  destruct (list_remove_first _ _) as [[c rest]|] eqn:Hr; [|apply vtables_back_refl]. simpl.
  pose proof (list_remove_first_perm _ _ _ _ Hr) as Hperm.
  apply back_set_modified_r, back_gc_r; [by apply (remove_vtable_free_inv _ _ n)|].
  apply back_free_r, back_update_r; [|apply vtables_back_refl].
  intros n' Hn'. rewrite Hn in Hn'. injection Hn' as <-. simpl. intros x Hx. rewrite Hperm. set_solver.
Qed.

(** [add_object_vtable_internal] links a vtable only after the member
    loop checked all its entries; its failure paths link nothing. *)
Lemma add_object_vtable_internal_typed b path iface vt fallback find ud :
  bus_inv b -> vtables_typed (bus_nodes b) ->
  vtables_typed (bus_nodes (snd (add_object_vtable_internal b path iface vt fallback find ud))).
Proof.
  intros Hinv Ht. unfold add_object_vtable_internal.
  destruct (add_vtable_guards b path iface vt) as [r|] eqn:Hg; [done|].
  destruct vt as [vt|]; [|done]. apply add_vtable_guards_ok in Hg as [Hv Hst].
  destruct (bus_node_allocate_inv b path Hinv Hv) as (Hi1 & Hs1 & _).
  assert (Hb1 := vtables_back_allocate b path Hinv Hv).
  set (b1 := bus_node_allocate b path) in *.
  destruct (scan_node_vtables _ _ _ _ _) as [r|existing].
  { apply (vtables_typed_back b); [by apply back_gc_r|done]. }
  destruct (alloc_id b1) as [id b2] eqn:Ha.
  assert (Hi2 : bus_inv_except (Some path) b2).
  { pose proof (bus_inv_except_alloc_id _ _ Hi1) as Hi. by rewrite Ha in Hi. }
  assert (Hb2 := back_alloc_r _ _ _ _ Ha Hb1).
  match goal with |- context [add_vtable_members ?c ?es b2] =>
    destruct (add_vtable_members c es b2) as [r b3] eqn:Hadd end.
  assert (Hb3 := back_members_r _ _ _ _ _ _ Hadd Hb2).
  destruct r; simpl.
  - intros p c' Hc'. simpl in Hc'.
    assert (Hs3 : is_Some (bus_nodes b3 !! path))
      by (rewrite (add_vtable_members_nodes _ _ _ _ _ Hadd); injection Ha as _ <-; done).
    eapply has_vtable_alter_cons in Hc';
      [destruct Hc' as [(_ & ->)|Hc']|exact Hs3|intros ?; simpl; first [reflexivity|auto with sdbus]].
    + exact (add_vtable_members_typed _ _ _ _ Hadd).
    + by eapply Ht, Hb3.
  - apply (vtables_typed_back b); [|done]. apply back_gc_r; [|by apply back_free_r].
    refine (add_vtable_members_fail_inv _ _ _ _ _ Hi2 _ Hadd); exact Hst.
  - apply (vtables_typed_back b); [|done]. apply back_gc_r; [|by apply back_free_r].
    refine (add_vtable_members_fail_inv _ _ _ _ _ Hi2 _ Hadd); exact Hst.
Qed.

Lemma api_step_typed b a :
  bus_inv b -> vtables_typed (bus_nodes b) -> vtables_typed (bus_nodes (snd (api_step b a))).
Proof.
  intros Hinv Ht. destruct a; simpl; [| |by apply add_object_vtable_internal_typed|..];
    apply (vtables_typed_back b); try done.
  - by apply bus_add_object_back.
  - by apply bus_remove_object_back.
  - by apply remove_object_vtable_internal_back.
  - by apply sd_bus_add_node_enumerator_back.
  - by apply sd_bus_remove_node_enumerator_back.
  - by apply sd_bus_add_object_manager_back.
  - by apply sd_bus_remove_object_manager_back.
Qed.

Lemma reachable_inv_typed trusted is_kernel b :
  reachable trusted is_kernel b -> bus_inv b /\ vtables_typed (bus_nodes b).
Proof.
  induction 1 as [|b a _ [Hinv Ht]].
  - split; [apply empty_bus_inv|]. intros p c (n & Hn & _). simpl in Hn. by rewrite lookup_empty in Hn.
  - split; [by apply api_step_inv|by apply api_step_typed].
Qed.

End Ops.

Section Claims.
  Context `{BusValidators}.

(** C3: the type invariant of the store.  Every vtable registered on a
    bus reachable from a fresh connection through the registration API is
    well typed: every entry between its START and END passed the check
    [add_object_vtable_internal] makes for its kind (member name,
    signatures, handlers, flags). *)
Theorem reachable_vtables_typed trusted is_kernel b :
  reachable trusted is_kernel b -> vtables_typed (bus_nodes b).
Proof. intros Hr. apply (reachable_inv_typed _ _ _ Hr). Qed.

(** C4: what the dispatcher finds in the method index.  On a reachable
    bus every entry of the method index is the METHOD entry of its
    member, and that entry has a valid member name, valid input and
    output signatures, a handler unless both signatures are empty, and no
    property flag. *)
Theorem reachable_method_typed trusted is_kernel b k e :
  reachable trusted is_kernel b -> bus_vtable_methods b !! k = Some e -> method_typed e.
Proof.
  intros Hr Hk. unfold method_typed. destruct (reachable_inv_typed _ _ _ Hr) as [[_ _ _ Hsound _] Ht].
  destruct (Hsound _ _ Hk) as (_ & Hm & Hin & _ & _ & Hhas).
  pose proof (proj1 (List.Forall_forall _ _) (Ht _ _ Hhas) _ (proj1 (list_elem_of_In _ _) Hin)) as Hok.
  destruct (vm_vtable e) as [|flags m sig res handler| | | |]; try discriminate.
  injection Hm as <-. by exists flags, sig, res, handler.
Qed.

End Claims.

(** ** Witnesses: /foo with [vtA] registered *)

Definition typed_bus : sd_bus :=
  snd (api_step (empty_bus true false) (AddVtable "/foo" "org.example.I" (Some vtA) false None 0)).

Lemma typed_bus_reachable : reachable true false typed_bus.
Proof. apply reach_step, reach_init. Qed.

Lemma reachable_vtables_typed_witness :
  reachable true false typed_bus /\ vtables_typed (bus_nodes typed_bus).
Proof.
  split; [exact typed_bus_reachable|exact (reachable_vtables_typed true false typed_bus typed_bus_reachable)].
Defined.

Lemma reachable_method_typed_witness :
  reachable true false typed_bus /\
  match bus_vtable_methods typed_bus !! ("/foo", "org.example.I", "M") with
  | Some e => method_typed e
  | None => False
  end.
Proof.
  split; [exact typed_bus_reachable|].
  destruct (bus_vtable_methods typed_bus !! _) as [e|] eqn:Hk; [|vm_compute in Hk; discriminate].
  exact (reachable_method_typed true false typed_bus _ e typed_bus_reachable Hk).
Defined.

End VtableTypes.
