(* ===== verification/VtableOrder.v ===== *)
(** * The order of a node's vtables

    [add_object_vtable_internal] scans the vtables of the node
    ([scan_node_vtables], lines 1633-1646): a vtable of the other fallback
    kind fails the call with [-EPROTOTYPE], and the last vtable of the same
    interface becomes [existing]; [LIST_INSERT_AFTER(vtables, n->vtables,
    existing, c)] then links the new vtable right after it, or at the head
    when there is none.  [remove_object_vtable_internal] unlinks one
    vtable with [LIST_REMOVE], and every other call leaves the lists alone
    or frees an empty node.  So, on every reachable bus, each node's list
    of vtables
    - keeps the vtables of one interface adjacent ([grouped], the order the
      spec's section 5 describes),
    - holds vtables of one fallback kind only,
    - holds each registration once, with an identity below the allocation
      counter and the node's own path.
    The last two make the removal of a vtable complete: afterwards no node
    holds it and neither index points to it (spec property 2).

    The proof follows every node's list after a call back to the list at
    the same path before it ([lists_back]: a sublist), except the one list
    a successful [add_object_vtable_internal] inserts into. *)

From S2P Require Import Prelude ObjectPath Vtable Message BusState NodeStore Registration RegistrationInv Reachable.
Import ObjectPath Vtable Message BusState NodeStore Registration RegistrationInv Reachable.

Module VtableOrder.

(** ** Adjacent interfaces *)

(** A list of names in which every name that appears again further on
    appears again right away. *)
Fixpoint grouped (l : list string) : bool :=
  match l with
  | [] => true
  | x :: l' => grouped l' && (bool_decide (x ∉ l') || bool_decide (head l' = Some x))
  end.

Lemma grouped_cons x l :
  grouped (x :: l) = true <-> grouped l = true /\ (x ∈ l -> head l = Some x).
Proof.
  simpl. rewrite andb_true_iff, orb_true_iff, !bool_decide_eq_true.
  split; intros [? Hx]; split; try done.
  - destruct Hx; tauto.
  - destruct (decide (x ∈ l)); auto.
Qed.

(** In a grouped [x :: l], the copies of [x] in [l] come first, also in
    every sublist of [l]. *)
Lemma grouped_head_sublist x l l' :
  grouped (x :: l) = true -> l' `sublist_of` l -> x ∈ l' -> head l' = Some x.
Proof.
  intros Hg Hs. revert Hg.
  induction Hs as [|y l1 l2 Hs IH|y l1 l2 Hs IH]; intros Hg Hx.
  - by apply elem_of_nil in Hx.
  - simpl. destruct (decide (y = x)) as [->|Hne]; [done|].
    apply elem_of_cons in Hx as [->|Hx]; [done|].
    apply grouped_cons in Hg as [_ Hh].
    assert (Hy : x ∈ y :: l2) by (apply elem_of_cons; right; by eapply elem_of_sublist).
    specialize (Hh Hy). simpl in Hh. congruence.
  - assert (Hy : x ∈ y :: l2) by (apply elem_of_cons; right; by eapply elem_of_sublist).
    pose proof Hg as Hg'. apply grouped_cons in Hg' as [Hg2 Hh].
    specialize (Hh Hy). simpl in Hh. injection Hh as ->. by apply IH.
Qed.

Lemma grouped_sublist l l' : l' `sublist_of` l -> grouped l = true -> grouped l' = true.
Proof.
  induction 1 as [|x l1 l2 Hs IH|x l1 l2 Hs IH]; intros Hg; [done| |].
  - apply grouped_cons. pose proof Hg as Hg'. apply grouped_cons in Hg' as [Hg2 _].
    split; [by apply IH|]. by apply (grouped_head_sublist x l2).
  - apply grouped_cons in Hg as [Hg _]. by apply IH.
Qed.

Lemma grouped_prepend x l : x ∉ l -> grouped l = true -> grouped (x :: l) = true.
Proof. intros Hx Hg. apply grouped_cons. split; [done|]. by intros ?. Qed.

(** A second copy of [x] right after its last copy keeps the list grouped. *)
Lemma grouped_insert l1 x l2 :
  grouped (l1 ++ x :: l2) = true -> x ∉ l2 -> grouped (l1 ++ x :: x :: l2) = true.
Proof.
  intros Hg Hx. induction l1 as [|z l1 IH]; cbn [app] in *.
  - by apply grouped_cons.
  - apply grouped_cons in Hg as [Hg Hh]. apply grouped_cons. split; [by apply IH|].
    intros Hz. assert (Hz' : z ∈ l1 ++ x :: l2).
    { rewrite elem_of_app, !elem_of_cons in *. tauto. }
    apply Hh in Hz'. by destruct l1.
Qed.

(** ** The invariant of one node's list *)

Record vt_ok (N : nat) (p : string) (l : list node_vtable) : Prop := {
  ok_grouped : grouped (nv_interface <$> l) = true;
  ok_ids : NoDup (nv_id <$> l);
  ok_below : Forall (fun c => nv_id c < N /\ nv_node c = p) l;
  ok_kind : forall c d, c ∈ l -> d ∈ l -> nv_is_fallback c = nv_is_fallback d
}.

Definition vts_at (ns : gmap string node) (p : string) : list node_vtable :=
  from_option node_vtables [] (ns !! p).

Definition vtables_ordered (b : sd_bus) : Prop :=
  forall p n, bus_nodes b !! p = Some n -> vt_ok (bus_next_id b) p (node_vtables n).

(** Every list of [b'] is a sublist of the list at the same path in [b],
    and the allocation counter did not go down. *)
Definition lists_back (b b' : sd_bus) : Prop :=
  bus_next_id b <= bus_next_id b' /\
  forall p n', bus_nodes b' !! p = Some n' -> node_vtables n' `sublist_of` vts_at (bus_nodes b) p.

Lemma elem_of_vts_at ns p c : c ∈ vts_at ns p <-> has_vtable ns p c.
Proof.
  unfold vts_at, has_vtable. destruct (ns !! p) as [n|]; simpl.
  - split; [eauto|]. by intros (? & [= <-] & ?).
  - split; [by intros ?%elem_of_nil|]. by intros (? & ? & _).
Qed.

Lemma vt_ok_nil N p : vt_ok N p [].
Proof. split; [done|constructor|constructor|set_solver]. Qed.

Lemma vt_ok_sublist N N' p l l' : N <= N' -> l' `sublist_of` l -> vt_ok N p l -> vt_ok N' p l'.
Proof.
  intros HN Hs [Hg Hid Hb Hk]. split.
  - by eapply grouped_sublist; [apply sublist_fmap|].
  - by eapply sublist_NoDup; [|apply sublist_fmap].
  - apply Forall_forall. intros c Hc.
    destruct (proj1 (Forall_forall _ _) Hb c (elem_of_sublist _ _ _ Hc Hs)). split; [lia|done].
  - intros c d Hc Hd. apply Hk; by eapply elem_of_sublist.
Qed.

Lemma vt_ok_vts_at b p : vtables_ordered b -> vt_ok (bus_next_id b) p (vts_at (bus_nodes b) p).
Proof.
  intros Ho. unfold vts_at. destruct (bus_nodes b !! p) as [n|] eqn:Hn; simpl; [by apply Ho|].
  apply vt_ok_nil.
Qed.

Lemma lists_back_vts_at b b' p : lists_back b b' -> vts_at (bus_nodes b') p `sublist_of` vts_at (bus_nodes b) p.
Proof.
  intros [_ Hb]. unfold vts_at at 1. destruct (bus_nodes b' !! p) eqn:Hn; simpl; [by apply Hb|].
  apply sublist_nil_l.
Qed.

Lemma ordered_back b b' : lists_back b b' -> vtables_ordered b -> vtables_ordered b'.
Proof.
  intros Hb Ho p n' Hn'. apply (vt_ok_sublist (bus_next_id b) _ _ (vts_at (bus_nodes b) p)).
  - apply Hb.
  - by apply Hb.
  - by apply vt_ok_vts_at.
Qed.

(** ** Steps that only drop vtables *)

Lemma node_ext_vtables n n' : node_ext n n' -> node_vtables n' = node_vtables n.
Proof. intros [-> _]. by destruct n. Qed.

Lemma lists_back_refl b : lists_back b b.
Proof. split; [done|]. intros p n Hn. unfold vts_at. by rewrite Hn. Qed.

Lemma lists_back_trans b1 b2 b3 : lists_back b1 b2 -> lists_back b2 b3 -> lists_back b1 b3.
Proof.
  intros H12 H23. split; [pose proof (proj1 H12); pose proof (proj1 H23); lia|].
  intros p n Hn. etransitivity; [by apply H23|]. by apply lists_back_vts_at.
Qed.

Lemma lists_back_nodes b b' :
  bus_nodes b' = bus_nodes b -> bus_next_id b <= bus_next_id b' -> lists_back b b'.
Proof. intros Hn Hid. split; [done|]. intros p n Hp. unfold vts_at. by rewrite <- Hn, Hp. Qed.

Lemma lists_back_set_modified b v : lists_back b (set_modified b v).
Proof. by apply lists_back_nodes. Qed.

Lemma lists_back_alloc_id b : lists_back b (snd (alloc_id b)).
Proof. apply lists_back_nodes; simpl; [done|lia]. Qed.

Lemma free_node_vtable_next_id b c : bus_next_id (free_node_vtable b c) = bus_next_id b.
Proof.
  unfold free_node_vtable. generalize (until_end (vr_entries (nv_vtable c))) as l.
  intros l. revert b. induction l as [|v l IH]; intros b; simpl; [done|].
  rewrite IH. unfold free_member_key. by repeat case_match.
Qed.

Lemma lists_back_free b c : lists_back b (free_node_vtable b c).
Proof. apply lists_back_nodes; [apply free_node_vtable_spec|by rewrite free_node_vtable_next_id]. Qed.

Lemma lists_back_members `{BusValidators} b c es r b' :
  add_vtable_members c es b = (r, b') -> lists_back b b'.
Proof. intros (-> & _)%add_vtable_members_spec. by apply lists_back_nodes. Qed.

Lemma lists_back_allocate b path :
  nodes_wf (bus_nodes b) -> object_path_is_valid path = true -> lists_back b (bus_node_allocate b path).
Proof.
  intros Hwf Hv. unfold bus_node_allocate.
  destruct (bus_node_allocate_fuel_spec (String.length path) b path Hwf Hv (le_n _))
    as (Heq & _ & _ & [Hg Hnew]).
  split; [rewrite Heq; simpl; lia|].
  intros p n' Hn'. unfold vts_at. destruct (bus_nodes b !! p) as [n|] eqn:Hn; simpl.
  - destruct (Hg _ _ Hn) as (m' & Hm' & Hext). rewrite Hn' in Hm'. injection Hm' as <-.
    by rewrite (node_ext_vtables _ _ Hext).
  - by destruct (Hnew _ _ Hn' Hn) as (_ & _ & -> & _).
Qed.

Lemma lists_back_gc b path : bus_inv_except (Some path) b -> lists_back b (bus_node_gc b path).
Proof.
  intros Hi. unfold bus_node_gc.
  destruct (bus_node_gc_fuel_spec (String.length path) b path (inv_nodes _ _ Hi) (le_n _)
              (inv_nonempty _ _ Hi)) as (Heq & _ & _ & [Hs _]).
  split; [rewrite Heq; simpl; lia|].
  intros p n' Hn'. destruct (Hs _ _ Hn') as (m & Hm & Hext). unfold vts_at. rewrite Hm. simpl.
  by rewrite (node_ext_vtables _ _ Hext).
Qed.

Lemma lists_back_update_node b path f :
  (forall n, bus_nodes b !! path = Some n -> node_vtables (f n) `sublist_of` node_vtables n) ->
  lists_back b (update_node b path f).
Proof.
  intros Hf. split; [done|]. intros p n' Hn'. simpl in Hn'. unfold vts_at.
  apply lookup_alter_Some in Hn' as [(<- & n & Hn & ->)|(_ & Hn)]; rewrite Hn; simpl; [by apply Hf|done].
Qed.

Lemma lists_back_update_same b path f :
  (forall n, node_vtables (f n) = node_vtables n) -> lists_back b (update_node b path f).
Proof. intros Hf. apply lists_back_update_node. intros n _. by rewrite Hf. Qed.

(** ** The registration calls other than adding a vtable *)

Section Ops.
  Context `{BusValidators}.

(** A write at [path] that keeps the node's vtables, then the garbage
    collection. *)
Lemma remove_then_gc_lists b path f :
  bus_inv b -> keeps_links f -> (forall n, node_vtables (f n) = node_vtables n) ->
  lists_back b (set_modified (bus_node_gc (update_node b path f) path) true).
Proof.
  intros Hinv Hl Hv. eapply lists_back_trans; [|apply lists_back_set_modified].
  eapply lists_back_trans; [|apply lists_back_gc, (update_node_inv None); auto].
  by apply lists_back_update_same.
Qed.

(** A write at a freshly allocated [path] that keeps the node's vtables. *)
Lemma allocate_then_update_lists b path f :
  bus_inv b -> object_path_is_valid path = true -> (forall n, node_vtables (f n) = node_vtables n) ->
  lists_back b (set_modified (update_node (bus_node_allocate b path) path f) true).
Proof.
  intros Hinv Hv Hf. eapply lists_back_trans; [|apply lists_back_set_modified].
  eapply lists_back_trans; [|by apply lists_back_update_same].
  apply lists_back_allocate; [apply Hinv|done].
Qed.

Lemma bus_add_object_lists b fallback path cb ud :
  bus_inv b -> lists_back b (snd (bus_add_object b fallback path cb ud)).
Proof.
  intros Hinv. unfold bus_add_object.
  destruct (object_path_is_valid path) eqn:Hv; [|apply lists_back_refl].
  destruct cb as [cb|]; [|apply lists_back_refl]. destruct (bus_pid_changed b); [apply lists_back_refl|].
  destruct (alloc_id (bus_node_allocate b path)) as [id b2] eqn:Ha. simpl.
  eapply lists_back_trans; [|apply lists_back_set_modified].
  eapply lists_back_trans; [|by apply lists_back_update_same].
  eapply lists_back_trans; [apply lists_back_allocate; [apply Hinv|done]|].
  change b2 with (snd (id, b2)). rewrite <- Ha. apply lists_back_alloc_id.
Qed.

Lemma bus_remove_object_lists b fallback path cb ud :
  bus_inv b -> lists_back b (snd (bus_remove_object b fallback path cb ud)).
Proof.
  intros Hinv. unfold bus_remove_object.
  destruct (object_path_is_valid path); [|apply lists_back_refl].
  destruct cb as [cb|]; [|apply lists_back_refl]. destruct (bus_pid_changed b); [apply lists_back_refl|].
  destruct (bus_nodes b !! path); [|apply lists_back_refl].
  destruct (list_remove_first _ _) as [[??]|]; [|apply lists_back_refl].
  apply remove_then_gc_lists; [done|fields_kept|done].
Qed.

Lemma sd_bus_add_node_enumerator_lists b path cb ud :
  bus_inv b -> lists_back b (snd (sd_bus_add_node_enumerator b path cb ud)).
Proof.
  intros Hinv. unfold sd_bus_add_node_enumerator.
  destruct (object_path_is_valid path) eqn:Hv; [|apply lists_back_refl].
  destruct cb as [cb|]; [|apply lists_back_refl]. destruct (bus_pid_changed b); [apply lists_back_refl|].
  by apply allocate_then_update_lists.
Qed.

Lemma sd_bus_remove_node_enumerator_lists b path cb ud :
  bus_inv b -> lists_back b (snd (sd_bus_remove_node_enumerator b path cb ud)).
Proof.
  intros Hinv. unfold sd_bus_remove_node_enumerator.
  destruct (object_path_is_valid path); [|apply lists_back_refl].
  destruct cb as [cb|]; [|apply lists_back_refl]. destruct (bus_pid_changed b); [apply lists_back_refl|].
  destruct (bus_nodes b !! path); [|apply lists_back_refl].
  destruct (list_remove_first _ _) as [[??]|]; [|apply lists_back_refl].
  apply remove_then_gc_lists; [done|fields_kept|done].
Qed.

Lemma sd_bus_add_object_manager_lists b path :
  bus_inv b -> lists_back b (snd (sd_bus_add_object_manager b path)).
Proof.
  intros Hinv. unfold sd_bus_add_object_manager.
  destruct (object_path_is_valid path) eqn:Hv; [|apply lists_back_refl].
  destruct (bus_pid_changed b); [apply lists_back_refl|]. by apply allocate_then_update_lists.
Qed.

Lemma sd_bus_remove_object_manager_lists b path :
  bus_inv b -> lists_back b (snd (sd_bus_remove_object_manager b path)).
Proof.
  intros Hinv. unfold sd_bus_remove_object_manager.
  destruct (object_path_is_valid path); [|apply lists_back_refl].
  destruct (bus_pid_changed b); [apply lists_back_refl|].
  destruct (bus_nodes b !! path) as [n|]; [|apply lists_back_refl].
  destruct (node_object_manager n); [|apply lists_back_refl]. simpl.
  eapply lists_back_trans; [|apply lists_back_gc, bus_inv_except_set_modified, (update_node_inv None);
                              auto; fields_kept].
  eapply lists_back_trans; [|apply lists_back_set_modified]. by apply lists_back_update_same.
Qed.

(** What [remove_object_vtable_internal] does after unlinking [c]:
    free its index keys and collect the node; every list afterwards is a
    sublist of the list just after the unlink. *)
Lemma remove_vtable_tail_lists b path n c rest :
  bus_inv b -> bus_nodes b !! path = Some n -> node_vtables n ≡ₚ c :: rest ->
  lists_back (update_node b path (fun n => node_set_vtables n rest))
    (set_modified (bus_node_gc (free_node_vtable (update_node b path (fun n => node_set_vtables n rest)) c) path) true).
Proof.
  intros Hinv Hn Hperm. eapply lists_back_trans; [|apply lists_back_set_modified].
  eapply lists_back_trans; [|apply lists_back_gc, (remove_vtable_free_inv _ _ n); done].
  apply lists_back_free.
Qed.

Lemma remove_object_vtable_internal_lists b path iface vt_addr fallback find ud :
  bus_inv b -> lists_back b (snd (remove_object_vtable_internal b path iface vt_addr fallback find ud)).
Proof.
  intros Hinv. unfold remove_object_vtable_internal.
  destruct (object_path_is_valid path); [|apply lists_back_refl].
  destruct (interface_name_is_valid iface); [|apply lists_back_refl].
  destruct (bus_pid_changed b); [apply lists_back_refl|].
  destruct (bus_nodes b !! path) as [n|] eqn:Hn; [|apply lists_back_refl].
  destruct (list_remove_first _ _) as [[c rest]|] eqn:Hr; [|apply lists_back_refl]. simpl.
  eapply lists_back_trans; [|apply (remove_vtable_tail_lists _ _ n); [done|done|exact (list_remove_first_perm _ _ _ _ Hr)]].
  apply lists_back_update_node. intros n' Hn'. rewrite Hn in Hn'. injection Hn' as <-.
  exact (list_remove_first_sublist _ _ _ _ Hr).
Qed.

(** A registration with a unique identity is gone once it is unlinked. *)
Lemma unlinked_not_elem l1 c l2 : NoDup (nv_id <$> l1 ++ c :: l2) -> c ∉ l1 ++ l2.
Proof.
  rewrite fmap_app, fmap_cons. intros (_ & Hd & Hc)%NoDup_app. apply NoDup_cons in Hc as [Hc _].
  rewrite elem_of_app. intros [Hin|Hin].
  - apply (Hd (nv_id c)); [by apply list_elem_of_fmap_2|apply elem_of_cons; by left].
  - apply Hc. by apply list_elem_of_fmap_2.
Qed.

(** ** Adding a vtable *)

(** What the scan of lines 1633-1646 tells about the list when it does
    not fail: every vtable has the fallback kind of the call, and
    [existing] is the last vtable of the interface, if any. *)
Lemma scan_node_vtables_inr l iface addr fb ex0 ex :
  scan_node_vtables l iface addr fb ex0 = inr ex ->
  Forall (fun i => nv_is_fallback i = fb) l /\
  ((ex = ex0 /\ iface ∉ nv_interface <$> l) \/
   exists l1 e l2, l = l1 ++ e :: l2 /\ ex = Some e /\ nv_interface e = iface /\
                   iface ∉ nv_interface <$> l2).
Proof.
  revert ex0. induction l as [|i l IH]; intros ex0 Hs; simpl in Hs.
  - injection Hs as <-. split; [constructor|left; split; [done|apply not_elem_of_nil]].
  - destruct (Bool.eqb (nv_is_fallback i) fb) eqn:Hk; simpl in Hs; [|discriminate].
    apply eqb_prop in Hk.
    destruct (String.eqb (nv_interface i) iface) eqn:Hi.
    + destruct (vr_addr (nv_vtable i) =? addr); [discriminate|]. apply String.eqb_eq in Hi.
      destruct (IH _ Hs) as [Hf [[-> Hn]|(l1 & e & l2 & -> & -> & He & Hn)]];
        (split; [by constructor|right]).
      * by exists [], i, l.
      * by exists (i :: l1), e, l2.
    + apply String.eqb_neq in Hi.
      destruct (IH _ Hs) as [Hf [[-> Hn]|(l1 & e & l2 & -> & -> & He & Hn)]];
        (split; [by constructor|]).
      * left. split; [done|]. rewrite fmap_cons, elem_of_cons. intros [?|?]; [congruence|done].
      * right. by exists (i :: l1), e, l2.
Qed.

(** In a list of distinct identities, the anchor test of
    [LIST_INSERT_AFTER] accepts [e] and nothing before it. *)
Lemma anchor_first l1 e l2 :
  NoDup (nv_id <$> l1 ++ e :: l2) -> Forall (fun z => (nv_id z =? nv_id e) = false) l1.
Proof.
  rewrite fmap_app, fmap_cons. intros (_ & Hd & _)%NoDup_app.
  apply Forall_forall. intros z Hz. apply Nat.eqb_neq. intros Heq.
  apply (Hd (nv_id z)); [by apply list_elem_of_fmap_2|]. rewrite Heq. apply elem_of_cons; by left.
Qed.

Lemma vt_ok_insert N p l iface addr fb existing c :
  vt_ok N p l -> scan_node_vtables l iface addr fb None = inr existing ->
  nv_id c = N -> nv_node c = p -> nv_interface c = iface -> nv_is_fallback c = fb ->
  vt_ok (S N) p (list_insert_after_opt (option_map (fun e x => nv_id x =? nv_id e) existing) c l).
Proof.
  intros [Hg Hid Hb Hk] Hs Hc1 Hc2 Hc3 Hc4.
  destruct (scan_node_vtables_inr _ _ _ _ _ _ Hs) as [Hf Hcase].
  pose proof (list_insert_after_opt_perm (option_map (fun e x => nv_id x =? nv_id e) existing) c l) as Hperm.
  assert (Hall : forall x, x ∈ list_insert_after_opt (option_map (fun e x => nv_id x =? nv_id e) existing) c l ->
                           nv_is_fallback x = fb).
  { intros x Hx. rewrite Hperm, elem_of_cons in Hx. destruct Hx as [->|Hx]; [done|].
    by apply (proj1 (Forall_forall _ _) Hf). }
  split.
  - destruct Hcase as [[-> Hn]|(l1 & e & l2 & -> & -> & He & Hn)]; simpl.
    + apply grouped_prepend; [by rewrite Hc3|done].
    + rewrite (list_insert_after_split _ c l1 e l2); [|by apply (anchor_first l1 e l2)|apply Nat.eqb_refl].
      rewrite !fmap_app, !fmap_cons in *. rewrite Hc3, <- He in *. by apply grouped_insert.
  - rewrite Hperm, fmap_cons. constructor; [|done].
    intros (x & Hx & Hxl)%list_elem_of_fmap_1.
    destruct (proj1 (Forall_forall _ _) Hb x Hxl). lia.
  - rewrite Hperm. constructor; [split; [lia|done]|].
    eapply Forall_impl; [exact Hb|]. intros x [? ?]. split; [lia|done].
  - intros x y Hx Hy. by rewrite (Hall x Hx), (Hall y Hy).
Qed.

(** A successful call inserts the new vtable, with the next identity and
    the node's path, into the node's list; its failure paths only drop. *)
Lemma add_object_vtable_internal_ordered b path iface vt fallback find ud :
  bus_inv b -> vtables_ordered b ->
  vtables_ordered (snd (add_object_vtable_internal b path iface vt fallback find ud)).
Proof.
  intros Hinv Ho. unfold add_object_vtable_internal.
  destruct (add_vtable_guards b path iface vt) as [r|] eqn:Hg; [done|].
  destruct vt as [vt|]; [|done]. apply add_vtable_guards_ok in Hg as [Hv Hst].
  destruct (bus_node_allocate_inv b path Hinv Hv) as (Hi1 & _).
  assert (Hb1 := lists_back_allocate b path (inv_nodes _ _ Hinv) Hv).
  set (b1 := bus_node_allocate b path) in *.
  assert (Ho1 := ordered_back _ _ Hb1 Ho).
  destruct (scan_node_vtables _ _ _ _ _) as [r|existing] eqn:Hscan.
  { apply (ordered_back b1); [by apply lists_back_gc|done]. }
  destruct (alloc_id b1) as [id b2] eqn:Ha.
  assert (Hi2 : bus_inv_except (Some path) b2).
  { pose proof (bus_inv_except_alloc_id _ _ Hi1) as Hi. by rewrite Ha in Hi. }
  assert (Hb2 : lists_back b1 b2).
  { change b2 with (snd (id, b2)). rewrite <- Ha. apply lists_back_alloc_id. }
  match goal with |- context [add_vtable_members ?c ?es b2] =>
    destruct (add_vtable_members c es b2) as [r b3] eqn:Hadd end.
  assert (Hb3 := lists_back_members _ _ _ _ _ Hadd).
  destruct r; simpl.
  - destruct (add_vtable_members_spec _ _ _ _ _ Hadd) as (Heq3 & _).
    injection Ha as Hid <-. rewrite Heq3. intros p n' Hn'. simpl in Hn' |- *.
    apply lookup_alter_Some in Hn' as [(<- & n & Hn & ->)|(_ & Hn)].
    + rewrite Hn in Hscan. simpl. by eapply vt_ok_insert; [apply Ho1| | | | |].
    + apply (vt_ok_sublist (bus_next_id b1) _ _ (node_vtables n')); [lia|done|by apply Ho1].
  - apply (ordered_back b1); [|done].
    eapply lists_back_trans;
      [|apply lists_back_gc; refine (add_vtable_members_fail_inv _ _ _ _ _ Hi2 _ Hadd); exact Hst].
    eapply lists_back_trans; [exact Hb2|]. eapply lists_back_trans; [exact Hb3|]. apply lists_back_free.
  - apply (ordered_back b1); [|done].
    eapply lists_back_trans;
      [|apply lists_back_gc; refine (add_vtable_members_fail_inv _ _ _ _ _ Hi2 _ Hadd); exact Hst].
    eapply lists_back_trans; [exact Hb2|]. eapply lists_back_trans; [exact Hb3|]. apply lists_back_free.
Qed.

Lemma api_step_ordered b a :
  bus_inv b -> vtables_ordered b -> vtables_ordered (snd (api_step b a)).
Proof.
  intros Hinv Ho. destruct a; simpl; [| |by apply add_object_vtable_internal_ordered|..];
    apply (ordered_back b); try done.
  - by apply bus_add_object_lists.
  - by apply bus_remove_object_lists.
  - by apply remove_object_vtable_internal_lists.
  - by apply sd_bus_add_node_enumerator_lists.
  - by apply sd_bus_remove_node_enumerator_lists.
  - by apply sd_bus_add_object_manager_lists.
  - by apply sd_bus_remove_object_manager_lists.
Qed.

Lemma reachable_inv_ordered trusted is_kernel b :
  reachable trusted is_kernel b -> bus_inv b /\ vtables_ordered b.
Proof.
  induction 1 as [|b a _ [Hinv Ho]].
  - split; [apply empty_bus_inv|]. intros p n Hn. simpl in Hn. by rewrite lookup_empty in Hn.
  - split; [by apply api_step_inv|by apply api_step_ordered].
Qed.

End Ops.

Section Claims.
  Context `{BusValidators}.

(** C5: the order of a node's vtables (spec section 5).  On every bus
    reachable from a fresh connection through the registration API, the
    vtables of one interface are adjacent in each node's list, since
    [LIST_INSERT_AFTER] links a new vtable right after the last one of its
    interface or at the head; all vtables of a node are of one fallback
    kind, since the scan refuses the other kind with [-EPROTOTYPE]; and
    each registration appears once. *)
Theorem reachable_vtables_grouped trusted is_kernel b p n :
  reachable trusted is_kernel b -> bus_nodes b !! p = Some n ->
  grouped (nv_interface <$> node_vtables n) = true /\ NoDup (nv_id <$> node_vtables n) /\
  (forall c d, c ∈ node_vtables n -> d ∈ node_vtables n -> nv_is_fallback c = nv_is_fallback d).
Proof.
  intros Hr Hn. by destruct (proj2 (reachable_inv_ordered _ _ _ Hr) p n Hn) as [Hg Hid _ Hk].
Qed.

(** C6: a removed vtable leaves nothing behind (spec section 8, property
    2).  When [remove_object_vtable_internal] returns 1 on a reachable
    bus, it unlinked a vtable of the interface and the address given from
    the node at the path; afterwards no node holds that vtable, and no
    entry of the method or the property index points to it. *)
Theorem remove_vtable_unindexed trusted is_kernel b path iface addr fb find ud b' :
  reachable trusted is_kernel b ->
  remove_object_vtable_internal b path iface addr fb find ud = (1%Z, b') ->
  exists c, c ∈ vts_at (bus_nodes b) path /\ nv_interface c = iface /\ vr_addr (nv_vtable c) = addr /\
    (forall p, c ∉ vts_at (bus_nodes b') p) /\
    (forall k e, bus_vtable_methods b' !! k = Some e -> vm_parent e <> c) /\
    (forall k e, bus_vtable_properties b' !! k = Some e -> vm_parent e <> c).
Proof.
  intros Hr Hrm. destruct (reachable_inv_ordered _ _ _ Hr) as [Hinv Ho].
  pose proof (remove_object_vtable_internal_inv b path iface addr fb find ud Hinv) as Hinv'.
  rewrite Hrm in Hinv'. simpl in Hinv'. unfold remove_object_vtable_internal in Hrm.
  destruct (object_path_is_valid path); [|discriminate]. destruct (interface_name_is_valid iface); [|discriminate].
  destruct (bus_pid_changed b); [discriminate|].
  destruct (bus_nodes b !! path) as [n|] eqn:Hn; [|discriminate].
  destruct (list_remove_first _ _) as [[c rest]|] eqn:Hrf; [|discriminate]. injection Hrm as <-.
  pose proof (list_remove_first_Some _ _ _ _ Hrf) as Hc. simpl in Hc. bool_simpl.
  destruct (list_remove_first_split _ _ _ _ Hrf) as (l1 & l2 & Hl & -> & _).
  destruct (Ho _ _ Hn) as [_ Hid Hb _]. rewrite Hl in Hid, Hb.
  assert (Hcp : nv_node c = path).
  { apply Forall_app in Hb as [_ Hb]. by apply Forall_cons in Hb as [[_ ?] _]. }
  assert (Hgone : forall p, ~ has_vtable (bus_nodes (set_modified (bus_node_gc (free_node_vtable
                    (update_node b path (fun n => node_set_vtables n (l1 ++ l2))) c) path) true)) p c).
  { intros p (n' & Hn' & Hin).
    pose proof (proj2 (remove_vtable_tail_lists b path n c (l1 ++ l2) Hinv Hn ltac:(by rewrite Hl, Permutation_middle))
                  p n' Hn') as Hs.
    pose proof (elem_of_sublist _ _ _ Hin Hs) as Hin'. unfold vts_at in Hin'. simpl in Hin'.
    destruct (decide (p = path)) as [->|Hne].
    - rewrite lookup_alter, Hn in Hin'. simpl in Hin'. rewrite decide_True in Hin' by done.
      exact (unlinked_not_elem l1 c l2 Hid Hin').
    - rewrite lookup_alter_ne in Hin' by congruence.
      destruct (vt_ok_vts_at b p Ho) as [_ _ Hbp _]. unfold vts_at in Hbp.
      destruct (proj1 (Forall_forall _ _) Hbp c Hin'). congruence. }
  exists c. split_and!; [apply elem_of_vts_at; exists n; split; [done|rewrite Hl; set_solver]|done|done| | |].
  - intros p. rewrite elem_of_vts_at. apply Hgone.
  - intros k e He <-. destruct (inv_methods _ _ Hinv' k e He) as (_ & _ & _ & _ & _ & ?). by eapply Hgone.
  - intros k e He <-. destruct (inv_properties _ _ Hinv' k e He) as (_ & _ & _ & _ & _ & ?). by eapply Hgone.
Qed.

End Claims.

(** ** Witnesses: two vtables of org.example.I and one of org.example.J
    at /foo *)

(** A second vtable of org.example.I, with a member of its own. *)
Definition order_vt : vtable_ref :=
  mk_vtable_ref 300 [VtableStart 0 sizeof_sd_bus_vtable; VtableMethod 0 "N" "" "" (Some 3%nat); VtableEnd].

(** The J vtable goes to the head; the second I vtable right after the
    first, not to the head. *)
Definition order_calls : list api_call :=
  [AddVtable "/foo" "org.example.I" (Some vtA) false None 0;
   AddVtable "/foo" "org.example.J" (Some vtA) false None 0;
   AddVtable "/foo" "org.example.I" (Some order_vt) false None 0].

Definition order_bus : sd_bus := snd (run_calls (empty_bus true false) order_calls).

Lemma order_bus_reachable : reachable true false order_bus.
Proof. apply run_calls_reachable, reach_init. Qed.

Lemma reachable_vtables_grouped_witness :
  reachable true false order_bus /\
  option_map (fun n => nv_interface <$> node_vtables n) (bus_nodes order_bus !! "/foo") =
    Some ["org.example.J"; "org.example.I"; "org.example.I"] /\
  match bus_nodes order_bus !! "/foo" with
  | Some n => grouped (nv_interface <$> node_vtables n) = true /\ NoDup (nv_id <$> node_vtables n) /\
      (forall c d, c ∈ node_vtables n -> d ∈ node_vtables n -> nv_is_fallback c = nv_is_fallback d)
  | None => False
  end.
Proof.
  split; [exact order_bus_reachable|]. split; [vm_compute; reflexivity|].
  destruct (bus_nodes order_bus !! "/foo") as [n|] eqn:Hn; [|vm_compute in Hn; discriminate].
  exact (reachable_vtables_grouped true false order_bus "/foo" n order_bus_reachable Hn).
Defined.

Definition order_removal : Z * sd_bus :=
  remove_object_vtable_internal order_bus "/foo" "org.example.I" 100 false None 0.

Lemma remove_vtable_unindexed_witness :
  reachable true false order_bus /\ order_removal = (1%Z, snd order_removal) /\
  exists c, c ∈ vts_at (bus_nodes order_bus) "/foo" /\ nv_interface c = "org.example.I" /\
    vr_addr (nv_vtable c) = 100 /\
    (forall p, c ∉ vts_at (bus_nodes (snd order_removal)) p) /\
    (forall k e, bus_vtable_methods (snd order_removal) !! k = Some e -> vm_parent e <> c) /\
    (forall k e, bus_vtable_properties (snd order_removal) !! k = Some e -> vm_parent e <> c).
Proof.
  assert (Hrm : order_removal = (1%Z, snd order_removal)) by (vm_compute; reflexivity).
  split; [exact order_bus_reachable|]. split; [exact Hrm|].
  exact (remove_vtable_unindexed true false order_bus "/foo" "org.example.I" 100 false None 0 _
           order_bus_reachable Hrm).
Defined.

End VtableOrder.
