(* ===== verification/DispatchCore.v ===== *)
(** * The dispatcher's state, its environment and its effects

    What [bus_process_object] and the functions it calls read and write:
    the bus, the caller-owned storage behind property userdata (read and
    written by the automatic property handlers), the [*found_object] flag,
    and a trace of the user callbacks invoked.  The computations are in a
    state monad [DM] with stdpp's [mret]/[≫=] and their notations.

    User code is an environment (the class [DispatchEnv]): for each
    callback the result it returns, the error it sets, and its effects on
    the bus — the registration calls it makes (through [run_calls], so the
    bus stays reachable) and the messages it sends.  The functions of the
    message and error libraries the engine calls (bus-message.c,
    bus-error.c, bus-util.c, outside src/) are modelled from the spec. *)

From S2P Require Import Prelude ObjectPath Vtable Message BusState NodeStore Registration RegistrationInv Reachable.
Import ObjectPath Vtable Message BusState NodeStore Registration RegistrationInv Reachable.

Module DispatchCore.

(** ** Credentials *)

(** [sd_bus_creds]: the fields the access check reads; [None] when the
    field was not requested or is not known. *)
Record creds := mk_creds {
  cr_uid : option Z;
  cr_effective_caps : option (list Z)
}.

Definition CAP_SYS_ADMIN : Z := 21.

(** ** What user callbacks do *)

Record effects := mk_effects {
  ef_calls : list api_call;
  ef_sends : list sd_bus_message
}.

(** [sd_bus_message_handler_t]: node callbacks and method handlers. *)
Record handler_result := mk_handler_result {
  hr_effects : effects;
  hr_ret : Z;
  hr_error : option string
}.

(** [sd_bus_object_find_t]: [fr_userdata] is what it stores into its
    [void **found] argument. *)
Record find_result := mk_find_result {
  fr_effects : effects;
  fr_ret : Z;
  fr_userdata : userdata;
  fr_error : option string
}.

(** [sd_bus_property_get_t]: the values it appends to the reply. *)
Record getter_result := mk_getter_result {
  gr_effects : effects;
  gr_values : list dvalue;
  gr_ret : Z;
  gr_error : option string
}.

(** [sd_bus_property_set_t]. *)
Record setter_result := mk_setter_result {
  sr_effects : effects;
  sr_ret : Z;
  sr_error : option string
}.

(** [sd_bus_node_enumerator_t]: the child paths it returns. *)
Record enum_result := mk_enum_result {
  er_effects : effects;
  er_ret : Z;
  er_children : list string;
  er_error : option string
}.

(** The address a property handler receives: [(uint8_t* ) u + offset]. *)
Definition paddr : Type := (userdata * Z)%type.

Class DispatchEnv := {
  env_handler : fn_ref -> sd_bus_message -> option userdata -> handler_result;
  env_find : fn_ref -> string -> string -> userdata -> find_result;
  env_getter : fn_ref -> string -> string -> string -> option paddr -> getter_result;
  env_setter : fn_ref -> string -> string -> string -> dvalue -> option paddr -> setter_result;
  env_enumerator : fn_ref -> string -> userdata -> enum_result;
  env_sender_creds : sd_bus_message -> option creds;
  env_getuid : Z
}.

(** The user callbacks invoked, identified by the registration they
    belong to. *)
Inductive invocation :=
| InvCallback (id : nat)
| InvMethod (k : member_key) (vt : nat)
| InvFind (vt : nat) (path : string)
| InvGet (k : member_key) (vt : nat)
| InvSet (k : member_key) (vt : nat)
| InvEnumerator (path : string).

#[export] Instance invocation_eq_dec : EqDecision invocation.
Proof. solve_decision. Defined.

(** ** The state and the monad *)

Record dstate := mk_dstate {
  ds_bus : sd_bus;
  ds_mem : gmap paddr dvalue;
  ds_found : bool;
  ds_trace : list invocation
}.

Definition DM (A : Type) : Type := dstate -> A * dstate.

#[export] Instance dm_ret : MRet DM := fun A a s => (a, s).
#[export] Instance dm_bind : MBind DM := fun A B f m s => let '(a, s') := m s in f a s'.

Definition get_state : DM dstate := fun s => (s, s).
Definition get_bus : DM sd_bus := fun s => (ds_bus s, s).
Definition modify_bus (f : sd_bus -> sd_bus) : DM unit :=
  fun s => (tt, mk_dstate (f (ds_bus s)) (ds_mem s) (ds_found s) (ds_trace s)).
Definition set_found : DM unit :=
  fun s => (tt, mk_dstate (ds_bus s) (ds_mem s) true (ds_trace s)).
Definition log_invocation (i : invocation) : DM unit :=
  fun s => (tt, mk_dstate (ds_bus s) (ds_mem s) (ds_found s) (ds_trace s ++ [i])).
Definition write_mem (a : paddr) (v : dvalue) : DM unit :=
  fun s => (tt, mk_dstate (ds_bus s) (<[a := v]> (ds_mem s)) (ds_found s) (ds_trace s)).
Definition read_mem (a : paddr) : DM (option dvalue) := fun s => (ds_mem s !! a, s).

(** [bus->nodes_modified] *)
Definition nodes_modified : DM bool := fun s => (bus_nodes_modified (ds_bus s), s).

(** [if (bus->nodes_modified) return 0;] before the rest [k]. *)
Definition unless_modified (k : DM Z) : DM Z :=
  nodes_modified ≫= fun modified : bool => if modified then mret 0%Z else k.

(** [sd_bus_send]: the message joins the write queue. *)
Definition send (m : sd_bus_message) : DM unit := modify_bus (fun b => bus_send b m).

Section Effects.
  Context `{BusValidators}.

(** What a callback did to the bus, in order: its registration calls,
    then its sends. *)
Definition apply_effects (e : effects) : DM unit :=
  modify_bus (fun b => fold_left bus_send (ef_sends e) (snd (run_calls b (ef_calls e)))).

End Effects.

(** ** The error and reply library *)

(** [sd_bus_error_get_errno]: the errno of an error name, positive;
    [EIO] for names without one. *)
Definition bus_error_name_to_errno (name : string) : Z :=
  if String.eqb name SD_BUS_ERROR_ACCESS_DENIED then Errno.EACCES
  else if String.eqb name SD_BUS_ERROR_INVALID_ARGS then Errno.EINVAL
  else Errno.EIO.

(** The error name [sd_bus_reply_method_errno] replies with when the error
    object is not set: the generic failure. *)
Definition errno_error_name (r : Z) : string := SD_BUS_ERROR_FAILED.

(** [sd_bus_reply_method_errorf(m, name, ...)]: sends the error reply,
    returns 1. *)
Definition sd_bus_reply_method_errorf (m : sd_bus_message) (name : string) : DM Z :=
  send (method_error m name);; mret 1%Z.

(** [sd_bus_reply_method_return(m, ...)]. *)
Definition sd_bus_reply_method_return (m : sd_bus_message) (body : list dvalue) : DM Z :=
  send (method_return m body);; mret 1%Z.

(** [bus_maybe_reply_error(m, r, error)]: a negative [r] or a set error
    becomes an error reply (for a method call) and the result 1; otherwise
    [r] is passed through. *)
Definition bus_maybe_reply_error (m : sd_bus_message) (r : Z) (err : option string) : DM Z :=
  if (r <? 0)%Z then
    (if bool_decide (m_type m = METHOD_CALL)
     then send (method_error m (default (errno_error_name r) err)) else mret tt);; mret 1%Z
  else match err with
  | Some name =>
      (if bool_decide (m_type m = METHOD_CALL) then send (method_error m name) else mret tt);;
      mret 1%Z
  | None => mret r
  end.

(** ** Invoking user callbacks *)

Section Invoke.
  Context `{BusValidators} `{DispatchEnv}.

Definition invoke_handler (i : invocation) (f : fn_ref) (m : sd_bus_message)
    (u : option userdata) : DM (Z * option string) :=
  let res := env_handler f m u in
  log_invocation i;; apply_effects (hr_effects res);; mret (hr_ret res, hr_error res).

Definition invoke_find (vt : nat) (f : fn_ref) (path iface : string) (u : userdata)
    : DM find_result :=
  let res := env_find f path iface u in
  log_invocation (InvFind vt path);; apply_effects (fr_effects res);; mret res.

End Invoke.

End DispatchCore.
