(* ===== verification/Access.v ===== *)
(** * The access check

    [check_access] (bus-objects.c, lines 271-325) decides whether a method
    call or a property write may proceed: a trusted bus and UNPRIVILEGED
    members are always allowed; otherwise the caller must hold the
    member's capability (the capability number plus one is stored in the
    flag word, 0 meaning "the interface's default", whose default is
    CAP_SYS_ADMIN), or have the same UID as the process.  Effective
    capabilities are only requested on a kernel bus.

    The credential queries of the creds library (bus-creds.c, outside
    src/) are modelled from the spec. *)

From S2P Require Import Prelude Vtable Message BusState DispatchCore.
Import Vtable Message BusState DispatchCore.

Module Access.

Section Access.
  Context `{DispatchEnv}.

(** [sd_bus_query_sender_creds(m, mask, &creds)]: the sender's
    credentials restricted to the mask; the capability set is in the mask
    only when [want_caps]. *)
Definition sd_bus_query_sender_creds (m : sd_bus_message) (want_caps : bool) : Z + creds :=
  match env_sender_creds m with
  | None => inl (- Errno.ENXIO)%Z
  | Some c => inr (mk_creds (cr_uid c) (if want_caps then cr_effective_caps c else None))
  end.

(** [sd_bus_creds_has_effective_cap]: 1 or 0, [-ENODATA] when the set was
    not acquired. *)
Definition sd_bus_creds_has_effective_cap (c : creds) (cap : Z) : Z :=
  match cr_effective_caps c with
  | None => (- Errno.ENODATA)%Z
  | Some caps => if bool_decide (cap ∈ caps) then 1%Z else 0%Z
  end.

(** The START entry's flags: [c->parent->vtable[0].flags]. *)
Definition start_flags (vt : list sd_bus_vtable) : Z :=
  match vt with
  | v :: _ => vt_flags v
  | [] => 0%Z
  end.

(** Lines 305-311: the capability the caller must hold. *)
Definition required_capability (c : vtable_member) : Z :=
  let cap := CAPABILITY_SHIFT (vt_flags (vm_vtable c)) in
  let cap := if (cap =? 0)%Z then CAPABILITY_SHIFT (start_flags (vr_entries (nv_vtable (vm_parent c))))
             else cap in
  if (cap =? 0)%Z then CAP_SYS_ADMIN else (cap - 1)%Z.

(** [check_access]: the return code with the error it sets. *)
Definition check_access (b : sd_bus) (m : sd_bus_message) (c : vtable_member) : Z * option string :=
  if bus_trusted b then (0%Z, None)
  else if flag_set (vt_flags (vm_vtable c)) SD_BUS_VTABLE_UNPRIVILEGED then (0%Z, None)
  else match sd_bus_query_sender_creds m (bus_is_kernel b) with
  | inl r => (r, None)
  | inr cr =>
      if (0 <? sd_bus_creds_has_effective_cap cr (required_capability c))%Z then (1%Z, None)
      else match cr_uid cr with
      | Some uid =>
          if (uid =? env_getuid)%Z then (1%Z, None)
          else ((- bus_error_name_to_errno SD_BUS_ERROR_ACCESS_DENIED)%Z, Some SD_BUS_ERROR_ACCESS_DENIED)
      | None => ((- bus_error_name_to_errno SD_BUS_ERROR_ACCESS_DENIED)%Z, Some SD_BUS_ERROR_ACCESS_DENIED)
      end
  end.

(** The capability an interface requires by default: its START entry's
    capability field, or CAP_SYS_ADMIN. *)
Definition default_capability (w : node_vtable) : Z :=
  let d := CAPABILITY_SHIFT (start_flags (vr_entries (nv_vtable w))) in
  if (d =? 0)%Z then CAP_SYS_ADMIN else (d - 1)%Z.

(** ** The policy of spec section 4.3 *)

(** Whether the caller is let through, as the spec states it. *)
Definition access_policy (b : sd_bus) (m : sd_bus_message) (c : vtable_member) : Prop :=
  bus_trusted b = true \/
  flag_set (vt_flags (vm_vtable c)) SD_BUS_VTABLE_UNPRIVILEGED = true \/
  exists cr, env_sender_creds m = Some cr /\
    ((bus_is_kernel b = true /\ exists caps, cr_effective_caps cr = Some caps /\
                                  required_capability c ∈ caps) \/
     cr_uid cr = Some env_getuid).


(** ** Theorems *)

Lemma deny_code : (- bus_error_name_to_errno SD_BUS_ERROR_ACCESS_DENIED)%Z = (- Errno.EACCES)%Z.
Proof. reflexivity. Qed.

Lemma has_cap_pos (cr : creds) (k : bool) (cap : Z) :
  (0 < sd_bus_creds_has_effective_cap (mk_creds (cr_uid cr) (if k then cr_effective_caps cr else None)) cap)%Z <->
  k = true /\ exists caps, cr_effective_caps cr = Some caps /\ cap ∈ caps.
Proof.
  unfold sd_bus_creds_has_effective_cap. simpl. destruct k; [|split; [cbv; done|naive_solver]].
  destruct (cr_effective_caps cr) as [caps|]; [|split; [cbv; done|naive_solver]].
  case_bool_decide; split; try lia; naive_solver.
Qed.

(** The denial: an untrusted bus, a privileged member, and a caller with
    neither the capability nor the process's UID. *)
Lemma check_access_denied b m c cr :
  bus_trusted b = false -> flag_set (vt_flags (vm_vtable c)) SD_BUS_VTABLE_UNPRIVILEGED = false ->
  env_sender_creds m = Some cr ->
  ~ (bus_is_kernel b = true /\ exists caps, cr_effective_caps cr = Some caps /\
                                  required_capability c ∈ caps) ->
  cr_uid cr <> Some env_getuid ->
  check_access b m c = ((- Errno.EACCES)%Z, Some SD_BUS_ERROR_ACCESS_DENIED).
Proof.
  intros Ht Hf Hc Hcap Hu. unfold check_access, sd_bus_query_sender_creds. rewrite Ht, Hf, Hc.
  destruct (0 <? _)%Z eqn:Hlt; [apply Z.ltb_lt, has_cap_pos in Hlt; done|].
  cbn. destruct (cr_uid cr) as [uid|]; [|reflexivity].
  destruct (Z.eqb_spec uid env_getuid); [congruence|reflexivity].
Qed.

(** C10: [check_access] implements the access policy of the spec.  It
    returns a non-negative code exactly when the policy lets the caller
    through, and then sets no error; a negative code is either the failed
    credential query (-ENXIO, no error set) or the denial: -EACCES with
    the error AccessDenied set, which [bus_maybe_reply_error] turns into
    the AccessDenied reply. *)
Theorem check_access_policy b m c :
  let '(r, e) := check_access b m c in
  ((0 <= r)%Z <-> access_policy b m c) /\
  ((0 <= r)%Z -> e = None) /\
  ((r < 0)%Z -> (env_sender_creds m = None /\ e = None /\ r = (- Errno.ENXIO)%Z) \/
             (e = Some SD_BUS_ERROR_ACCESS_DENIED /\ r = (- Errno.EACCES)%Z)).
Proof.
  unfold check_access, access_policy.
  destruct (bus_trusted b) eqn:Ht; [split_and!; [split; [by left|lia]|done|lia]|].
  destruct (flag_set _ _) eqn:Hf; [split_and!; [split; [by right; left|lia]|done|lia]|].
  unfold sd_bus_query_sender_creds.
  destruct (env_sender_creds m) as [cr|] eqn:Hc; simpl.
  2:{ split_and!; [split; [cbv; done|naive_solver]|cbv; done|by left]. }
  pose proof (has_cap_pos cr (bus_is_kernel b) (required_capability c)) as Hcap.
  destruct (0 <? _)%Z eqn:Hlt; [apply Z.ltb_lt in Hlt|apply Z.ltb_ge in Hlt].
  { split_and!; [split; [intros _; right; right; exists cr; naive_solver|lia]|done|lia]. }
  assert (Hno : ~ (bus_is_kernel b = true /\ exists caps, cr_effective_caps cr = Some caps /\
                   required_capability c ∈ caps)) by (rewrite <- Hcap; lia).
  destruct (cr_uid cr) as [uid|] eqn:Hu; [destruct (uid =? env_getuid)%Z eqn:Huid|].
  - apply Z.eqb_eq in Huid. subst.
    split_and!; [split; [intros _; right; right; exists cr; naive_solver|lia]|done|lia].
  - apply Z.eqb_neq in Huid.
    split_and!; [split; [cbv; done|]|cbv; done|intros _; by right].
    intros [?|[?|(cr' & Hcr & Hor)]]; [congruence|congruence|]. simplify_eq. naive_solver.
  - split_and!; [split; [cbv; done|]|cbv; done|intros _; by right].
    intros [?|[?|(cr' & Hcr & Hor)]]; [congruence|congruence|]. simplify_eq. naive_solver.
Qed.

(** C39: the capability [check_access] requires is the one the member
    declares with [SD_BUS_VTABLE_CAPABILITY(cap)] over ordinary flags, for
    every capability number up to 0xFFFE; the number 0xFFFF wraps to the
    "default" tag and the interface's default capability is required
    instead. *)
Theorem required_capability_declared c f cap :
  (0 <= f < 2 ^ 40)%Z -> (0 <= cap <= 0xFFFF)%Z ->
  vt_flags (vm_vtable c) = Z.lor f (SD_BUS_VTABLE_CAPABILITY cap) ->
  required_capability c = if (cap =? 0xFFFF)%Z then default_capability (vm_parent c) else cap.
Proof.
  intros Hf Hcap Hfl. unfold required_capability, default_capability. cbv zeta.
  rewrite Hfl, CAPABILITY_SHIFT_roundtrip by done.
  destruct (Z.eqb_spec cap 0xFFFF) as [->|Hne]; [reflexivity|].
  rewrite Z.mod_small by lia. destruct (Z.eqb_spec (cap + 1) 0); [lia|]. destruct (Z.eqb_spec (cap + 1) 0); lia.
Qed.

Lemma required_capability_declared_witness :
  let c := mk_vtable_member "/x" "com.x.I" "M"
             (mk_node_vtable 1 "/x" "com.x.I" (mk_vtable_ref 1 [VtableStart 0 sizeof_sd_bus_vtable]) 0 None false)
             (VtableMethod (Z.lor SD_BUS_VTABLE_DEPRECATED (SD_BUS_VTABLE_CAPABILITY 12)) "M" "" "" None) 0 in
  (0 <= SD_BUS_VTABLE_DEPRECATED < 2 ^ 40)%Z /\ (0 <= 12 <= 0xFFFF)%Z /\
  required_capability c = 12%Z.
Proof.
  intros c. split; [vm_compute; split; congruence|]. split; [lia|].
  exact (required_capability_declared c SD_BUS_VTABLE_DEPRECATED 12
           ltac:(vm_compute; split; congruence) ltac:(lia) eq_refl).
Defined.

End Access.

End Access.
