(* ===== verification/Callbacks.v ===== *)
(** * Running the callbacks of one object

    The functions [object_find_and_run] uses on one node:
    [node_callbacks_run] (raw callbacks, lines 226-267),
    [node_vtable_get_userdata] and [vtable_property_get_userdata] (the
    [find] resolution of fallback vtables, lines 34-94),
    [method_callbacks_run] (lines 327-395), [invoke_property_get],
    [invoke_property_set] and [property_get_set_callbacks_run]
    (Properties.Get/Set, lines 397-618).

    The error object [sd_bus_error error] of each function is an
    [option string]: a set error is never overwritten, so the first error
    set wins ([first_error]).  A pointer the code leaves uninitialised is
    [None]. *)

From S2P Require Import Prelude Vtable Message BusState DispatchCore Access.
Import Vtable Message BusState DispatchCore Access.

Module Callbacks.

(** [sd_bus_error_set] on an error that is already set changes nothing. *)
Definition first_error (e1 e2 : option string) : option string :=
  match e1 with Some _ => e1 | None => e2 end.

(** [c->last_iteration = bus->iteration_counter] for the callback [id] of
    the node at [path]. *)
Definition set_callback_iteration (path : string) (id : nat) (it : nat) : DM unit :=
  modify_bus (fun b => update_node b path (fun n => node_set_callbacks n
    (map (fun x => if nc_id x =? id then mk_node_callback (nc_id x) (nc_callback x)
                     (nc_userdata x) (nc_is_fallback x) it else x) (node_callbacks n)))).

Definition vm_set_iteration (v : vtable_member) (it : nat) : vtable_member :=
  mk_vtable_member (vm_path v) (vm_interface v) (vm_member v) (vm_parent v) (vm_vtable v) it.

(** The same for the index member stored under [k]. *)
Definition set_method_iteration (k : member_key) (it : nat) : DM unit :=
  modify_bus (fun b => set_methods b (alter (fun v => vm_set_iteration v it) k (bus_vtable_methods b))).

Definition set_property_iteration (k : member_key) (it : nat) : DM unit :=
  modify_bus (fun b => set_properties b (alter (fun v => vm_set_iteration v it) k (bus_vtable_properties b))).

(** The signature of a method or property entry. *)
Definition entry_signature (v : sd_bus_vtable) : string :=
  match v with
  | VtableMethod _ _ sig _ _ | VtableProperty _ _ sig _ _
  | VtableWritableProperty _ _ sig _ _ _ | VtableSignal _ _ sig => sig
  | _ => EmptyString
  end.

(** [(uint8_t* ) u + p->x.property.offset] *)
Definition vtable_property_convert_userdata (v : sd_bus_vtable) (u : userdata) : paddr :=
  match v with
  | VtableProperty _ _ _ _ off | VtableWritableProperty _ _ _ _ _ off => (u, off)
  | _ => (u, 0%Z)
  end.

(** The value of a basic type the automatic getter reads from zeroed
    storage. *)
Definition zero_value (sig : string) : dvalue :=
  match sig with
  | "y" => DByte 0 | "b" => DBool false | "n" => DInt16 0 | "q" => DUInt16 0
  | "i" => DInt32 0 | "u" => DUInt32 0 | "x" => DInt64 0 | "t" => DUInt64 0
  | "d" => DDouble 0 | "h" => DUnixFd 0 | "o" => DObjectPath "/"
  | "g" => DSignature "" | "as" => DStrv [] | _ => DString ""
  end%string.

(** What the automatic getter appends: the value stored at the
    property's address, or the zero of its type. *)
Definition auto_value (sig : string) (cell : option dvalue) : dvalue :=
  match cell with
  | Some v => if String.eqb (dvalue_signature v) sig then v else zero_value sig
  | None => zero_value sig
  end.

(** The getter and setter fields of a property entry. *)
Definition property_getter (v : sd_bus_vtable) : option fn_ref :=
  match v with
  | VtableProperty _ _ _ get _ | VtableWritableProperty _ _ _ get _ _ => get
  | _ => None
  end.

Definition property_setter (v : sd_bus_vtable) : option fn_ref :=
  match v with
  | VtableWritableProperty _ _ _ _ set _ => set
  | _ => None
  end.

Section Run.
  Context `{BusValidators} `{DispatchEnv}.

(** [node_callbacks_run]: the list is the node's callback list when the
    loop starts; [nodes_modified] is tested before every element. *)
Fixpoint node_callbacks_run (m : sd_bus_message) (path : string) (cs : list node_callback)
    (require_fallback : bool) : DM Z :=
  match cs with
  | [] => mret 0%Z
  | c :: cs' =>
      unless_modified (
      if require_fallback && negb (nc_is_fallback c) then
        node_callbacks_run m path cs' require_fallback
      else
        set_found;;
        b ← get_bus;
        if nc_last_iteration c =? bus_iteration_counter b then
          node_callbacks_run m path cs' require_fallback
        else
          set_callback_iteration path (nc_id c) (bus_iteration_counter b);;
          '(r, err) ← invoke_handler (InvCallback (nc_id c)) (nc_callback c) m (Some (nc_userdata c));
          r ← bus_maybe_reply_error m r err;
          if negb (r =? 0)%Z then mret r else node_callbacks_run m path cs' require_fallback)
  end.

(** [node_vtable_get_userdata]: the return code, the userdata stored into
    [*userdata] (none on the early returns), and the error. *)
Definition node_vtable_get_userdata (path : string) (c : node_vtable)
    : DM (Z * option userdata * option string) :=
  match nv_find c with
  | None => mret (1%Z, Some (nv_userdata c), None)
  | Some f =>
      res ← invoke_find (nv_id c) f path (nv_interface c) (nv_userdata c);
      if (fr_ret res <? 0)%Z then mret (fr_ret res, None, fr_error res)
      else match fr_error res with
      | Some e => mret (bus_error_name_to_errno e, None, Some e)
      | None =>
          if (fr_ret res =? 0)%Z then mret (0%Z, None, None)
          else mret (1%Z, Some (fr_userdata res), None)
      end
  end.

(** [vtable_property_get_userdata] *)
Definition vtable_property_get_userdata (path : string) (p : vtable_member)
    : DM (Z * option paddr * option string) :=
  '(r, u, err) ← node_vtable_get_userdata path (vm_parent p);
  if (r <=? 0)%Z then mret (r, None, err)
  else
    nodes_modified ≫= fun modified : bool =>
    if modified then mret (0%Z, None, err)
    else mret (1%Z, option_map (vtable_property_convert_userdata (vm_vtable p)) u, err).

(** [method_callbacks_run] for the index member [c] stored under [k]. *)
Definition method_callbacks_run (m : sd_bus_message) (k : member_key) (c : vtable_member)
    (require_fallback : bool) : DM Z :=
  if require_fallback && negb (nv_is_fallback (vm_parent c)) then mret 0%Z
  else
    b ← get_bus;
    let '(r, err) := check_access b m c in
    if (r <? 0)%Z then bus_maybe_reply_error m r err
    else
      '(r, u, err) ← node_vtable_get_userdata (m_path_str m) (vm_parent c);
      if (r <=? 0)%Z then bus_maybe_reply_error m r err
      else
        unless_modified (
          set_found;;
          b ← get_bus;
          if vm_last_iteration c =? bus_iteration_counter b then mret 0%Z
          else
            set_method_iteration k (bus_iteration_counter b);;
            match vm_vtable c with
            | VtableMethod _ _ sig _ handler =>
                if negb (String.eqb sig (m_signature m)) then
                  sd_bus_reply_method_errorf m SD_BUS_ERROR_INVALID_ARGS
                else match handler with
                | Some h =>
                    '(r, herr) ← invoke_handler (InvMethod k (nv_id (vm_parent c))) h m u;
                    bus_maybe_reply_error m r (first_error err herr)
                | None => sd_bus_reply_method_return m []
                end
            | _ => mret 0%Z
            end).

(** [invoke_property_get]: the return code, the values appended to the
    reply, the error.  A set error makes the code return the positive
    [sd_bus_error_get_errno]. *)
Definition invoke_property_get (k : member_key) (vt : nat) (v : sd_bus_vtable)
    (path iface member : string) (u : option paddr) : DM (Z * list dvalue * option string) :=
  match property_getter v with
  | Some g =>
      let res := env_getter g path iface member u in
      log_invocation (InvGet k vt);; apply_effects (gr_effects res);;
      if (gr_ret res <? 0)%Z then mret (gr_ret res, gr_values res, gr_error res)
      else match gr_error res with
      | Some e => mret (bus_error_name_to_errno e, gr_values res, Some e)
      | None => mret (gr_ret res, gr_values res, None)
      end
  | None =>
      cell ← (match u with Some a => read_mem a | None => mret None end);
      mret (0%Z, [auto_value (entry_signature v) cell], None)
  end.

(** [invoke_property_set]: the automatic setter stores the value at the
    property's address. *)
Definition invoke_property_set (k : member_key) (vt : nat) (v : sd_bus_vtable)
    (path iface member : string) (value : dvalue) (u : option paddr) : DM (Z * option string) :=
  match property_setter v with
  | Some f =>
      let res := env_setter f path iface member value u in
      log_invocation (InvSet k vt);; apply_effects (sr_effects res);;
      if (sr_ret res <? 0)%Z then mret (sr_ret res, sr_error res)
      else match sr_error res with
      | Some e => mret (bus_error_name_to_errno e, Some e)
      | None => mret (sr_ret res, None)
      end
  | None =>
      (match u with Some a => write_mem a value | None => mret tt end);; mret (1%Z, None)
  end.

(** [property_get_set_callbacks_run] for the index member [c] stored
    under [k]. *)
Definition property_get_set_callbacks_run (m : sd_bus_message) (k : member_key)
    (c : vtable_member) (require_fallback is_get : bool) : DM Z :=
  if require_fallback && negb (nv_is_fallback (vm_parent c)) then mret 0%Z
  else
    '(r, u, err) ← vtable_property_get_userdata (m_path_str m) c;
    if (r <=? 0)%Z then bus_maybe_reply_error m r err
    else
      unless_modified (
        set_found;;
        if is_get then
          '(r, vals, gerr) ← invoke_property_get k (nv_id (vm_parent c)) (vm_vtable c)
                                (m_path_str m) (vm_interface c) (vm_member c) u;
          if (r <? 0)%Z then bus_maybe_reply_error m r (first_error err gerr)
          else unless_modified (
            match vals with
            | [v] =>
                if String.eqb (dvalue_signature v) (entry_signature (vm_vtable c))
                then send (method_return m [DVariant v]);; mret 1%Z
                else mret (- Errno.ENXIO)%Z
            | _ => mret (- Errno.ENXIO)%Z
            end)
        else match vm_vtable c with
        | VtableWritableProperty _ _ sig _ _ _ =>
            b ← get_bus;
            if vm_last_iteration c =? bus_iteration_counter b then mret 0%Z
            else
              set_property_iteration k (bus_iteration_counter b);;
              match read_variant_after_ss m sig with
              | None => mret (- Errno.ENXIO)%Z
              | Some value =>
                  b ← get_bus;
                  let '(r, aerr) := check_access b m c in
                  if (r <? 0)%Z then bus_maybe_reply_error m r (first_error err aerr)
                  else
                    '(r, serr) ← invoke_property_set k (nv_id (vm_parent c)) (vm_vtable c)
                                   (m_path_str m) (vm_interface c) (vm_member c) value u;
                    if (r <? 0)%Z then bus_maybe_reply_error m r (first_error err serr)
                    else unless_modified (send (method_return m []);; mret 1%Z)
              end
        | _ => sd_bus_reply_method_errorf m SD_BUS_ERROR_PROPERTY_READ_ONLY
        end).

(** The loop of [vtable_append_all_properties] over the entries after
    START: one [{sv}] entry per property that is not HIDDEN.  Returns the
    code, the entries appended, and the error object. *)
Fixpoint append_all_properties_loop (c : node_vtable) (path : string) (u : option userdata)
    (es : list sd_bus_vtable) (acc : list dvalue) (err : option string)
    : DM (Z * list dvalue * option string) :=
  match es with
  | [] => mret (1%Z, acc, err)
  | v :: es' =>
      match property_member v with
      | None => append_all_properties_loop c path u es' acc err
      | Some member =>
          if flag_set (vt_flags v) SD_BUS_VTABLE_HIDDEN then
            append_all_properties_loop c path u es' acc err
          else
            '(r, vals, gerr) ← invoke_property_get (nv_node c, nv_interface c, member) (nv_id c) v
                                  path (nv_interface c) member
                                  (option_map (vtable_property_convert_userdata v) u);
            let err := first_error err gerr in
            if (r <? 0)%Z then mret (r, acc, err)
            else
              nodes_modified ≫= fun modified : bool =>
              if modified then mret (0%Z, acc, err)
              else match vals with
              | [x] =>
                  if String.eqb (dvalue_signature x) (entry_signature v) then
                    append_all_properties_loop c path u es'
                      (acc ++ [DDictEntry (DString member) (DVariant x)]) err
                  else mret ((- Errno.ENXIO)%Z, acc, err)
              | _ => mret ((- Errno.ENXIO)%Z, acc, err)
              end
      end
  end.

(** [vtable_append_all_properties]: a vtable whose START entry is HIDDEN
    contributes nothing. *)
Definition vtable_append_all_properties (path : string) (c : node_vtable) (u : option userdata)
    (acc : list dvalue) (err : option string) : DM (Z * list dvalue * option string) :=
  if flag_set (start_flags (vr_entries (nv_vtable c))) SD_BUS_VTABLE_HIDDEN then mret (1%Z, acc, err)
  else append_all_properties_loop c path u (vtable_body (vr_entries (nv_vtable c))) acc err.

(** The loop of [property_get_all_callbacks_run] over the node's vtables:
    [inl r] is an early return, [inr (found_interface, entries)] the end
    of the loop.  Each iteration has its own error object. *)
Fixpoint get_all_loop (m : sd_bus_message) (vts : list node_vtable) (require_fallback : bool)
    (iface : option string) (found_interface : bool) (acc : list dvalue)
    : DM (Z + (bool * list dvalue)) :=
  match vts with
  | [] => mret (inr (found_interface, acc))
  | c :: vts' =>
      if require_fallback && negb (nv_is_fallback c) then
        get_all_loop m vts' require_fallback iface found_interface acc
      else
        '(r, u, err) ← node_vtable_get_userdata (m_path_str m) c;
        if (r <? 0)%Z then r' ← bus_maybe_reply_error m r err; mret (inl r')
        else
          nodes_modified ≫= fun modified : bool =>
          if modified then mret (inl 0%Z)
          else if (r =? 0)%Z then get_all_loop m vts' require_fallback iface found_interface acc
          else
            set_found;;
            if match iface with Some i => negb (String.eqb (nv_interface c) i) | None => false end
            then get_all_loop m vts' require_fallback iface found_interface acc
            else
              '(r, acc', err) ← vtable_append_all_properties (m_path_str m) c u acc err;
              if (r <? 0)%Z then r' ← bus_maybe_reply_error m r err; mret (inl r')
              else
                nodes_modified ≫= fun modified : bool =>
                if modified then mret (inl 0%Z)
                else get_all_loop m vts' require_fallback iface true acc'
  end.

(** [property_get_all_callbacks_run] on the vtables [first] of the node;
    [iface] is [None] for the empty interface name. *)
Definition property_get_all_callbacks_run (m : sd_bus_message) (first : list node_vtable)
    (require_fallback : bool) (iface : option string) : DM Z :=
  let found_interface :=
    match iface with
    | None => true
    | Some i => String.eqb i "org.freedesktop.DBus.Properties" ||
                String.eqb i "org.freedesktop.DBus.Peer" ||
                String.eqb i "org.freedesktop.DBus.Introspectable"
    end in
  res ← get_all_loop m first require_fallback iface found_interface [];
  match res with
  | inl r => mret r
  | inr (false, _) => sd_bus_reply_method_errorf m SD_BUS_ERROR_UNKNOWN_INTERFACE
  | inr (true, entries) => send (method_return m [DArray "{sv}" entries]);; mret 1%Z
  end.

End Run.

End Callbacks.
