(* ===== verification/Tree.v ===== *)
(** * Walking the node tree

    [add_enumerated_to_set], [add_subtree_to_set] and [get_child_nodes]
    (lines 96-224) collect the paths below a node, from the static tree and
    from the node enumerators; [bus_node_with_object_manager] (756-767)
    and [bus_node_exists] (769-805) test a node.

    The C [Set] of paths is a [gset string].  The recursions follow
    parent or child links, along which the path length strictly decreases
    or increases ([NodeStore.nodes_wf]); their fuel is the length of the
    path, resp. one more than the longest path of the store. *)

From S2P Require Import Prelude ObjectPath Vtable Message BusState DispatchCore Callbacks.
Import ObjectPath Vtable Message BusState DispatchCore Callbacks.

Module Tree.

(** One more than the longest path in the store: enough fuel for a walk
    down the tree. *)
Definition depth_fuel (ns : gmap string node) : nat :=
  S (list_max (String.length <$> elements (dom ns))).

(** The [STRV_FOREACH] loop of [add_enumerated_to_set]: a child that is
    not a valid path makes the code [-EINVAL] and skips the rest; a child
    outside [prefix] is dropped; [set_consume] returns 1 for a new path
    and -EEXIST, turned into 0, for a known one. *)
Fixpoint add_children (prefix : string) (ks : list string) (r : Z) (s : gset string)
    : Z * gset string :=
  match ks with
  | [] => (r, s)
  | k :: ks' =>
      if (r <? 0)%Z then add_children prefix ks' r s
      else if negb (object_path_is_valid k) then add_children prefix ks' (- Errno.EINVAL)%Z s
      else if negb (nonnull (object_path_startswith k prefix)) then add_children prefix ks' r s
      else add_children prefix ks' (if bool_decide (k ∈ s) then 0%Z else 1%Z) ({[k]} ∪ s)
  end.

Section Walk.
  Context `{BusValidators} `{DispatchEnv}.

(** [add_enumerated_to_set]: the code, the set, and the caller's error
    object after the enumerators ran. *)
Fixpoint add_enumerated_to_set (prefix : string) (es : list node_enumerator) (s : gset string)
    (err : option string) : DM (Z * gset string * option string) :=
  match es with
  | [] => mret (0%Z, s, err)
  | c :: es' =>
      nodes_modified ≫= fun modified : bool =>
      if modified then mret (0%Z, s, err)
      else
        let res := env_enumerator (ne_callback c) prefix (ne_userdata c) in
        log_invocation (InvEnumerator prefix);; apply_effects (er_effects res);;
        let err := first_error err (er_error res) in
        if (er_ret res <? 0)%Z then mret (er_ret res, s, err)
        else match er_error res with
        | Some e => mret (bus_error_name_to_errno e, s, err)
        | None =>
            let '(r, s') := add_children prefix (er_children res) (er_ret res) s in
            if (r <? 0)%Z then mret (r, s', err)
            else add_enumerated_to_set prefix es' s' err
        end
  end.

(** [add_subtree_to_set] on the node at [path]. *)
Fixpoint add_subtree_to_set (fuel : nat) (prefix : string) (n : node) (s : gset string)
    (err : option string) : DM (Z * gset string * option string) :=
  match fuel with
  | O => mret (0%Z, s, err)
  | S fuel' =>
      '(r, s, err) ← add_enumerated_to_set prefix (node_enumerators n) s err;
      if (r <? 0)%Z then mret (r, s, err)
      else
        nodes_modified ≫= fun modified : bool =>
        if modified then mret (0%Z, s, err)
        else
          (fix children (cs : list string) (s : gset string) (err : option string)
               : DM (Z * gset string * option string) :=
             match cs with
             | [] => mret (0%Z, s, err)
             | i :: cs' =>
                 if negb (nonnull (object_path_startswith i prefix)) then children cs' s err
                 else
                   b ← get_bus;
                   match bus_nodes b !! i with
                   | None => children cs' s err
                   | Some ni =>
                       '(r, s, err) ← add_subtree_to_set fuel' prefix ni ({[i]} ∪ s) err;
                       if (r <? 0)%Z then mret (r, s, err)
                       else
                         nodes_modified ≫= fun modified : bool =>
                         if modified then mret (0%Z, s, err) else children cs' s err
                   end
             end) (node_child n) s err
  end.

(** [get_child_nodes]: on failure the set is freed. *)
Definition get_child_nodes (prefix : string) (n : node) (err : option string)
    : DM (Z * gset string * option string) :=
  b ← get_bus;
  '(r, s, err) ← add_subtree_to_set (depth_fuel (bus_nodes b)) prefix n ∅ err;
  if (r <? 0)%Z then mret (r, ∅, err) else mret (0%Z, s, err).

End Walk.

(** [bus_node_with_object_manager]: the node or one of its ancestors is
    an object manager. *)
Fixpoint bus_node_with_object_manager_fuel (fuel : nat) (ns : gmap string node) (n : node) : bool :=
  match fuel with
  | O => false
  | S fuel' =>
      if node_object_manager n then true
      else match node_parent n with
      | Some p =>
          match ns !! p with
          | Some pn => bus_node_with_object_manager_fuel fuel' ns pn
          | None => false
          end
      | None => false
      end
  end.

Definition bus_node_with_object_manager (ns : gmap string node) (n : node) : bool :=
  bus_node_with_object_manager_fuel (S (String.length (node_path n))) ns n.

Section Exists.
  Context `{BusValidators} `{DispatchEnv}.

(** [bus_node_exists]: a raw callback of the right kind, a vtable whose
    [find] resolves the path, or (for an exact lookup) an enumerator or
    the object-manager flag. *)
Definition bus_node_exists (n : node) (path : string) (require_fallback : bool) : DM bool :=
  if existsb (fun k => negb require_fallback || nc_is_fallback k) (node_callbacks n) then mret true
  else
    (fix vtables (vts : list node_vtable) : DM bool :=
       match vts with
       | [] => mret (negb require_fallback &&
                     (negb (bool_decide (node_enumerators n = [])) || node_object_manager n))
       | c :: vts' =>
           if require_fallback && negb (nv_is_fallback c) then vtables vts'
           else
             '(r, _, _) ← node_vtable_get_userdata path c;
             if (0 <? r)%Z then mret true
             else
               nodes_modified ≫= fun modified : bool =>
               if modified then mret false else vtables vts'
       end) (node_vtables n).

End Exists.

End Tree.
