(* ===== verification/Introspect.v ===== *)
(** * Introspection

    [process_introspect] (lines 807-914) answers
    org.freedesktop.DBus.Introspectable.Introspect for one node: the
    standard interfaces, one [<interface>] element per interface of the
    visible vtables (consecutive vtables of one interface share the
    element), and the child nodes.

    The introspection writer (bus-introspect.c, outside src/) is modelled
    from the spec as the list of what was written, [intro_item]; the reply
    carries the document rendered by [introspect_render]. *)

From S2P Require Import Prelude ObjectPath Vtable Message BusState DispatchCore Access Callbacks Tree.
Import ObjectPath Vtable Message BusState DispatchCore Access Callbacks Tree.

Module Introspect.

(** What the code writes into [intro.f]. *)
Inductive intro_item :=
| IDefaultInterfaces (object_manager : bool)   (* introspect_write_default_interfaces *)
| IOpenInterface (name : string)               (* line 870 *)
| IWriteInterface (vt : list sd_bus_vtable)     (* introspect_write_interface *)
| ICloseInterface                              (* lines 868 and 881 *)
| IChildNodes (children : list string) (prefix : string).  (* introspect_write_child_nodes *)

Definition quote : string := String (Ascii.ascii_of_nat 34) EmptyString.
Definition newline : string := String (Ascii.ascii_of_nat 10) EmptyString.

(** The rendering of the writer: the element names, one per item. *)
Definition render_item (it : intro_item) : string :=
  match it with
  | IDefaultInterfaces om =>
      (if om then "<default-interfaces object-manager/>" else "<default-interfaces/>") +:+ newline
  | IOpenInterface name => " <interface name=" +:+ quote +:+ name +:+ quote +:+ ">" +:+ newline
  | IWriteInterface vt =>
      String.concat "" (map (fun v => match method_member v, property_member v with
                                      | Some m, _ => "  <method name=" +:+ quote +:+ m +:+ quote +:+ "/>" +:+ newline
                                      | None, Some p => "  <property name=" +:+ quote +:+ p +:+ quote +:+ "/>" +:+ newline
                                      | None, None => ""
                                      end) (vtable_body vt))
  | ICloseInterface => " </interface>" +:+ newline
  | IChildNodes cs prefix =>
      String.concat "" (map (fun c => " <node name=" +:+ quote +:+ c +:+ quote +:+ "/>" +:+ newline) cs)
  end%string.

Definition introspect_render (items : list intro_item) : string :=
  String.concat "" (map render_item items).

(** [introspect_write_child_nodes(&intro, s, prefix)]: the members of the
    set, in the set's order. *)
Definition write_child_nodes (s : gset string) (prefix : string) : intro_item :=
  IChildNodes (elements s) prefix.

Section Introspect.
  Context `{BusValidators} `{DispatchEnv}.

(** The vtable loop of lines 844-878: [inl r] is the jump to [finish]
    with [r]; [inr (empty, previous_interface, items)] the end of the
    loop. *)
Fixpoint introspect_vtables (m : sd_bus_message) (vts : list node_vtable) (require_fallback : bool)
    (empty : bool) (prev : option string) (items : list intro_item)
    : DM (Z + (bool * option string * list intro_item)) :=
  match vts with
  | [] => mret (inr (empty, prev, items))
  | c :: vts' =>
      if require_fallback && negb (nv_is_fallback c) then
        introspect_vtables m vts' require_fallback empty prev items
      else
        '(r, _, err) ← node_vtable_get_userdata (m_path_str m) c;
        if (r <? 0)%Z then r' ← bus_maybe_reply_error m r err; mret (inl r')
        else
          nodes_modified ≫= fun modified : bool =>
          if modified then mret (inl 0%Z)
          else if (r =? 0)%Z then introspect_vtables m vts' require_fallback empty prev items
          else if flag_set (start_flags (vr_entries (nv_vtable c))) SD_BUS_VTABLE_HIDDEN then
            introspect_vtables m vts' require_fallback false prev items
          else
            let opened :=
              if bool_decide (prev = Some (nv_interface c)) then []
              else (match prev with Some _ => [ICloseInterface] | None => [] end) ++
                   [IOpenInterface (nv_interface c)] in
            introspect_vtables m vts' require_fallback false (Some (nv_interface c))
              (items ++ opened ++ [IWriteInterface (vr_entries (nv_vtable c))])
  end.

(** [process_introspect] on the node [n]. *)
Definition process_introspect (m : sd_bus_message) (n : node) (require_fallback : bool) : DM Z :=
  '(r, s, err) ← get_child_nodes (m_path_str m) n None;
  if (r <? 0)%Z then bus_maybe_reply_error m r err
  else
    unless_modified (
      b ← get_bus;
      let items := [IDefaultInterfaces (bus_node_with_object_manager (bus_nodes b) n)] in
      introspect_vtables m (node_vtables n) require_fallback (bool_decide (s = ∅)) None items
        ≫= fun res : Z + (bool * option string * list intro_item) =>
      match res with
      | inl r => mret r
      | inr (empty, prev, items) =>
          let items := items ++ (match prev with Some _ => [ICloseInterface] | None => [] end) in
          let reply :=
            set_found;;
            let items := items ++ [write_child_nodes s (m_path_str m)] in
            send (method_return m [DString (introspect_render items)]);;
            mret 1%Z in
          if empty then
            bus_node_exists n (m_path_str m) require_fallback ≫= fun ex : bool =>
            unless_modified (if ex then reply else mret 0%Z)
          else reply
      end).

End Introspect.

End Introspect.
