(* ===== verification/ObjectManager.v ===== *)
(** * org.freedesktop.DBus.ObjectManager.GetManagedObjects

    [object_manager_serialize_path] (lines 916-1032),
    [object_manager_serialize_path_and_fallbacks] (1034-1066) and
    [process_get_managed_objects] (1068-1150).  The reply is built as a
    value of type [a{oa{sa{sv}}}]: one entry per object path, holding one
    entry per interface (consecutive vtables of one interface share it),
    holding the properties.

    [sd_bus_message_open_container] returns 0 on success (bus-message.c,
    outside src/); the value matters because [process_get_managed_objects]
    reads its result again where it means to test the vtables. *)

From S2P Require Import Prelude ObjectPath Vtable Message BusState DispatchCore Access Callbacks Tree.
Import ObjectPath Vtable Message BusState DispatchCore Access Callbacks Tree.

Module ObjectManager.

(** The success value of [sd_bus_message_open_container]. *)
Definition open_container_ok : Z := 0.

(** The [{sa{sv}}] entry of one interface. *)
Definition interface_entry (iface : string) (props : list dvalue) : dvalue :=
  DDictEntry (DString iface) (DArray "{sv}" props).

(** The interface entries closed so far, with the one still open. *)
Definition close_group (closed : list dvalue) (cur : option (string * list dvalue)) : list dvalue :=
  match cur with
  | Some (i, ps) => closed ++ [interface_entry i ps]
  | None => closed
  end.

Section Serialize.
  Context `{BusValidators} `{DispatchEnv}.

(** The vtable loop of [object_manager_serialize_path]: [inl r] is an
    early return; [inr (closed, cur)] the end of the loop, [cur] being the
    interface entry still open ([previous_interface]). *)
Fixpoint serialize_vtables (path : string) (vts : list node_vtable) (require_fallback : bool)
    (closed : list dvalue) (cur : option (string * list dvalue)) (err : option string)
    : DM ((Z + (list dvalue * option (string * list dvalue))) * option string) :=
  match vts with
  | [] => mret (inr (closed, cur), err)
  | i :: vts' =>
      if require_fallback && negb (nv_is_fallback i) then
        serialize_vtables path vts' require_fallback closed cur err
      else
        '(r, u, err') ← node_vtable_get_userdata path i;
        let err := first_error err err' in
        if (r <? 0)%Z then mret (inl r, err)
        else
          nodes_modified ≫= fun modified : bool =>
          if modified then mret (inl 0%Z, err)
          else if (r =? 0)%Z then serialize_vtables path vts' require_fallback closed cur err
          else
            let '(closed, props) :=
              match cur with
              | Some (ci, ps) => if String.eqb ci (nv_interface i) then (closed, ps)
                                 else (close_group closed cur, [])
              | None => (closed, [])
              end in
            '(r, props, err) ← vtable_append_all_properties path i u props err;
            if (r <? 0)%Z then mret (inl r, err)
            else
              nodes_modified ≫= fun modified : bool =>
              if modified then mret (inl 0%Z, err)
              else serialize_vtables path vts' require_fallback closed (Some (nv_interface i, props)) err
  end.

(** [object_manager_serialize_path(bus, reply, prefix, path, ...)]: the
    code, the entries of the reply after it, and the error object. *)
Definition object_manager_serialize_path (prefix path : string) (require_fallback : bool)
    (entries : list dvalue) (err : option string) : DM (Z * list dvalue * option string) :=
  b ← get_bus;
  match bus_nodes b !! prefix with
  | None => mret (0%Z, entries, err)
  | Some n =>
      '(res, err) ← serialize_vtables path (node_vtables n) require_fallback [] None err;
      match res with
      | inl r => mret (r, entries, err)
      | inr (closed, cur) =>
          let groups := close_group closed cur in
          (* found_something: an object entry was opened *)
          match groups with
          | [] => mret (1%Z, entries, err)
          | _ => mret (1%Z, entries ++ [DDictEntry (DObjectPath path) (DArray "{sa{sv}}" groups)], err)
          end
      end
  end.

(** [object_manager_serialize_path_and_fallbacks]: the path's own vtables,
    then the fallback vtables of every prefix, longest first. *)
Definition object_manager_serialize_path_and_fallbacks (path : string) (entries : list dvalue)
    (err : option string) : DM (Z * list dvalue * option string) :=
  '(r, entries, err) ← object_manager_serialize_path path path false entries err;
  if (r <? 0)%Z then mret (r, entries, err)
  else
    nodes_modified ≫= fun modified : bool =>
    if modified then mret (0%Z, entries, err)
    else
      (fix prefixes (ps : list string) (entries : list dvalue) (err : option string)
           : DM (Z * list dvalue * option string) :=
         match ps with
         | [] => mret (0%Z, entries, err)
         | p :: ps' =>
             '(r, entries, err) ← object_manager_serialize_path p path true entries err;
             if (r <? 0)%Z then mret (r, entries, err)
             else
               nodes_modified ≫= fun modified : bool =>
               if modified then mret (0%Z, entries, err) else prefixes ps' entries err
         end) (object_path_prefixes path) entries err.

(** The loop of lines 1111-1123, which tests the stale [r]: [inl r] is
    the return of [r], [inr empty] the end of the loop. *)
Fixpoint managed_objects_empty_loop (vts : list node_vtable) (require_fallback : bool) (r : Z)
    : Z + bool :=
  match vts with
  | [] => inr true
  | c :: vts' =>
      if require_fallback && negb (nv_is_fallback c) then managed_objects_empty_loop vts' require_fallback r
      else if (r <? 0)%Z then inl r
      else if (r =? 0)%Z then managed_objects_empty_loop vts' require_fallback r
      else inr false
  end.

(** The loop of [SET_FOREACH(path, s, i)]. *)
Fixpoint serialize_children (paths : list string) (entries : list dvalue) (err : option string)
    : DM (option Z * list dvalue) :=
  match paths with
  | [] => mret (None, entries)
  | p :: ps =>
      '(r, entries, err) ← object_manager_serialize_path_and_fallbacks p entries err;
      if (r <? 0)%Z then mret (Some r, entries)
      else
        nodes_modified ≫= fun modified : bool =>
        if modified then mret (Some 0%Z, entries) else serialize_children ps entries err
  end.

(** [process_get_managed_objects] on the node [n]. *)
Definition process_get_managed_objects (m : sd_bus_message) (n : node) (require_fallback : bool)
    : DM Z :=
  b ← get_bus;
  if negb (bus_node_with_object_manager (bus_nodes b) n) then mret 0%Z
  else
    '(r, s, err) ← get_child_nodes (m_path_str m) n None;
    if (r <? 0)%Z then mret r
    else
      unless_modified (
        let r := open_container_ok in
        let reply (entries : list dvalue) :=
          send (method_return m [DArray "{oa{sa{sv}}}" entries]);; mret 1%Z in
        if bool_decide (s = ∅) then
          match managed_objects_empty_loop (node_vtables n) require_fallback r with
          | inl r => mret r
          | inr true => mret 0%Z
          | inr false => reply []
          end
        else
          '(res, entries) ← serialize_children (elements s) [] err;
          match res with
          | Some r => mret r
          | None => reply entries
          end).

End Serialize.

End ObjectManager.
