(* ===== verification/Signals.v ===== *)
(** * The signal emitters

    [emit_properties_changed_on_interface] and
    [sd_bus_emit_properties_changed(_strv)] (lines 1939-2166),
    [interfaces_added_append_one_prefix], [interfaces_added_append_one]
    and [sd_bus_emit_interfaces_added(_strv)] (lines 2168-2343),
    [sd_bus_emit_interfaces_removed(_strv)] (lines 2345-2383).

    The signals are built as typed values: PropertiesChanged carries
    [s a{sv} as], InterfacesAdded [o a{sa{sv}}], InterfacesRemoved
    [o as].  The getters and [find] callbacks are the user callbacks of
    [DispatchEnv].  Both restart loops ([do ... while
    (bus->nodes_modified)]) take the number of passes as fuel and give
    [None] when it runs out.

    [emit_properties_changed_on_interface] has [assert]s besides its
    [assert_return]s: a failed [assert] stops the process, the
    [AssertFailed] outcome. *)

From S2P Require Import Prelude ObjectPath Vtable Message BusState DispatchCore Callbacks.
Import ObjectPath Vtable Message BusState DispatchCore Callbacks.

Module Signals.

(** What a function of the emitters does: return a code, or abort the
    process in a failed [assert]/[assert_se]. *)
Inductive outcome := Return (r : Z) | AssertFailed.

#[export] Instance outcome_eq_dec : EqDecision outcome.
Proof. solve_decision. Defined.

(** [if (r != 0) return r;] *)
Definition outcome_is_zero (o : outcome) : bool :=
  match o with Return r => (r =? 0)%Z | AssertFailed => false end.

(** [sd_bus_send] on success. *)
Definition sd_bus_send_ok : Z := 1.

(** The PropertiesChanged signal of [interface] at [path]. *)
Definition properties_changed_signal (path iface : string) (changed : list dvalue) (invalidated : list string)
    : sd_bus_message :=
  signal path "org.freedesktop.DBus.Properties" "PropertiesChanged"
    [DString iface; DArray "{sv}" changed; DArray "s" (map DString invalidated)].

(** A vtable the loops of the emitters skip: a non-fallback one when only
    fallbacks count, or one of another interface. *)
Definition skip_vtable (require_fallback : bool) (iface : string) (c : node_vtable) : bool :=
  (require_fallback && negb (nv_is_fallback c)) || negb (String.eqb (nv_interface c) iface).

(** [c != v->parent]: the two vtables are different objects. *)
Definition other_parent (c : node_vtable) (v : vtable_member) : bool :=
  negb (nv_id (vm_parent v) =? nv_id c).

Section Emit.
  Context `{BusValidators} `{DispatchEnv}.

(** The [STRV_FOREACH(property, names)] loop of lines 1996-2046 on the
    vtable [c] with userdata [u]: [inl o] is an early return,
    [inr (has_invalidating, has_changing, entries)] the end of the loop. *)
Fixpoint changed_names (prefix path iface : string) (c : node_vtable) (u : option userdata)
    (names : list string) (has_inv has_chg : bool) (entries : list dvalue)
    : DM (outcome + (bool * bool * list dvalue)) :=
  match names with
  | [] => mret (inr (has_inv, has_chg, entries))
  | p :: ps =>
      if negb (member_name_is_valid p) then mret (inl (Return (- Errno.EINVAL)%Z))
      else
        b ← get_bus;
        match bus_vtable_properties b !! (prefix, iface, p) with
        | None => mret (inl (Return (- Errno.ENOENT)%Z))
        | Some v =>
            if other_parent c v then changed_names prefix path iface c u ps has_inv has_chg entries
            else if negb (flag_set (vt_flags (vm_vtable v)) SD_BUS_VTABLE_PROPERTY_EMITS_CHANGE) then
              mret (inl (Return (- Errno.EDOM)%Z))
            else if flag_set (vt_flags (vm_vtable v)) SD_BUS_VTABLE_PROPERTY_INVALIDATE_ONLY then
              changed_names prefix path iface c u ps true has_chg entries
            else
              '(r, vals, _) ← invoke_property_get (prefix, iface, p) (nv_id c) (vm_vtable v) path iface p
                                 (option_map (vtable_property_convert_userdata (vm_vtable v)) u);
              if (r <? 0)%Z then mret (inl (Return r))
              else
                nodes_modified ≫= fun modified : bool =>
                if modified then mret (inl (Return 0%Z))
                else match vals with
                | [x] =>
                    if String.eqb (dvalue_signature x) (entry_signature (vm_vtable v)) then
                      changed_names prefix path iface c u ps has_inv true
                        (entries ++ [DDictEntry (DString p) (DVariant x)])
                    else mret (inl (Return (- Errno.ENXIO)%Z))
                | _ => mret (inl (Return (- Errno.ENXIO)%Z))
                end
        end
  end.

(** The vtable loop of lines 1981-2047. *)
Fixpoint changed_vtables (prefix path iface : string) (require_fallback : bool) (names : list string)
    (vts : list node_vtable) (has_inv has_chg : bool) (entries : list dvalue)
    : DM (outcome + (bool * bool * list dvalue)) :=
  match vts with
  | [] => mret (inr (has_inv, has_chg, entries))
  | c :: vts' =>
      if skip_vtable require_fallback iface c then
        changed_vtables prefix path iface require_fallback names vts' has_inv has_chg entries
      else
        '(r, u, _) ← node_vtable_get_userdata path c;
        if (r <? 0)%Z then mret (inl (Return r))
        else
          nodes_modified ≫= fun modified : bool =>
          if modified then mret (inl (Return 0%Z))
          else if (r =? 0)%Z then
            changed_vtables prefix path iface require_fallback names vts' has_inv has_chg entries
          else
            res ← changed_names prefix path iface c u names has_inv has_chg entries;
            match res with
            | inl o => mret (inl o)
            | inr (has_inv, has_chg, entries) =>
                changed_vtables prefix path iface require_fallback names vts' has_inv has_chg entries
            end
  end.

(** The [STRV_FOREACH] of lines 2076-2089: [assert_se] that the member
    exists and [assert] that it belongs to [c]. *)
Fixpoint invalidated_names (prefix iface : string) (c : node_vtable) (names : list string)
    (acc : list string) : DM (outcome + list string) :=
  match names with
  | [] => mret (inr acc)
  | p :: ps =>
      b ← get_bus;
      match bus_vtable_properties b !! (prefix, iface, p) with
      | None => mret (inl AssertFailed)
      | Some v =>
          if other_parent c v then mret (inl AssertFailed)
          else if flag_set (vt_flags (vm_vtable v)) SD_BUS_VTABLE_PROPERTY_INVALIDATE_ONLY then
            invalidated_names prefix iface c ps (acc ++ [p])
          else invalidated_names prefix iface c ps acc
      end
  end.

(** The vtable loop of lines 2061-2090. *)
Fixpoint invalidated_vtables (prefix path iface : string) (require_fallback : bool) (names : list string)
    (vts : list node_vtable) (acc : list string) : DM (outcome + list string) :=
  match vts with
  | [] => mret (inr acc)
  | c :: vts' =>
      if skip_vtable require_fallback iface c then
        invalidated_vtables prefix path iface require_fallback names vts' acc
      else
        '(r, _, _) ← node_vtable_get_userdata path c;
        if (r <? 0)%Z then mret (inl (Return r))
        else
          nodes_modified ≫= fun modified : bool =>
          if modified then mret (inl (Return 0%Z))
          else if (r =? 0)%Z then invalidated_vtables prefix path iface require_fallback names vts' acc
          else
            res ← invalidated_names prefix iface c names acc;
            match res with
            | inl o => mret (inl o)
            | inr acc => invalidated_vtables prefix path iface require_fallback names vts' acc
            end
  end.

(** [emit_properties_changed_on_interface(bus, prefix, path, interface,
    require_fallback, names)] *)
Definition emit_properties_changed_on_interface (prefix path iface : string) (require_fallback : bool)
    (names : list string) : DM outcome :=
  b ← get_bus;
  match bus_nodes b !! prefix with
  | None => mret (Return 0%Z)
  | Some n =>
      res ← changed_vtables prefix path iface require_fallback names (node_vtables n) false false [];
      match res with
      | inl o => mret o
      | inr (has_inv, has_chg, entries) =>
          if negb has_inv && negb has_chg then mret (Return 0%Z)
          else
            res ← (if has_inv then invalidated_vtables prefix path iface require_fallback names (node_vtables n) []
                   else mret (inr []));
            match res with
            | inl o => mret o
            | inr inv =>
                send (properties_changed_signal path iface entries inv);; mret (Return 1%Z)
            end
      end
  end.

(** The [OBJECT_PATH_FOREACH_PREFIX] loop of lines 2133-2139: [Some o]
    is a return, [None] the end of the loop or its [break]. *)
Fixpoint emit_changed_prefixes (path iface : string) (names : list string) (ps : list string)
    : DM (option outcome) :=
  match ps with
  | [] => mret None
  | p :: ps' =>
      o ← emit_properties_changed_on_interface p path iface true names;
      if negb (outcome_is_zero o) then mret (Some o)
      else
        nodes_modified ≫= fun modified : bool =>
        if modified then mret None else emit_changed_prefixes path iface names ps'
  end.

(** The [do ... while (bus->nodes_modified)] loop of lines 2123-2143,
    at most [fuel] passes: [Some o] is the outcome, [None] the fuel
    running out. *)
Fixpoint emit_properties_changed_loop (fuel : nat) (path iface : string) (names : list string)
    : DM (option outcome) :=
  match fuel with
  | O => mret None
  | S fuel' =>
      modify_bus (fun b => set_modified b false);;
      o ← emit_properties_changed_on_interface path path iface false names;
      if negb (outcome_is_zero o) then mret (Some o)
      else
        nodes_modified ≫= fun modified : bool =>
        if modified then emit_properties_changed_loop fuel' path iface names
        else
          res ← emit_changed_prefixes path iface names (object_path_prefixes path);
          match res with
          | Some o => mret (Some o)
          | None =>
              nodes_modified ≫= fun modified : bool =>
              if modified then emit_properties_changed_loop fuel' path iface names
              else mret (Some (Return (- Errno.ENOENT)%Z))
          end
  end.

(** The [assert_return]s shared by the public emitters. *)
Definition emitter_guards (b : sd_bus) (path : string) : option Z :=
  if negb (object_path_is_valid path) then Some (- Errno.EINVAL)%Z
  else if negb (bus_open b) then Some (- Errno.ENOTCONN)%Z
  else if bus_pid_changed b then Some (- Errno.ECHILD)%Z
  else None.

(** [sd_bus_emit_properties_changed_strv] *)
Definition sd_bus_emit_properties_changed_strv (fuel : nat) (path iface : string) (names : list string)
    : DM (option outcome) :=
  b ← get_bus;
  if negb (object_path_is_valid path) then mret (Some (Return (- Errno.EINVAL)%Z))
  else if negb (interface_name_is_valid iface) then mret (Some (Return (- Errno.EINVAL)%Z))
  else if negb (bus_open b) then mret (Some (Return (- Errno.ENOTCONN)%Z))
  else if bus_pid_changed b then mret (Some (Return (- Errno.ECHILD)%Z))
  else match names with
  | [] => mret (Some (Return 0%Z))
  | _ => emit_properties_changed_loop fuel path iface names
  end.

(** [sd_bus_emit_properties_changed(bus, path, interface, name, ...)]:
    the arguments after [interface] up to the NULL are [names]. *)
Definition sd_bus_emit_properties_changed (fuel : nat) (path iface : string) (names : list string)
    : DM (option outcome) :=
  b ← get_bus;
  if negb (object_path_is_valid path) then mret (Some (Return (- Errno.EINVAL)%Z))
  else if negb (interface_name_is_valid iface) then mret (Some (Return (- Errno.EINVAL)%Z))
  else if negb (bus_open b) then mret (Some (Return (- Errno.ENOTCONN)%Z))
  else if bus_pid_changed b then mret (Some (Return (- Errno.ECHILD)%Z))
  else match names with
  | [] => mret (Some (Return 0%Z))
  | _ => sd_bus_emit_properties_changed_strv fuel path iface names
  end.

(** The vtable loop of [interfaces_added_append_one_prefix] (lines
    2193-2225): [inl r] is an early return, [inr (found_interface,
    props)] the end of the loop, [props] the [{sv}] entries appended. *)
Fixpoint added_vtables (path iface : string) (require_fallback : bool) (vts : list node_vtable)
    (found : bool) (props : list dvalue) : DM (Z + (bool * list dvalue)) :=
  match vts with
  | [] => mret (inr (found, props))
  | c :: vts' =>
      if skip_vtable require_fallback iface c then added_vtables path iface require_fallback vts' found props
      else
        '(r, u, _) ← node_vtable_get_userdata path c;
        if (r <? 0)%Z then mret (inl r)
        else
          nodes_modified ≫= fun modified : bool =>
          if modified then mret (inl 0%Z)
          else if (r =? 0)%Z then added_vtables path iface require_fallback vts' found props
          else
            '(r, props, _) ← vtable_append_all_properties path c u props None;
            if (r <? 0)%Z then mret (inl r)
            else
              nodes_modified ≫= fun modified : bool =>
              if modified then mret (inl 0%Z)
              else added_vtables path iface require_fallback vts' true props
  end.

(** [interfaces_added_append_one_prefix]: the code ([found_interface] on
    success) and the properties of the interface. *)
Definition interfaces_added_append_one_prefix (prefix path iface : string) (require_fallback : bool)
    : DM (Z * list dvalue) :=
  b ← get_bus;
  match bus_nodes b !! prefix with
  | None => mret (0%Z, [])
  | Some n =>
      added_vtables path iface require_fallback (node_vtables n) false [] ≫=
      fun res : Z + (bool * list dvalue) =>
      match res with
      | inl r => mret (r, [])
      | inr (found, props) => mret (if found then 1%Z else 0%Z, props)
      end
  end.

(** [interfaces_added_append_one]: the path's own vtables, then the
    fallbacks of every prefix; -ENOENT when no vtable has the
    interface. *)
Definition interfaces_added_append_one (path iface : string) : DM (Z * list dvalue) :=
  '(r, props) ← interfaces_added_append_one_prefix path path iface false;
  if negb (r =? 0)%Z then mret (r, props)
  else
    nodes_modified ≫= fun modified : bool =>
    if modified then mret (0%Z, [])
    else
      (fix prefixes (ps : list string) : DM (Z * list dvalue) :=
         match ps with
         | [] => mret ((- Errno.ENOENT)%Z, [])
         | p :: ps' =>
             '(r, props) ← interfaces_added_append_one_prefix p path iface true;
             if negb (r =? 0)%Z then mret (r, props)
             else
               nodes_modified ≫= fun modified : bool =>
               if modified then mret (0%Z, []) else prefixes ps'
         end) (object_path_prefixes path).

(** The [STRV_FOREACH(i, interfaces)] loop of lines 2301-2318: [inl r]
    is a return, [inr entries] the end of the loop or its [break] on
    [nodes_modified]. *)
Fixpoint added_interfaces (path : string) (ifaces : list string) (entries : list dvalue)
    : DM (Z + list dvalue) :=
  match ifaces with
  | [] => mret (inr entries)
  | i :: is' =>
      if negb (interface_name_is_valid i) then mret (inl (- Errno.EINVAL)%Z)
      else
        '(r, props) ← interfaces_added_append_one path i;
        if (r <? 0)%Z then mret (inl r)
        else
          nodes_modified ≫= fun modified : bool =>
          if modified then mret (inr entries)
          else added_interfaces path is' (entries ++ [DDictEntry (DString i) (DArray "{sv}" props)])
  end.

(** The restart loop of [sd_bus_emit_interfaces_added_strv], at most
    [fuel] passes; [None] when the fuel runs out. *)
Fixpoint emit_interfaces_added_loop (fuel : nat) (path : string) (ifaces : list string)
    : DM (option Z) :=
  match fuel with
  | O => mret None
  | S fuel' =>
      modify_bus (fun b => set_modified b false);;
      res ← added_interfaces path ifaces [];
      match res with
      | inl r => mret (Some r)
      | inr entries =>
          nodes_modified ≫= fun modified : bool =>
          if modified then emit_interfaces_added_loop fuel' path ifaces
          else
            send (signal path "org.freedesktop.DBus.ObjectManager" "InterfacesAdded"
                    [DObjectPath path; DArray "{sa{sv}}" entries]);;
            mret (Some sd_bus_send_ok)
      end
  end.

(** [sd_bus_emit_interfaces_added_strv] *)
Definition sd_bus_emit_interfaces_added_strv (fuel : nat) (path : string) (ifaces : list string)
    : DM (option Z) :=
  b ← get_bus;
  match emitter_guards b path with
  | Some r => mret (Some r)
  | None => match ifaces with [] => mret (Some 0%Z) | _ => emit_interfaces_added_loop fuel path ifaces end
  end.

(** [sd_bus_emit_interfaces_added(bus, path, interface, ...)] *)
Definition sd_bus_emit_interfaces_added (fuel : nat) (path : string) (ifaces : list string)
    : DM (option Z) :=
  b ← get_bus;
  match emitter_guards b path with
  | Some r => mret (Some r)
  | None => sd_bus_emit_interfaces_added_strv fuel path ifaces
  end.

(** [sd_bus_emit_interfaces_removed_strv]: the interface names are sent
    as given. *)
Definition sd_bus_emit_interfaces_removed_strv (path : string) (ifaces : list string) : DM Z :=
  b ← get_bus;
  match emitter_guards b path with
  | Some r => mret r
  | None =>
      match ifaces with
      | [] => mret 0%Z
      | _ => send (signal path "org.freedesktop.DBus.ObjectManager" "InterfacesRemoved"
                     [DObjectPath path; DArray "s" (map DString ifaces)]);;
             mret sd_bus_send_ok
      end
  end.

(** [sd_bus_emit_interfaces_removed(bus, path, interface, ...)] *)
Definition sd_bus_emit_interfaces_removed (path : string) (ifaces : list string) : DM Z :=
  b ← get_bus;
  match emitter_guards b path with
  | Some r => mret r
  | None => sd_bus_emit_interfaces_removed_strv path ifaces
  end.

End Emit.

End Signals.
