(* ===== verification/Dispatch.v ===== *)
(** * The dispatch engine

    [object_find_and_run] (lines 1152-1271) runs everything registered at
    one path for a method call: the raw callbacks, the method of the
    method index, the Properties, Introspectable and ObjectManager
    interfaces, and finally [bus_node_exists].  [bus_process_object]
    (lines 1273-1332) runs it on the path of the message, then on every
    prefix of the path for fallback registrations, longest first, and
    starts again while a callback changed the tree ([nodes_modified]).

    The restart loop need not terminate (a handler may register something
    at every run), so [bus_process_object_fuel] takes the number of
    passes as fuel and returns [None] when it runs out.  The caller in
    bus.c increments [bus->iteration_counter] once per message
    ([process_message], modelled from the spec). *)

From S2P Require Import Prelude ObjectPath Vtable Message BusState DispatchCore Access Callbacks Tree Introspect ObjectManager.
Import ObjectPath Vtable Message BusState DispatchCore Access Callbacks Tree Introspect ObjectManager.

Module Dispatch.

Definition get_found : DM bool := fun s => (ds_found s, s).
Definition reset_found : DM unit :=
  fun s => (tt, mk_dstate (ds_bus s) (ds_mem s) false (ds_trace s)).

Section Dispatch.
  Context `{BusValidators} `{DispatchEnv}.

(** Lines 1259-1270: unless the tree changed, ask [bus_node_exists] when
    nothing was found so far. *)
Definition find_and_run_tail (m : sd_bus_message) (n : node) (require_fallback : bool) : DM Z :=
  unless_modified (
    get_found ≫= fun found : bool =>
    (if found then mret tt
     else ex ← bus_node_exists n (m_path_str m) require_fallback;
          if (ex : bool) then set_found else mret tt);;
    mret 0%Z).

(** [r = ...; if (r != 0) return r;] then the rest. *)
Definition or_else (x : DM Z) (k : DM Z) : DM Z :=
  r ← x; if negb (r =? 0)%Z then mret r else k.

(** Lines 1196-1257: the four standard interfaces. *)
Definition find_and_run_standard (m : sd_bus_message) (p : string) (n : node)
    (require_fallback : bool) (iface member : string) : DM Z :=
  let tail := find_and_run_tail m n require_fallback in
  if String.eqb iface "org.freedesktop.DBus.Properties" then
    let get := String.eqb member "Get" in
    if get || String.eqb member "Set" then
      match read_ss m with
      | None => sd_bus_reply_method_errorf m SD_BUS_ERROR_INVALID_ARGS
      | Some (i, mem) =>
          b ← get_bus;
          match bus_vtable_properties b !! (p, i, mem) with
          | Some v => or_else (property_get_set_callbacks_run m (p, i, mem) v require_fallback get) tail
          | None => tail
          end
      end
    else if String.eqb member "GetAll" then
      match read_s m with
      | None => sd_bus_reply_method_errorf m SD_BUS_ERROR_INVALID_ARGS
      | Some i =>
          or_else (property_get_all_callbacks_run m (node_vtables n) require_fallback
                     (if String.eqb i "" then None else Some i)) tail
      end
    else tail
  else if is_method_call m "org.freedesktop.DBus.Introspectable" "Introspect" then
    if negb (String.eqb (m_signature m) "") then sd_bus_reply_method_errorf m SD_BUS_ERROR_INVALID_ARGS
    else or_else (process_introspect m n require_fallback) tail
  else if is_method_call m "org.freedesktop.DBus.ObjectManager" "GetManagedObjects" then
    if negb (String.eqb (m_signature m) "") then sd_bus_reply_method_errorf m SD_BUS_ERROR_INVALID_ARGS
    else or_else (process_get_managed_objects m n require_fallback) tail
  else tail.

(** [object_find_and_run(bus, m, p, require_fallback, &found_object)] *)
Definition object_find_and_run (m : sd_bus_message) (p : string) (require_fallback : bool) : DM Z :=
  b ← get_bus;
  match bus_nodes b !! p with
  | None => mret 0%Z
  | Some n =>
      or_else (node_callbacks_run m p (node_callbacks n) require_fallback) (
      unless_modified (
      match m_interface m, m_member m with
      | Some iface, Some member =>
          b ← get_bus;
          match bus_vtable_methods b !! (p, iface, member) with
          | Some v =>
              or_else (method_callbacks_run m (p, iface, member) v require_fallback) (
              unless_modified (find_and_run_standard m p n require_fallback iface member))
          | None => find_and_run_standard m p n require_fallback iface member
          end
      | _, _ => mret 0%Z
      end))
  end.

(** The [OBJECT_PATH_FOREACH_PREFIX] loop of one pass: [Some r] is the
    return of [r]; [None] the end of the loop (or its [break]). *)
Fixpoint run_prefixes (m : sd_bus_message) (ps : list string) : DM (option Z) :=
  match ps with
  | [] => mret None
  | p :: ps' =>
      nodes_modified ≫= fun modified : bool =>
      if modified then mret None
      else
        r ← object_find_and_run m p true;
        if negb (r =? 0)%Z then mret (Some r) else run_prefixes m ps'
  end.

(** The [do ... while (bus->nodes_modified)] loop, at most [fuel] passes:
    [Some (Some r)] is the return of [r] from inside the loop,
    [Some None] the end of the loop, [None] the fuel running out. *)
Fixpoint process_object_loop (fuel : nat) (m : sd_bus_message) : DM (option (option Z)) :=
  match fuel with
  | O => mret None
  | S fuel' =>
      modify_bus (fun b => set_modified b false);;
      r ← object_find_and_run m (m_path_str m) false;
      if negb (r =? 0)%Z then mret (Some (Some r))
      else
        run_prefixes m (object_path_prefixes (m_path_str m)) ≫= fun res : option Z =>
        match res with
        | Some r => mret (Some (Some r))
        | None =>
            nodes_modified ≫= fun modified : bool =>
            if modified then process_object_loop fuel' m else mret (Some None)
        end
  end.

(** [bus_process_object(bus, m)] with at most [fuel] passes of the
    restart loop; [None] when the fuel runs out. *)
Definition bus_process_object_fuel (fuel : nat) (m : sd_bus_message) : DM (option Z) :=
  if negb (bool_decide (m_type m = METHOD_CALL)) then mret (Some 0%Z)
  else
    b ← get_bus;
    if bool_decide (bus_nodes b = ∅) then mret (Some 0%Z)
    else
      reset_found;;
      process_object_loop fuel m ≫= fun res : option (option Z) =>
      match res with
      | None => mret None
      | Some (Some r) => mret (Some r)
      | Some None =>
          get_found ≫= fun found : bool =>
          if negb found then mret (Some 0%Z)
          else if is_method_call m "org.freedesktop.DBus.Properties" "Get" ||
                  is_method_call m "org.freedesktop.DBus.Properties" "Set"
          then r ← sd_bus_reply_method_errorf m SD_BUS_ERROR_UNKNOWN_PROPERTY; mret (Some r)
          else r ← sd_bus_reply_method_errorf m SD_BUS_ERROR_UNKNOWN_METHOD; mret (Some r)
      end.

(** [process_message] in bus.c: one iteration per message. *)
Definition process_message (fuel : nat) (m : sd_bus_message) : DM (option Z) :=
  modify_bus (fun b => mk_bus (bus_nodes b) (bus_vtable_methods b) (bus_vtable_properties b)
                        (bus_nodes_modified b) (S (bus_iteration_counter b)) (bus_trusted b)
                        (bus_is_kernel b) (bus_pid_changed b) (bus_next_id b) (bus_wqueue b) (bus_open b));;
  bus_process_object_fuel fuel m.

End Dispatch.

End Dispatch.
