(* ===== verification/DispatchProps.v ===== *)
(** * Properties of the method dispatch

    The behaviour of [method_callbacks_run] on each of its paths: the
    handler runs once, with the vtable's userdata, after the member was
    marked for the current iteration; a call with the wrong signature is
    answered InvalidArgs without running the handler; a caller the access
    check refuses is answered AccessDenied without running anything; and
    a [find] callback that sets an error without failing lets the handler
    run with an uninitialised userdata pointer. *)

From S2P Require Import Prelude ObjectPath Vtable Message BusState Registration Reachable DispatchCore Access Callbacks Tree Introspect ObjectManager Dispatch.
Import ObjectPath Vtable Message BusState Registration Reachable DispatchCore Access Callbacks Tree Introspect ObjectManager Dispatch.

Module DispatchProps.

(** Symbolic execution of the dispatcher's monad. *)
Ltac dm_unfold :=
  unfold unless_modified, send, apply_effects, modify_bus, set_found, log_invocation, get_found,
    nodes_modified, get_bus, mbind, dm_bind, mret, dm_ret.

(** ** A concrete environment and bus for the witnesses *)

(** Handlers reply with an empty return and return 1; [find] callbacks
    resolve every path to userdata 42, except the [find] number 13, which
    sets an error and returns 0. *)
Definition example_env : DispatchEnv := {|
  env_handler := fun f m u => mk_handler_result (mk_effects [] [method_return m []]) 1 None;
  env_find := fun f p i u =>
    if (f =? 13)%nat then mk_find_result (mk_effects [] []) 0 u (Some "org.example.NoSuchObject")
    else mk_find_result (mk_effects [] []) 1 42 None;
  env_getter := fun f p i mem u => mk_getter_result (mk_effects [] []) [DString "x"] 0 None;
  env_setter := fun f p i mem v u => mk_setter_result (mk_effects [] []) 1 None;
  env_enumerator := fun f p u => mk_enum_result (mk_effects [] []) 0 [] None;
  env_sender_creds := fun m => Some (mk_creds (Some 1000%Z) (Some []));
  env_getuid := 0%Z |}.

Definition example_vtable : vtable_ref :=
  mk_vtable_ref 7 [VtableStart 0 sizeof_sd_bus_vtable; VtableMethod 0 "M" "s" "" (Some 5%nat); VtableEnd].

Definition example_member (trusted : bool) (find : option fn_ref) : vtable_member :=
  mk_vtable_member "/foo" "com.x.I" "M"
    (mk_node_vtable 1 "/foo" "com.x.I" example_vtable 42 find (if find then true else false))
    (VtableMethod 0 "M" "s" "" (Some 5%nat)) 0.

Definition example_call (body : list dvalue) : sd_bus_message :=
  mk_message METHOD_CALL 9 None (Some "/foo") (Some "com.x.I") (Some "M") None body.

Definition example_state (trusted : bool) : dstate :=
  mk_dstate (empty_bus trusted false) ∅ false [].

(** The member is due to run in this pass: it is not skipped as a
    non-fallback, the tree is unchanged, and it did not run in this
    iteration ([c->last_iteration != bus->iteration_counter]). *)
Definition member_due (rf : bool) (s : dstate) (c : vtable_member) : Prop :=
  (rf = true -> nv_is_fallback (vm_parent c) = true) /\ bus_nodes_modified (ds_bus s) = false /\
  vm_last_iteration c <> bus_iteration_counter (ds_bus s).

(** The bus once [set_method_iteration] marked the member at [k] with the
    current iteration. *)
Definition marked_bus (s : dstate) (k : member_key) : sd_bus :=
  set_methods (ds_bus s) (alter (fun v => vm_set_iteration v (bus_iteration_counter (ds_bus s))) k
                           (bus_vtable_methods (ds_bus s))).

Section Method.
  Context `{BusValidators} `{DispatchEnv}.

(** The access check refuses the caller [cr] (scenario S5): the bus is
    not trusted, the member is not UNPRIVILEGED, and the caller has
    neither the required capability on a kernel bus nor the process's
    UID. *)
Definition access_refused (s : dstate) (m : sd_bus_message) (c : vtable_member) (cr : creds) : Prop :=
  bus_trusted (ds_bus s) = false /\
  flag_set (vt_flags (vm_vtable c)) SD_BUS_VTABLE_UNPRIVILEGED = false /\
  env_sender_creds m = Some cr /\
  ~ (bus_is_kernel (ds_bus s) = true /\ exists caps, cr_effective_caps cr = Some caps /\
                                            required_capability c ∈ caps) /\
  cr_uid cr <> Some env_getuid.

(** The opening of [method_callbacks_run] shared by the theorems: the
    member is not skipped as a non-fallback. *)
Lemma fallback_guard rf (c : vtable_member) :
  (rf = true -> nv_is_fallback (vm_parent c) = true) ->
  rf && negb (nv_is_fallback (vm_parent c)) = false.
Proof. destruct rf; [intros ->; done|done]. Qed.

(** C11: the method handler runs exactly once, with the vtable's userdata,
    when the member is not skipped as a non-fallback, the access check
    lets the caller through, there is no [find] callback, the tree is
    unchanged, the member did not run in this iteration and the call has
    the method's signature.  Before the call the member is marked with
    the current iteration and [*found_object] is set; the result is what
    [bus_maybe_reply_error] makes of the handler's return and error. *)
Theorem method_callbacks_run_invokes m k c rf s h sig res fl mem :
  vm_vtable c = VtableMethod fl mem sig res (Some h) ->
  member_due rf s c ->
  (0 <= fst (check_access (ds_bus s) m c))%Z ->
  nv_find (vm_parent c) = None ->
  sig = m_signature m ->
  let hr := env_handler h m (Some (nv_userdata (vm_parent c))) in
  let b1 := marked_bus s k in
  let s1 := mk_dstate (fold_left bus_send (ef_sends (hr_effects hr)) (snd (run_calls b1 (ef_calls (hr_effects hr)))))
              (ds_mem s) true (ds_trace s ++ [InvMethod k (nv_id (vm_parent c))]) in
  method_callbacks_run m k c rf s = bus_maybe_reply_error m (hr_ret hr) (hr_error hr) s1.
Proof.
  intros Hvt (Hrf & Hmod & Hit) Hacc Hfind Hsig hr b1 s1.
  unfold method_callbacks_run. rewrite fallback_guard by done. dm_unfold.
  destruct (check_access (ds_bus s) m c) as [r err] eqn:Hca; simpl in Hacc.
  destruct (Z.ltb_spec r 0); [lia|].
  unfold node_vtable_get_userdata. rewrite Hfind. dm_unfold. simpl. rewrite Hmod. simpl.
  destruct (Nat.eqb_spec (vm_last_iteration c) (bus_iteration_counter (ds_bus s))); [done|].
  rewrite Hvt, Hsig, String.eqb_refl. reflexivity.
Qed.

(** C13: a call whose signature is not the method's is answered
    InvalidArgs: the member is marked for the iteration and
    [*found_object] set, but the handler does not run (the trace is
    unchanged) and the result is 1. *)
Theorem method_callbacks_run_bad_signature m k c rf s h sig res fl mem :
  vm_vtable c = VtableMethod fl mem sig res h ->
  member_due rf s c ->
  (0 <= fst (check_access (ds_bus s) m c))%Z ->
  nv_find (vm_parent c) = None ->
  sig <> m_signature m ->
  let b1 := marked_bus s k in
  method_callbacks_run m k c rf s =
    (1%Z, mk_dstate (bus_send b1 (method_error m SD_BUS_ERROR_INVALID_ARGS)) (ds_mem s) true (ds_trace s)).
Proof.
  intros Hvt (Hrf & Hmod & Hit) Hacc Hfind Hsig b1.
  unfold method_callbacks_run. rewrite fallback_guard by done. dm_unfold.
  destruct (check_access (ds_bus s) m c) as [r err] eqn:Hca; simpl in Hacc.
  destruct (Z.ltb_spec r 0); [lia|].
  unfold node_vtable_get_userdata. rewrite Hfind. dm_unfold. simpl. rewrite Hmod. simpl.
  destruct (Nat.eqb_spec (vm_last_iteration c) (bus_iteration_counter (ds_bus s))); [done|].
  rewrite Hvt. apply String.eqb_neq in Hsig. rewrite Hsig. reflexivity.
Qed.

(** C12: a caller the access check refuses is answered AccessDenied and
    nothing else happens: on an untrusted bus, for a member that is not
    UNPRIVILEGED, when the caller has neither the required capability
    (kernel bus) nor the process's UID, [method_callbacks_run] sends the
    AccessDenied error, returns 1, runs no callback and does not touch the
    member or [*found_object] (scenario S5). *)
Theorem method_callbacks_run_denied m k c rf s cr :
  m_type m = METHOD_CALL ->
  (rf = true -> nv_is_fallback (vm_parent c) = true) ->
  access_refused s m c cr ->
  method_callbacks_run m k c rf s =
    (1%Z, mk_dstate (bus_send (ds_bus s) (method_error m SD_BUS_ERROR_ACCESS_DENIED))
            (ds_mem s) (ds_found s) (ds_trace s)).
Proof.
  intros Hty Hrf (Ht & Hf & Hc & Hcap & Hu).
  unfold method_callbacks_run. rewrite fallback_guard by done. dm_unfold.
  rewrite (check_access_denied _ _ _ cr) by done. simpl.
  unfold bus_maybe_reply_error. rewrite bool_decide_true by done. dm_unfold. simpl.
  by destruct s.
Qed.

(** C14: a [find] callback that sets an error but returns a non-negative
    value does not stop the call: [node_vtable_get_userdata] returns the
    positive [sd_bus_error_get_errno] before storing the userdata, the
    caller takes the positive value for success, and the method handler
    runs with an uninitialised userdata pointer ([None]); the error set by
    [find] then turns the handler's result into an error reply. *)
Theorem method_callbacks_run_find_error m k c rf s h sig res fl mem f e :
  vm_vtable c = VtableMethod fl mem sig res (Some h) ->
  member_due rf s c ->
  (0 <= fst (check_access (ds_bus s) m c))%Z ->
  nv_find (vm_parent c) = Some f ->
  let fr := env_find f (m_path_str m) (nv_interface (vm_parent c)) (nv_userdata (vm_parent c)) in
  (0 <= fr_ret fr)%Z -> fr_error fr = Some e -> fr_effects fr = mk_effects [] [] ->
  sig = m_signature m ->
  let hr := env_handler h m None in
  let b1 := marked_bus s k in
  let s1 := mk_dstate (fold_left bus_send (ef_sends (hr_effects hr)) (snd (run_calls b1 (ef_calls (hr_effects hr)))))
              (ds_mem s) true (ds_trace s ++ [InvFind (nv_id (vm_parent c)) (m_path_str m);
                                              InvMethod k (nv_id (vm_parent c))]) in
  method_callbacks_run m k c rf s = bus_maybe_reply_error m (hr_ret hr) (Some e) s1.
Proof.
  intros Hvt (Hrf & Hmod & Hit) Hacc Hfind fr Hr He Hef Hsig hr b1 s1.
  unfold method_callbacks_run. rewrite fallback_guard by done. dm_unfold.
  destruct (check_access (ds_bus s) m c) as [r err] eqn:Hca; simpl in Hacc.
  destruct (Z.ltb_spec r 0); [lia|].
  unfold node_vtable_get_userdata, invoke_find. rewrite Hfind. fold fr. dm_unfold. simpl.
  rewrite Hef. simpl. destruct (Z.ltb_spec (fr_ret fr) 0); [lia|]. rewrite He. simpl.
  assert (Hpos : (0 < bus_error_name_to_errno e)%Z)
    by (unfold bus_error_name_to_errno; repeat case_match; unfold Errno.EACCES, Errno.EINVAL, Errno.EIO; lia).
  destruct (Z.leb_spec (bus_error_name_to_errno e) 0); [lia|]. simpl. rewrite Hmod. simpl.
  destruct (Nat.eqb_spec (vm_last_iteration c) (bus_iteration_counter (ds_bus s))); [done|].
  rewrite Hvt, Hsig, String.eqb_refl. simpl. rewrite <- app_assoc. reflexivity.
Qed.

End Method.

#[local] Existing Instance example_env.

Lemma method_callbacks_run_invokes_witness :
  let s := example_state true in
  let r := method_callbacks_run (example_call [DString "hello"]) ("/foo", "com.x.I", "M")%string
             (example_member true None) false s in
  fst r = 1%Z /\ ds_trace (snd r) = [InvMethod ("/foo", "com.x.I", "M")%string 1].
Proof.
  intros s r. unfold r.
  pose proof (method_callbacks_run_invokes (example_call [DString "hello"]) ("/foo", "com.x.I", "M")%string
    (example_member true None) false s 5%nat "s" "" 0 "M" eq_refl
    ltac:(unfold member_due; split_and!; [intros Hx; (reflexivity || discriminate Hx)|reflexivity|vm_compute; discriminate])
    ltac:(vm_compute; discriminate) eq_refl eq_refl) as E.
  cbv zeta in E. rewrite E. vm_compute. split; reflexivity.
Defined.

Lemma method_callbacks_run_bad_signature_witness :
  let s := example_state true in
  let r := method_callbacks_run (example_call [DInt32 3]) ("/foo", "com.x.I", "M")%string
             (example_member true None) false s in
  fst r = 1%Z /\ ds_trace (snd r) = [] /\
  bus_wqueue (ds_bus (snd r)) = [method_error (example_call [DInt32 3]) SD_BUS_ERROR_INVALID_ARGS].
Proof.
  intros s r. unfold r.
  pose proof (method_callbacks_run_bad_signature (example_call [DInt32 3]) ("/foo", "com.x.I", "M")%string
    (example_member true None) false s (Some 5%nat) "s" "" 0 "M" eq_refl
    ltac:(unfold member_due; split_and!; [intros Hx; (reflexivity || discriminate Hx)|reflexivity|vm_compute; discriminate])
    ltac:(vm_compute; discriminate) eq_refl ltac:(vm_compute; discriminate)) as E.
  cbv zeta in E. rewrite E. split_and!; reflexivity.
Defined.

Lemma method_callbacks_run_denied_witness :
  let s := example_state false in
  let r := method_callbacks_run (example_call [DString "hello"]) ("/foo", "com.x.I", "M")%string
             (example_member false None) false s in
  fst r = 1%Z /\ ds_trace (snd r) = [] /\
  bus_wqueue (ds_bus (snd r)) = [method_error (example_call [DString "hello"]) SD_BUS_ERROR_ACCESS_DENIED].
Proof.
  intros s r. unfold r.
  rewrite (method_callbacks_run_denied (example_call [DString "hello"]) ("/foo", "com.x.I", "M")%string
    (example_member false None) false s (mk_creds (Some 1000%Z) (Some [])) eq_refl ltac:(discriminate)
    ltac:(unfold access_refused; split_and!; [reflexivity|reflexivity|reflexivity|intros [[=] _]|vm_compute; congruence])).
  split_and!; reflexivity.
Defined.

Lemma method_callbacks_run_find_error_witness :
  let s := example_state true in
  let r := method_callbacks_run (example_call []) ("/foo", "com.x.I", "M")%string
             (mk_vtable_member "/foo" "com.x.I" "M"
                (mk_node_vtable 1 "/foo" "com.x.I" example_vtable 42 (Some 13%nat) true)
                (VtableMethod 0 "M" "" "" (Some 5%nat)) 0) true s in
  ds_trace (snd r) = [InvFind 1 "/foo"; InvMethod ("/foo", "com.x.I", "M")%string 1] /\
  bus_wqueue (ds_bus (snd r)) =
    [method_return (example_call []) []; method_error (example_call []) "org.example.NoSuchObject"].
Proof.
  intros s r. unfold r.
  pose proof (method_callbacks_run_find_error (example_call []) ("/foo", "com.x.I", "M")%string
    (mk_vtable_member "/foo" "com.x.I" "M"
       (mk_node_vtable 1 "/foo" "com.x.I" example_vtable 42 (Some 13%nat) true)
       (VtableMethod 0 "M" "" "" (Some 5%nat)) 0) true s 5%nat "" "" 0 "M" 13%nat
    "org.example.NoSuchObject" eq_refl
    ltac:(unfold member_due; split_and!; [intros Hx; (reflexivity || discriminate Hx)|reflexivity|vm_compute; discriminate])
    ltac:(vm_compute; discriminate) eq_refl
    ltac:(vm_compute; discriminate) eq_refl eq_refl eq_refl) as E.
  cbv zeta in E. rewrite E. split; reflexivity.
Defined.

End DispatchProps.
