(* ===== verification/Fresh.v ===== *)
(** * Fresh identities of registrations

    [new0] gives every registration (a node callback, a node vtable) a
    fresh allocation identity, modelled by the counter [bus_next_id] that
    [alloc_id] increments.  This file shows what each call of the
    registration API ([api_step]) does to the parts of the bus the
    bookkeeping of [AtMostOnce] reads ([fresh_ext]):
    - the iteration counter is unchanged and the allocation counter does
      not decrease;
    - every index entry and every node callback afterwards was there
      before, at the same key or path, or belongs to a registration
      allocated during the call;
    - node callback identities stay below the allocation counter,
      distinct in a node's list and at one path ([cb_wf]).
    Every bus the registration API reaches satisfies [bus_ids_wf]. *)

From S2P Require Import Prelude ObjectPath Vtable Message BusState NodeStore Registration RegistrationInv Reachable DispatchCore.
Import ObjectPath Vtable Message BusState NodeStore Registration RegistrationInv Reachable DispatchCore.

Module Fresh.

(** Every entry of [idx'] is an entry of [idx] or belongs to a
    registration whose identity is in [[lo, hi)]. *)
Definition idx_grows (lo hi : nat) (idx idx' : gmap member_key vtable_member) : Prop :=
  forall k e, idx' !! k = Some e -> idx !! k = Some e \/ lo <= nv_id (vm_parent e) < hi.

Definition ids_below (n : nat) (idx : gmap member_key vtable_member) : Prop :=
  forall k e, idx !! k = Some e -> nv_id (vm_parent e) < n.

(** The callback [c] is in the list of the node at [p]. *)
Definition cb_at (ns : gmap string node) (p : string) (c : node_callback) : Prop :=
  exists n, ns !! p = Some n /\ c ∈ node_callbacks n.

(** Every callback of [ns'] is one of [ns] at the same path, or has an
    identity in [[lo, hi)]. *)
Definition cb_grows (lo hi : nat) (ns ns' : gmap string node) : Prop :=
  forall p c, cb_at ns' p c -> cb_at ns p c \/ lo <= nc_id c < hi.

(** Callback identities: allocated below [n], distinct in a node's list,
    and at one path. *)
Record cb_wf (n : nat) (ns : gmap string node) : Prop := {
  cw_below : forall p c, cb_at ns p c -> nc_id c < n;
  cw_nodup : forall p nd, ns !! p = Some nd -> NoDup (nc_id <$> node_callbacks nd);
  cw_unique : forall p1 p2 c1 c2, cb_at ns p1 c1 -> cb_at ns p2 c2 -> nc_id c1 = nc_id c2 -> p1 = p2
}.

(** A change of the node store that adds no callback: each node keeps a
    sub-multiset of the callbacks the node at its path had, or has none. *)
Definition cb_keeps (ns ns' : gmap string node) : Prop :=
  forall p nd', ns' !! p = Some nd' ->
    node_callbacks nd' = [] \/ exists nd, ns !! p = Some nd /\ node_callbacks nd' ⊆+ node_callbacks nd.

(** What a registration call does to the parts of the bus the dispatch
    bookkeeping reads. *)
Record fresh_ext (b b' : sd_bus) : Prop := {
  fe_counter : bus_iteration_counter b' = bus_iteration_counter b;
  fe_next : bus_next_id b <= bus_next_id b';
  fe_methods : idx_grows (bus_next_id b) (bus_next_id b') (bus_vtable_methods b) (bus_vtable_methods b');
  fe_properties : idx_grows (bus_next_id b) (bus_next_id b') (bus_vtable_properties b) (bus_vtable_properties b');
  fe_callbacks : cb_grows (bus_next_id b) (bus_next_id b') (bus_nodes b) (bus_nodes b');
  fe_cb_wf : cb_wf (bus_next_id b) (bus_nodes b) -> cb_wf (bus_next_id b') (bus_nodes b')
}.

(** Every registration of the bus is already allocated, and callback
    identities are unique. *)
Definition bus_ids_wf (b : sd_bus) : Prop :=
  ids_below (bus_next_id b) (bus_vtable_methods b) /\ ids_below (bus_next_id b) (bus_vtable_properties b) /\
  cb_wf (bus_next_id b) (bus_nodes b).

(** ** The index *)

Lemma idx_grows_refl lo hi idx : idx_grows lo hi idx idx.
Proof. intros k e He. by left. Qed.

Lemma idx_grows_sub lo hi idx idx' :
  (forall k e, idx' !! k = Some e -> idx !! k = Some e) -> idx_grows lo hi idx idx'.
Proof. intros Hs k e He. left. by apply Hs. Qed.

Lemma idx_grows_trans lo1 hi1 lo2 hi2 i1 i2 i3 :
  idx_grows lo1 hi1 i1 i2 -> idx_grows lo2 hi2 i2 i3 -> lo1 <= lo2 -> hi1 <= hi2 ->
  idx_grows lo1 hi2 i1 i3.
Proof.
  intros H12 H23 Hlo Hhi k e He. destruct (H23 k e He) as [He2|]; [|right; lia].
  destruct (H12 k e He2); [by left|right; lia].
Qed.

Lemma idx_grows_insert_new lo hi idx k e :
  lo <= nv_id (vm_parent e) < hi -> idx_grows lo hi idx (<[k := e]> idx).
Proof.
  intros Hr k' e' He. rewrite lookup_insert in He. case_decide; simplify_eq; [by right|by left].
Qed.

Lemma ids_below_grows n n' idx idx' :
  n <= n' -> ids_below n idx -> idx_grows n n' idx idx' -> ids_below n' idx'.
Proof. intros Hn Hb Hg k e He. destruct (Hg k e He) as [He'|]; [specialize (Hb k e He')|]; lia. Qed.

(** ** Node callbacks *)

Lemma cb_keeps_refl ns : cb_keeps ns ns.
Proof. intros p nd Hp. right. by exists nd. Qed.

Lemma cb_keeps_old ns ns' p c : cb_keeps ns ns' -> cb_at ns' p c -> cb_at ns p c.
Proof.
  intros Hk (nd' & Hp & Hc). destruct (Hk p nd' Hp) as [Hnil|(nd & Hnd & Hs)].
  - rewrite Hnil in Hc. by apply not_elem_of_nil in Hc.
  - exists nd. split; [done|]. by eapply elem_of_submseteq.
Qed.

Lemma cb_grows_keeps lo hi ns ns' : cb_keeps ns ns' -> cb_grows lo hi ns ns'.
Proof. intros Hk p c Hc. left. exact (cb_keeps_old _ _ _ _ Hk Hc). Qed.

Lemma cb_grows_trans lo1 hi1 lo2 hi2 ns1 ns2 ns3 :
  cb_grows lo1 hi1 ns1 ns2 -> cb_grows lo2 hi2 ns2 ns3 -> lo1 <= lo2 -> hi1 <= hi2 ->
  cb_grows lo1 hi2 ns1 ns3.
Proof.
  intros H12 H23 Hlo Hhi p c Hc. destruct (H23 p c Hc) as [Hc2|]; [|right; lia].
  destruct (H12 p c Hc2); [by left|right; lia].
Qed.

Lemma cb_wf_keeps n ns ns' : cb_keeps ns ns' -> cb_wf n ns -> cb_wf n ns'.
Proof.
  intros Hk [Hb Hn Hu]. split.
  - intros p c Hc. exact (Hb p c (cb_keeps_old _ _ _ _ Hk Hc)).
  - intros p nd' Hp. destruct (Hk p nd' Hp) as [->|(nd & Hnd & Hs)]; [constructor|].
    apply (NoDup_submseteq_l _ (nc_id <$> node_callbacks nd)); [by apply fmap_submseteq|exact (Hn p nd Hnd)].
  - intros p1 p2 c1 c2 H1 H2. exact (Hu p1 p2 c1 c2 (cb_keeps_old _ _ _ _ Hk H1) (cb_keeps_old _ _ _ _ Hk H2)).
Qed.

Lemma cb_wf_mono n n' ns : n <= n' -> cb_wf n ns -> cb_wf n' ns.
Proof. intros Hn [Hb ? ?]. split; try done. intros p c Hc. specialize (Hb p c Hc). lia. Qed.

Lemma cb_keeps_insert_empty ns p nd : node_callbacks nd = [] -> cb_keeps ns (<[p := nd]> ns).
Proof.
  intros Hnil q nd' Hq. rewrite lookup_insert in Hq. case_decide; simplify_eq; [by left|right; by exists nd'].
Qed.

Lemma cb_keeps_delete ns p : cb_keeps ns (delete p ns).
Proof. intros q nd' Hq. apply lookup_delete_Some in Hq as [_ Hq]. right. by exists nd'. Qed.

(** Altering the node at [p] without adding callbacks to it. *)
Lemma cb_keeps_alter f p ns :
  (forall nd, ns !! p = Some nd -> node_callbacks (f nd) ⊆+ node_callbacks nd) -> cb_keeps ns (alter f p ns).
Proof.
  intros Hf q nd' Hq. right. apply lookup_alter_Some in Hq as [(<- & nd & Hnd & ->)|[_ Hq]].
  - exists nd. split; [done|]. by apply Hf.
  - by exists nd'.
Qed.

(** [sd_bus_add_object]: the new callback [c], of identity [n], is put
    at the head of the node's list. *)
Lemma cb_at_add ns p c q c' :
  cb_at (alter (fun nd => node_set_callbacks nd (c :: node_callbacks nd)) p ns) q c' ->
  (q = p /\ c' = c) \/ cb_at ns q c'.
Proof.
  intros (nd' & Hq & Hin). apply lookup_alter_Some in Hq as [(<- & nd & Hnd & ->)|[_ Hq]].
  - simpl in Hin. apply elem_of_cons in Hin as [->|Hin]; [by left|right; by exists nd].
  - right. by exists nd'.
Qed.

Lemma cb_grows_add lo hi ns p c :
  lo <= nc_id c < hi -> cb_grows lo hi ns (alter (fun nd => node_set_callbacks nd (c :: node_callbacks nd)) p ns).
Proof. intros Hc q c' Hc'. destruct (cb_at_add _ _ _ _ _ Hc') as [[_ ->]|]; [by right|by left]. Qed.

Lemma cb_wf_add n ns p c :
  nc_id c = n -> cb_wf n ns -> cb_wf (S n) (alter (fun nd => node_set_callbacks nd (c :: node_callbacks nd)) p ns).
Proof.
  intros Hid [Hb Hn Hu]. split.
  - intros q c' Hc'. destruct (cb_at_add _ _ _ _ _ Hc') as [[_ ->]|Hc'']; [lia|specialize (Hb _ _ Hc''); lia].
  - intros q nd' Hq. apply lookup_alter_Some in Hq as [(<- & nd & Hnd & ->)|[_ Hq]]; [|exact (Hn q nd' Hq)].
    simpl. apply NoDup_cons. split; [|exact (Hn _ _ Hnd)].
    intros Hin. apply list_elem_of_fmap in Hin as (c' & Heq & Hc').
    assert (nc_id c' < n) by (apply (Hb p c'); by exists nd). lia.
  - intros q1 q2 c1 c2 H1 H2 Heq.
    destruct (cb_at_add _ _ _ _ _ H1) as [[-> ->]|H1'], (cb_at_add _ _ _ _ _ H2) as [[-> ->]|H2']; try done.
    + specialize (Hb _ _ H2'). lia.
    + specialize (Hb _ _ H1'). lia.
    + exact (Hu _ _ _ _ H1' H2' Heq).
Qed.

Section Fresh.
  Context `{BusValidators}.

(** ** The relation [fresh_ext] *)

Lemma fresh_ext_refl b : fresh_ext b b.
Proof. split; [done|done|apply idx_grows_refl|apply idx_grows_refl|apply cb_grows_keeps, cb_keeps_refl|done]. Qed.

Lemma fresh_ext_trans b1 b2 b3 : fresh_ext b1 b2 -> fresh_ext b2 b3 -> fresh_ext b1 b3.
Proof.
  intros [? ? ? ? ? ?] [? ? ? ? ? ?]. split; [congruence|lia|..|eauto];
    first [eapply idx_grows_trans | eapply cb_grows_trans]; eauto; lia.
Qed.

(** A change of the node store that adds no callback, of the flags or of
    the queue. *)
Lemma fresh_ext_keeps b b' :
  bus_iteration_counter b' = bus_iteration_counter b -> bus_next_id b' = bus_next_id b ->
  bus_vtable_methods b' = bus_vtable_methods b -> bus_vtable_properties b' = bus_vtable_properties b ->
  cb_keeps (bus_nodes b) (bus_nodes b') -> fresh_ext b b'.
Proof.
  intros Hc Hn Hm Hp Hk. split; [done|lia|rewrite Hm; apply idx_grows_refl|rewrite Hp; apply idx_grows_refl|..].
  - by apply cb_grows_keeps.
  - intros Hw. rewrite Hn. exact (cb_wf_keeps _ _ _ Hk Hw).
Qed.

Lemma fresh_ext_set_nodes b ns : cb_keeps (bus_nodes b) ns -> fresh_ext b (set_nodes b ns).
Proof. intros Hk. by apply fresh_ext_keeps. Qed.
Lemma fresh_ext_update_node b p f :
  (forall nd, bus_nodes b !! p = Some nd -> node_callbacks (f nd) ⊆+ node_callbacks nd) ->
  fresh_ext b (update_node b p f).
Proof. intros Hf. apply fresh_ext_set_nodes, cb_keeps_alter, Hf. Qed.
Lemma fresh_ext_update_node_same b p f :
  (forall nd, node_callbacks (f nd) = node_callbacks nd) -> fresh_ext b (update_node b p f).
Proof. intros Hf. apply fresh_ext_update_node. intros nd _. by rewrite Hf. Qed.
Lemma fresh_ext_set_modified b v : fresh_ext b (set_modified b v).
Proof. apply fresh_ext_keeps; try done. apply cb_keeps_refl. Qed.
Lemma fresh_ext_send b m : fresh_ext b (bus_send b m).
Proof. apply fresh_ext_keeps; try done. apply cb_keeps_refl. Qed.
Lemma fresh_ext_alloc_id b : fresh_ext b (snd (alloc_id b)).
Proof.
  split; simpl; [done|lia|apply idx_grows_refl|apply idx_grows_refl|apply cb_grows_keeps, cb_keeps_refl|].
  apply cb_wf_mono. lia.
Qed.

(** Only the index changes, by removals. *)
Lemma fresh_ext_index_sub b b' :
  bus_iteration_counter b' = bus_iteration_counter b -> bus_next_id b' = bus_next_id b ->
  bus_nodes b' = bus_nodes b ->
  (forall k e, bus_vtable_methods b' !! k = Some e -> bus_vtable_methods b !! k = Some e) ->
  (forall k e, bus_vtable_properties b' !! k = Some e -> bus_vtable_properties b !! k = Some e) ->
  fresh_ext b b'.
Proof.
  intros Hc Hn Hns Hm Hp. split; [done|lia|by apply idx_grows_sub|by apply idx_grows_sub|..];
    rewrite Hns, ?Hn; [apply cb_grows_keeps, cb_keeps_refl|done].
Qed.

(** ** The node store *)

Lemma fresh_ext_allocate_fuel fuel b p : fresh_ext b (bus_node_allocate_fuel fuel b p).
Proof.
  revert b p. induction fuel as [|f IH]; intros b p; simpl;
    destruct (bus_nodes b !! p); try apply fresh_ext_refl.
  destruct (node_parent_path p) as [q|].
  - eapply fresh_ext_trans; [apply (IH b q)|].
    eapply fresh_ext_trans; [|by apply fresh_ext_update_node_same].
    by apply fresh_ext_set_nodes, cb_keeps_insert_empty.
  - by apply fresh_ext_set_nodes, cb_keeps_insert_empty.
Qed.

Lemma fresh_ext_gc_fuel fuel b p : fresh_ext b (bus_node_gc_fuel fuel b p).
Proof.
  revert b p. induction fuel as [|f IH]; intros b p; simpl;
    destruct (bus_nodes b !! p) as [n|]; try apply fresh_ext_refl;
    destruct (negb _); try apply fresh_ext_refl;
    destruct (node_parent n); try apply fresh_ext_set_nodes, cb_keeps_delete.
  - eapply fresh_ext_trans; [|by apply fresh_ext_update_node_same].
    apply fresh_ext_set_nodes, cb_keeps_delete.
  - eapply fresh_ext_trans; [|apply IH].
    eapply fresh_ext_trans; [|by apply fresh_ext_update_node_same].
    apply fresh_ext_set_nodes, cb_keeps_delete.
Qed.

Lemma fresh_ext_allocate b p : fresh_ext b (bus_node_allocate b p).
Proof. apply fresh_ext_allocate_fuel. Qed.
Lemma fresh_ext_gc b p : fresh_ext b (bus_node_gc b p).
Proof. apply fresh_ext_gc_fuel. Qed.

(** ** The registration calls *)

(** [free_node_vtable] only removes index entries. *)
Lemma fresh_ext_free_node_vtable b w : fresh_ext b (free_node_vtable b w).
Proof.
  unfold free_node_vtable. generalize (until_end (vr_entries (nv_vtable w))) as l.
  intros l. revert b. induction l as [|v l IH]; intros b; simpl; [apply fresh_ext_refl|].
  eapply fresh_ext_trans; [|apply IH].
  unfold free_member_key. destruct (method_member v), (property_member v); try apply fresh_ext_refl;
    apply fresh_ext_index_sub; simpl; try done;
    intros k e He; by apply lookup_delete_Some in He as [_ He].
Qed.

(** [add_vtable_members] only adds members of the registration [c]. *)
Lemma add_vtable_members_fresh c es b r b' :
  add_vtable_members c es b = (r, b') ->
  bus_iteration_counter b' = bus_iteration_counter b /\ bus_next_id b' = bus_next_id b /\
  bus_nodes b' = bus_nodes b /\
  idx_grows (nv_id c) (S (nv_id c)) (bus_vtable_methods b) (bus_vtable_methods b') /\
  idx_grows (nv_id c) (S (nv_id c)) (bus_vtable_properties b) (bus_vtable_properties b').
Proof.
  revert b. induction es as [|v es IH]; intros b Hadd; simpl in Hadd.
  { injection Hadd as <- <-. split_and!; [done|done|done|apply idx_grows_refl..]. }
  destruct (negb _); [injection Hadd as <- <-; split_and!; [done|done|done|apply idx_grows_refl..]|].
  destruct (method_member v) as [mm|]; [|destruct (property_member v) as [pm|]].
  - destruct (bus_vtable_methods b !! _); [injection Hadd as <- <-; split_and!; [done|done|done|apply idx_grows_refl..]|].
    destruct (IH _ Hadd) as (Hc & Hn & Hns & Hm & Hp). split_and!; [done|done|done| |done].
    eapply idx_grows_trans; [apply idx_grows_insert_new|exact Hm|done|done]. simpl. lia.
  - destruct (bus_vtable_properties b !! _); [injection Hadd as <- <-; split_and!; [done|done|done|apply idx_grows_refl..]|].
    destruct (IH _ Hadd) as (Hc & Hn & Hns & Hm & Hp). split_and!; [done|done|done|done|].
    eapply idx_grows_trans; [apply idx_grows_insert_new|exact Hp|done|done]. simpl. lia.
  - exact (IH _ Hadd).
Qed.

(** [add_object_vtable_internal], success and failure: the members it
    indexes belong to the registration it allocates. *)
Lemma fresh_ext_add_object_vtable_internal b path iface vt fallback find ud :
  fresh_ext b (snd (add_object_vtable_internal b path iface vt fallback find ud)).
Proof.
  unfold add_object_vtable_internal.
  destruct (add_vtable_guards b path iface vt); [apply fresh_ext_refl|].
  destruct vt as [vt|]; [|apply fresh_ext_refl].
  eapply fresh_ext_trans; [apply (fresh_ext_allocate b path)|].
  set (b1 := bus_node_allocate b path).
  destruct (scan_node_vtables _ _ _ _ _) as [r|existing]; [apply fresh_ext_gc|].
  unfold alloc_id. cbn zeta.
  destruct (add_vtable_members _ _ _) as [r b3] eqn:Hadd.
  apply add_vtable_members_fresh in Hadd as (Hc & Hn & Hns & Hm & Hp). simpl in *.
  assert (Hf : fresh_ext b1 b3).
  { split; [done|lia|rewrite Hn; done|rewrite Hn; done|rewrite Hns; apply cb_grows_keeps, cb_keeps_refl|].
    rewrite Hns, Hn. apply cb_wf_mono. lia. }
  destruct r as [|r|r]; simpl; eapply fresh_ext_trans; try exact Hf.
  - eapply fresh_ext_trans; [|apply fresh_ext_set_modified]. by apply fresh_ext_update_node_same.
  - eapply fresh_ext_trans; [apply fresh_ext_free_node_vtable|apply fresh_ext_gc].
  - eapply fresh_ext_trans; [apply fresh_ext_free_node_vtable|apply fresh_ext_gc].
Qed.

(** [bus_add_object]: the callback it adds is the registration it
    allocates. *)
Lemma fresh_ext_bus_add_object b fallback path cb ud :
  fresh_ext b (snd (bus_add_object b fallback path cb ud)).
Proof.
  unfold bus_add_object. destruct (negb _); [apply fresh_ext_refl|].
  destruct cb as [cb|]; [|apply fresh_ext_refl]. destruct (bus_pid_changed b); [apply fresh_ext_refl|]. simpl.
  eapply fresh_ext_trans; [|apply fresh_ext_set_modified].
  eapply fresh_ext_trans; [apply (fresh_ext_allocate b path)|].
  set (b1 := bus_node_allocate b path).
  split; simpl; [done|lia|apply idx_grows_refl|apply idx_grows_refl|apply cb_grows_add; simpl; lia|].
  by apply cb_wf_add.
Qed.

(** The removals: a node keeps what [list_remove_first] leaves of its
    list. *)
Lemma fresh_ext_remove_callbacks b path n pr y rest :
  bus_nodes b !! path = Some n -> list_remove_first pr (node_callbacks n) = Some (y, rest) ->
  fresh_ext b (update_node b path (fun n => node_set_callbacks n rest)).
Proof.
  intros Hn Hr. apply fresh_ext_update_node. intros nd Hnd. rewrite Hn in Hnd. injection Hnd as <-.
  exact (list_remove_first_submseteq _ _ _ _ Hr).
Qed.

(** The chain of node-store updates of the other calls. *)
Ltac fresh_chain :=
  repeat first
    [ apply fresh_ext_refl | apply fresh_ext_set_modified | apply fresh_ext_gc
    | apply fresh_ext_allocate | apply fresh_ext_free_node_vtable
    | apply fresh_ext_update_node_same; intros; reflexivity
    | eapply fresh_ext_remove_callbacks; eassumption
    | eapply fresh_ext_trans; [|first [ apply fresh_ext_set_modified | apply fresh_ext_gc
                                      | apply fresh_ext_free_node_vtable
                                      | apply fresh_ext_update_node_same; intros; reflexivity ]] ].

Lemma api_step_fresh b a : fresh_ext b (snd (api_step b a)).
Proof.
  destruct a; simpl; try apply fresh_ext_add_object_vtable_internal; try apply fresh_ext_bus_add_object;
    unfold bus_remove_object, remove_object_vtable_internal,
      sd_bus_add_node_enumerator, sd_bus_remove_node_enumerator,
      sd_bus_add_object_manager, sd_bus_remove_object_manager;
    repeat case_match; simpl; fresh_chain.
Qed.

Lemma run_calls_fresh b l : fresh_ext b (snd (run_calls b l)).
Proof.
  revert b. induction l as [|a l IH]; intros b; simpl; [apply fresh_ext_refl|].
  pose proof (api_step_fresh b a) as Ha. destruct (api_step b a) as [r b1].
  specialize (IH b1). destruct (run_calls b1 l). simpl in *. eapply fresh_ext_trans; eassumption.
Qed.

Lemma fresh_ext_sends ms b : fresh_ext b (fold_left bus_send ms b).
Proof.
  revert b. induction ms as [|m ms IH]; intros b; simpl; [apply fresh_ext_refl|].
  eapply fresh_ext_trans; [apply fresh_ext_send|apply IH].
Qed.

(** What a callback does: its registration calls, then its sends. *)
Lemma fresh_ext_effects b e : fresh_ext b (fold_left bus_send (ef_sends e) (snd (run_calls b (ef_calls e)))).
Proof. eapply fresh_ext_trans; [apply run_calls_fresh|apply fresh_ext_sends]. Qed.

Lemma bus_ids_wf_fresh b b' : fresh_ext b b' -> bus_ids_wf b -> bus_ids_wf b'.
Proof.
  intros [_ Hn Hm Hp _ Hw] (Hbm & Hbp & Hcb). split_and!;
    [exact (ids_below_grows _ _ _ _ Hn Hbm Hm)|exact (ids_below_grows _ _ _ _ Hn Hbp Hp)|exact (Hw Hcb)].
Qed.

(** Every bus the registration API reaches has its registrations
    allocated and its callback identities unique. *)
Lemma reachable_ids_wf trusted is_kernel b :
  reachable trusted is_kernel b -> bus_ids_wf b.
Proof.
  induction 1 as [|b a _ IH].
  - split_and!; [intros k e He; simpl in He; by rewrite lookup_empty in He..|].
    split; intros *; [intros (n & Hn & _)|intros Hn|intros (n & Hn & _)]; simpl in Hn; by rewrite lookup_empty in Hn.
  - exact (bus_ids_wf_fresh _ _ (api_step_fresh b a) IH).
Qed.

End Fresh.

End Fresh.
