(* ===== verification/Preserve.v ===== *)
(** * Invariants of the dispatch engine, generically

    [dm_pres P x]: the computation [x] keeps the state predicate [P].  It
    composes through [≫=] and the branches of a monadic body the way the
    sequence and conditional rules of a Hoare logic compose.

    [Preserved P] lists what [P] must survive: the state-changing
    primitives and the effects of the user callbacks other than setters.
    [Kept P] is [Preserved P] without the send: Section [SendFree] shows
    that the functions that send nothing keep such a [P] (used also for
    the predicate "the write queue is [q]" in [SingleReply]).
    From these, Section [Generic] shows that every function of the
    engine keeps [P], except the three that run guarded callbacks
    ([node_callbacks_run], [method_callbacks_run] and
    [property_get_set_callbacks_run]); Section [Guarded] takes these
    three as hypotheses, each only from a state where the callbacks are
    the node's or the member is the one in the index, and derives
    [object_find_and_run] and the prefix loop; Section [Unguarded]
    proves the three for a predicate that any invocation and the marking
    of callbacks and members keep.  The development instantiates [P] twice:
    the tree staying unmodified ([DispatchLoop]) and the at-most-once
    bookkeeping of guarded members ([AtMostOnce]). *)

From S2P Require Import Prelude ObjectPath Vtable Message BusState DispatchCore Access Callbacks Tree Introspect ObjectManager Dispatch.
Import ObjectPath Vtable Message BusState DispatchCore Access Callbacks Tree Introspect ObjectManager Dispatch.

Module Preserve.

(** [x] keeps the state predicate [P]. *)
Definition dm_pres {A} (P : dstate -> Prop) (x : DM A) : Prop :=
  forall s, P s -> P (snd (x s)).

(** The invocations the [last_iteration] guards protect: node callbacks,
    method handlers and property setters.  Getters are not protected
    (the comment of lines 554-559), nor are find callbacks and node
    enumerators. *)
Definition unguarded (i : invocation) : bool :=
  match i with InvCallback _ | InvMethod _ _ | InvSet _ _ => false | _ => true end.

(** What a state predicate must survive for the engine to keep it. *)
Record Preserved `{BusValidators} `{DispatchEnv} (P : dstate -> Prop) : Prop := {
  pr_set_found : dm_pres P set_found;
  pr_reset_found : dm_pres P reset_found;
  pr_log : forall i, unguarded i = true -> dm_pres P (log_invocation i);
  pr_write : forall a v, dm_pres P (write_mem a v);
  pr_send : forall m, dm_pres P (send m);
  pr_handler_effects : forall f m u, dm_pres P (apply_effects (hr_effects (env_handler f m u)));
  pr_find_effects : forall f p i u, dm_pres P (apply_effects (fr_effects (env_find f p i u)));
  pr_getter_effects : forall f p i mem u, dm_pres P (apply_effects (gr_effects (env_getter f p i mem u)));
  pr_enum_effects : forall f p u, dm_pres P (apply_effects (er_effects (env_enumerator f p u)))
}.

(** What the functions that send nothing need: [Preserved] without the
    send. *)
Record Kept `{BusValidators} `{DispatchEnv} (P : dstate -> Prop) : Prop := {
  kp_set_found : dm_pres P set_found;
  kp_reset_found : dm_pres P reset_found;
  kp_log : forall i, unguarded i = true -> dm_pres P (log_invocation i);
  kp_write : forall a v, dm_pres P (write_mem a v);
  kp_handler_effects : forall f m u, dm_pres P (apply_effects (hr_effects (env_handler f m u)));
  kp_find_effects : forall f p i u, dm_pres P (apply_effects (fr_effects (env_find f p i u)));
  kp_getter_effects : forall f p i mem u, dm_pres P (apply_effects (gr_effects (env_getter f p i mem u)));
  kp_enum_effects : forall f p u, dm_pres P (apply_effects (er_effects (env_enumerator f p u)))
}.

Lemma preserved_kept `{BusValidators} `{DispatchEnv} P : Preserved P -> Kept P.
Proof. intros []. by split. Qed.

Lemma dm_pres_ret {A} P (a : A) : dm_pres P (mret a).
Proof. intros s Hs. exact Hs. Qed.

Lemma dm_pres_bind {A B} P (x : DM A) (f : A -> DM B) :
  dm_pres P x -> (forall a, dm_pres P (f a)) -> dm_pres P (x ≫= f).
Proof.
  intros Hx Hf s Hs. unfold mbind, dm_bind. specialize (Hx s Hs).
  destruct (x s) as [a s']. exact (Hf a s' Hx).
Qed.

(** [x ≫= f] from one state, where [x] keeps [P] from that state. *)
Lemma dm_pres_bind_at {A B} P (x : DM A) (f : A -> DM B) s :
  P (snd (x s)) -> (forall a, dm_pres P (f a)) -> P (snd ((x ≫= f) s)).
Proof. intros Hx Hf. unfold mbind, dm_bind. destruct (x s) as [a s']. exact (Hf a s' Hx). Qed.

(** A computation that reads the state and leaves it as it is. *)
Lemma dm_pres_reader {A} P (x : DM A) : (forall s, snd (x s) = s) -> dm_pres P x.
Proof. intros Hx s Hs. by rewrite Hx. Qed.

(** The bus read by [get_bus] is the bus of the state the rest runs
    from. *)
Lemma dm_pres_get_bus {A} P (f : sd_bus -> DM A) :
  (forall s, P s -> P (snd (f (ds_bus s) s))) -> dm_pres P (get_bus ≫= f).
Proof. intros Hf s Hs. exact (Hf s Hs). Qed.

(** The symbolic walk through a monadic body: binds, branches and the
    wrappers; [leaf] proves what remains. *)
Ltac keep_with leaf :=
  repeat match goal with
  | |- dm_pres _ (mret _) => apply dm_pres_ret
  | |- dm_pres _ (_ ≫= _) => apply dm_pres_bind; [|intros ?]
  | |- dm_pres _ (unless_modified _) => unfold unless_modified
  | |- dm_pres _ (or_else _ _) => unfold or_else
  | |- dm_pres _ (match ?x with _ => _ end) => destruct x
  | |- dm_pres _ _ => solve [leaf]
  end.

(** Introduce the universally quantified variables of a goal, not the
    state of a [dm_pres] under them. *)
Ltac intro_binders := repeat match goal with |- forall _, _ => intro end.

(** A loop written as an inner [fix] over a list: induction on the list. *)
Ltac keep_inner_fix leaf :=
  lazymatch goal with
  | |- dm_pres _ (?F ?l ?a ?b) =>
      revert a b; induction l; intros; cbv beta iota fix; keep_with leaf
  | |- dm_pres _ (?F ?l) =>
      induction l; cbv beta iota fix; keep_with leaf
  end.

Lemma get_bus_reads : forall s, snd (get_bus s) = s.
Proof. done. Qed.
Lemma nodes_modified_reads : forall s, snd (nodes_modified s) = s.
Proof. done. Qed.
Lemma get_found_reads : forall s, snd (get_found s) = s.
Proof. done. Qed.
Lemma read_mem_reads a : forall s, snd (read_mem a s) = s.
Proof. done. Qed.

Create HintDb keep.
Ltac keep := keep_with ltac:(eauto with keep).

(** The functions that send nothing keep every [Kept] predicate. *)
Section SendFree.
  Context `{BusValidators} `{DispatchEnv}.
  Variable P : dstate -> Prop.
  Hypothesis HK : Kept P.

#[local] Hint Resolve dm_pres_reader get_bus_reads nodes_modified_reads get_found_reads read_mem_reads : keep.
#[local] Hint Extern 1 (unguarded _ = true) => reflexivity : keep.
#[local] Hint Resolve kp_set_found kp_reset_found kp_log kp_write kp_handler_effects kp_find_effects
  kp_getter_effects kp_enum_effects : keep.

Lemma invoke_handler_keeps i f m u : unguarded i = true -> dm_pres P (invoke_handler i f m u).
Proof. intros Hi. unfold invoke_handler. cbv zeta. keep. Qed.
#[local] Hint Resolve invoke_handler_keeps : keep.
Lemma invoke_find_keeps vt f p i u : dm_pres P (invoke_find vt f p i u).
Proof. unfold invoke_find. cbv zeta. keep. Qed.
#[local] Hint Resolve invoke_find_keeps : keep.
Lemma node_vtable_get_userdata_keeps p c : dm_pres P (node_vtable_get_userdata p c).
Proof. unfold node_vtable_get_userdata. keep. Qed.
#[local] Hint Resolve node_vtable_get_userdata_keeps : keep.
Lemma vtable_property_get_userdata_keeps p c : dm_pres P (vtable_property_get_userdata p c).
Proof. unfold vtable_property_get_userdata. keep. Qed.
#[local] Hint Resolve vtable_property_get_userdata_keeps : keep.
Lemma invoke_property_get_keeps k vt v p i mem u : dm_pres P (invoke_property_get k vt v p i mem u).
Proof. unfold invoke_property_get. cbv zeta. keep. Qed.
#[local] Hint Resolve invoke_property_get_keeps : keep.
Lemma append_all_properties_loop_keeps c p u es acc err :
  dm_pres P (append_all_properties_loop c p u es acc err).
Proof. revert acc err. induction es; intros acc err; cbn [append_all_properties_loop]; keep. Qed.
#[local] Hint Resolve append_all_properties_loop_keeps : keep.
Lemma vtable_append_all_properties_keeps p c u acc err : dm_pres P (vtable_append_all_properties p c u acc err).
Proof. unfold vtable_append_all_properties. keep. Qed.
#[local] Hint Resolve vtable_append_all_properties_keeps : keep.
Lemma add_enumerated_to_set_keeps p es s err : dm_pres P (add_enumerated_to_set p es s err).
Proof. revert s err. induction es; intros s err; cbn [add_enumerated_to_set]; cbv zeta; keep. Qed.
#[local] Hint Resolve add_enumerated_to_set_keeps : keep.
Lemma add_subtree_to_set_keeps fuel p n s err : dm_pres P (add_subtree_to_set fuel p n s err).
Proof.
  revert n s err. induction fuel as [|fuel IH]; intros n s err; cbn [add_subtree_to_set]; keep.
  keep_inner_fix ltac:(eauto with keep).
Qed.
#[local] Hint Resolve add_subtree_to_set_keeps : keep.
Lemma get_child_nodes_keeps p n err : dm_pres P (get_child_nodes p n err).
Proof. unfold get_child_nodes. keep. Qed.
#[local] Hint Resolve get_child_nodes_keeps : keep.
Lemma bus_node_exists_keeps n p rf : dm_pres P (bus_node_exists n p rf).
Proof. unfold bus_node_exists. keep. keep_inner_fix ltac:(eauto with keep). Qed.
#[local] Hint Resolve bus_node_exists_keeps : keep.
Lemma serialize_vtables_keeps p vts rf closed cur err : dm_pres P (serialize_vtables p vts rf closed cur err).
Proof. revert closed cur err. induction vts; intros closed cur err; cbn [serialize_vtables]; cbv zeta; keep. Qed.
#[local] Hint Resolve serialize_vtables_keeps : keep.
Lemma object_manager_serialize_path_keeps pr p rf es err :
  dm_pres P (object_manager_serialize_path pr p rf es err).
Proof. unfold object_manager_serialize_path. cbv zeta. keep. Qed.
#[local] Hint Resolve object_manager_serialize_path_keeps : keep.
Lemma object_manager_serialize_path_and_fallbacks_keeps p es err :
  dm_pres P (object_manager_serialize_path_and_fallbacks p es err).
Proof. unfold object_manager_serialize_path_and_fallbacks. keep. keep_inner_fix ltac:(eauto with keep). Qed.
#[local] Hint Resolve object_manager_serialize_path_and_fallbacks_keeps : keep.
Lemma serialize_children_keeps ps es err : dm_pres P (serialize_children ps es err).
Proof. revert es err. induction ps; intros es err; cbn [serialize_children]; keep. Qed.
#[local] Hint Resolve serialize_children_keeps : keep.
Lemma find_and_run_tail_keeps m n rf : dm_pres P (find_and_run_tail m n rf).
Proof. unfold find_and_run_tail. keep. Qed.
#[local] Hint Resolve find_and_run_tail_keeps : keep.

End SendFree.

Section Generic.
  Context `{BusValidators} `{DispatchEnv}.
  Variable P : dstate -> Prop.
  Hypothesis HP : Preserved P.

#[local] Hint Resolve dm_pres_reader get_bus_reads nodes_modified_reads get_found_reads read_mem_reads : keep.
#[local] Hint Extern 1 (unguarded _ = true) => reflexivity : keep.
#[local] Hint Resolve pr_set_found pr_reset_found pr_log pr_write pr_send pr_handler_effects
  pr_find_effects pr_getter_effects pr_enum_effects preserved_kept : keep.
#[local] Hint Resolve invoke_handler_keeps invoke_find_keeps node_vtable_get_userdata_keeps vtable_property_get_userdata_keeps invoke_property_get_keeps append_all_properties_loop_keeps vtable_append_all_properties_keeps add_enumerated_to_set_keeps add_subtree_to_set_keeps get_child_nodes_keeps bus_node_exists_keeps serialize_vtables_keeps object_manager_serialize_path_keeps object_manager_serialize_path_and_fallbacks_keeps serialize_children_keeps find_and_run_tail_keeps : keep.

Lemma reply_errorf_keeps m e : dm_pres P (sd_bus_reply_method_errorf m e).
Proof. unfold sd_bus_reply_method_errorf. keep. Qed.
#[local] Hint Resolve reply_errorf_keeps : keep.
Lemma reply_return_keeps m b : dm_pres P (sd_bus_reply_method_return m b).
Proof. unfold sd_bus_reply_method_return. keep. Qed.
#[local] Hint Resolve reply_return_keeps : keep.
Lemma bus_maybe_reply_error_keeps m r e : dm_pres P (bus_maybe_reply_error m r e).
Proof. unfold bus_maybe_reply_error. keep. Qed.
#[local] Hint Resolve bus_maybe_reply_error_keeps : keep.
Lemma get_all_loop_keeps m vts rf i fi acc : dm_pres P (get_all_loop m vts rf i fi acc).
Proof. revert fi acc. induction vts; intros fi acc; cbn [get_all_loop]; keep. Qed.
#[local] Hint Resolve get_all_loop_keeps : keep.
Lemma property_get_all_callbacks_run_keeps m vts rf i : dm_pres P (property_get_all_callbacks_run m vts rf i).
Proof. unfold property_get_all_callbacks_run. cbv zeta. keep. Qed.
#[local] Hint Resolve property_get_all_callbacks_run_keeps : keep.
Lemma introspect_vtables_keeps m vts rf e prev items : dm_pres P (introspect_vtables m vts rf e prev items).
Proof. revert e prev items. induction vts; intros e prev items; cbn [introspect_vtables]; cbv zeta; keep. Qed.
#[local] Hint Resolve introspect_vtables_keeps : keep.
Lemma process_introspect_keeps m n rf : dm_pres P (process_introspect m n rf).
Proof. unfold process_introspect. cbv zeta. keep. Qed.
#[local] Hint Resolve process_introspect_keeps : keep.
Lemma process_get_managed_objects_keeps m n rf : dm_pres P (process_get_managed_objects m n rf).
Proof. unfold process_get_managed_objects. cbv zeta. keep. Qed.
#[local] Hint Resolve process_get_managed_objects_keeps : keep.

Section Guarded.
  Hypothesis Hcallbacks : forall m p n rf s, P s -> bus_nodes (ds_bus s) !! p = Some n ->
    P (snd (node_callbacks_run m p (node_callbacks n) rf s)).
  Hypothesis Hmethod : forall m k c rf s, P s -> bus_vtable_methods (ds_bus s) !! k = Some c ->
    P (snd (method_callbacks_run m k c rf s)).
  Hypothesis Hproperty : forall m k c rf g s, P s -> bus_vtable_properties (ds_bus s) !! k = Some c ->
    P (snd (property_get_set_callbacks_run m k c rf g s)).

(** The Properties.Get/Set branch runs the member it has just looked up
    in the state it runs from. *)
Lemma find_and_run_standard_keeps m p n rf i mem : dm_pres P (find_and_run_standard m p n rf i mem).
Proof.
  unfold find_and_run_standard. cbv zeta.
  destruct (String.eqb i _); [|keep].
  destruct (_ || _); [|keep]. destruct (read_ss m) as [[i' mem']|]; [|keep].
  apply dm_pres_get_bus. intros s Hs.
  destruct (bus_vtable_properties (ds_bus s) !! (p, i', mem')) as [v|] eqn:Hv; [|by apply find_and_run_tail_keeps; [apply preserved_kept|]].
  unfold or_else. apply dm_pres_bind_at; [exact (Hproperty m _ v rf _ s Hs Hv)|intros a]. keep.
Qed.
#[local] Hint Resolve find_and_run_standard_keeps : keep.

(** The same for the node's callbacks and the method index. *)
Lemma object_find_and_run_keeps m p rf : dm_pres P (object_find_and_run m p rf).
Proof.
  unfold object_find_and_run. apply dm_pres_get_bus. intros s0 Hs0.
  destruct (bus_nodes (ds_bus s0) !! p) as [n|] eqn:Hn; [|exact Hs0].
  unfold or_else at 1. apply dm_pres_bind_at; [exact (Hcallbacks m p n rf s0 Hs0 Hn)|intros r].
  destruct (negb _); [apply dm_pres_ret|].
  unfold unless_modified. apply dm_pres_bind; [eauto with keep|intros modified].
  destruct modified; [apply dm_pres_ret|].
  destruct (m_interface m) as [iface|], (m_member m) as [member|]; try apply dm_pres_ret.
  apply dm_pres_get_bus. intros s Hs.
  destruct (bus_vtable_methods (ds_bus s) !! (p, iface, member)) as [v|] eqn:Hv; [|by apply find_and_run_standard_keeps].
  unfold or_else. apply dm_pres_bind_at; [exact (Hmethod m _ v rf s Hs Hv)|intros a]. keep.
Qed.
#[local] Hint Resolve object_find_and_run_keeps : keep.

Lemma run_prefixes_keeps m ps : dm_pres P (run_prefixes m ps).
Proof. induction ps; cbn [run_prefixes]; keep. Qed.

End Guarded.

Section Unguarded.
  Hypothesis Hlog_all : forall i, dm_pres P (log_invocation i).
  Hypothesis Hset_callback : forall p id it, dm_pres P (set_callback_iteration p id it).
  Hypothesis Hset_method : forall k it, dm_pres P (set_method_iteration k it).
  Hypothesis Hset_property : forall k it, dm_pres P (set_property_iteration k it).
  Hypothesis Hsetter_effects : forall f p i mem v u, dm_pres P (apply_effects (sr_effects (env_setter f p i mem v u))).
#[local] Hint Resolve Hlog_all Hset_callback Hset_method Hset_property Hsetter_effects : keep.

Lemma invoke_handler_keeps_all i f m u : dm_pres P (invoke_handler i f m u).
Proof. unfold invoke_handler. cbv zeta. keep. Qed.
Lemma invoke_property_set_keeps_all k vt v p i mem x u : dm_pres P (invoke_property_set k vt v p i mem x u).
Proof. unfold invoke_property_set. cbv zeta. keep. Qed.
#[local] Hint Resolve invoke_handler_keeps_all invoke_property_set_keeps_all : keep.
Lemma method_callbacks_run_keeps_all m k c rf : dm_pres P (method_callbacks_run m k c rf).
Proof. unfold method_callbacks_run. keep. Qed.
Lemma node_callbacks_run_keeps_all m p cs rf : dm_pres P (node_callbacks_run m p cs rf).
Proof. induction cs; cbn [node_callbacks_run]; keep. Qed.
Lemma property_get_set_callbacks_run_keeps_all m k c rf g : dm_pres P (property_get_set_callbacks_run m k c rf g).
Proof. unfold property_get_set_callbacks_run. keep. Qed.
End Unguarded.

End Generic.

End Preserve.
