(* ===== verification/SingleReply.v ===== *)
(** * One reply per message, and none before a restart

    The engine queues a reply of its own ([sd_bus_reply_method_errorf],
    [sd_bus_reply_method_return], [bus_maybe_reply_error], the
    [sd_bus_send] of Get, GetAll, Introspect and GetManagedObjects) only as
    the last step of a path that returns a non-zero code, and every caller
    returns that code at once ([if (r != 0) return r]).  A pass of
    [bus_process_object] that returns 0, the only kind after which the
    restart loop runs again, therefore queues nothing (spec section 8,
    property 4: no partial reply before a restart), and a whole dispatch
    queues at most one message.  This holds when the user callbacks send
    no message themselves ([callbacks_silent]); what they send is their
    own business.

    The registration API sends nothing ([api_step_wqueue]), so the
    effects of a silent callback keep the queue ([apply_effects_quiet]).
    [replies Q x]: the computation [x] queues at most one message, and
    when it does its result satisfies [Q].  It composes through [≫=]
    with [quiet_then] for what follows a reply. *)

From S2P Require Import Prelude ObjectPath Vtable Message BusState NodeStore Registration Reachable DispatchCore Access Callbacks Tree Introspect ObjectManager Dispatch Preserve.
Import ObjectPath Vtable Message BusState NodeStore Registration Reachable DispatchCore Access Callbacks Tree Introspect ObjectManager Dispatch Preserve.

Module SingleReply.

(** ** The registration API sends nothing *)

Lemma bus_node_allocate_fuel_wqueue fuel b path :
  bus_wqueue (bus_node_allocate_fuel fuel b path) = bus_wqueue b.
Proof.
  revert b path. induction fuel as [|fuel IH]; intros b path; simpl; destruct (bus_nodes b !! path); try done.
  destruct (node_parent_path path); simpl; [apply IH|done].
Qed.

Lemma bus_node_gc_fuel_wqueue fuel b path : bus_wqueue (bus_node_gc_fuel fuel b path) = bus_wqueue b.
Proof.
  revert b path. induction fuel as [|fuel IH]; intros b path; simpl;
    destruct (bus_nodes b !! path) as [n|]; try done; destruct (negb _); try done;
    destruct (node_parent n); try done. rewrite IH. done.
Qed.

Lemma free_node_vtable_wqueue b w : bus_wqueue (free_node_vtable b w) = bus_wqueue b.
Proof.
  unfold free_node_vtable. generalize (until_end (vr_entries (nv_vtable w))). intros es. revert b.
  induction es as [|v es IH]; intros b; simpl; [done|]. rewrite IH. unfold free_member_key. by repeat case_match.
Qed.

Section Api.
  Context `{BusValidators}.

Lemma add_vtable_members_wqueue c es b r b' :
  add_vtable_members c es b = (r, b') -> bus_wqueue b' = bus_wqueue b.
Proof.
  revert b. induction es as [|v es IH]; intros b; simpl; [by intros [= _ <-]|].
  repeat case_match; intros Hadd; simplify_eq; try done; by rewrite (IH _ Hadd).
Qed.

Ltac wq_simpl :=
  repeat (unfold bus_node_allocate, bus_node_gc, update_node, alloc_id in *; simpl in *;
          rewrite ?bus_node_allocate_fuel_wqueue, ?bus_node_gc_fuel_wqueue, ?free_node_vtable_wqueue in *).

Ltac wq_solve :=
  repeat case_match; wq_simpl; simplify_eq; wq_simpl;
  try match goal with H : add_vtable_members _ _ _ = _ |- _ =>
        rewrite (add_vtable_members_wqueue _ _ _ _ _ H) end;
  wq_simpl; done.

Lemma api_step_wqueue b a : bus_wqueue (snd (api_step b a)) = bus_wqueue b.
Proof.
  destruct a; simpl;
    [unfold bus_add_object|unfold bus_remove_object|unfold add_object_vtable_internal
    |unfold remove_object_vtable_internal|unfold sd_bus_add_node_enumerator
    |unfold sd_bus_remove_node_enumerator|unfold sd_bus_add_object_manager
    |unfold sd_bus_remove_object_manager]; wq_solve.
Qed.

Lemma run_calls_wqueue b l : bus_wqueue (snd (run_calls b l)) = bus_wqueue b.
Proof.
  revert b. induction l as [|a l IH]; intros b; simpl; [done|].
  destruct (api_step b a) as [r b1] eqn:Hs. destruct (run_calls b1 l) as [rs b2] eqn:Hl. simpl.
  change b2 with (snd (rs, b2)). rewrite <-Hl, IH. change b1 with (snd (r, b1)). rewrite <-Hs.
  apply api_step_wqueue.
Qed.

End Api.

(** The queue is [q]. *)
Definition queue_is (q : list sd_bus_message) (s : dstate) : Prop := bus_wqueue (ds_bus s) = q.

Lemma apply_effects_quiet `{BusValidators} e q : ef_sends e = [] -> dm_pres (queue_is q) (apply_effects e).
Proof.
  intros He s Hs. unfold apply_effects, modify_bus, queue_is in *. simpl. rewrite He. simpl.
  by rewrite run_calls_wqueue.
Qed.

Lemma log_quiet i q : dm_pres (queue_is q) (log_invocation i).
Proof. intros s Hs. exact Hs. Qed.

Definition wq (s : dstate) : list sd_bus_message := bus_wqueue (ds_bus s).

(** [x] queues at most one message, and only with a result in [Q]. *)
Definition replies {A} (Q : A -> Prop) (x : DM A) : Prop :=
  forall s, wq (snd (x s)) = wq s \/ exists msg, wq (snd (x s)) = wq s ++ [msg] /\ Q (fst (x s)).

(** [x] queues nothing and returns a result in [Q]. *)
Definition quiet_then {A} (Q : A -> Prop) (x : DM A) : Prop :=
  forall s, wq (snd (x s)) = wq s /\ Q (fst (x s)).

(** [x] queues nothing. *)
Definition silent {A} (x : DM A) : Prop := forall q, dm_pres (queue_is q) x.

(** The code a reply leaves to the caller: anything but 0. *)
Definition sent_z (r : Z) : Prop := r <> 0%Z.

Lemma silent_replies {A} (Q : A -> Prop) x : silent x -> replies Q x.
Proof. intros Hx s. left. exact (Hx (wq s) s eq_refl). Qed.

Lemma replies_ret {A} (Q : A -> Prop) a : replies Q (mret a).
Proof. intros s. by left. Qed.

Lemma quiet_then_ret {A} (Q : A -> Prop) a : Q a -> quiet_then Q (mret a).
Proof. intros Ha s. by split. Qed.

Lemma replies_weaken {A} (Q1 Q2 : A -> Prop) x :
  (forall a, Q1 a -> Q2 a) -> replies Q1 x -> replies Q2 x.
Proof.
  intros HQ Hx s. destruct (Hx s) as [?|(msg & ? & ?)]; [by left|right; exists msg; auto].
Qed.

Lemma replies_bind_silent {A B} (Q : B -> Prop) (x : DM A) (f : A -> DM B) :
  silent x -> (forall a, replies Q (f a)) -> replies Q (x ≫= f).
Proof.
  intros Hx Hf s. unfold mbind, dm_bind. pose proof (Hx (wq s) s eq_refl) as Hq.
  destruct (x s) as [a s']. unfold queue_is in Hq. simpl in Hq. unfold wq in *. rewrite <- Hq. apply Hf.
Qed.

(** After a reply, the rest only returns. *)
Lemma replies_bind {A B} (Q1 : A -> Prop) (Q : B -> Prop) (x : DM A) (f : A -> DM B) :
  replies Q1 x -> (forall a, replies Q (f a)) -> (forall a, Q1 a -> quiet_then Q (f a)) ->
  replies Q (x ≫= f).
Proof.
  intros Hx Hf Hq s. unfold mbind, dm_bind. specialize (Hx s). destruct (x s) as [a s']. simpl in Hx.
  destruct Hx as [Heq|(msg & Heq & Ha)].
  - destruct (Hf a s') as [H1|(msg & H1 & H2)]; [left; congruence|right; exists msg; split; [congruence|done]].
  - destruct (Hq a Ha s') as [H1 H2]. right. exists msg. split; [congruence|done].
Qed.

Lemma send_replies m : replies (fun _ => True) (send m).
Proof. intros s. right. by exists m. Qed.

(** A reply followed by [return 1]. *)
Lemma send_then_one (Q : Z -> Prop) m : Q 1%Z -> replies Q (send m;; mret 1%Z).
Proof.
  intros H1. apply (replies_bind (fun _ => True)); [apply send_replies|intros; apply replies_ret|].
  intros _ _. by apply quiet_then_ret.
Qed.

(** [r = x; if (r != 0) return r;] then [k]. *)
Lemma replies_or_else x k : replies sent_z x -> replies sent_z k -> replies sent_z (or_else x k).
Proof.
  intros Hx Hk. unfold or_else. apply (replies_bind sent_z); [exact Hx| |].
  - intros r. destruct (negb _); [apply replies_ret|exact Hk].
  - intros r Hr. unfold sent_z in Hr. rewrite (proj2 (Z.eqb_neq r 0) Hr). simpl. by apply quiet_then_ret.
Qed.

Lemma silent_nodes_modified : silent nodes_modified.
Proof. intros q. apply dm_pres_reader, nodes_modified_reads. Qed.

Lemma replies_unless_modified {Q} k : replies Q k -> replies Q (unless_modified k).
Proof.
  intros Hk. unfold unless_modified. apply replies_bind_silent; [apply silent_nodes_modified|].
  intros []; [apply replies_ret|exact Hk].
Qed.

Lemma reply_errorf_sent m e : replies sent_z (sd_bus_reply_method_errorf m e).
Proof. apply send_then_one. unfold sent_z. lia. Qed.

Lemma reply_return_sent m b : replies sent_z (sd_bus_reply_method_return m b).
Proof. apply send_then_one. unfold sent_z. lia. Qed.

Lemma bus_maybe_reply_error_sent m r e : replies sent_z (bus_maybe_reply_error m r e).
Proof.
  unfold bus_maybe_reply_error. destruct (r <? 0)%Z; [|destruct e].
  - destruct (bool_decide _); [apply send_then_one; unfold sent_z; lia|].
    apply replies_bind_silent; [intros q; apply dm_pres_ret|intros; apply replies_ret].
  - destruct (bool_decide _); [apply send_then_one; unfold sent_z; lia|].
    apply replies_bind_silent; [intros q; apply dm_pres_ret|intros; apply replies_ret].
  - apply replies_ret.
Qed.

(** ** The functions that send nothing *)

Section Silent.
  Context `{BusValidators} `{DispatchEnv}.

(** The user callbacks send no message of their own. *)
Record callbacks_silent : Prop := {
  sil_handler : forall f m u, ef_sends (hr_effects (env_handler f m u)) = [];
  sil_find : forall f p i u, ef_sends (fr_effects (env_find f p i u)) = [];
  sil_getter : forall f p i mem u, ef_sends (gr_effects (env_getter f p i mem u)) = [];
  sil_setter : forall f p i mem v u, ef_sends (sr_effects (env_setter f p i mem v u)) = [];
  sil_enum : forall f p u, ef_sends (er_effects (env_enumerator f p u)) = []
}.

Section Quiet.
  Hypothesis Hsil : callbacks_silent.

Lemma queue_kept q : Kept (queue_is q).
Proof.
  split.
  - intros s Hs. exact Hs.
  - intros s Hs. exact Hs.
  - intros i _. apply log_quiet.
  - intros a v s Hs. exact Hs.
  - intros. apply apply_effects_quiet, Hsil.
  - intros. apply apply_effects_quiet, Hsil.
  - intros. apply apply_effects_quiet, Hsil.
  - intros. apply apply_effects_quiet, Hsil.
Qed.

Lemma setter_effects_q q f p i mem v u :
  dm_pres (queue_is q) (apply_effects (sr_effects (env_setter f p i mem v u))).
Proof. apply apply_effects_quiet, Hsil. Qed.

Lemma fields_q q (x : DM unit) :
  (forall s, bus_wqueue (ds_bus (snd (x s))) = bus_wqueue (ds_bus s)) -> dm_pres (queue_is q) x.
Proof. intros Hx s Hs. unfold queue_is in *. by rewrite Hx. Qed.

Create HintDb silentq.
#[local] Hint Resolve queue_kept dm_pres_reader get_bus_reads nodes_modified_reads get_found_reads
  read_mem_reads log_quiet setter_effects_q kp_set_found kp_reset_found kp_write kp_handler_effects : silentq.
#[local] Hint Resolve invoke_handler_keeps invoke_find_keeps node_vtable_get_userdata_keeps
  vtable_property_get_userdata_keeps invoke_property_get_keeps append_all_properties_loop_keeps
  vtable_append_all_properties_keeps add_enumerated_to_set_keeps add_subtree_to_set_keeps
  get_child_nodes_keeps bus_node_exists_keeps serialize_vtables_keeps object_manager_serialize_path_keeps
  object_manager_serialize_path_and_fallbacks_keeps serialize_children_keeps find_and_run_tail_keeps : silentq.
#[local] Hint Extern 2 (dm_pres (queue_is _) _) => apply fields_q; intros; reflexivity : silentq.

Ltac silent_leaf := intros ?q; first [solve [eauto with silentq] | solve [keep_with ltac:(eauto with silentq)]].

Lemma invoke_handler_q q i f m u : dm_pres (queue_is q) (invoke_handler i f m u).
Proof. unfold invoke_handler. cbv zeta. keep_with ltac:(eauto with silentq). Qed.
Lemma invoke_property_set_q q k vt v p i mem x u : dm_pres (queue_is q) (invoke_property_set k vt v p i mem x u).
Proof. unfold invoke_property_set. cbv zeta. keep_with ltac:(eauto with silentq). Qed.
#[local] Hint Resolve invoke_handler_q invoke_property_set_q : silentq.

(** ** The functions that may reply *)

(** The early return [inl r] of a loop, after a reply. *)
Definition sent_inl {B} (res : Z + B) : Prop := match res with inl r => sent_z r | inr _ => False end.

Create HintDb reply.
#[local] Hint Resolve reply_errorf_sent reply_return_sent bus_maybe_reply_error_sent : reply.

(** What follows a reply: a [return] of the code it left. *)
Ltac quiet_cont :=
  let a := fresh "a" in let Ha := fresh "Ha" in intros a Ha;
  try (destruct Ha as (?r & -> & Ha));
  repeat match goal with
  | |- quiet_then _ (mret _) => apply quiet_then_ret; cbn; first [exact Ha | eexists; split; [reflexivity|exact Ha]]
  | |- quiet_then _ (if negb (?r =? 0)%Z then _ else _) => rewrite (proj2 (Z.eqb_neq r 0) Ha); cbn [negb]
  | |- quiet_then _ (match ?x with _ => _ end) => destruct x; cbn in Ha; try contradiction
  end.

(** The symbolic walk: binds after a silent step, binds after a reply,
    branches. *)
Ltac rep :=
  repeat match goal with
  | |- replies _ (mret _) => apply replies_ret
  | |- replies _ (send _ ≫= _) => apply send_then_one; unfold sent_z; lia
  | |- replies sent_z (or_else _ _) => apply replies_or_else
  | |- replies _ (unless_modified _) => apply replies_unless_modified
  | |- replies _ (_ ≫= _) =>
      first [ apply replies_bind_silent; [silent_leaf|intros ?]
            | eapply replies_bind; [solve [eauto with reply]|intros ?|quiet_cont] ]
  | |- replies _ (match ?x with _ => _ end) => destruct x
  | |- replies _ _ => solve [eauto with reply | apply silent_replies; silent_leaf]
  end.

Lemma node_callbacks_run_sent m p cs rf : replies sent_z (node_callbacks_run m p cs rf).
Proof. induction cs; cbn [node_callbacks_run]; rep. Qed.

Lemma method_callbacks_run_sent m k c rf : replies sent_z (method_callbacks_run m k c rf).
Proof. unfold method_callbacks_run. rep. Qed.

Lemma property_get_set_callbacks_run_sent m k c rf g : replies sent_z (property_get_set_callbacks_run m k c rf g).
Proof. unfold property_get_set_callbacks_run. rep. Qed.

Lemma get_all_loop_sent m vts rf i fi acc : replies sent_inl (get_all_loop m vts rf i fi acc).
Proof. revert fi acc. induction vts; intros fi acc; cbn [get_all_loop]; rep. Qed.
#[local] Hint Resolve get_all_loop_sent : reply.

Lemma property_get_all_callbacks_run_sent m vts rf i : replies sent_z (property_get_all_callbacks_run m vts rf i).
Proof. unfold property_get_all_callbacks_run. cbv zeta. rep. Qed.

Lemma introspect_vtables_sent m vts rf e prev items : replies sent_inl (introspect_vtables m vts rf e prev items).
Proof. revert e prev items. induction vts; intros e prev items; cbn [introspect_vtables]; cbv zeta; rep. Qed.
#[local] Hint Resolve introspect_vtables_sent : reply.

Lemma process_introspect_sent m n rf : replies sent_z (process_introspect m n rf).
Proof. unfold process_introspect. cbv zeta. rep. Qed.

Lemma process_get_managed_objects_sent m n rf : replies sent_z (process_get_managed_objects m n rf).
Proof. unfold process_get_managed_objects. cbv zeta. rep. Qed.
#[local] Hint Resolve node_callbacks_run_sent method_callbacks_run_sent property_get_set_callbacks_run_sent
  property_get_all_callbacks_run_sent process_introspect_sent process_get_managed_objects_sent : reply.

Lemma find_and_run_standard_sent m p n rf i mem : replies sent_z (find_and_run_standard m p n rf i mem).
Proof. unfold find_and_run_standard. cbv zeta. rep. Qed.
#[local] Hint Resolve find_and_run_standard_sent : reply.

Lemma object_find_and_run_sent m p rf : replies sent_z (object_find_and_run m p rf).
Proof. unfold object_find_and_run. rep. Qed.
#[local] Hint Resolve object_find_and_run_sent : reply.

(** The prefix loop ends with [Some r] after a reply. *)
Definition sent_some (o : option Z) : Prop := exists r, o = Some r /\ sent_z r.

Lemma run_prefixes_sent m ps : replies sent_some (run_prefixes m ps).
Proof. induction ps; cbn [run_prefixes]; rep. Qed.
#[local] Hint Resolve run_prefixes_sent : reply.

(** The restart loop ends with [Some (Some r)] after a reply. *)
Definition sent_loop (o : option (option Z)) : Prop := exists r, o = Some (Some r) /\ sent_z r.

Lemma process_object_loop_sent fuel m : replies sent_loop (process_object_loop fuel m).
Proof. induction fuel as [|fuel IH]; cbn [process_object_loop]; rep. Qed.
#[local] Hint Resolve process_object_loop_sent : reply.

Lemma process_message_sent fuel m : replies sent_some (process_message fuel m).
Proof. unfold process_message, bus_process_object_fuel. rep. Qed.

End Quiet.

(** C22: no reply before a restart, and one reply per message (spec
    section 8, property 4).  When the user callbacks send nothing
    themselves: a run of [object_find_and_run] that returns 0, and a
    prefix scan that ends without a result, queue nothing, so no pass
    after which the restart loop runs again has sent a partial reply;
    and [process_message] queues either nothing or exactly one message,
    the latter only when it returns a non-zero code. *)
Theorem process_message_single_reply fuel m s :
  callbacks_silent ->
  (forall p rf, fst (object_find_and_run m p rf s) = 0%Z ->
     bus_wqueue (ds_bus (snd (object_find_and_run m p rf s))) = bus_wqueue (ds_bus s)) /\
  (forall ps, fst (run_prefixes m ps s) = None ->
     bus_wqueue (ds_bus (snd (run_prefixes m ps s))) = bus_wqueue (ds_bus s)) /\
  (bus_wqueue (ds_bus (snd (process_message fuel m s))) = bus_wqueue (ds_bus s) \/
   exists msg r, bus_wqueue (ds_bus (snd (process_message fuel m s))) = bus_wqueue (ds_bus s) ++ [msg] /\
     fst (process_message fuel m s) = Some r /\ r <> 0%Z).
Proof.
  intros Hsil. split_and!.
  - intros p rf Hz. destruct (object_find_and_run_sent Hsil m p rf s) as [Heq|(msg & _ & Hq)]; [exact Heq|].
    by rewrite Hz in Hq.
  - intros ps Hn. destruct (run_prefixes_sent Hsil m ps s) as [Heq|(msg & _ & r & Hr & _)]; [exact Heq|].
    by rewrite Hn in Hr.
  - destruct (process_message_sent Hsil fuel m s) as [Heq|(msg & Heq & r & Hr & Hz)]; [by left|].
    right. by exists msg, r.
Qed.

End Silent.

(** ** Witness: callbacks that handle a call and send nothing *)

Definition quiet_env : DispatchEnv := {|
  env_handler := fun f m u => mk_handler_result (mk_effects [] []) 1 None;
  env_find := fun f p i u => mk_find_result (mk_effects [] []) 1 u None;
  env_getter := fun f p i mem u => mk_getter_result (mk_effects [] []) [DString "x"] 0 None;
  env_setter := fun f p i mem v u => mk_setter_result (mk_effects [] []) 1 None;
  env_enumerator := fun f p u => mk_enum_result (mk_effects [] []) 0 [] None;
  env_sender_creds := fun m => None;
  env_getuid := 0
|}.

#[local] Existing Instance quiet_env.

Definition reply_vtable : vtable_ref :=
  mk_vtable_ref 7 [VtableStart 0 sizeof_sd_bus_vtable; VtableMethod 0 "M" "s" "" (Some 1%nat); VtableEnd].

Definition reply_state : dstate :=
  mk_dstate (snd (add_object_vtable_internal (empty_bus true false) "/foo" "com.x.I" (Some reply_vtable) false None 42))
    ∅ false [].

(** A call with the wrong signature: InvalidArgs, one message. *)
Definition bad_call : sd_bus_message :=
  mk_message METHOD_CALL 5 None (Some "/foo") (Some "com.x.I") (Some "M") None [DInt32 1].

Lemma process_message_single_reply_witness :
  callbacks_silent /\
  fst (process_message 1 bad_call reply_state) = Some 1%Z /\
  length (bus_wqueue (ds_bus (snd (process_message 1 bad_call reply_state)))) = 1 /\
  ((forall p rf, fst (object_find_and_run bad_call p rf reply_state) = 0%Z ->
     bus_wqueue (ds_bus (snd (object_find_and_run bad_call p rf reply_state))) = bus_wqueue (ds_bus reply_state)) /\
   (forall ps, fst (run_prefixes bad_call ps reply_state) = None ->
     bus_wqueue (ds_bus (snd (run_prefixes bad_call ps reply_state))) = bus_wqueue (ds_bus reply_state)) /\
   (bus_wqueue (ds_bus (snd (process_message 1 bad_call reply_state))) = bus_wqueue (ds_bus reply_state) \/
    exists msg r, bus_wqueue (ds_bus (snd (process_message 1 bad_call reply_state))) =
                    bus_wqueue (ds_bus reply_state) ++ [msg] /\
      fst (process_message 1 bad_call reply_state) = Some r /\ r <> 0%Z)).
Proof.
  assert (Hsil : callbacks_silent) by (split; reflexivity).
  split; [exact Hsil|]. split; [vm_compute; reflexivity|]. split; [vm_compute; reflexivity|].
  exact (process_message_single_reply 1 bad_call reply_state Hsil).
Defined.

End SingleReply.
