(* ===== verification/DispatchLoop.v ===== *)
(** * The restart loop of [bus_process_object]

    Properties of the whole dispatch of one message ([process_message]):
    - a call to a path where nothing is registered, at the path or any of
      its prefixes, gets no reply from the engine and the result 0 (the
      spec asks for UnknownMethod there; the code only sends UnknownMethod
      when an object was found);
    - when no user callback calls the registration API, the tree is never
      marked modified during the dispatch, so one pass of the restart loop
      suffices: the dispatch terminates and more fuel changes nothing.

    The second instantiates the generic invariant of [Preserve] with the
    predicate "the tree is not marked modified". *)

From S2P Require Import Prelude ObjectPath Vtable Message BusState Registration Reachable DispatchCore Access Callbacks Tree Introspect ObjectManager Dispatch DispatchProps Preserve.
Import ObjectPath Vtable Message BusState Registration Reachable DispatchCore Access Callbacks Tree Introspect ObjectManager Dispatch DispatchProps Preserve.

Module DispatchLoop.

(** The tree is not marked modified. *)
Definition unmodified (s : dstate) : Prop := bus_nodes_modified (ds_bus s) = false.

(** No user callback of the environment calls the registration API. *)
Definition no_registration_calls `{DispatchEnv} : Prop :=
  (forall f m u, ef_calls (hr_effects (env_handler f m u)) = []) /\
  (forall f p i u, ef_calls (fr_effects (env_find f p i u)) = []) /\
  (forall f p i mem u, ef_calls (gr_effects (env_getter f p i mem u)) = []) /\
  (forall f p i mem v u, ef_calls (sr_effects (env_setter f p i mem v u)) = []) /\
  (forall f p u, ef_calls (er_effects (env_enumerator f p u)) = []).

(** A method call of an interface the engine does not serve itself. *)
Definition plain_call (m : sd_bus_message) : Prop :=
  exists i mem, m_interface m = Some i /\ m_member m = Some mem /\
    i <> "org.freedesktop.DBus.Properties"%string /\
    is_method_call m "org.freedesktop.DBus.Introspectable" "Introspect" = false /\
    is_method_call m "org.freedesktop.DBus.ObjectManager" "GetManagedObjects" = false.

(** Nothing is registered at [p] for the call [m]: no node, or a node
    without callbacks and vtables and no method under (p, interface,
    member). *)
Definition bare_at (s : dstate) (m : sd_bus_message) (p : string) : Prop :=
  match bus_nodes (ds_bus s) !! p with
  | None => True
  | Some n => node_callbacks n = [] /\ node_vtables n = [] /\
      forall i mem, m_interface m = Some i -> m_member m = Some mem ->
        bus_vtable_methods (ds_bus s) !! (p, i, mem) = None
  end.

(** The restart loop of the message comes to an end within [fuel]
    passes: [process_message] does not run out of fuel. *)
Definition finishes_within `{BusValidators} `{DispatchEnv} (fuel : nat) (m : sd_bus_message)
    (s : dstate) : Prop :=
  fst (process_message fuel m s) <> None.

Lemma modify_bus_unmodified f :
  (forall b, bus_nodes_modified (f b) = bus_nodes_modified b) -> dm_pres unmodified (modify_bus f).
Proof. intros Hf s Hs. unfold unmodified, modify_bus. simpl. by rewrite Hf. Qed.

Lemma fold_send_modified ms b : bus_nodes_modified (fold_left bus_send ms b) = bus_nodes_modified b.
Proof. revert b. induction ms; intros b; [done|]. simpl. by rewrite IHms. Qed.

Section Pres.
  Context `{BusValidators} `{DispatchEnv}.
  Hypothesis Hno : no_registration_calls.

Lemma apply_effects_unmodified e : ef_calls e = [] -> dm_pres unmodified (apply_effects e).
Proof. intros He. apply modify_bus_unmodified. intros b. rewrite He, fold_send_modified. done. Qed.

(** Callbacks that do not call the registration API, sends and the
    marking of members leave the tree unmodified. *)
Lemma unmodified_preserved : Preserved unmodified.
Proof.
  split; intro_binders;
    first [by intros s | by apply modify_bus_unmodified | apply apply_effects_unmodified; apply Hno].
Qed.

Lemma method_callbacks_run_unmodified m k c rf : dm_pres unmodified (method_callbacks_run m k c rf).
Proof.
  apply (method_callbacks_run_keeps_all _ unmodified_preserved); intro_binders;
    first [by intros s | by apply modify_bus_unmodified | apply apply_effects_unmodified; apply Hno].
Qed.

Lemma property_get_set_callbacks_run_unmodified m k c rf g :
  dm_pres unmodified (property_get_set_callbacks_run m k c rf g).
Proof.
  apply (property_get_set_callbacks_run_keeps_all _ unmodified_preserved); intro_binders;
    first [by intros s | by apply modify_bus_unmodified | apply apply_effects_unmodified; apply Hno].
Qed.

Lemma node_callbacks_run_unmodified m p cs rf : dm_pres unmodified (node_callbacks_run m p cs rf).
Proof.
  apply (node_callbacks_run_keeps_all _ unmodified_preserved); intro_binders;
    first [by intros s | by apply modify_bus_unmodified | apply apply_effects_unmodified; apply Hno].
Qed.

Lemma object_find_and_run_pres m p rf : dm_pres unmodified (object_find_and_run m p rf).
Proof.
  apply (object_find_and_run_keeps _ unmodified_preserved); intros;
    [apply node_callbacks_run_unmodified | apply method_callbacks_run_unmodified
    | apply property_get_set_callbacks_run_unmodified]; done.
Qed.

Lemma run_prefixes_pres m ps : dm_pres unmodified (run_prefixes m ps).
Proof.
  apply (run_prefixes_keeps _ unmodified_preserved); intros;
    [apply node_callbacks_run_unmodified | apply method_callbacks_run_unmodified
    | apply property_get_set_callbacks_run_unmodified]; done.
Qed.

Lemma process_object_loop_one_pass fuel m s :
  process_object_loop (S fuel) m s = process_object_loop 1 m s /\ fst (process_object_loop 1 m s) <> None.
Proof.
  cbn [process_object_loop]. unfold modify_bus, mbind, dm_bind, mret, dm_ret.
  set (s0 := mk_dstate _ _ _ _).
  pose proof (object_find_and_run_pres m (m_path_str m) false s0 eq_refl) as H1.
  destruct (object_find_and_run m (m_path_str m) false s0) as [r s1]. simpl in H1.
  destruct (negb _); [done|].
  pose proof (run_prefixes_pres m (object_path_prefixes (m_path_str m)) s1 H1) as H2.
  destruct (run_prefixes _ _ s1) as [[r'|] s2]; [done|]. simpl in H2.
  unfold nodes_modified. rewrite H2. done.
Qed.

(** C16: termination of the restart loop.  When no user callback calls
    the registration API, nothing marks the tree modified during a
    dispatch, so [bus_process_object] finishes in its first pass: it
    returns a result (never runs out of fuel) with one pass, and any
    larger number of passes gives the same result and state. *)
Theorem process_message_one_pass fuel m s :
  process_message (S fuel) m s = process_message 1 m s /\ finishes_within 1 m s.
Proof.
  unfold finishes_within.
  cbv beta iota zeta delta [process_message bus_process_object_fuel mbind dm_bind modify_bus get_bus
                            reset_found mret dm_ret].
  destruct (negb _); [done|]. destruct (bool_decide _); [done|].
  match goal with |- context [process_object_loop (S fuel) m ?s0] =>
    destruct (process_object_loop_one_pass fuel m s0) as [-> Hn] end.
  destruct (process_object_loop 1 m _) as [[[r|]|] s1]; simpl in Hn |- *; [done|..|done].
  unfold sd_bus_reply_method_errorf. dm_unfold. simpl. repeat case_match; done.
Qed.

End Pres.

Section Unknown.
  Context `{BusValidators} `{DispatchEnv}.

Lemma object_find_and_run_absent m p rf s :
  bus_nodes (ds_bus s) !! p = None -> object_find_and_run m p rf s = (0%Z, s).
Proof. intros Hp. unfold object_find_and_run. dm_unfold. simpl. by rewrite Hp. Qed.

Lemma object_find_and_run_bare m p s :
  plain_call m -> bare_at s m p -> bus_nodes_modified (ds_bus s) = false ->
  object_find_and_run m p true s = (0%Z, s).
Proof.
  intros (i & mem & Hi & Hm & Hni & Hin & Hgm) Hb Hmod. unfold bare_at in Hb.
  unfold object_find_and_run. dm_unfold. simpl.
  destruct (bus_nodes (ds_bus s) !! p) as [n|]; [|done].
  destruct Hb as (Hc & Hv & Hmi). rewrite Hc. simpl. unfold or_else. dm_unfold. simpl.
  rewrite Hmod. simpl. rewrite Hi, Hm. simpl. rewrite (Hmi i mem Hi Hm).
  unfold find_and_run_standard. apply String.eqb_neq in Hni. rewrite Hni, Hin, Hgm.
  unfold find_and_run_tail. dm_unfold. simpl. rewrite Hmod. simpl.
  destruct (ds_found s) eqn:Hf; simpl.
  - by destruct s.
  - unfold bus_node_exists. rewrite Hc, Hv. simpl. by destruct s; simpl in *; subst.
Qed.

Lemma run_prefixes_bare m ps s :
  plain_call m -> bus_nodes_modified (ds_bus s) = false ->
  Forall (bare_at s m) ps -> run_prefixes m ps s = (None, s).
Proof.
  intros Hpl Hmod. induction 1 as [|p ps Hp _ IH]; [done|]. simpl. dm_unfold. simpl.
  rewrite Hmod. simpl. rewrite object_find_and_run_bare by done. exact IH.
Qed.

(** C15: a method call to a path where nothing answers it (no node at the
    path, nothing registered at any prefix) is not answered by the
    engine: [process_message] returns 0, sends no reply and runs no
    callback, whatever the fuel.  The spec (section 4.2, step 5) asks for
    an UnknownMethod reply when no handler reported [found_object]; the
    code sends UnknownMethod only when an object was found, and leaves the
    unknown object to its caller. *)
Theorem process_message_unknown_object fuel m s :
  m_type m = METHOD_CALL -> plain_call m ->
  bus_nodes (ds_bus s) !! m_path_str m = None ->
  Forall (bare_at s m) (object_path_prefixes (m_path_str m)) ->
  let '(r, s') := process_message (S fuel) m s in
  r = Some 0%Z /\ bus_wqueue (ds_bus s') = bus_wqueue (ds_bus s) /\ ds_trace s' = ds_trace s.
Proof.
  intros Hty Hpl Hp Hps.
  unfold process_message, bus_process_object_fuel. dm_unfold. simpl.
  rewrite Hty, bool_decide_true by done. simpl.
  case_bool_decide; [done|]. unfold reset_found. simpl. dm_unfold. simpl.
  rewrite object_find_and_run_absent by done. simpl.
  rewrite run_prefixes_bare by (done || (eapply Forall_impl; [exact Hps|]; intros q; unfold bare_at; simpl; done)).
  done.
Qed.

End Unknown.

Section Fuel.
  Context `{BusValidators} `{DispatchEnv}.



End Fuel.

#[local] Existing Instance example_env.

Lemma process_message_unknown_object_witness :
  let b := snd (add_object_vtable_internal (empty_bus true false) "/foo" "com.x.I"
                  (Some example_vtable) false None 42) in
  let m := mk_message METHOD_CALL 3 None (Some "/bar/baz") (Some "com.x.I") (Some "M") None [] in
  fst (process_message 1 m (mk_dstate b ∅ false [])) = Some 0%Z /\
  bus_wqueue (ds_bus (snd (process_message 1 m (mk_dstate b ∅ false [])))) = [].
Proof.
  intros b m.
  assert (Hpl : plain_call m).
  { exists "com.x.I"%string, "M"%string. split_and!; [reflexivity|reflexivity|discriminate|reflexivity|reflexivity]. }
  assert (Hps : Forall (bare_at (mk_dstate b ∅ false []) m) (object_path_prefixes (m_path_str m))).
  { replace (object_path_prefixes (m_path_str m)) with ["/bar"; "/"]%string by (vm_compute; reflexivity).
    constructor.
    { unfold bare_at; cbn [ds_bus].
      replace (bus_nodes b !! "/bar"%string) with (@None node) by (vm_compute; reflexivity). exact I. }
    constructor; [|constructor].
    unfold bare_at; cbn [ds_bus].
    destruct (bus_nodes b !! "/"%string) as [n|] eqn:E; [|exact I].
    apply (f_equal (option_map (fun n => (node_callbacks n, node_vtables n)))) in E.
    vm_compute in E. injection E as E1 E2.
    split_and!; [exact (eq_sym E1)|exact (eq_sym E2)|].
    intros i mem Hi Hm. vm_compute in Hi, Hm. injection Hi as <-. injection Hm as <-.
    vm_compute. reflexivity. }
  pose proof (process_message_unknown_object 0 m (mk_dstate b ∅ false []) eq_refl Hpl
                ltac:(vm_compute; reflexivity) Hps) as E.
  destruct (process_message 1 m (mk_dstate b ∅ false [])) as [r s'] eqn:Hr. destruct E as (-> & Hq & _).
  split; [reflexivity|]. simpl. rewrite Hq. vm_compute. reflexivity.
Defined.


Lemma process_message_one_pass_witness :
  let b := snd (add_object_vtable_internal (empty_bus true false) "/foo" "com.x.I"
                  (Some example_vtable) false None 42) in
  let m := example_call [DString "hello"] in
  let s := mk_dstate b ∅ false [] in
  no_registration_calls /\ process_message 7 m s = process_message 1 m s /\ finishes_within 1 m s.
Proof.
  intros b m s.
  assert (Hno : no_registration_calls) by (split_and!; intros; cbn; repeat case_match; reflexivity).
  split; [exact Hno|]. exact (process_message_one_pass Hno 6 m s).
Defined.

End DispatchLoop.
