(* ===== verification/Precedence.v ===== *)
(** * Exact registrations before fallbacks

    The spec's property 6: a fallback vtable at a prefix of the path runs
    only when nothing at the exact path handled the call.  In
    [bus_process_object] (lines 1291-1311) the pass at the message's path
    ([object_find_and_run] with [require_fallback] false) returns as soon
    as something returned non-zero; only then are the prefixes scanned,
    longest first, each with [require_fallback] true.
    - A method the method index finds at the exact path, whose handler
      handles the call without touching the tree, is the only callback
      the whole dispatch runs: no node callback, no [find], no fallback
      (scenario S1 of the spec, in general).
    - With no node at the exact path, the first prefix that has anything
      registered is the one that answers: a fallback method found there
      runs, after its [find] resolved the full path (scenario S3). *)

From S2P Require Import Prelude ObjectPath Vtable Message BusState Registration Reachable DispatchCore Access Callbacks Tree Introspect ObjectManager Dispatch DispatchProps DispatchLoop.
Import ObjectPath Vtable Message BusState Registration Reachable DispatchCore Access Callbacks Tree Introspect ObjectManager Dispatch DispatchProps DispatchLoop.

Module Precedence.

Lemma fold_send_wqueue ms b : bus_wqueue (fold_left bus_send ms b) = bus_wqueue b ++ ms.
Proof.
  revert b. induction ms as [|x ms IH]; intros b; simpl; [by rewrite app_nil_r|].
  rewrite IH. simpl. by rewrite <-app_assoc.
Qed.

Section Steps.
  Context `{BusValidators} `{DispatchEnv}.

(** [method_callbacks_run] once the userdata is resolved: the member is
    marked, the handler runs with the resolved userdata, and its result
    goes through [bus_maybe_reply_error]. *)
Lemma method_callbacks_run_resolved m k c rf s u err s0 h fl mem sig res :
  vm_vtable c = VtableMethod fl mem sig res (Some h) ->
  rf && negb (nv_is_fallback (vm_parent c)) = false ->
  (0 <= fst (check_access (ds_bus s) m c))%Z ->
  node_vtable_get_userdata (m_path_str m) (vm_parent c) s = ((1%Z, u, err), s0) ->
  bus_nodes_modified (ds_bus s0) = false ->
  vm_last_iteration c <> bus_iteration_counter (ds_bus s0) ->
  sig = m_signature m ->
  method_callbacks_run m k c rf s =
    (set_found;; set_method_iteration k (bus_iteration_counter (ds_bus s0));;
     '(r, herr) ← invoke_handler (InvMethod k (nv_id (vm_parent c))) h m u;
     bus_maybe_reply_error m r (first_error err herr)) s0.
Proof.
  intros Hvt Hrf Hacc Hu Hmod Hit Hsig. unfold method_callbacks_run. rewrite Hrf. dm_unfold.
  destruct (check_access (ds_bus s) m c) as [r e] eqn:Hca; simpl in Hacc.
  destruct (Z.ltb_spec r 0); [lia|]. rewrite Hu. simpl. rewrite Hmod. simpl.
  destruct (Nat.eqb_spec (vm_last_iteration c) (bus_iteration_counter (ds_bus s0))); [done|].
  rewrite Hvt, Hsig, String.eqb_refl. reflexivity.
Qed.

(** A handler that handles the call (positive result, no error) and
    calls no registration function: the member is marked, the handler is
    logged, its messages are sent, and the tree stays unmodified. *)
Lemma clean_handler_run m k c s0 u h it :
  let hr := env_handler h m u in
  ef_calls (hr_effects hr) = [] -> hr_error hr = None -> (0 < hr_ret hr)%Z ->
  exists s1,
    (set_found;; set_method_iteration k it;;
     '(r, herr) ← invoke_handler (InvMethod k (nv_id (vm_parent c))) h m u;
     bus_maybe_reply_error m r (first_error None herr)) s0 = (hr_ret hr, s1) /\
    ds_trace s1 = ds_trace s0 ++ [InvMethod k (nv_id (vm_parent c))] /\
    bus_wqueue (ds_bus s1) = bus_wqueue (ds_bus s0) ++ ef_sends (hr_effects hr) /\
    bus_nodes_modified (ds_bus s1) = bus_nodes_modified (ds_bus s0).
Proof.
  intros hr Hc He Hr. unfold set_method_iteration, invoke_handler, apply_effects. dm_unfold. fold hr.
  rewrite He. cbn. unfold bus_maybe_reply_error. destruct (Z.ltb_spec (hr_ret hr) 0); [lia|].
  eexists. split; [reflexivity|]. cbn. rewrite Hc. cbn. rewrite fold_send_wqueue, fold_send_modified.
  done.
Qed.

End Steps.

(** The state a pass of the restart loop of the first message starts
    in: [process_message] incremented the iteration counter,
    [bus_process_object] cleared [found_object] and the pass cleared
    [nodes_modified]. *)
Definition pass_start (s : dstate) : dstate :=
  let b := ds_bus s in
  mk_dstate (set_modified (mk_bus (bus_nodes b) (bus_vtable_methods b) (bus_vtable_properties b)
                             (bus_nodes_modified b) (S (bus_iteration_counter b)) (bus_trusted b)
                             (bus_is_kernel b) (bus_pid_changed b) (bus_next_id b) (bus_wqueue b)
                             (bus_open b)) false)
            (ds_mem s) false (ds_trace s).

(** A handler result that handles the call (positive, no error) and
    calls no registration function. *)
Definition handles_cleanly (hr : handler_result) : Prop :=
  ef_calls (hr_effects hr) = [] /\ hr_error hr = None /\ (0 < hr_ret hr)%Z.

(** A [find] result that resolves the path (positive, no error) and has
    no effect on the bus. *)
Definition resolves_cleanly (fr : find_result) : Prop :=
  fr_effects fr = mk_effects [] [] /\ fr_error fr = None /\ (0 < fr_ret fr)%Z.

Section Pass.
  Context `{BusValidators} `{DispatchEnv}.

(** A call the pass at the exact path handles is answered by that pass:
    the prefixes are not looked at. *)
Lemma process_message_exact_pass fuel m s r s1 :
  m_type m = METHOD_CALL -> bus_nodes (ds_bus s) <> ∅ ->
  object_find_and_run m (m_path_str m) false (pass_start s) = (r, s1) -> r <> 0%Z ->
  process_message (S fuel) m s = (Some r, s1).
Proof.
  intros Hty Hne Hrun Hr. unfold process_message, bus_process_object_fuel. dm_unfold.
  cbn -[object_find_and_run set_modified].
  rewrite Hty, bool_decide_true by done. cbn -[object_find_and_run set_modified].
  rewrite bool_decide_false by done.
  unfold reset_found. cbn -[object_find_and_run set_modified]. unfold pass_start in Hrun. dm_unfold. cbn -[object_find_and_run set_modified run_prefixes].
  rewrite Hrun. cbn.
  destruct (Z.eqb_spec r 0); [done|]. done.
Qed.

(** The pass at [p] on a node without raw callbacks, when the method
    index has a member for the call and running it returns non-zero. *)
Lemma object_find_and_run_method m p n e rf s iface member r s1 :
  bus_nodes (ds_bus s) !! p = Some n -> node_callbacks n = [] -> bus_nodes_modified (ds_bus s) = false ->
  m_interface m = Some iface -> m_member m = Some member ->
  bus_vtable_methods (ds_bus s) !! (p, iface, member) = Some e ->
  method_callbacks_run m (p, iface, member) e rf s = (r, s1) -> r <> 0%Z ->
  object_find_and_run m p rf s = (r, s1).
Proof.
  intros Hn Hcb Hmod Hi Hm He Hrun Hr. unfold object_find_and_run, or_else. dm_unfold.
  cbn -[method_callbacks_run find_and_run_standard]. rewrite Hn, Hcb.
  cbn -[method_callbacks_run find_and_run_standard]. rewrite Hmod, Hi, Hm, He, Hrun.
  destruct (Z.eqb_spec r 0); [done|]. done.
Qed.

(** When the pass at the exact path returns 0 without touching the tree,
    the answer is the prefix scan's. *)
Lemma process_message_prefix_pass fuel m s r s1 :
  m_type m = METHOD_CALL -> bus_nodes (ds_bus s) <> ∅ ->
  object_find_and_run m (m_path_str m) false (pass_start s) = (0%Z, pass_start s) ->
  run_prefixes m (object_path_prefixes (m_path_str m)) (pass_start s) = (Some r, s1) ->
  process_message (S fuel) m s = (Some r, s1).
Proof.
  intros Hty Hne Hrun Hpre. unfold process_message, bus_process_object_fuel. dm_unfold.
  cbn -[object_find_and_run set_modified].
  rewrite Hty, bool_decide_true by done. cbn -[object_find_and_run set_modified].
  rewrite bool_decide_false by done.
  unfold reset_found. cbn -[object_find_and_run set_modified]. unfold pass_start in Hrun, Hpre.
  dm_unfold. cbn -[object_find_and_run set_modified run_prefixes]. rewrite Hrun. cbn -[run_prefixes set_modified].
  rewrite Hpre. done.
Qed.

(** Prefixes without a node are skipped. *)
Lemma run_prefixes_skip m ps1 ps s :
  Forall (fun q => bus_nodes (ds_bus s) !! q = None) ps1 -> bus_nodes_modified (ds_bus s) = false ->
  run_prefixes m (ps1 ++ ps) s = run_prefixes m ps s.
Proof.
  intros Hps Hmod. induction Hps as [|q ps1 Hq _ IH]; [done|]. simpl. dm_unfold. simpl.
  rewrite Hmod. simpl. rewrite object_find_and_run_absent by done. exact IH.
Qed.

Lemma run_prefixes_here m p ps s r s1 :
  bus_nodes_modified (ds_bus s) = false -> object_find_and_run m p true s = (r, s1) -> r <> 0%Z ->
  run_prefixes m (p :: ps) s = (Some r, s1).
Proof.
  intros Hmod Hrun Hr. cbn [run_prefixes]. dm_unfold. cbn -[object_find_and_run]. rewrite Hmod.
  cbn -[object_find_and_run]. rewrite Hrun. destruct (Z.eqb_spec r 0); done.
Qed.

(** A [find] callback that resolves the path and does nothing else. *)
Lemma node_vtable_get_userdata_found path c f s :
  nv_find c = Some f ->
  let fr := env_find f path (nv_interface c) (nv_userdata c) in
  fr_effects fr = mk_effects [] [] -> fr_error fr = None -> (0 < fr_ret fr)%Z ->
  node_vtable_get_userdata path c s =
    ((1%Z, Some (fr_userdata fr), None),
     mk_dstate (ds_bus s) (ds_mem s) (ds_found s) (ds_trace s ++ [InvFind (nv_id c) path])).
Proof.
  intros Hf fr Hef He Hr. unfold node_vtable_get_userdata, invoke_find. rewrite Hf. fold fr.
  unfold apply_effects. dm_unfold. cbn. rewrite Hef. cbn.
  destruct (Z.ltb_spec (fr_ret fr) 0); [lia|]. rewrite He. destruct (Z.eqb_spec (fr_ret fr) 0); [lia|].
  done.
Qed.

(** Nothing handled the call in the first pass, but an object was
    found: [bus_process_object] answers UnknownProperty for
    Properties.Get and Set, UnknownMethod otherwise (lines 1313-1331). *)
Lemma process_message_found_unhandled fuel m s s1 :
  m_type m = METHOD_CALL -> bus_nodes (ds_bus s) <> ∅ ->
  object_find_and_run m (m_path_str m) false (pass_start s) = (0%Z, s1) ->
  run_prefixes m (object_path_prefixes (m_path_str m)) s1 = (None, s1) ->
  bus_nodes_modified (ds_bus s1) = false -> ds_found s1 = true ->
  let name := if is_method_call m "org.freedesktop.DBus.Properties" "Get" ||
                 is_method_call m "org.freedesktop.DBus.Properties" "Set"
              then SD_BUS_ERROR_UNKNOWN_PROPERTY else SD_BUS_ERROR_UNKNOWN_METHOD in
  process_message (S fuel) m s =
    (Some 1%Z, mk_dstate (bus_send (ds_bus s1) (method_error m name)) (ds_mem s1) (ds_found s1) (ds_trace s1)).
Proof.
  intros Hty Hne Hrun Hpre Hmod Hf name. unfold process_message, bus_process_object_fuel. dm_unfold.
  cbn -[object_find_and_run set_modified].
  rewrite Hty, bool_decide_true by done. cbn -[object_find_and_run set_modified].
  rewrite bool_decide_false by done.
  unfold reset_found. cbn -[object_find_and_run set_modified]. unfold pass_start in Hrun.
  dm_unfold. cbn -[object_find_and_run set_modified run_prefixes]. rewrite Hrun. cbn -[run_prefixes set_modified].
  rewrite Hpre. cbn. rewrite Hmod. cbn. unfold get_found. rewrite Hf. cbn.
  subst name. unfold sd_bus_reply_method_errorf. dm_unfold. destruct (_ || _); cbn; by rewrite Hf.
Qed.

End Pass.

Section Exact.
  Context `{BusValidators} `{DispatchEnv}.

(** C18: exact before fallback (spec property 6, scenario S1).  When the
    node at the message's path has no raw callback and the method index
    has, under (path, interface, member), a METHOD entry whose signature
    is the message's, whose vtable has no [find], whose access check
    passes and which has not run in this iteration, and its handler
    handles the call (positive result, no error) without calling the
    registration API, then [process_message] returns the handler's result
    after running that handler and nothing else: the trace grows by that
    one invocation (no node callback, no [find], no fallback at any
    prefix) and the only messages sent are the handler's. *)
Theorem process_message_exact_first fuel m s n e h fl mem sig res iface member :
  m_type m = METHOD_CALL -> m_interface m = Some iface -> m_member m = Some member ->
  bus_nodes (ds_bus s) !! m_path_str m = Some n -> node_callbacks n = [] ->
  bus_vtable_methods (ds_bus s) !! (m_path_str m, iface, member) = Some e ->
  vm_vtable e = VtableMethod fl mem sig res (Some h) -> sig = m_signature m ->
  nv_find (vm_parent e) = None -> (0 <= fst (check_access (ds_bus s) m e))%Z ->
  vm_last_iteration e <= bus_iteration_counter (ds_bus s) ->
  let hr := env_handler h m (Some (nv_userdata (vm_parent e))) in
  handles_cleanly hr ->
  exists s', process_message (S fuel) m s = (Some (hr_ret hr), s') /\
    ds_trace s' = ds_trace s ++ [InvMethod (m_path_str m, iface, member) (nv_id (vm_parent e))] /\
    bus_wqueue (ds_bus s') = bus_wqueue (ds_bus s) ++ ef_sends (hr_effects hr).
Proof.
  intros Hty Hi Hm Hn Hcb He Hvt Hsig Hf Hacc Hit hr (Hc & Herr & Hr).
  set (k := (m_path_str m, iface, member)).
  assert (Hu : node_vtable_get_userdata (m_path_str m) (vm_parent e) (pass_start s) =
                 ((1%Z, Some (nv_userdata (vm_parent e)), None), pass_start s))
    by (unfold node_vtable_get_userdata; by rewrite Hf).
  destruct (clean_handler_run m k e (pass_start s) (Some (nv_userdata (vm_parent e))) h
              (bus_iteration_counter (ds_bus (pass_start s))) Hc Herr Hr) as (s1 & Hrun & Htr & Hq & _).
  assert (Hmc : method_callbacks_run m k e false (pass_start s) = (hr_ret hr, s1)).
  { rewrite (method_callbacks_run_resolved m k e false (pass_start s) _ _ _ h fl mem sig res Hvt eq_refl Hacc Hu)
      by (done || (simpl; lia)).
    exact Hrun. }
  exists s1. split; [|split; [exact Htr|exact Hq]].
  apply process_message_exact_pass; [done| | |lia].
  - intros Hemp. rewrite Hemp in Hn. by rewrite lookup_empty in Hn.
  - apply (object_find_and_run_method m _ n e false _ iface member); try done. lia.
Qed.

(** C19: fallback resolution (spec property 6, scenario S3).  When no
    node exists at the message's path, the prefixes are scanned longest
    first; if the prefixes before [p] have no node and at [p] the method
    index has a METHOD entry of a fallback vtable whose [find] resolves
    the full path, then that handler runs with the userdata [find]
    returned: the trace is the [find] for the full path, then the
    handler, and [process_message] returns the handler's result. *)
Theorem process_message_fallback fuel m s ps1 p ps2 n e h fl mem sig res iface member f :
  m_type m = METHOD_CALL -> m_interface m = Some iface -> m_member m = Some member ->
  bus_nodes (ds_bus s) !! m_path_str m = None ->
  object_path_prefixes (m_path_str m) = ps1 ++ p :: ps2 ->
  Forall (fun q => bus_nodes (ds_bus s) !! q = None) ps1 ->
  bus_nodes (ds_bus s) !! p = Some n -> node_callbacks n = [] ->
  bus_vtable_methods (ds_bus s) !! (p, iface, member) = Some e -> nv_is_fallback (vm_parent e) = true ->
  vm_vtable e = VtableMethod fl mem sig res (Some h) -> sig = m_signature m ->
  (0 <= fst (check_access (ds_bus s) m e))%Z ->
  vm_last_iteration e <= bus_iteration_counter (ds_bus s) ->
  nv_find (vm_parent e) = Some f ->
  let fr := env_find f (m_path_str m) (nv_interface (vm_parent e)) (nv_userdata (vm_parent e)) in
  resolves_cleanly fr ->
  let hr := env_handler h m (Some (fr_userdata fr)) in
  handles_cleanly hr ->
  exists s', process_message (S fuel) m s = (Some (hr_ret hr), s') /\
    ds_trace s' = ds_trace s ++ [InvFind (nv_id (vm_parent e)) (m_path_str m);
                                 InvMethod (p, iface, member) (nv_id (vm_parent e))] /\
    bus_wqueue (ds_bus s') = bus_wqueue (ds_bus s) ++ ef_sends (hr_effects hr).
Proof.
  intros Hty Hi Hm Hx Hps Hps1 Hn Hcb He Hfb Hvt Hsig Hacc Hit Hf fr (Hfe & Hferr & Hfr) hr (Hc & Herr & Hr).
  set (k := (p, iface, member)).
  pose proof (node_vtable_get_userdata_found (m_path_str m) (vm_parent e) f (pass_start s) Hf Hfe Hferr Hfr)
    as Hu.
  set (s0 := mk_dstate _ _ _ _) in Hu.
  destruct (clean_handler_run m k e s0 (Some (fr_userdata fr)) h (bus_iteration_counter (ds_bus s0)) Hc Herr Hr)
    as (s1 & Hrun & Htr & Hq & _).
  assert (Hmc : method_callbacks_run m k e true (pass_start s) = (hr_ret hr, s1)).
  { rewrite (method_callbacks_run_resolved m k e true (pass_start s) _ _ _ h fl mem sig res Hvt)
      by (rewrite ?Hfb; (done || (simpl; lia))).
    exact Hrun. }
  exists s1. split; [|split; [rewrite Htr; subst s0; simpl; by rewrite <-app_assoc|exact Hq]].
  apply process_message_prefix_pass; [done| | |].
  - intros Hemp. rewrite Hemp in Hn. by rewrite lookup_empty in Hn.
  - by apply object_find_and_run_absent.
  - rewrite Hps, run_prefixes_skip by done. apply (run_prefixes_here m p ps2 (pass_start s) _ _ eq_refl); [|lia].
    by apply (object_find_and_run_method m _ n e true _ iface member); [..|lia].
Qed.

End Exact.

(** Nothing at the prefix [q] answers Properties.Get of [(i, mem)]: no
    node, or a node without raw callbacks whose indices have no method
    Get of Properties and no property [mem] of [i] at [q]. *)
Definition get_bare_at (s : dstate) (i mem q : string) : Prop :=
  match bus_nodes (ds_bus s) !! q with
  | None => True
  | Some n => node_callbacks n = [] /\
      bus_vtable_methods (ds_bus s) !! (q, "org.freedesktop.DBus.Properties", "Get") = None /\
      bus_vtable_properties (ds_bus s) !! (q, i, mem) = None
  end.

Section Unknown.
  Context `{BusValidators} `{DispatchEnv}.

(** Properties.Get of a property the index does not have, at a node
    without raw callbacks: the standard handlers fall through to the tail,
    which finds the object through its first vtable. *)
Lemma object_find_and_run_get_missing m p n c vts i mem s :
  m_interface m = Some "org.freedesktop.DBus.Properties" -> m_member m = Some "Get" ->
  read_ss m = Some (i, mem) ->
  bus_nodes (ds_bus s) !! p = Some n -> node_callbacks n = [] ->
  node_vtables n = c :: vts -> nv_find c = None ->
  bus_vtable_methods (ds_bus s) !! (p, "org.freedesktop.DBus.Properties", "Get") = None ->
  bus_vtable_properties (ds_bus s) !! (p, i, mem) = None ->
  bus_nodes_modified (ds_bus s) = false ->
  object_find_and_run m p false s = (0%Z, mk_dstate (ds_bus s) (ds_mem s) true (ds_trace s)).
Proof.
  intros Hi Hm Hss Hn Hcb Hv Hf Hme Hp Hmod. unfold object_find_and_run, or_else. dm_unfold.
  cbn -[find_and_run_standard]. rewrite Hn, Hcb. cbn -[find_and_run_standard]. rewrite Hmod, Hi, Hm, Hme.
  unfold find_and_run_standard. cbn -[find_and_run_tail]. rewrite Hss. dm_unfold. cbn -[find_and_run_tail].
  rewrite Hp. unfold find_and_run_tail, bus_node_exists. dm_unfold. cbn. rewrite Hmod. cbn.
  rewrite Hcb, Hv. cbn. unfold node_vtable_get_userdata. rewrite Hf. cbn. destruct s as [b0 mem0 fd tr0]; simpl; by destruct fd.
Qed.

(** With [found_object] set, a prefix where nothing answers the Get
    returns 0 and changes nothing. *)
Lemma object_find_and_run_get_bare m q i mem s :
  m_interface m = Some "org.freedesktop.DBus.Properties" -> m_member m = Some "Get" ->
  read_ss m = Some (i, mem) -> get_bare_at s i mem q ->
  bus_nodes_modified (ds_bus s) = false -> ds_found s = true ->
  object_find_and_run m q true s = (0%Z, s).
Proof.
  intros Hi Hm Hss Hb Hmod Hfd. unfold get_bare_at in Hb. unfold object_find_and_run, or_else. dm_unfold.
  cbn -[find_and_run_standard]. destruct (bus_nodes (ds_bus s) !! q) as [n|]; [|done].
  destruct Hb as (Hcb & Hme & Hp). rewrite Hcb. cbn -[find_and_run_standard]. rewrite Hmod, Hi, Hm, Hme.
  unfold find_and_run_standard. cbn -[find_and_run_tail]. rewrite Hss. dm_unfold. cbn -[find_and_run_tail].
  rewrite Hp. unfold find_and_run_tail. dm_unfold. cbn. rewrite Hmod. cbn. rewrite Hfd. cbn. by destruct s.
Qed.

Lemma run_prefixes_get_bare m ps i mem s :
  m_interface m = Some "org.freedesktop.DBus.Properties" -> m_member m = Some "Get" ->
  read_ss m = Some (i, mem) -> Forall (get_bare_at s i mem) ps ->
  bus_nodes_modified (ds_bus s) = false -> ds_found s = true ->
  run_prefixes m ps s = (None, s).
Proof.
  intros Hi Hm Hss Hps Hmod Hfd. induction Hps as [|q ps Hq _ IH]; [done|].
  cbn [run_prefixes]. dm_unfold. cbn -[object_find_and_run]. rewrite Hmod. cbn -[object_find_and_run].
  rewrite (object_find_and_run_get_bare m q i mem) by done. exact IH.
Qed.

(** C20: Properties.Get of an unknown property on an existing object is
    answered UnknownProperty (spec section 4.2, step 5).  When the node
    at the message's path has no raw callback and a first vtable without
    [find], the indices have neither a method Get of Properties nor the
    property at the path, and nothing at any prefix answers, then
    [process_message] returns 1 after sending the single error reply
    UnknownProperty, and runs no callback. *)
Theorem process_message_unknown_property fuel m s n c vts i mem :
  m_type m = METHOD_CALL -> m_interface m = Some "org.freedesktop.DBus.Properties" ->
  m_member m = Some "Get" -> read_ss m = Some (i, mem) ->
  bus_nodes (ds_bus s) !! m_path_str m = Some n -> node_callbacks n = [] ->
  node_vtables n = c :: vts -> nv_find c = None ->
  bus_vtable_methods (ds_bus s) !! (m_path_str m, "org.freedesktop.DBus.Properties", "Get") = None ->
  bus_vtable_properties (ds_bus s) !! (m_path_str m, i, mem) = None ->
  Forall (get_bare_at s i mem) (object_path_prefixes (m_path_str m)) ->
  exists s', process_message (S fuel) m s = (Some 1%Z, s') /\
    bus_wqueue (ds_bus s') = bus_wqueue (ds_bus s) ++ [method_error m SD_BUS_ERROR_UNKNOWN_PROPERTY] /\
    ds_trace s' = ds_trace s.
Proof.
  intros Hty Hi Hm Hss Hn Hcb Hv Hf Hme Hp Hps.
  pose proof (object_find_and_run_get_missing m _ n c vts i mem (pass_start s) Hi Hm Hss Hn Hcb Hv Hf Hme Hp
                eq_refl) as Hrun.
  set (s1 := mk_dstate _ _ _ _) in Hrun.
  eexists. split; [|split]; cycle 1.
  3:{ apply (process_message_found_unhandled fuel m s s1); [done| |exact Hrun| |done|done].
      - intros Hemp. rewrite Hemp in Hn. by rewrite lookup_empty in Hn.
      - apply (run_prefixes_get_bare m _ i mem); [done|done|done| |done|done]. exact Hps. }
  - cbn. replace (is_method_call m _ "Get") with true by (unfold is_method_call; rewrite Hty, Hi, Hm; done).
    done.
  - done.
Qed.

End Unknown.

(** ** Witnesses *)

#[local] Existing Instance example_env.

(** /foo carries [example_vtable] (method M, signature "s", handler 5). *)
Definition exact_bus : sd_bus :=
  snd (add_object_vtable_internal (empty_bus true false) "/foo" "com.x.I" (Some example_vtable) false None 42).

(** /base carries [example_vtable] as a fallback vtable with [find] 7. *)
Definition fallback_bus : sd_bus :=
  snd (add_object_vtable_internal (empty_bus true false) "/base" "com.x.I" (Some example_vtable) true (Some 7%nat) 42).

Definition leaf_call : sd_bus_message :=
  mk_message METHOD_CALL 9 None (Some "/base/child/leaf") (Some "com.x.I") (Some "M") None [DString "hello"].

Definition node_at (b : sd_bus) (p : string) : node :=
  default (mk_node p None [] [] [] [] false) (bus_nodes b !! p).

Definition method_at (b : sd_bus) (k : member_key) : vtable_member :=
  default (example_member true None) (bus_vtable_methods b !! k).

Lemma process_message_exact_first_witness :
  let s := mk_dstate exact_bus ∅ false [] in
  let m := example_call [DString "hello"] in
  let e := method_at exact_bus ("/foo", "com.x.I", "M") in
  let hr := env_handler 5 m (Some (nv_userdata (vm_parent e))) in
  exists s', process_message 1 m s = (Some (hr_ret hr), s') /\
    ds_trace s' = ds_trace s ++ [InvMethod ("/foo", "com.x.I", "M") (nv_id (vm_parent e))] /\
    bus_wqueue (ds_bus s') = bus_wqueue (ds_bus s) ++ ef_sends (hr_effects hr).
Proof.
  intros s m e hr.
  apply (process_message_exact_first 0 m s (node_at exact_bus "/foo") e 5 0 "M" "s" "" "com.x.I" "M");
    try reflexivity; try (vm_compute; lia).
  unfold handles_cleanly; vm_compute; split_and!; reflexivity.
Defined.

Lemma process_message_fallback_witness :
  let s := mk_dstate fallback_bus ∅ false [] in
  let e := method_at fallback_bus ("/base", "com.x.I", "M") in
  let fr := env_find 7 "/base/child/leaf" (nv_interface (vm_parent e)) (nv_userdata (vm_parent e)) in
  let hr := env_handler 5 leaf_call (Some (fr_userdata fr)) in
  exists s', process_message 1 leaf_call s = (Some (hr_ret hr), s') /\
    ds_trace s' = ds_trace s ++ [InvFind (nv_id (vm_parent e)) "/base/child/leaf";
                                 InvMethod ("/base", "com.x.I", "M") (nv_id (vm_parent e))] /\
    bus_wqueue (ds_bus s') = bus_wqueue (ds_bus s) ++ ef_sends (hr_effects hr).
Proof.
  intros s e fr hr.
  apply (process_message_fallback 0 leaf_call s ["/base/child"] "/base" ["/"] (node_at fallback_bus "/base")
           e 5 0 "M" "s" "" "com.x.I" "M" 7);
    try reflexivity; try (vm_compute; lia).
  - repeat constructor.
  - unfold resolves_cleanly, handles_cleanly; vm_compute; split_and!; reflexivity.
  - unfold resolves_cleanly, handles_cleanly; vm_compute; split_and!; reflexivity.
Defined.

Definition get_call : sd_bus_message :=
  mk_message METHOD_CALL 7 None (Some "/foo") (Some "org.freedesktop.DBus.Properties") (Some "Get") None
    [DString "com.x.I"; DString "P"].

Definition no_vtable : node_vtable := mk_node_vtable 0 "" "" example_vtable 0 None false.

Lemma process_message_unknown_property_witness :
  let s := mk_dstate exact_bus ∅ false [] in
  exists s', process_message 1 get_call s = (Some 1%Z, s') /\
    bus_wqueue (ds_bus s') = bus_wqueue (ds_bus s) ++ [method_error get_call SD_BUS_ERROR_UNKNOWN_PROPERTY] /\
    ds_trace s' = ds_trace s.
Proof.
  intros s.
  apply (process_message_unknown_property 0 get_call s (node_at exact_bus "/foo")
           (hd no_vtable (node_vtables (node_at exact_bus "/foo"))) (tl (node_vtables (node_at exact_bus "/foo")))
           "com.x.I" "P"); try reflexivity.
  vm_compute. repeat constructor.
Defined.

End Precedence.
