(* ===== verification/AtMostOnce.v ===== *)
(** * At most one run of each guarded callback per iteration

    [node_callbacks_run], [method_callbacks_run] and the Set branch of
    [property_get_set_callbacks_run] compare the callback's or member's
    [last_iteration] with [bus->iteration_counter] and set it before
    calling the handler (lines 251-254, 359-362 and 588-591 of
    bus-objects.c), so that the restart loop of [bus_process_object],
    which runs the whole lookup again after a callback changed the tree,
    does not call the same handler twice for one message.

    The identity of a run is the registration it belongs to, by its
    allocation identity: the node callback ([nc_id]), or the index key and
    the [node_vtable] ([nv_id]).  A callback that removes a registration
    and registers it again in the middle of the dispatch creates a new
    registration, unmarked: its handler then runs once more, as a run of
    the new registration ([reregistering_handler_reruns]).  The theorem is
    therefore: in the trace of one message, no [InvCallback id],
    [InvMethod k vt] or [InvSet k vt] occurs twice.

    Its proof:
    - registration only adds index entries and callbacks of fresh
      identities and keeps callback identities unique ([Fresh]);
    - the invariant [once_inv it]: the counter is [it], the identities
      are well formed ([bus_ids_wf]), every guarded run in the trace has
      marked its callback or member with [it], and no guarded run occurs
      twice.  Every predicate [stable] under registration and unguarded
      runs is an instance of [Preserve.Preserved]; the two vtable runs keep
      [once_inv it] because they check the mark of the member they looked
      up before the lookup's find callback ran ([once_arm]), and the loop
      over a node's callbacks keeps it with the loop invariant
      [cb_pending]: the callbacks left are distinct, at the node's path
      alone, and marked when their run is in the trace. *)

From S2P Require Import Prelude ObjectPath Vtable Message BusState NodeStore Registration RegistrationInv Reachable DispatchCore Access Callbacks Tree Introspect ObjectManager Dispatch Fresh Preserve.
Import ObjectPath Vtable Message BusState NodeStore Registration RegistrationInv Reachable DispatchCore Access Callbacks Tree Introspect ObjectManager Dispatch Fresh Preserve.

Module AtMostOnce.

(** ** The invariant of one iteration *)

(** The two kinds of guarded member: methods and writable properties,
    with their index, the run the trace records and the marking. *)
Inductive guard := GMethod | GProperty.

#[export] Instance guard_eq_dec : EqDecision guard.
Proof. solve_decision. Defined.

Definition guard_index (g : guard) (b : sd_bus) : gmap member_key vtable_member :=
  match g with GMethod => bus_vtable_methods b | GProperty => bus_vtable_properties b end.

Definition guard_inv (g : guard) (k : member_key) (vt : nat) : invocation :=
  match g with GMethod => InvMethod k vt | GProperty => InvSet k vt end.

(** The runs the [last_iteration] marks protect, in order. *)
Definition guarded_trace (t : list invocation) : list invocation :=
  filter (fun i => unguarded i = false) t.

(** Every entry under [k] of the registration [vt] carries the mark [it]. *)
Definition marked (it : nat) (idx : gmap member_key vtable_member) (k : member_key) (vt : nat) : Prop :=
  forall e, idx !! k = Some e -> nv_id (vm_parent e) = vt -> vm_last_iteration e = it.

(** Every callback of the registration [id] carries the mark [it]. *)
Definition cb_marked (it : nat) (ns : gmap string node) (id : nat) : Prop :=
  forall p c, cb_at ns p c -> nc_id c = id -> nc_last_iteration c = it.

Record once_inv (it : nat) (s : dstate) : Prop := {
  oi_counter : bus_iteration_counter (ds_bus s) = it;
  oi_ids : bus_ids_wf (ds_bus s);
  oi_marked : forall g k vt, guard_inv g k vt ∈ ds_trace s ->
    vt < bus_next_id (ds_bus s) /\ marked it (guard_index g (ds_bus s)) k vt;
  oi_cb_marked : forall id, InvCallback id ∈ ds_trace s ->
    id < bus_next_id (ds_bus s) /\ cb_marked it (bus_nodes (ds_bus s)) id;
  oi_nodup : NoDup (guarded_trace (ds_trace s))
}.

(** A state predicate that registration calls (with the trace
    unchanged) and the runs the marks do not protect keep. *)
Definition stable (P : dstate -> Prop) : Prop :=
  (forall s s', fresh_ext (ds_bus s) (ds_bus s') -> ds_trace s' = ds_trace s -> P s -> P s') /\
  (forall s i, unguarded i = true -> P s -> P (snd (log_invocation i s))).

(** [once_inv it], with the guarded runs of [s0] and an allocation
    counter at least that of [s0]: what holds between the lookup of a
    member and its run. *)
Definition once_from (it : nat) (s0 s : dstate) : Prop :=
  once_inv it s /\ guarded_trace (ds_trace s) = guarded_trace (ds_trace s0) /\
  bus_next_id (ds_bus s0) <= bus_next_id (ds_bus s).

(** [c->last_iteration = bus->iteration_counter] on the member of
    either kind. *)
Definition guard_mark (g : guard) (k : member_key) (it : nat) : DM unit :=
  match g with GMethod => set_method_iteration k it | GProperty => set_property_iteration k it end.

(** The same on the bus. *)
Definition mark_bus (g : guard) (k : member_key) (it : nat) (b : sd_bus) : sd_bus :=
  match g with
  | GMethod => set_methods b (alter (fun v => vm_set_iteration v it) k (bus_vtable_methods b))
  | GProperty => set_properties b (alter (fun v => vm_set_iteration v it) k (bus_vtable_properties b))
  end.

(** The state after the mark, before the run of registration [vt]'s
    member under [k]: the run is not in the trace and its member is
    marked. *)
Definition armed (it : nat) (g : guard) (k : member_key) (vt : nat) (s : dstate) : Prop :=
  once_inv it s /\ vt < bus_next_id (ds_bus s) /\ (guard_inv g k vt ∉ ds_trace s) /\
  marked it (guard_index g (ds_bus s)) k vt.

(** The [c->last_iteration = bus->iteration_counter] of
    [set_callback_iteration] on one callback. *)
Definition cb_mark (id it : nat) (x : node_callback) : node_callback :=
  if nc_id x =? id then mk_node_callback (nc_id x) (nc_callback x) (nc_userdata x) (nc_is_fallback x) it else x.

(** The loop of [node_callbacks_run] over [cs], the rest of the callbacks
    of the node at [p]: their identities are distinct, allocated, at [p]
    alone, and a callback whose run is in the trace is marked. *)
Definition cb_pending (it : nat) (p : string) (cs : list node_callback) (s : dstate) : Prop :=
  once_inv it s /\ NoDup (nc_id <$> cs) /\
  forall c, c ∈ cs -> nc_id c < bus_next_id (ds_bus s) /\
    (forall q c', cb_at (bus_nodes (ds_bus s)) q c' -> nc_id c' = nc_id c -> q = p) /\
    (InvCallback (nc_id c) ∈ ds_trace s -> nc_last_iteration c = it).

(** After the mark of [c], before its run. *)
Definition cb_armed (it : nat) (p : string) (c : node_callback) (cs : list node_callback) (s : dstate) : Prop :=
  cb_pending it p cs s /\ (nc_id c ∉ nc_id <$> cs) /\ (InvCallback (nc_id c) ∉ ds_trace s) /\
  nc_id c < bus_next_id (ds_bus s) /\ cb_marked it (bus_nodes (ds_bus s)) (nc_id c).

Section Once.
  Context `{BusValidators} `{DispatchEnv}.
  Variable it : nat.

Lemma guard_index_below g b : bus_ids_wf b -> ids_below (bus_next_id b) (guard_index g b).
Proof. intros (? & ? & _). by destruct g. Qed.

Lemma guard_index_grows g b b' :
  fresh_ext b b' -> idx_grows (bus_next_id b) (bus_next_id b') (guard_index g b) (guard_index g b').
Proof. intros [? ? ? ? ? ?]. by destruct g. Qed.

Lemma guard_inv_guarded g k vt : unguarded (guard_inv g k vt) = false.
Proof. by destruct g. Qed.

Lemma guarded_trace_unguarded t i : unguarded i = true -> guarded_trace (t ++ [i]) = guarded_trace t.
Proof. intros Hi. unfold guarded_trace. rewrite filter_app, filter_cons_False, app_nil_r; [done|congruence]. Qed.

Lemma guarded_trace_guarded t i : unguarded i = false -> guarded_trace (t ++ [i]) = guarded_trace t ++ [i].
Proof. intros Hi. unfold guarded_trace. by rewrite filter_app, filter_cons_True. Qed.

Lemma elem_of_guarded_trace i t : unguarded i = false -> i ∈ guarded_trace t <-> i ∈ t.
Proof. intros Hi. unfold guarded_trace. rewrite list_elem_of_filter. split; [intros [_ ?]|intros ?; split]; done. Qed.

(** A guarded run in [t ++ [i]] other than [i] is in [t]. *)
Lemma elem_of_app_other (x : invocation) t i : x <> i -> x ∈ t ++ [i] -> x ∈ t.
Proof. intros Hne Hin. apply elem_of_app in Hin as [|Hin]; [done|]. by apply list_elem_of_singleton in Hin. Qed.

(** A registration keeps the marks of the runs before it: the entries
    and callbacks it adds belong to registrations allocated after them. *)
Lemma marked_grows lo hi idx idx' k vt :
  idx_grows lo hi idx idx' -> vt < lo -> marked it idx k vt -> marked it idx' k vt.
Proof.
  intros Hg Hvt Hm e He Hid. destruct (Hg k e He) as [He'|]; [exact (Hm e He' Hid)|lia].
Qed.

Lemma cb_marked_grows lo hi ns ns' id :
  cb_grows lo hi ns ns' -> id < lo -> cb_marked it ns id -> cb_marked it ns' id.
Proof.
  intros Hg Hid Hm p c Hc Hcid. destruct (Hg p c Hc) as [Hc'|]; [exact (Hm p c Hc' Hcid)|lia].
Qed.

Lemma once_inv_fresh s s' :
  fresh_ext (ds_bus s) (ds_bus s') -> ds_trace s' = ds_trace s -> once_inv it s -> once_inv it s'.
Proof.
  intros Hf Ht [Hc Hb Hm Hcm Hn]. pose proof Hf as [Hc' Hn' _ _ Hcb _]. split.
  - congruence.
  - exact (bus_ids_wf_fresh _ _ Hf Hb).
  - intros g k vt Hi. rewrite Ht in Hi. destruct (Hm g k vt Hi) as [Hvt Hmk]. split; [lia|].
    exact (marked_grows _ _ _ _ k vt (guard_index_grows g _ _ Hf) Hvt Hmk).
  - intros id Hi. rewrite Ht in Hi. destruct (Hcm id Hi) as [Hid Hmk]. split; [lia|].
    exact (cb_marked_grows _ _ _ _ id Hcb Hid Hmk).
  - by rewrite Ht.
Qed.

(** A run the marks do not protect changes none of the invariant. *)
Lemma once_inv_log_unguarded s i :
  unguarded i = true -> once_inv it s -> once_inv it (snd (log_invocation i s)).
Proof.
  intros Hi [Hc Hb Hm Hcm Hn]. split; cbn [log_invocation snd ds_bus ds_trace]; try done.
  - intros g k vt Hin. apply Hm, (elem_of_app_other _ _ i); [|done].
    intros <-. by rewrite guard_inv_guarded in Hi.
  - intros id Hin. apply Hcm, (elem_of_app_other _ _ i); [|done]. intros <-. done.
  - by rewrite guarded_trace_unguarded.
Qed.

Lemma once_inv_stable : stable (once_inv it).
Proof. split; [exact once_inv_fresh|exact once_inv_log_unguarded]. Qed.

Lemma once_from_stable s0 : stable (once_from it s0).
Proof.
  split.
  - intros s s' Hf Ht (Hs & Hg & Hn). pose proof (fe_next _ _ Hf). split_and!; [|by rewrite Ht|lia].
    exact (once_inv_fresh s s' Hf Ht Hs).
  - intros s i Hi (Hs & Hg & Hn). split_and!; [by apply once_inv_log_unguarded|..]; simpl; [|done].
    by rewrite guarded_trace_unguarded.
Qed.

(** A stable predicate is kept by the engine, the runs of guarded
    callbacks and members aside. *)
Lemma stable_preserved P : stable P -> Preserved P.
Proof.
  intros [Hf Hl]. split; intro_binders;
    first [ by intros s; apply Hl
          | intros s Hs; apply (Hf s); [|done|done]; cbn [ds_bus snd];
            first [ apply fresh_ext_refl | apply fresh_ext_send | apply fresh_ext_effects ] ].
Qed.

Lemma once_from_refl s : once_inv it s -> once_from it s s.
Proof. done. Qed.

Lemma once_from_preserved s0 : Preserved (once_from it s0).
Proof. exact (stable_preserved _ (once_from_stable s0)). Qed.

Lemma stable_effects P e : stable P -> dm_pres P (apply_effects e).
Proof. intros [Hf _] s Hs. exact (Hf s (snd (apply_effects e s)) (fresh_ext_effects _ _) eq_refl Hs). Qed.

(** The sequence rule at one state. *)
Lemma step_with {A B} (P Q : dstate -> Prop) (x : DM A) (f : A -> DM B) s :
  P (snd (x s)) -> (forall a s', P s' -> Q (snd (f a s'))) -> Q (snd ((x ≫= f) s)).
Proof. intros Hx Hf. unfold mbind, dm_bind. destruct (x s) as [a s']. exact (Hf a s' Hx). Qed.

Lemma bind_get_bus {A} (f : sd_bus -> DM A) s : (get_bus ≫= f) s = f (ds_bus s) s.
Proof. done. Qed.

(** The guarded runs aside, the engine keeps [once_inv it]. *)
Lemma once_inv_keeps {A} (x : DM A) : (forall s0, dm_pres (once_from it s0) x) -> dm_pres (once_inv it) x.
Proof. intros Hx s Hs. exact (proj1 (Hx s s (once_from_refl s Hs))). Qed.

Lemma once_from_effects s0 e : dm_pres (once_from it s0) (apply_effects e).
Proof. exact (stable_effects _ e (once_from_stable s0)). Qed.

Create HintDb once.
#[local] Hint Resolve dm_pres_reader get_bus_reads nodes_modified_reads get_found_reads read_mem_reads : once.
#[local] Hint Resolve once_from_preserved preserved_kept once_from_effects pr_set_found pr_reset_found pr_write pr_send
  reply_errorf_keeps reply_return_keeps bus_maybe_reply_error_keeps invoke_property_get_keeps : once.

Ltac once_keep := apply once_inv_keeps; intros ?s0; solve [keep_with ltac:(eauto with once)].

Lemma once_at {A} (x : DM A) s0 s :
  (forall s0, dm_pres (once_from it s0) x) -> once_from it s0 s -> once_inv it (snd (x s)).
Proof. intros Hx Hs. exact (proj1 (Hx s0 s Hs)). Qed.

(** What remains from [s] keeps [once_inv it]. *)
Ltac once_rest Hq := eapply once_at; [intros ?s0; solve [keep_with ltac:(eauto with once)]|exact Hq].

(** Marking the member of a kind only adds marks [it]. *)
Lemma mark_marked idx k k' vt :
  marked it idx k' vt -> marked it (alter (fun v => vm_set_iteration v it) k idx) k' vt.
Proof.
  intros Hm e He Hid. apply lookup_alter_Some in He as [(<- & e0 & He0 & ->)|[_ He]]; [done|].
  exact (Hm e He Hid).
Qed.

Lemma mark_here idx k vt : marked it (alter (fun v => vm_set_iteration v it) k idx) k vt.
Proof. intros e He _. apply lookup_alter_Some in He as [(_ & e0 & _ & ->)|[? _]]; done. Qed.

Lemma mark_below n idx k : ids_below n idx -> ids_below n (alter (fun v => vm_set_iteration v it) k idx).
Proof.
  intros Hb k' e He. apply lookup_alter_Some in He as [(_ & e0 & He0 & ->)|[_ He]];
    [exact (Hb _ _ He0)|exact (Hb _ _ He)].
Qed.

Lemma guard_mark_modify g k : guard_mark g k it = modify_bus (mark_bus g k it).
Proof. by destruct g. Qed.

Lemma mark_bus_index g g' k b :
  guard_index g' (mark_bus g k it b) =
  if decide (g = g') then alter (fun v => vm_set_iteration v it) k (guard_index g' b) else guard_index g' b.
Proof. by destruct g, g'. Qed.

Lemma mark_bus_fields g k b :
  bus_next_id (mark_bus g k it b) = bus_next_id b /\ bus_iteration_counter (mark_bus g k it b) = bus_iteration_counter b /\
  bus_nodes (mark_bus g k it b) = bus_nodes b.
Proof. by destruct g. Qed.

(** The mark keeps [once_from it s0] and marks the member under [k]. *)
Lemma once_from_mark s0 g k s :
  once_from it s0 s -> once_from it s0 (snd (guard_mark g k it s)) /\
    forall vt, marked it (guard_index g (ds_bus (snd (guard_mark g k it s)))) k vt.
Proof.
  intros ([Hc Hb Hm Hcm Hn] & Hg & Hnext). rewrite guard_mark_modify. unfold modify_bus. cbn [ds_bus ds_trace snd].
  destruct (mark_bus_fields g k (ds_bus s)) as (Hn' & Hc' & Hns).
  split; [split_and!; [split|..]|]; cbn [ds_bus ds_trace]; try congruence.
  - split_and!; [change (bus_vtable_methods ?b) with (guard_index GMethod b)
                |change (bus_vtable_properties ?b) with (guard_index GProperty b)
                |rewrite Hns, Hn'; exact (proj2 (proj2 Hb))];
      rewrite mark_bus_index, Hn'; case_decide; [apply mark_below| |apply mark_below|]; apply guard_index_below, Hb.
  - intros g' k' vt Hi. destruct (Hm g' k' vt Hi) as [Hvt Hmk]. split; [lia|].
    rewrite mark_bus_index. case_decide; [by apply mark_marked|done].
  - intros id Hi. rewrite Hns, Hn'. exact (Hcm id Hi).
  - intros vt. rewrite mark_bus_index, decide_True by done. apply mark_here.
Qed.

(** A guarded run that is not in the trace, of a registration already
    allocated, whose member is marked: logging it keeps the invariant. *)
Lemma once_inv_log_guarded g k vt s :
  armed it g k vt s -> once_inv it (snd (log_invocation (guard_inv g k vt) s)).
Proof.
  intros ([Hc Hb Hm Hcm Hn] & Hvt & Hnot & Hmk). split; cbn [ds_bus ds_trace log_invocation snd]; try done.
  - intros g' k' vt' Hi. apply elem_of_app in Hi as [Hi|Hi]; [by apply Hm|].
    apply list_elem_of_singleton in Hi. destruct g, g'; simplify_eq; done.
  - intros id Hi. apply Hcm, (elem_of_app_other _ _ (guard_inv g k vt)); [|done]. by destruct g.
  - rewrite guarded_trace_guarded by apply guard_inv_guarded. apply NoDup_app. split_and!; [done| |by apply NoDup_singleton].
    intros x Hx Hx'. apply list_elem_of_singleton in Hx' as ->. apply Hnot.
    exact (proj1 (elem_of_guarded_trace _ _ (guard_inv_guarded g k vt)) Hx).
Qed.

(** The check of the mark: the member [c] looked up in [s0] has not been
    marked [it], so its run is not in the trace of [s0], nor, as nothing
    in between runs a guarded member, in that of [s]; after the mark the
    run is armed. *)
Lemma once_arm g k c s0 s :
  once_inv it s0 -> guard_index g (ds_bus s0) !! k = Some c -> once_from it s0 s ->
  vm_last_iteration c <> it -> armed it g k (nv_id (vm_parent c)) (snd (guard_mark g k it s)).
Proof.
  intros Hs0 Hc Hs Hl. destruct (once_from_mark s0 g k s Hs) as ((Hs' & Hg & Hnext) & Hmk).
  split_and!; [done| | |apply Hmk].
  - pose proof (guard_index_below g _ (oi_ids _ _ Hs0) k c Hc). lia.
  - intros Hi. apply Hl.
    apply (proj2 (elem_of_guarded_trace _ _ (guard_inv_guarded g k _))) in Hi. rewrite Hg in Hi.
    apply (proj1 (elem_of_guarded_trace _ _ (guard_inv_guarded g k _))) in Hi.
    exact (proj2 (oi_marked _ _ Hs0 g k _ Hi) c Hc eq_refl).
Qed.

Lemma invoke_handler_armed k vt f m u s :
  armed it GMethod k vt s -> once_inv it (snd (invoke_handler (InvMethod k vt) f m u s)).
Proof.
  intros Ha. unfold invoke_handler. cbv zeta.
  apply (step_with (once_inv it)); [exact (once_inv_log_guarded GMethod k vt s Ha)|intros [] s' Hs'].
  revert s' Hs'. once_keep.
Qed.

Lemma invoke_property_set_armed k vt v p i mem x u s :
  armed it GProperty k vt s -> once_inv it (snd (invoke_property_set k vt v p i mem x u s)).
Proof.
  intros Ha. unfold invoke_property_set. destruct (property_setter v) as [f|]; cbv zeta.
  - apply (step_with (once_inv it)); [exact (once_inv_log_guarded GProperty k vt s Ha)|intros [] s' Hs'].
    revert s' Hs'. once_keep.
  - destruct Ha as [Hs _]. revert s Hs. once_keep.
Qed.

(** [method_callbacks_run] from a state where [c] is the method under
    [k] keeps the invariant. *)
Lemma method_callbacks_run_once m k c rf s :
  once_inv it s -> bus_vtable_methods (ds_bus s) !! k = Some c ->
  once_inv it (snd (method_callbacks_run m k c rf s)).
Proof.
  intros Hs Hc. pose proof (once_from_refl s Hs) as Hq. unfold method_callbacks_run.
  destruct (_ && _); [exact Hs|]. rewrite bind_get_bus.
  destruct (check_access (ds_bus s) m c) as [r err]. destruct (r <? 0)%Z; [once_rest Hq|].
  apply (step_with (once_from it s)); [exact (node_vtable_get_userdata_keeps _ (preserved_kept _ (once_from_preserved s)) _ _ s Hq)|].
  intros [[r1 u] err1] s1 Hq1. cbv beta iota.
  destruct (r1 <=? 0)%Z; [once_rest Hq1|].
  unfold unless_modified. apply (step_with (once_from it s)); [exact Hq1|intros modified s2 Hq2].
  destruct modified; [exact (proj1 Hq2)|].
  apply (step_with (once_from it s)); [exact (pr_set_found _ (once_from_preserved s) s2 Hq2)|intros [] s3 Hq3].
  rewrite bind_get_bus, (oi_counter _ _ (proj1 Hq3)).
  destruct (Nat.eqb_spec (vm_last_iteration c) it) as [|Hl]; [exact (proj1 Hq3)|].
  apply (step_with (armed it GMethod k (nv_id (vm_parent c)))); [exact (once_arm GMethod k c s s3 Hs Hc Hq3 Hl)|].
  intros [] s4 Ha. destruct (vm_vtable c) as [|? ? ? ? h| | | |]; try exact (proj1 Ha).
  destruct (negb _); [destruct Ha as [Hs4 _]; revert s4 Hs4; once_keep|].
  destruct h as [h|]; [|destruct Ha as [Hs4 _]; revert s4 Hs4; once_keep].
  apply (step_with (once_inv it)); [exact (invoke_handler_armed k _ h m u s4 Ha)|intros ? s5 Hs5].
  revert s5 Hs5. once_keep.
Qed.

(** [property_get_set_callbacks_run] from a state where [c] is the
    property under [k] keeps the invariant; only Set runs a guarded
    member. *)
Lemma property_get_set_callbacks_run_once m k c rf is_get s :
  once_inv it s -> bus_vtable_properties (ds_bus s) !! k = Some c ->
  once_inv it (snd (property_get_set_callbacks_run m k c rf is_get s)).
Proof.
  intros Hs Hc. pose proof (once_from_refl s Hs) as Hq. unfold property_get_set_callbacks_run.
  destruct (_ && _); [exact Hs|].
  apply (step_with (once_from it s)); [exact (vtable_property_get_userdata_keeps _ (preserved_kept _ (once_from_preserved s)) _ _ s Hq)|].
  intros [[r1 u] err1] s1 Hq1. cbv beta iota.
  destruct (r1 <=? 0)%Z; [once_rest Hq1|].
  unfold unless_modified. apply (step_with (once_from it s)); [exact Hq1|intros modified s2 Hq2].
  destruct modified; [exact (proj1 Hq2)|].
  apply (step_with (once_from it s)); [exact (pr_set_found _ (once_from_preserved s) s2 Hq2)|intros [] s3 Hq3].
  destruct is_get; [once_rest Hq3|].
  destruct (vm_vtable c); try once_rest Hq3.
  rewrite bind_get_bus, (oi_counter _ _ (proj1 Hq3)).
  destruct (Nat.eqb_spec (vm_last_iteration c) it) as [|Hl]; [exact (proj1 Hq3)|].
  apply (step_with (armed it GProperty k (nv_id (vm_parent c)))); [exact (once_arm GProperty k c s s3 Hs Hc Hq3 Hl)|].
  intros [] s4 Ha. destruct (read_variant_after_ss m _); [|exact (proj1 Ha)].
  rewrite bind_get_bus. destruct (check_access (ds_bus s4) m c) as [r err].
  destruct (r <? 0)%Z; [destruct Ha as [Hs4 _]; revert s4 Hs4; once_keep|].
  apply (step_with (once_inv it)); [exact (invoke_property_set_armed k _ _ _ _ _ _ _ s4 Ha)|intros ? s5 Hs5].
  revert s5 Hs5. once_keep.
Qed.

(** ** Node callbacks *)

Lemma cb_mark_id id x : nc_id (cb_mark id it x) = nc_id x.
Proof. unfold cb_mark. by case_match. Qed.

Lemma cb_mark_last id x : nc_id x = id -> nc_last_iteration (cb_mark id it x) = it.
Proof. intros <-. unfold cb_mark. by rewrite Nat.eqb_refl. Qed.

Lemma cb_mark_other id x : nc_id x <> id -> cb_mark id it x = x.
Proof. intros Hne. unfold cb_mark. by rewrite (proj2 (Nat.eqb_neq _ _) Hne). Qed.

Lemma set_callback_iteration_mark p id :
  set_callback_iteration p id it =
  modify_bus (fun b => update_node b p (fun n => node_set_callbacks n (map (cb_mark id it) (node_callbacks n)))).
Proof. done. Qed.

Lemma fmap_id_mark id l : nc_id <$> map (cb_mark id it) l = nc_id <$> l.
Proof. induction l as [|x l IH]; [done|]. cbn [map]. by rewrite !fmap_cons, cb_mark_id, IH. Qed.

(** A callback after the marking at [p] is a callback of the store
    before, marked if it is at [p]. *)
Lemma cb_at_mark ns p id q c' :
  cb_at (alter (fun n => node_set_callbacks n (map (cb_mark id it) (node_callbacks n))) p ns) q c' ->
  exists c, cb_at ns q c /\ c' = (if decide (q = p) then cb_mark id it c else c).
Proof.
  intros (nd' & Hq & Hin). apply lookup_alter_Some in Hq as [(<- & nd & Hnd & ->)|[Hne Hq]].
  - simpl in Hin. apply list_elem_of_In, in_map_iff in Hin as (x & <- & Hx).
    exists x. split; [exists nd; split; [done|by apply list_elem_of_In]|]. by rewrite decide_True.
  - exists c'. split; [by exists nd'|]. by rewrite decide_False by congruence.
Qed.

Lemma cb_at_mark_id ns p id q c' :
  cb_at (alter (fun n => node_set_callbacks n (map (cb_mark id it) (node_callbacks n))) p ns) q c' ->
  exists c, cb_at ns q c /\ nc_id c = nc_id c'.
Proof. intros (c & Hc & ->)%cb_at_mark. exists c. split; [done|]. case_decide; by rewrite ?cb_mark_id. Qed.

Lemma cb_wf_mark n ns p id :
  cb_wf n ns -> cb_wf n (alter (fun n => node_set_callbacks n (map (cb_mark id it) (node_callbacks n))) p ns).
Proof.
  intros [Hb Hn Hu]. split.
  - intros q c' (c & Hc & <-)%cb_at_mark_id. exact (Hb q c Hc).
  - intros q nd' Hq. apply lookup_alter_Some in Hq as [(<- & nd & Hnd & ->)|[_ Hq]]; [|exact (Hn q nd' Hq)].
    simpl. rewrite fmap_id_mark. exact (Hn _ _ Hnd).
  - intros q1 q2 c1 c2 (d1 & H1 & <-)%cb_at_mark_id (d2 & H2 & <-)%cb_at_mark_id. exact (Hu _ _ _ _ H1 H2).
Qed.

Lemma cb_marked_mark ns p id id' :
  cb_marked it ns id' ->
  cb_marked it (alter (fun n => node_set_callbacks n (map (cb_mark id it) (node_callbacks n))) p ns) id'.
Proof.
  intros Hm q c' (c & Hc & ->)%cb_at_mark Hid. case_decide; [|exact (Hm q c Hc Hid)].
  rewrite cb_mark_id in Hid. destruct (decide (nc_id c = id)); [by apply cb_mark_last|].
  rewrite cb_mark_other by done. exact (Hm q c Hc Hid).
Qed.

(** The marking at [p] marks the registration [id] when its callbacks
    are all at [p]. *)
Lemma cb_marked_here ns p id :
  (forall q c, cb_at ns q c -> nc_id c = id -> q = p) ->
  cb_marked it (alter (fun n => node_set_callbacks n (map (cb_mark id it) (node_callbacks n))) p ns) id.
Proof.
  intros Hp q c' (c & Hc & ->)%cb_at_mark Hid. case_decide as Hq.
  - rewrite cb_mark_id in Hid. by apply cb_mark_last.
  - by destruct (Hq (Hp q c Hc Hid)).
Qed.

Lemma once_inv_cb_mark s p id : once_inv it s -> once_inv it (snd (set_callback_iteration p id it s)).
Proof.
  rewrite set_callback_iteration_mark. intros [Hc (Hbm & Hbp & Hcb) Hm Hcm Hn].
  split; cbn [modify_bus snd ds_bus ds_trace update_node set_nodes bus_nodes bus_next_id]; try done.
  - split_and!; [done|done|by apply cb_wf_mark].
  - intros id' Hi. destruct (Hcm id' Hi) as [Hid Hmk]. split; [done|by apply cb_marked_mark].
Qed.

Lemma cb_pending_stable p cs : stable (cb_pending it p cs).
Proof.
  split.
  - intros s s' Hf Ht (Hs & Hnd & Hcs). pose proof (fe_next _ _ Hf).
    split_and!; [exact (once_inv_fresh s s' Hf Ht Hs)|done|].
    intros c Hc. destruct (Hcs c Hc) as (Hid & Hpath & Hlast). split_and!; [lia| |by rewrite Ht].
    intros q c' Hc' Heq. destruct (fe_callbacks _ _ Hf q c' Hc') as [Hold|]; [exact (Hpath q c' Hold Heq)|lia].
  - intros s i Hi (Hs & Hnd & Hcs). split_and!; [by apply once_inv_log_unguarded|done|].
    intros c Hc. destruct (Hcs c Hc) as (Hid & Hpath & Hlast). split_and!; [done|done|].
    intros Hin. apply Hlast, (elem_of_app_other _ _ i); [|done]. intros <-. done.
Qed.

Lemma cb_pending_tail p c cs s : cb_pending it p (c :: cs) s -> cb_pending it p cs s.
Proof.
  intros (Hs & Hnd & Hcs). simpl in Hnd. apply NoDup_cons in Hnd as [_ Hnd].
  split_and!; [done|done|]. intros c' Hc'. apply Hcs. by right.
Qed.

(** The loop starts on the callbacks of the node looked up. *)
Lemma cb_pending_start p n s :
  once_inv it s -> bus_nodes (ds_bus s) !! p = Some n -> cb_pending it p (node_callbacks n) s.
Proof.
  intros Hs Hn. destruct (oi_ids _ _ Hs) as (_ & _ & [Hb Hnd Hu]). split_and!; [done|exact (Hnd p n Hn)|].
  intros c Hc. assert (Hat : cb_at (bus_nodes (ds_bus s)) p c) by (by exists n).
  split_and!; [exact (Hb p c Hat)|intros q c' Hc' Heq; exact (Hu q p c' c Hc' Hat Heq)|].
  intros Hi. exact (proj2 (oi_cb_marked _ _ Hs _ Hi) p c Hat eq_refl).
Qed.

(** The check of [c]'s mark: [c] is unmarked, so its run is not in the
    trace; after the mark the run is armed. *)
Lemma cb_arm p c cs s :
  cb_pending it p (c :: cs) s -> nc_last_iteration c <> it ->
  cb_armed it p c cs (snd (set_callback_iteration p (nc_id c) it s)).
Proof.
  intros Hp Hl. pose proof (cb_pending_tail _ _ _ _ Hp) as (Hs' & Hnd' & Hcs').
  destruct Hp as (Hs & Hnd & Hcs). simpl in Hnd. apply NoDup_cons in Hnd as [Hnin _].
  destruct (Hcs c (list_elem_of_here _ _)) as (Hid & Hpath & Hlast).
  pose proof (once_inv_cb_mark s p (nc_id c) Hs) as Hsm. revert Hsm. rewrite set_callback_iteration_mark.
  intros Hsm. cbn [modify_bus snd ds_bus ds_trace update_node set_nodes bus_nodes bus_next_id] in *.
  split_and!; [split_and!; [done|done|]|done|by intros Hi; apply Hl, Hlast|done|by apply cb_marked_here].
  intros c' Hc'. destruct (Hcs' c' Hc') as (Hid' & Hpath' & Hlast'). split_and!; [done| |done].
  intros q d (d0 & Hd0 & <-)%cb_at_mark_id Heq. exact (Hpath' q d0 Hd0 Heq).
Qed.

(** Logging an armed callback run keeps the invariant. *)
Lemma once_inv_log_callback s id :
  once_inv it s -> InvCallback id ∉ ds_trace s -> id < bus_next_id (ds_bus s) ->
  cb_marked it (bus_nodes (ds_bus s)) id -> once_inv it (snd (log_invocation (InvCallback id) s)).
Proof.
  intros [Hc Hb Hm Hcm Hn] Hnot Hid Hmk. split; cbn [ds_bus ds_trace log_invocation snd]; try done.
  - intros g k vt Hi. apply Hm, (elem_of_app_other _ _ (InvCallback id)); [|done]. by destruct g.
  - intros id' Hi. apply elem_of_app in Hi as [Hi|Hi]; [by apply Hcm|].
    apply list_elem_of_singleton in Hi. injection Hi as ->. done.
  - rewrite guarded_trace_guarded by done. apply NoDup_app. split_and!; [done| |by apply NoDup_singleton].
    intros x Hx Hx'. apply list_elem_of_singleton in Hx' as ->. apply Hnot.
    exact (proj1 (elem_of_guarded_trace (InvCallback id) _ eq_refl) Hx).
Qed.

Lemma invoke_callback_armed p c cs f m u s :
  cb_armed it p c cs s -> cb_pending it p cs (snd (invoke_handler (InvCallback (nc_id c)) f m u s)).
Proof.
  intros ((Hs & Hnd & Hcs) & Hnin & Hnot & Hid & Hmk). unfold invoke_handler. cbv zeta.
  apply (step_with (cb_pending it p cs)).
  - split_and!; [exact (once_inv_log_callback s _ Hs Hnot Hid Hmk)|done|].
    intros c' Hc'. destruct (Hcs c' Hc') as (Hid' & Hpath' & Hlast'). split_and!; [done|done|].
    cbn [log_invocation snd ds_trace]. intros Hin. apply elem_of_app in Hin as [Hin|Hin]; [by apply Hlast'|].
    apply list_elem_of_singleton in Hin. injection Hin as Heq. destruct Hnin. rewrite <- Heq.
    by apply list_elem_of_fmap_2.
  - intros [] s' Hs'. apply (step_with (cb_pending it p cs)); [|done].
    exact (stable_effects _ _ (cb_pending_stable p cs) s' Hs').
Qed.

(** [node_callbacks_run] over the rest [cs] of the node's callbacks keeps
    the invariant. *)
Lemma node_callbacks_run_once m p cs rf s :
  cb_pending it p cs s -> once_inv it (snd (node_callbacks_run m p cs rf s)).
Proof.
  revert s. induction cs as [|c cs IH]; intros s Hp; cbn [node_callbacks_run]; [exact (proj1 Hp)|].
  pose proof (stable_preserved _ (cb_pending_stable p (c :: cs))) as HP.
  unfold unless_modified. apply (step_with (cb_pending it p (c :: cs))); [exact Hp|intros modified s1 Hp1].
  destruct modified; [exact (proj1 Hp1)|].
  destruct (_ && _); [exact (IH s1 (cb_pending_tail _ _ _ _ Hp1))|].
  apply (step_with (cb_pending it p (c :: cs))); [exact (pr_set_found _ HP s1 Hp1)|intros [] s2 Hp2].
  rewrite bind_get_bus, (oi_counter _ _ (proj1 Hp2)).
  destruct (Nat.eqb_spec (nc_last_iteration c) it) as [|Hl]; [exact (IH s2 (cb_pending_tail _ _ _ _ Hp2))|].
  apply (step_with (cb_armed it p c cs)); [exact (cb_arm p c cs s2 Hp2 Hl)|intros [] s3 Ha].
  apply (step_with (cb_pending it p cs)); [exact (invoke_callback_armed p c cs _ m _ s3 Ha)|intros [r err] s4 Hp4].
  apply (step_with (cb_pending it p cs));
    [exact (bus_maybe_reply_error_keeps _ (stable_preserved _ (cb_pending_stable p cs)) _ _ _ s4 Hp4)|intros r' s5 Hp5].
  destruct (negb _); [exact (proj1 Hp5)|exact (IH s5 Hp5)].
Qed.

(** The whole engine keeps [once_inv it]. *)
Lemma once_inv_preserved : Preserved (once_inv it).
Proof. exact (stable_preserved _ once_inv_stable). Qed.

Lemma object_find_and_run_once m p rf : dm_pres (once_inv it) (object_find_and_run m p rf).
Proof.
  apply (object_find_and_run_keeps _ once_inv_preserved);
    [intros; by apply node_callbacks_run_once, cb_pending_start
    |apply method_callbacks_run_once|apply property_get_set_callbacks_run_once].
Qed.

Lemma run_prefixes_once m ps : dm_pres (once_inv it) (run_prefixes m ps).
Proof.
  apply (run_prefixes_keeps _ once_inv_preserved);
    [intros; by apply node_callbacks_run_once, cb_pending_start
    |apply method_callbacks_run_once|apply property_get_set_callbacks_run_once].
Qed.

#[local] Hint Resolve object_find_and_run_once run_prefixes_once : once.
Lemma set_modified_once v : dm_pres (once_inv it) (modify_bus (fun b => set_modified b v)).
Proof. intros s Hs. exact (once_inv_fresh s (snd (modify_bus (fun b => set_modified b v) s)) (fresh_ext_set_modified _ _) eq_refl Hs). Qed.

#[local] Hint Resolve set_modified_once : once.
#[local] Hint Extern 1 (dm_pres (once_inv it) ?x) =>
  apply once_inv_keeps; intros ?s0; solve [keep_with ltac:(eauto with once)] : once.

Lemma process_object_loop_once fuel m : dm_pres (once_inv it) (process_object_loop fuel m).
Proof. induction fuel; cbn [process_object_loop]; keep_with ltac:(eauto with once). Qed.

#[local] Hint Resolve process_object_loop_once : once.

Lemma bus_process_object_fuel_once fuel m : dm_pres (once_inv it) (bus_process_object_fuel fuel m).
Proof. unfold bus_process_object_fuel. keep_with ltac:(eauto with once). Qed.

End Once.

Section Message.
  Context `{BusValidators} `{DispatchEnv}.

(** The iteration starts: [process_message] bumps the counter, so no
    member carries the new mark and no guarded run is in the trace. *)
Lemma once_inv_start s :
  bus_ids_wf (ds_bus s) -> guarded_trace (ds_trace s) = [] ->
  once_inv (S (bus_iteration_counter (ds_bus s)))
    (snd (modify_bus (fun b => mk_bus (bus_nodes b) (bus_vtable_methods b) (bus_vtable_properties b)
                        (bus_nodes_modified b) (S (bus_iteration_counter b)) (bus_trusted b)
                        (bus_is_kernel b) (bus_pid_changed b) (bus_next_id b) (bus_wqueue b) (bus_open b)) s)).
Proof.
  intros Hb Ht. split; cbn [modify_bus snd ds_bus ds_trace]; try done.
  - intros g k vt Hi. apply (proj2 (elem_of_guarded_trace _ _ (guard_inv_guarded g k vt))) in Hi.
    rewrite Ht in Hi. by apply not_elem_of_nil in Hi.
  - intros id Hi. apply (proj2 (elem_of_guarded_trace (InvCallback id) _ eq_refl)) in Hi.
    rewrite Ht in Hi. by apply not_elem_of_nil in Hi.
  - rewrite Ht. constructor.
Qed.

(** C21: at most one run of each guarded callback per message.  From a
    bus the registration API reaches, the dispatch of one message,
    restart loop included and whatever the user callbacks register or
    remove, runs each node callback, each method handler and each
    property setter at most once per registration: no [InvCallback id],
    [InvMethod k vt] or [InvSet k vt] occurs twice in its trace. *)
Theorem process_message_at_most_once trusted is_kernel fuel m b mem found :
  reachable trusted is_kernel b ->
  NoDup (guarded_trace (ds_trace (snd (process_message fuel m (mk_dstate b mem found []))))).
Proof.
  intros Hr. unfold process_message. apply (step_with (once_inv (S (bus_iteration_counter b)))).
  - exact (once_inv_start (mk_dstate b mem found []) (reachable_ids_wf _ _ _ Hr) eq_refl).
  - intros [] s1 Hs1. exact (oi_nodup _ _ (bus_process_object_fuel_once _ fuel m s1 Hs1)).
Qed.

End Message.

(** A method handler that registers an object and returns 0 (it leaves
    the reply for later): the tree is modified, so [bus_process_object]
    runs the lookup again; the member is found again and must not run
    again. *)
Definition restart_env : DispatchEnv := {|
  env_handler := fun f m u => mk_handler_result (mk_effects [AddObject false "/bar" (Some 3%nat) 0] []) 0 None;
  env_find := fun f p i u => mk_find_result (mk_effects [] []) 1 42 None;
  env_getter := fun f p i mem u => mk_getter_result (mk_effects [] []) [] 0 None;
  env_setter := fun f p i mem v u => mk_setter_result (mk_effects [] []) 1 None;
  env_enumerator := fun f p u => mk_enum_result (mk_effects [] []) 0 [] None;
  env_sender_creds := fun m => Some (mk_creds (Some 0%Z) (Some []));
  env_getuid := 0%Z |}.

Definition restart_vtable : vtable_ref :=
  mk_vtable_ref 7 [VtableStart 0 sizeof_sd_bus_vtable; VtableMethod 0 "M" "" "" (Some 5%nat); VtableEnd].

Definition restart_bus : sd_bus :=
  snd (api_step (empty_bus true false) (AddVtable "/foo" "com.x.I" (Some restart_vtable) false None 42)).

Definition restart_call : sd_bus_message :=
  mk_message METHOD_CALL 9 None (Some "/foo") (Some "com.x.I") (Some "M") None [].

#[local] Existing Instance restart_env.




Lemma process_message_at_most_once_witness :
  reachable true false restart_bus /\
  NoDup (guarded_trace (ds_trace (snd (process_message 5 restart_call (mk_dstate restart_bus ∅ false []))))).
Proof.
  assert (Hr : reachable true false restart_bus) by exact (reach_step _ _ _ _ (reach_init _ _)).
  split; [exact Hr|exact (process_message_at_most_once true false 5 restart_call restart_bus ∅ false Hr)].
Defined.

End AtMostOnce.
