(* ===== verification/GetAllProps.v ===== *)
(** * Properties.GetAll

    [property_get_all_callbacks_run] (lines 676-756) against the spec's
    section 4.5: for each vtable of the node (of the requested interface,
    or all when the name is empty) that is not HIDDEN, every property that
    is not HIDDEN is appended as [{sv}] by its getter; an interface name
    that matched no vtable and is not one the code serves itself is
    answered UnknownInterface.
    - [get_all_reference] is the reply the spec describes, written as a
      pure function of the property store for properties read by the
      automatic getter; the monadic loops compute exactly it
      ([property_get_all_auto]).
    - An unknown interface gets UnknownInterface and nothing else
      ([property_get_all_unknown_interface]).  The code exempts
      Properties, Peer and Introspectable, not ObjectManager, which the
      spec lists among the four standard interfaces. *)

From S2P Require Import Prelude ObjectPath Vtable Message BusState Registration DispatchCore Access Callbacks Tree Introspect ObjectManager Dispatch DispatchProps.
Import ObjectPath Vtable Message BusState Registration DispatchCore Access Callbacks Tree Introspect ObjectManager Dispatch DispatchProps.

Module GetAllProps.

(** The vtable is one GetAll looks at for [iface] ([None]: every one). *)
Definition iface_matches (iface : option string) (c : node_vtable) : bool :=
  match iface with Some i => String.eqb (nv_interface c) i | None => true end.

(** The [{sv}] entry the automatic getter gives for the entry [v] of the
    vtable [c], unless [v] is not a property or is HIDDEN. *)
Definition auto_entry (mem : gmap paddr dvalue) (c : node_vtable) (v : sd_bus_vtable) : option dvalue :=
  match property_member v with
  | Some member =>
      if flag_set (vt_flags v) SD_BUS_VTABLE_HIDDEN then None
      else Some (DDictEntry (DString member)
                   (DVariant (auto_value (entry_signature v)
                                (mem !! vtable_property_convert_userdata v (nv_userdata c)))))
  | None => None
  end.

Definition vtable_entries (mem : gmap paddr dvalue) (c : node_vtable) : list dvalue :=
  if flag_set (start_flags (vr_entries (nv_vtable c))) SD_BUS_VTABLE_HIDDEN then []
  else omap (auto_entry mem c) (vtable_body (vr_entries (nv_vtable c))).

(** The dictionary GetAll replies with, as the spec describes it. *)
Definition get_all_reference (mem : gmap paddr dvalue) (vts : list node_vtable) (iface : option string)
    : list dvalue :=
  concat (map (vtable_entries mem) (filter (fun c => iface_matches iface c = true) vts)).

(** Every property entry of the vtable is read by the automatic getter,
    and the zero of its type has its type. *)
Definition auto_props (c : node_vtable) : Prop :=
  Forall (fun v => property_member v <> None ->
                   property_getter v = None /\
                   dvalue_signature (zero_value (entry_signature v)) = entry_signature v)
    (vtable_body (vr_entries (nv_vtable c))).

(** The interfaces GetAll answers for even without a vtable (line 701). *)
Definition served_interface (iface : option string) : bool :=
  match iface with
  | None => true
  | Some i => String.eqb i "org.freedesktop.DBus.Properties" ||
              String.eqb i "org.freedesktop.DBus.Peer" ||
              String.eqb i "org.freedesktop.DBus.Introspectable"
  end.

Lemma auto_value_sig sig cell :
  dvalue_signature (zero_value sig) = sig -> dvalue_signature (auto_value sig cell) = sig.
Proof.
  intros Hz. unfold auto_value. destruct cell as [v|]; [|done].
  destruct (String.eqb_spec (dvalue_signature v) sig); done.
Qed.

Section Loops.
  Context `{BusValidators} `{DispatchEnv}.

(** The entry loop of [vtable_append_all_properties] with automatic
    getters appends the reference entries and changes nothing. *)
Lemma append_all_properties_loop_auto c path es acc err s :
  Forall (fun v => property_member v <> None ->
                   property_getter v = None /\
                   dvalue_signature (zero_value (entry_signature v)) = entry_signature v) es ->
  bus_nodes_modified (ds_bus s) = false ->
  append_all_properties_loop c path (Some (nv_userdata c)) es acc err s =
    ((1%Z, acc ++ omap (auto_entry (ds_mem s) c) es, err), s).
Proof.
  intros Hes Hm. revert acc err. induction Hes as [|v es Hv _ IH]; intros acc err.
  { simpl. by rewrite app_nil_r. }
  cbn [append_all_properties_loop omap list_omap]. unfold auto_entry at 1.
  destruct (property_member v) as [member|] eqn:Hpm; [|apply IH].
  destruct (flag_set (vt_flags v) SD_BUS_VTABLE_HIDDEN); [apply IH|].
  destruct (Hv ltac:(congruence)) as [Hg Hsig].
  unfold invoke_property_get. rewrite Hg. unfold read_mem, mbind, dm_bind, mret, dm_ret, nodes_modified.
  cbn. rewrite Hm. cbn. rewrite auto_value_sig, String.eqb_refl by done. rewrite IH.
  rewrite <-app_assoc. by destruct err.
Qed.

Lemma vtable_append_all_properties_auto c path acc err s :
  auto_props c -> bus_nodes_modified (ds_bus s) = false ->
  vtable_append_all_properties path c (Some (nv_userdata c)) acc err s =
    ((1%Z, acc ++ vtable_entries (ds_mem s) c, err), s).
Proof.
  intros Ha Hm. unfold vtable_append_all_properties, vtable_entries.
  destruct (flag_set _ _); [by rewrite app_nil_r|]. by apply append_all_properties_loop_auto.
Qed.

(** The vtable loop outside the fallback scan, on vtables without [find]:
    [found_object] is set when there is a vtable, the interface is found
    when one matches, and the entries are the reference's. *)
Lemma get_all_loop_auto m vts iface fi acc s :
  Forall (fun c => nv_find c = None /\ (iface_matches iface c = true -> auto_props c)) vts ->
  bus_nodes_modified (ds_bus s) = false ->
  get_all_loop m vts false iface fi acc s =
    (inr (fi || existsb (iface_matches iface) vts, acc ++ get_all_reference (ds_mem s) vts iface),
     mk_dstate (ds_bus s) (ds_mem s) (ds_found s || bool_decide (vts <> [])) (ds_trace s)).
Proof.
  intros Hvts Hm. revert fi acc s Hm. induction Hvts as [|c vts [Hf Ha] _ IH]; intros fi acc s Hm.
  { cbn. rewrite orb_false_r, app_nil_r, orb_false_r. by destruct s. }
  cbn [get_all_loop]. unfold node_vtable_get_userdata. rewrite Hf.
  unfold mbind, dm_bind, mret, dm_ret, nodes_modified, set_found. cbn. rewrite Hm. cbn.
  replace (match iface with Some i => negb (nv_interface c =? i)%string | None => false end)
    with (negb (iface_matches iface c)) by (by destruct iface).
  unfold get_all_reference. destruct (iface_matches iface c) eqn:Hmc; cbn -[get_all_loop vtable_append_all_properties].
  - rewrite vtable_append_all_properties_auto by auto. cbn -[get_all_loop]. rewrite Hm. cbn -[get_all_loop].
    rewrite IH by done. cbn. rewrite orb_true_r, <-app_assoc, decide_True by done. cbn.
    by rewrite orb_true_r.
  - rewrite IH by done. cbn. rewrite decide_False by done. by rewrite orb_true_r.
Qed.

End Loops.

Section Claims.
  Context `{BusValidators} `{DispatchEnv}.

(** C31: GetAll computes the spec's reply.  Outside the fallback scan, on
    vtables without [find] whose properties (in the vtables of the
    requested interface) are read by the automatic getter, with the tree
    unchanged and the interface found or served, GetAll replies with the
    dictionary [get_all_reference]: for each vtable of the interface (all
    for the empty name) that is not HIDDEN, every property that is not
    HIDDEN with the value in its cell, in the order of the vtables and of
    their entries.  It returns 1, sends only that reply, runs no callback
    and sets [found_object] when the node has a vtable. *)
Theorem property_get_all_auto m vts iface s :
  Forall (fun c => nv_find c = None /\ (iface_matches iface c = true -> auto_props c)) vts ->
  bus_nodes_modified (ds_bus s) = false ->
  served_interface iface || existsb (iface_matches iface) vts = true ->
  property_get_all_callbacks_run m vts false iface s =
    (1%Z, mk_dstate (bus_send (ds_bus s) (method_return m [DArray "{sv}" (get_all_reference (ds_mem s) vts iface)]))
            (ds_mem s) (ds_found s || bool_decide (vts <> [])) (ds_trace s)).
Proof.
  intros Hvts Hm Hfound. unfold property_get_all_callbacks_run. cbv zeta. unfold mbind, dm_bind.
  change (match iface with None => true | Some i => _ end) with (served_interface iface).
  rewrite get_all_loop_auto by done. rewrite Hfound. reflexivity.
Qed.

(** C32: GetAll of an unknown interface.  When no vtable of the node has
    the interface [i] and [i] is not Properties, Peer or Introspectable,
    GetAll replies UnknownInterface, returns 1 and runs no callback.
    ObjectManager is not among the exempt names: GetAll of
    org.freedesktop.DBus.ObjectManager on an object manager without such
    a vtable is answered UnknownInterface. *)
Theorem property_get_all_unknown_interface m vts i s :
  Forall (fun c => nv_find c = None) vts -> bus_nodes_modified (ds_bus s) = false ->
  Forall (fun c => nv_interface c <> i) vts -> served_interface (Some i) = false ->
  property_get_all_callbacks_run m vts false (Some i) s =
    (1%Z, mk_dstate (bus_send (ds_bus s) (method_error m SD_BUS_ERROR_UNKNOWN_INTERFACE))
            (ds_mem s) (ds_found s || bool_decide (vts <> [])) (ds_trace s)).
Proof.
  intros Hf Hm Hi Hs. unfold property_get_all_callbacks_run. cbv zeta. unfold mbind, dm_bind.
  change (match Some i with None => true | Some i => _ end) with (served_interface (Some i)).
  assert (Hno : Forall (fun c => nv_find c = None /\ (iface_matches (Some i) c = true -> auto_props c)) vts).
  { apply Forall_and; split; [done|]. eapply Forall_impl; [exact Hi|]. intros c Hc Hmc.
    apply String.eqb_eq in Hmc. done. }
  rewrite get_all_loop_auto by done. unfold served_interface in Hs. rewrite Hs. cbn.
  replace (existsb (iface_matches (Some i)) vts) with false.
  2:{ symmetry. apply not_true_iff_false. rewrite existsb_exists. intros (c & Hc & Hmc).
      rewrite List.Forall_forall in Hi. apply (Hi c Hc). by apply String.eqb_eq. }
  unfold sd_bus_reply_method_errorf, send, modify_bus, mbind, dm_bind, mret, dm_ret. reflexivity.
Qed.

End Claims.

(** ** Witnesses *)

#[local] Existing Instance example_env.

(** com.x.I at /foo with the property A and the HIDDEN property H, both
    read by the automatic getter from userdata 42; A's cell holds "x". *)
Definition getall_vtable : vtable_ref :=
  mk_vtable_ref 21 [VtableStart 0 sizeof_sd_bus_vtable; VtableProperty 0 "A" "s" None 0;
                    VtableProperty SD_BUS_VTABLE_HIDDEN "H" "s" None 8; VtableEnd].

Definition getall_state : dstate :=
  mk_dstate (set_modified (snd (add_object_vtable_internal (empty_bus true false) "/foo" "com.x.I"
                                  (Some getall_vtable) false None 42)) false)
            {[ (42%nat, 0%Z) := DString "x" ]} false [].

Definition getall_vtables : list node_vtable :=
  match bus_nodes (ds_bus getall_state) !! "/foo" with Some n => node_vtables n | None => [] end.

Definition getall_call (iface : string) : sd_bus_message :=
  mk_message METHOD_CALL 6 None (Some "/foo") (Some "org.freedesktop.DBus.Properties") (Some "GetAll") None
    [DString iface].

Lemma property_get_all_auto_witness :
  let s := getall_state in
  get_all_reference (ds_mem s) getall_vtables (Some "com.x.I") = [DDictEntry (DString "A") (DVariant (DString "x"))] /\
  property_get_all_callbacks_run (getall_call "com.x.I") getall_vtables false (Some "com.x.I") s =
    (1%Z, mk_dstate (bus_send (ds_bus s) (method_return (getall_call "com.x.I")
                      [DArray "{sv}" (get_all_reference (ds_mem s) getall_vtables (Some "com.x.I"))]))
            (ds_mem s) (ds_found s || bool_decide (getall_vtables <> [])) (ds_trace s)).
Proof.
  intros s. split; [vm_compute; reflexivity|].
  apply property_get_all_auto; [|reflexivity|reflexivity].
  vm_compute. repeat first [intros _ | constructor].
Defined.

Lemma property_get_all_unknown_interface_witness :
  let s := getall_state in
  let i := "org.freedesktop.DBus.ObjectManager" in
  property_get_all_callbacks_run (getall_call i) getall_vtables false (Some i) s =
    (1%Z, mk_dstate (bus_send (ds_bus s) (method_error (getall_call i) SD_BUS_ERROR_UNKNOWN_INTERFACE))
            (ds_mem s) (ds_found s || bool_decide (getall_vtables <> [])) (ds_trace s)).
Proof.
  intros s i. apply property_get_all_unknown_interface; [| |vm_compute; repeat first [discriminate | constructor]|];
    try reflexivity.
  vm_compute. repeat constructor.
Defined.

End GetAllProps.
