(* ===== verification/InterfaceProps.v ===== *)
(** * Properties of the standard interfaces

    Theorems on the Properties and ObjectManager interfaces served by
    [object_find_and_run]:
    - a Set through the automatic setter followed by a Get through the
      automatic getter returns the value written (the property cell at
      (userdata, offset) is the shared store);
    - a Set by a refused caller is answered AccessDenied and writes
      nothing, but the member is already marked for the iteration;
    - [bus_node_with_object_manager], recursive over the parent links
      with fuel the path length, decides the "some ancestor is an object
      manager" relation [om_ancestor] on every well-formed store;
    - GetManagedObjects on an object manager without children returns 0
      and sends nothing, whatever vtables the node has, because the loop
      of lines 1111-1123 tests the stale [r] of
      [sd_bus_message_open_container]; the caller then answers
      UnknownMethod. *)

From S2P Require Import Prelude ObjectPath Vtable Message BusState NodeStore Registration RegistrationInv DispatchCore Access Callbacks Tree ObjectManager Dispatch DispatchProps.
Import ObjectPath Vtable Message BusState NodeStore Registration RegistrationInv DispatchCore Access Callbacks Tree ObjectManager Dispatch DispatchProps.

Module InterfaceProps.

(** The node or one of its ancestors, following the parent links of the
    store, is an object manager. *)
Inductive om_ancestor (ns : gmap string node) : node -> Prop :=
| om_here n : node_object_manager n = true -> om_ancestor ns n
| om_up n q pn : node_parent n = Some q -> ns !! q = Some pn -> om_ancestor ns pn -> om_ancestor ns n.

(** The index member [c] is a WRITABLE_PROPERTY entry with the given
    getter and setter, of a vtable without [find] callback. *)
Definition writable_property (c : vtable_member) (fl : Z) (mem sig : string) (get set : option fn_ref)
    (off : Z) : Prop :=
  vm_vtable c = VtableWritableProperty fl mem sig get set off /\ nv_find (vm_parent c) = None.

(** ** Concrete data for the witnesses *)

(** An object manager at /om with one vtable and no children, the tree
    flag cleared as at the start of a dispatch pass. *)
Definition om_bus : sd_bus :=
  set_modified (snd (add_object_vtable_internal (snd (sd_bus_add_object_manager (empty_bus true false) "/om"))
                       "/om" "com.x.I" (Some example_vtable) false None 42)) false.

Definition om_call : sd_bus_message :=
  mk_message METHOD_CALL 4 None (Some "/om") (Some "org.freedesktop.DBus.ObjectManager")
    (Some "GetManagedObjects") None [].

(** A writable string property P of com.x.I at /foo, without getter or
    setter, stored at offset 8 of userdata 42. *)
Definition prop_member : vtable_member :=
  mk_vtable_member "/foo" "com.x.I" "P"
    (mk_node_vtable 1 "/foo" "com.x.I"
       (mk_vtable_ref 9 [VtableStart 0 sizeof_sd_bus_vtable; VtableWritableProperty 0 "P" "s" None None 8; VtableEnd])
       42 None false)
    (VtableWritableProperty 0 "P" "s" None None 8) 0.

Definition props_call (member : string) (body : list dvalue) : sd_bus_message :=
  mk_message METHOD_CALL 5 None (Some "/foo") (Some "org.freedesktop.DBus.Properties") (Some member) None body.

(** ** Shared lemmas *)

Section Lemmas.
  Context `{DispatchEnv}.

Lemma managed_objects_empty_loop_ok vts rf :
  managed_objects_empty_loop vts rf open_container_ok = inr true.
Proof. induction vts as [|c vts IH]; simpl; [done|]. by destruct (rf && _). Qed.

Lemma check_access_set_properties b ps m c : check_access (set_properties b ps) m c = check_access b m c.
Proof. reflexivity. Qed.

Lemma read_variant_after_ss_sig m sig x :
  read_variant_after_ss m sig = Some x -> dvalue_signature x = sig.
Proof.
  unfold read_variant_after_ss. repeat case_match; try done.
  intros [= <-]. by apply String.eqb_eq.
Qed.

Lemma auto_value_stored sig x : dvalue_signature x = sig -> auto_value sig (Some x) = x.
Proof. intros <-. simpl. by rewrite String.eqb_refl. Qed.

End Lemmas.

Lemma bus_node_with_object_manager_fuel_sound fuel ns n :
  bus_node_with_object_manager_fuel fuel ns n = true -> om_ancestor ns n.
Proof.
  revert n. induction fuel as [|fuel IH]; intros n; simpl; [done|].
  destruct (node_object_manager n) eqn:Hom; [intros _; by constructor|].
  destruct (node_parent n) as [q|] eqn:Hq; [|done].
  destruct (ns !! q) as [pn|] eqn:Hpn; [|done].
  intros H. eapply om_up; eauto.
Qed.

Lemma bus_node_with_object_manager_fuel_complete fuel ns p n :
  nodes_wf ns -> ns !! p = Some n -> String.length p < fuel ->
  om_ancestor ns n -> bus_node_with_object_manager_fuel fuel ns n = true.
Proof.
  intros Hwf Hp Hlen Hom. revert fuel p Hp Hlen. induction Hom as [n Hn|n q pn Hq Hpn _ IH];
    intros [|fuel] p Hp Hlen; simpl; try lia.
  - by rewrite Hn.
  - destruct (node_object_manager n); [done|]. rewrite Hq, Hpn.
    destruct (nwf_parent _ Hwf p n q Hp Hq) as [Hlt _]. apply (IH fuel q); [done|lia].
Qed.

(** C33: [bus_node_with_object_manager] is correct with the fuel it is
    given: on a well-formed store (every parent strictly shorter than its
    child), for the node stored at any path, it returns true exactly when
    the node or one of its ancestors along the parent links is an object
    manager.  The recursion of the C code follows [n->parent] and the
    fuel [S (length path)] is never exhausted first. *)
Theorem bus_node_with_object_manager_correct ns p n :
  nodes_wf ns -> ns !! p = Some n ->
  bus_node_with_object_manager ns n = true <-> om_ancestor ns n.
Proof.
  intros Hwf Hp. unfold bus_node_with_object_manager. split.
  - apply bus_node_with_object_manager_fuel_sound.
  - apply (bus_node_with_object_manager_fuel_complete _ _ p); [done|done|].
    destruct (nwf_path _ Hwf p n Hp) as [-> _]. lia.
Qed.

Section Interfaces.
  Context `{BusValidators} `{DispatchEnv}.

(** C29: a Set of a writable property through the automatic setter,
    followed by a Get through the automatic getter, returns the value
    written.  The Set replies with an empty return and returns 1; the Get
    then replies with the variant holding the value read from the
    property's cell (userdata, offset) and returns 1.  Conditions: no
    [find] callback, the access check passes, the tree is unchanged, the
    member has not been set in this iteration and the Set carries a
    variant of the property's signature. *)
Theorem property_set_then_get ms mg k c rf s fl mem sig off x :
  writable_property c fl mem sig None None off ->
  member_due rf s c ->
  (0 <= fst (check_access (ds_bus s) ms c))%Z ->
  read_variant_after_ss ms sig = Some x ->
  let '(r, s1) := property_get_set_callbacks_run ms k c rf false s in
  r = 1%Z /\ bus_wqueue (ds_bus s1) = bus_wqueue (ds_bus s) ++ [method_return ms []] /\
  property_get_set_callbacks_run mg k c rf true s1 =
    (1%Z, mk_dstate (bus_send (ds_bus s1) (method_return mg [DVariant x])) (ds_mem s1) true (ds_trace s1)).
Proof.
  intros (Hvt & Hfind) (Hrf & Hmod & Hit) Hacc Hx.
  unfold property_get_set_callbacks_run. rewrite !fallback_guard by done.
  unfold vtable_property_get_userdata, node_vtable_get_userdata. rewrite Hfind. dm_unfold. simpl.
  rewrite Hmod. simpl. rewrite Hvt. simpl.
  destruct (Nat.eqb_spec (vm_last_iteration c) (bus_iteration_counter (ds_bus s))); [done|].
  rewrite Hmod. simpl.
  destruct (Nat.eqb_spec (vm_last_iteration c) (bus_iteration_counter (ds_bus s))); [done|].
  rewrite Hx. simpl. rewrite check_access_set_properties.
  destruct (check_access (ds_bus s) ms c) as [r err] eqn:Hca. simpl in Hacc.
  destruct (Z.ltb_spec r 0); [lia|]. simpl. rewrite Hmod. simpl.
  split; [done|]. split; [done|].
  rewrite Hmod. simpl. unfold invoke_property_get, read_mem. simpl. dm_unfold. simpl.
  rewrite Hmod. simpl. rewrite lookup_insert, decide_True by done.
  apply read_variant_after_ss_sig in Hx as Hsig.
  rewrite auto_value_stored by done. rewrite Hmod. simpl. rewrite Hsig, String.eqb_refl. reflexivity.
Qed.

(** C30: a Set by a caller the access check refuses (untrusted bus, member
    not UNPRIVILEGED, neither the capability nor the process's UID) is
    answered AccessDenied with result 1; no setter runs and no property
    cell is written.  As the code runs the [last_iteration] guard before
    [check_access], the member is already marked with the iteration
    counter and [*found_object] is set. *)
Theorem property_set_denied ms k c rf s cr fl mem sig get set off x :
  m_type ms = METHOD_CALL ->
  writable_property c fl mem sig get set off ->
  member_due rf s c ->
  read_variant_after_ss ms sig = Some x ->
  access_refused s ms c cr ->
  let b1 := set_properties (ds_bus s) (alter (fun v => vm_set_iteration v (bus_iteration_counter (ds_bus s))) k
                                         (bus_vtable_properties (ds_bus s))) in
  property_get_set_callbacks_run ms k c rf false s =
    (1%Z, mk_dstate (bus_send b1 (method_error ms SD_BUS_ERROR_ACCESS_DENIED)) (ds_mem s) true (ds_trace s)).
Proof.
  intros Hty (Hvt & Hfind) (Hrf & Hmod & Hit) Hx (Ht & Hf & Hc & Hcap & Hu) b1.
  unfold property_get_set_callbacks_run. rewrite fallback_guard by done.
  unfold vtable_property_get_userdata, node_vtable_get_userdata. rewrite Hfind. dm_unfold. simpl.
  rewrite Hmod. simpl. rewrite Hvt. simpl. rewrite Hmod. simpl.
  destruct (Nat.eqb_spec (vm_last_iteration c) (bus_iteration_counter (ds_bus s))); [done|].
  rewrite Hx. simpl. rewrite check_access_set_properties.
  rewrite (check_access_denied _ _ _ cr) by (done || (rewrite ?Hvt; done)). simpl.
  unfold bus_maybe_reply_error. rewrite bool_decide_true by done. dm_unfold. simpl. reflexivity.
Qed.

(** The walk of [get_child_nodes] from [n] succeeds with an empty set:
    nothing below the node, static or enumerated. *)
Definition no_children (m : sd_bus_message) (n : node) (s : dstate) (err : option string) (s1 : dstate) : Prop :=
  get_child_nodes (m_path_str m) n None s = (0%Z, ∅, err, s1).

(** C27: GetManagedObjects on an object manager with no children returns 0
    and sends nothing, whatever vtables the node has: the loop of lines
    1111-1123, meant to check that a vtable exists, tests the stale [r]
    of [sd_bus_message_open_container] (0), skips every vtable and leaves
    [empty] true.  The spec asks for a reply when the node has vtables. *)
Theorem process_get_managed_objects_childless m n rf s err s1 :
  bus_node_with_object_manager (bus_nodes (ds_bus s)) n = true ->
  no_children m n s err s1 ->
  bus_nodes_modified (ds_bus s1) = false ->
  process_get_managed_objects m n rf s = (0%Z, s1).
Proof.
  intros Hom Hc Hmod. unfold process_get_managed_objects.
  unfold mbind, dm_bind, get_bus at 1. rewrite Hom. simpl. rewrite Hc. simpl.
  unfold unless_modified, nodes_modified, mbind, dm_bind. rewrite Hmod.
  rewrite bool_decide_true by done. rewrite managed_objects_empty_loop_ok. reflexivity.
Qed.
End Interfaces.

#[local] Existing Instance example_env.

Lemma process_get_managed_objects_childless_witness :
  let s := mk_dstate om_bus ∅ false [] in
  let n := default (mk_node "" None [] [] [] [] false) (bus_nodes om_bus !! "/om"%string) in
  bus_node_with_object_manager (bus_nodes om_bus) n = true /\
  process_get_managed_objects om_call n false s = (0%Z, s) /\
  fst (process_message 1 om_call s) = Some 1%Z /\
  bus_wqueue (ds_bus (snd (process_message 1 om_call s))) = [method_error om_call SD_BUS_ERROR_UNKNOWN_METHOD].
Proof.
  intros s n.
  assert (Hom : bus_node_with_object_manager (bus_nodes om_bus) n = true) by (vm_compute; reflexivity).
  split; [exact Hom|]. split.
  - exact (process_get_managed_objects_childless om_call n false s None s Hom
             ltac:(vm_compute; reflexivity) ltac:(vm_compute; reflexivity)).
  - split; vm_compute; reflexivity.
Defined.

Lemma property_set_then_get_witness :
  let ms := props_call "Set" [DString "com.x.I"; DString "P"; DVariant (DString "v")] in
  let mg := props_call "Get" [DString "com.x.I"; DString "P"] in
  let k := ("/foo", "com.x.I", "P")%string in
  let s := example_state true in
  read_variant_after_ss ms "s" = Some (DString "v") /\
  let '(r, s1) := property_get_set_callbacks_run ms k prop_member false false s in
  r = 1%Z /\ bus_wqueue (ds_bus s1) = bus_wqueue (ds_bus s) ++ [method_return ms []] /\
  property_get_set_callbacks_run mg k prop_member false true s1 =
    (1%Z, mk_dstate (bus_send (ds_bus s1) (method_return mg [DVariant (DString "v")])) (ds_mem s1) true (ds_trace s1)).
Proof.
  intros ms mg k s. split; [reflexivity|].
  exact (property_set_then_get ms mg k prop_member false s 0 "P" "s" 8 (DString "v") (conj eq_refl eq_refl)
           ltac:(unfold member_due; split_and!; [discriminate|reflexivity|vm_compute; discriminate])
           ltac:(vm_compute; discriminate) eq_refl).
Defined.

Lemma property_set_denied_witness :
  let ms := props_call "Set" [DString "com.x.I"; DString "P"; DVariant (DString "v")] in
  let k := ("/foo", "com.x.I", "P")%string in
  let s := example_state false in
  read_variant_after_ss ms "s" = Some (DString "v") /\
  property_get_set_callbacks_run ms k prop_member false false s =
    (1%Z, mk_dstate (bus_send (set_properties (ds_bus s) (alter (fun v => vm_set_iteration v 1) k ∅))
                       (method_error ms SD_BUS_ERROR_ACCESS_DENIED)) ∅ true []).
Proof.
  intros ms k s. split; [reflexivity|].
  exact (property_set_denied ms k prop_member false s (mk_creds (Some 1000%Z) (Some [])) 0 "P" "s" None None 8
           (DString "v") eq_refl (conj eq_refl eq_refl)
           ltac:(unfold member_due; split_and!; [discriminate|reflexivity|vm_compute; discriminate]) eq_refl
           ltac:(unfold access_refused; split_and!; [reflexivity|reflexivity|reflexivity|
                                                     intros [Hk _]; discriminate Hk|discriminate])).
Defined.

Lemma bus_node_with_object_manager_correct_witness :
  let b := snd (sd_bus_add_object_manager (empty_bus true false) "/om") in
  let n := default (mk_node "" None [] [] [] [] false) (bus_nodes b !! "/om"%string) in
  nodes_wf (bus_nodes b) /\ bus_nodes b !! "/om"%string = Some n /\ om_ancestor (bus_nodes b) n.
Proof.
  intros b n.
  assert (Hwf : nodes_wf (bus_nodes b)) by exact (inv_nodes _ _ (sd_bus_add_object_manager_inv _ "/om" (empty_bus_inv true false))).
  assert (Hn : bus_nodes b !! "/om"%string = Some n) by (vm_compute; reflexivity).
  split_and!; [exact Hwf|exact Hn|].
  apply (bus_node_with_object_manager_correct _ _ _ Hwf Hn). vm_compute. reflexivity.
Defined.

End InterfaceProps.
