(* ===== verification/SignalsProps.v ===== *)
(** * Properties of the signal emitters

    - PropertiesChanged partitions the names (spec scenario S4): on an
      object with one vtable of the interface, every name
      EMITS_CHANGE, the signal carries the value of each name that is
      not INVALIDATE_ONLY, in order, and the list of the INVALIDATE_ONLY
      names, and the call returns 1.
    - A name without EMITS_CHANGE makes the call return -EDOM before
      anything is sent (spec property 5).
    - With two vtables of the same interface on one object, an
      INVALIDATE_ONLY property makes the invalidation loop fail its
      [assert(c == v->parent)] and abort the process; the first loop
      skips the other vtable's members, the second does not.
    - InterfacesAdded for an interface that no vtable of the path or of
      a fallback prefix has returns -ENOENT and sends nothing.

    The specification side ([changed_part], [invalidated_part],
    [emits_from]) reads the property index and the property cells
    directly. *)

From S2P Require Import Prelude ObjectPath Vtable Message BusState Registration DispatchCore Callbacks Signals DispatchProps InterfaceProps.
Import ObjectPath Vtable Message BusState Registration DispatchCore Callbacks Signals DispatchProps InterfaceProps.

Module SignalsProps.

Section Spec.
  Context `{BusValidators}.

(** The index member of [p] is INVALIDATE_ONLY. *)
Definition invalidate_only (b : sd_bus) (prefix iface p : string) : bool :=
  match bus_vtable_properties b !! (prefix, iface, p) with
  | Some v => flag_set (vt_flags (vm_vtable v)) SD_BUS_VTABLE_PROPERTY_INVALIDATE_ONLY
  | None => false
  end.

(** The value in the cell of property [p] for userdata [u]. *)
Definition stored_value (s : dstate) (prefix iface : string) (u : userdata) (p : string) : option dvalue :=
  v ← bus_vtable_properties (ds_bus s) !! (prefix, iface, p);
  ds_mem s !! vtable_property_convert_userdata (vm_vtable v) u.

(** The changed dictionary the spec asks for: each name that is not
    INVALIDATE_ONLY with its value, in order. *)
Definition changed_part (s : dstate) (prefix iface : string) (u : userdata) (names : list string) : list dvalue :=
  omap (fun p => if invalidate_only (ds_bus s) prefix iface p then None
                 else x ← stored_value s prefix iface u p; Some (DDictEntry (DString p) (DVariant x))) names.

(** The invalidated names, in order. *)
Definition invalidated_part (b : sd_bus) (prefix iface : string) (names : list string) : list string :=
  filter (fun p => invalidate_only b prefix iface p = true) names.

(** [p] is a valid member of [c] that EMITS_CHANGE; when its value is
    sent, it has the automatic getter and a value of its type is
    stored. *)
Definition emits_from (s : dstate) (prefix iface : string) (c : node_vtable) (p : string) : Prop :=
  member_name_is_valid p = true /\
  exists v, bus_vtable_properties (ds_bus s) !! (prefix, iface, p) = Some v /\
    other_parent c v = false /\
    flag_set (vt_flags (vm_vtable v)) SD_BUS_VTABLE_PROPERTY_EMITS_CHANGE = true /\
    (flag_set (vt_flags (vm_vtable v)) SD_BUS_VTABLE_PROPERTY_INVALIDATE_ONLY = false ->
       property_getter (vm_vtable v) = None /\
       exists x, ds_mem s !! vtable_property_convert_userdata (vm_vtable v) (nv_userdata c) = Some x /\
                 dvalue_signature x = entry_signature (vm_vtable v)).

(** No vtable of interface [i] at [p]. *)
Definition lacks_interface (b : sd_bus) (i p : string) : Prop :=
  forall n, bus_nodes b !! p = Some n -> Forall (fun c => nv_interface c <> i) (node_vtables n).

End Spec.

(** ** Concrete objects for the witnesses *)

Definition EC : Z := SD_BUS_VTABLE_PROPERTY_EMITS_CHANGE.
Definition IO : Z := Z.lor SD_BUS_VTABLE_PROPERTY_EMITS_CHANGE SD_BUS_VTABLE_PROPERTY_INVALIDATE_ONLY.

Definition vtable_ab : vtable_ref :=
  mk_vtable_ref 11 [VtableStart 0 sizeof_sd_bus_vtable; VtableProperty EC "A" "s" None 0;
                    VtableProperty IO "B" "u" None 8; VtableEnd].
(** A vtable of com.x.I at /foo with the EMITS_CHANGE property A and the
    INVALIDATE_ONLY property B. *)
Definition bus_ab : sd_bus :=
  snd (add_object_vtable_internal (empty_bus true false) "/foo" "com.x.I" (Some vtable_ab) false None 42).


Definition first_vtable (b : sd_bus) (p : string) : node_vtable :=
  match bus_nodes b !! p with
  | Some n => default (mk_node_vtable 0 "" "" (mk_vtable_ref 0 []) 0 None false) (head (node_vtables n))
  | None => mk_node_vtable 0 "" "" (mk_vtable_ref 0 []) 0 None false
  end.

Definition vtable_c : vtable_ref :=
  mk_vtable_ref 14 [VtableStart 0 sizeof_sd_bus_vtable; VtableProperty 0 "C" "s" None 0; VtableEnd].
(** A vtable at /bar whose property C does not emit changes. *)
Definition bus_c : sd_bus :=
  snd (add_object_vtable_internal (empty_bus true false) "/bar" "com.x.I" (Some vtable_c) false None 42).

Section Props.
  Context `{BusValidators} `{DispatchEnv}.

Lemma changed_names_app prefix path iface c names rest hi hc es s :
  Forall (emits_from s prefix iface c) names -> bus_nodes_modified (ds_bus s) = false ->
  changed_names prefix path iface c (Some (nv_userdata c)) (names ++ rest) hi hc es s =
    changed_names prefix path iface c (Some (nv_userdata c)) rest
      (hi || existsb (invalidate_only (ds_bus s) prefix iface) names)
      (hc || existsb (fun p => negb (invalidate_only (ds_bus s) prefix iface p)) names)
      (es ++ changed_part s prefix iface (nv_userdata c) names) s.
Proof.
  intros Hall Hmod. revert hi hc es. induction Hall as [|p ps (Hv & v & Hp & Hpar & Hec & Hget) _ IH];
    intros hi hc es; simpl.
  { by rewrite orb_false_r, orb_false_r, app_nil_r. }
  cbn [app].
  rewrite Hv. simpl. unfold mbind, dm_bind, get_bus. rewrite Hp, Hpar, Hec. simpl.
  assert (Hinv : invalidate_only (ds_bus s) prefix iface p =
                 flag_set (vt_flags (vm_vtable v)) SD_BUS_VTABLE_PROPERTY_INVALIDATE_ONLY)
    by (unfold invalidate_only; by rewrite Hp).
  unfold changed_part. cbn [omap]. rewrite Hinv. fold (changed_part s prefix iface (nv_userdata c) ps).
  destruct (flag_set _ SD_BUS_VTABLE_PROPERTY_INVALIDATE_ONLY) eqn:Hio; simpl.
  - rewrite IH. by rewrite orb_true_r.
  - destruct (Hget eq_refl) as (Hng & x & Hx & Hsig).
    unfold invoke_property_get. rewrite Hng. unfold read_mem, nodes_modified. simpl.
    rewrite Hx, auto_value_stored by done. rewrite Hmod. simpl.
    rewrite Hsig, String.eqb_refl. rewrite IH.
    unfold stored_value. rewrite Hp. simpl. rewrite Hx. simpl.
    by rewrite orb_true_r, <- app_assoc.
Qed.

Lemma invalidated_names_all prefix iface c names acc s :
  Forall (emits_from s prefix iface c) names ->
  invalidated_names prefix iface c names acc s =
    (inr (acc ++ invalidated_part (ds_bus s) prefix iface names), s).
Proof.
  intros Hall. revert acc. induction Hall as [|p ps (_ & v & Hp & Hpar & _) _ IH]; intros acc; simpl.
  { by rewrite app_nil_r. }
  unfold mbind, dm_bind, get_bus. rewrite Hp, Hpar. simpl.
  assert (Hinv : invalidate_only (ds_bus s) prefix iface p =
                 flag_set (vt_flags (vm_vtable v)) SD_BUS_VTABLE_PROPERTY_INVALIDATE_ONLY)
    by (unfold invalidate_only; by rewrite Hp).
  unfold invalidated_part. rewrite filter_cons, Hinv.
  fold (invalidated_part (ds_bus s) prefix iface ps).
  destruct (flag_set _ SD_BUS_VTABLE_PROPERTY_INVALIDATE_ONLY);
    [rewrite decide_True by done|rewrite decide_False by done]; rewrite IH; by rewrite <- ?app_assoc.
Qed.

Lemma existsb_either {A} (f : A -> bool) l :
  l <> [] -> existsb f l || existsb (fun x => negb (f x)) l = true.
Proof. destruct l as [|x l]; [done|]. intros _. simpl. destruct (f x); simpl; [done|apply orb_true_r]. Qed.

Lemma invalidated_part_none b prefix iface names :
  existsb (invalidate_only b prefix iface) names = false -> invalidated_part b prefix iface names = [].
Proof.
  intros Hn. unfold invalidated_part. induction names as [|p ps IH]; [done|].
  simpl in Hn. apply orb_false_iff in Hn as [Hp Hps].
  rewrite filter_cons, decide_False by congruence. by apply IH.
Qed.

Lemma on_interface_partition path iface c n names s :
  bus_nodes (ds_bus s) !! path = Some n -> node_vtables n = [c] ->
  nv_interface c = iface -> nv_find c = None -> bus_nodes_modified (ds_bus s) = false ->
  names <> [] -> Forall (emits_from s path iface c) names ->
  emit_properties_changed_on_interface path path iface false names s =
    (Return 1%Z,
     mk_dstate (bus_send (ds_bus s)
                 (properties_changed_signal path iface (changed_part s path iface (nv_userdata c) names)
                                            (invalidated_part (ds_bus s) path iface names)))
       (ds_mem s) (ds_found s) (ds_trace s)).
Proof.
  intros Hn Hvts Hif Hfind Hmod Hne Hall.
  unfold emit_properties_changed_on_interface. dm_unfold. simpl. rewrite Hn, Hvts. simpl.
  unfold skip_vtable. rewrite Hif, String.eqb_refl. simpl.
  unfold node_vtable_get_userdata. rewrite Hfind. dm_unfold. simpl. rewrite Hmod. simpl.
  pose proof (changed_names_app path path iface c names [] false false [] s Hall Hmod) as E.
  rewrite app_nil_r in E. rewrite E. simpl.
  pose proof (existsb_either (invalidate_only (ds_bus s) path iface) names Hne) as Heither.
  destruct (existsb (invalidate_only (ds_bus s) path iface) names) eqn:Hinv; simpl in Heither |- *.
  - rewrite ?Hmod. simpl.
    rewrite invalidated_names_all by exact Hall. reflexivity.
  - rewrite Heither. simpl. rewrite invalidated_part_none by exact Hinv. reflexivity.
Qed.

(** C34: PropertiesChanged partitions the names as the spec says (S4):
    on an object whose only vtable is of the interface, without [find],
    when every name is a member of it with EMITS_CHANGE and every value
    to send is stored, [sd_bus_emit_properties_changed_strv] sends one
    signal whose changed dictionary holds each name that is not
    INVALIDATE_ONLY with its value, in order, and whose invalidated list
    holds the INVALIDATE_ONLY names, and returns 1 after one pass. *)
Theorem emit_properties_changed_partition fuel path iface c n names s :
  object_path_is_valid path = true -> interface_name_is_valid iface = true ->
  bus_open (ds_bus s) = true -> bus_pid_changed (ds_bus s) = false ->
  bus_nodes (ds_bus s) !! path = Some n -> node_vtables n = [c] ->
  nv_interface c = iface -> nv_find c = None ->
  names <> [] -> Forall (emits_from s path iface c) names ->
  sd_bus_emit_properties_changed_strv (S fuel) path iface names s =
    (Some (Return 1%Z),
     mk_dstate (bus_send (set_modified (ds_bus s) false)
                 (properties_changed_signal path iface (changed_part s path iface (nv_userdata c) names)
                                            (invalidated_part (ds_bus s) path iface names)))
       (ds_mem s) (ds_found s) (ds_trace s)).
Proof.
  intros Hp Hi Ho Hpid Hn Hvts Hif Hfind Hne Hall.
  unfold sd_bus_emit_properties_changed_strv, emit_properties_changed_on_interface.
  dm_unfold. simpl. rewrite Hp, Hi, Ho, Hpid. simpl.
  destruct names as [|p0 ps0] eqn:En; [done|]. rewrite <- En in Hall, Hne |- *.
  dm_unfold. simpl.
  rewrite (on_interface_partition path iface c n names
             (mk_dstate (set_modified (ds_bus s) false) (ds_mem s) (ds_found s) (ds_trace s))
             Hn Hvts Hif Hfind eq_refl Hne Hall).
  reflexivity.
Qed.


Lemma on_interface_not_emitting path iface c n pre p post v s :
  bus_nodes (ds_bus s) !! path = Some n -> node_vtables n = [c] ->
  nv_interface c = iface -> nv_find c = None -> bus_nodes_modified (ds_bus s) = false ->
  Forall (emits_from s path iface c) pre -> member_name_is_valid p = true ->
  bus_vtable_properties (ds_bus s) !! (path, iface, p) = Some v -> other_parent c v = false ->
  flag_set (vt_flags (vm_vtable v)) SD_BUS_VTABLE_PROPERTY_EMITS_CHANGE = false ->
  emit_properties_changed_on_interface path path iface false (pre ++ p :: post) s =
    (Return (- Errno.EDOM)%Z, s).
Proof.
  intros Hn Hvts Hif Hfind Hmod Hpre Hv Hpv Hpar Hec.
  unfold emit_properties_changed_on_interface. dm_unfold. simpl. rewrite Hn, Hvts. simpl.
  unfold skip_vtable. rewrite Hif, String.eqb_refl. simpl.
  unfold node_vtable_get_userdata. rewrite Hfind. dm_unfold. simpl. rewrite Hmod. simpl.
  rewrite (changed_names_app path path iface c pre (p :: post) false false [] s Hpre Hmod).
  simpl. rewrite Hv. dm_unfold. simpl. rewrite Hpv, Hpar, Hec. simpl. by destruct s.
Qed.

(** C36: a name whose property lacks EMITS_CHANGE makes
    [sd_bus_emit_properties_changed_strv] return -EDOM and send nothing
    (spec property 5): the names before it are valid members that emit
    changes, and the state is left as it was but for the cleared
    [nodes_modified]. *)
Theorem emit_properties_changed_not_emitting fuel path iface c n pre p post v s :
  object_path_is_valid path = true -> interface_name_is_valid iface = true ->
  bus_open (ds_bus s) = true -> bus_pid_changed (ds_bus s) = false ->
  bus_nodes (ds_bus s) !! path = Some n -> node_vtables n = [c] ->
  nv_interface c = iface -> nv_find c = None ->
  Forall (emits_from s path iface c) pre -> member_name_is_valid p = true ->
  bus_vtable_properties (ds_bus s) !! (path, iface, p) = Some v -> other_parent c v = false ->
  flag_set (vt_flags (vm_vtable v)) SD_BUS_VTABLE_PROPERTY_EMITS_CHANGE = false ->
  sd_bus_emit_properties_changed_strv (S fuel) path iface (pre ++ p :: post) s =
    (Some (Return (- Errno.EDOM)%Z), mk_dstate (set_modified (ds_bus s) false) (ds_mem s) (ds_found s) (ds_trace s)).
Proof.
  intros Hp Hi Ho Hpid Hn Hvts Hif Hfind Hpre Hv Hpv Hpar Hec.
  unfold sd_bus_emit_properties_changed_strv. dm_unfold. simpl. rewrite Hp, Hi, Ho, Hpid. simpl.
  destruct (pre ++ p :: post) as [|p0 ps0] eqn:En; [by destruct pre|]. rewrite <- En.
  dm_unfold. simpl.
  rewrite (on_interface_not_emitting path iface c n pre p post v
             (mk_dstate (set_modified (ds_bus s) false) (ds_mem s) (ds_found s) (ds_trace s))
             Hn Hvts Hif Hfind eq_refl Hpre Hv Hpv Hpar Hec).
  reflexivity.
Qed.

Lemma added_vtables_none path i rf vts found props s :
  Forall (fun c => nv_interface c <> i) vts ->
  added_vtables path i rf vts found props s = (inr (found, props), s).
Proof.
  induction 1 as [|c vts Hc _ IH]; [done|]. simpl.
  unfold skip_vtable. apply String.eqb_neq in Hc. rewrite Hc, orb_true_r. exact IH.
Qed.

Lemma append_one_prefix_none p path i rf s :
  lacks_interface (ds_bus s) i p ->
  interfaces_added_append_one_prefix p path i rf s = (0%Z, [], s).
Proof.
  intros Hl. unfold interfaces_added_append_one_prefix, mbind at 1, dm_bind at 1, get_bus.
  destruct (bus_nodes (ds_bus s) !! p) as [n|] eqn:Hn; [|reflexivity].
  unfold mbind, dm_bind. rewrite added_vtables_none by exact (Hl n Hn). reflexivity.
Qed.

Lemma append_one_none path i s :
  lacks_interface (ds_bus s) i path -> Forall (lacks_interface (ds_bus s) i) (object_path_prefixes path) ->
  bus_nodes_modified (ds_bus s) = false ->
  interfaces_added_append_one path i s = ((- Errno.ENOENT)%Z, [], s).
Proof.
  intros Hl Hps Hmod. unfold interfaces_added_append_one. dm_unfold. simpl.
  rewrite append_one_prefix_none by exact Hl. simpl. rewrite Hmod. simpl.
  revert Hps. generalize (object_path_prefixes path) as ps. intros ps Hps.
  induction Hps as [|p ps Hp _ IH]; [reflexivity|]. simpl. dm_unfold. simpl.
  rewrite append_one_prefix_none by exact Hp. simpl. rewrite Hmod. exact IH.
Qed.

(** C37: InterfacesAdded for an interface that no vtable at the path or
    at any of its prefixes has returns -ENOENT and sends nothing (spec
    section 4.8). *)
Theorem interfaces_added_unknown fuel path i ifs s :
  emitter_guards (ds_bus s) path = None -> interface_name_is_valid i = true ->
  lacks_interface (ds_bus s) i path -> Forall (lacks_interface (ds_bus s) i) (object_path_prefixes path) ->
  sd_bus_emit_interfaces_added_strv (S fuel) path (i :: ifs) s =
    (Some (- Errno.ENOENT)%Z, mk_dstate (set_modified (ds_bus s) false) (ds_mem s) (ds_found s) (ds_trace s)).
Proof.
  intros Hg Hi Hl Hps. unfold sd_bus_emit_interfaces_added_strv. dm_unfold. simpl. rewrite Hg.
  simpl. rewrite Hi. dm_unfold. simpl.
  rewrite (append_one_none path i (mk_dstate (set_modified (ds_bus s) false) (ds_mem s) (ds_found s) (ds_trace s))
             Hl Hps eq_refl).
  reflexivity.
Qed.
End Props.

#[local] Existing Instance example_env.


Lemma emit_properties_changed_partition_witness :
  let s := mk_dstate bus_ab {[(42%nat, 0%Z) := DString "on"]} false [] in
  let c := first_vtable bus_ab "/foo" in
  let n := default (mk_node "" None [] [] [] [] false) (bus_nodes bus_ab !! "/foo"%string) in
  Forall (emits_from s "/foo" "com.x.I" c) ["A"; "B"]%string /\
  sd_bus_emit_properties_changed_strv 1 "/foo" "com.x.I" ["A"; "B"] s =
    (Some (Return 1%Z),
     mk_dstate (bus_send (set_modified bus_ab false)
                 (properties_changed_signal "/foo" "com.x.I" (changed_part s "/foo" "com.x.I" (nv_userdata c) ["A"; "B"])
                                            (invalidated_part bus_ab "/foo" "com.x.I" ["A"; "B"])))
       (ds_mem s) false []).
Proof.
  intros s c n.
  assert (Hall : Forall (emits_from s "/foo" "com.x.I" c) ["A"; "B"]%string).
  { repeat constructor.
    - exists (default (example_member true None) (bus_vtable_properties bus_ab !! ("/foo", "com.x.I", "A")%string)).
      split_and!; try (vm_compute; reflexivity).
      intros _. split; [vm_compute; reflexivity|]. exists (DString "on"). split; vm_compute; reflexivity.
    - exists (default (example_member true None) (bus_vtable_properties bus_ab !! ("/foo", "com.x.I", "B")%string)).
      split_and!; try (vm_compute; reflexivity).
      intros H. vm_compute in H. discriminate H. }
  split; [exact Hall|].
  exact (emit_properties_changed_partition 0 "/foo" "com.x.I" c n ["A"; "B"] s eq_refl eq_refl eq_refl eq_refl
           ltac:(vm_compute; reflexivity) ltac:(vm_compute; reflexivity) ltac:(vm_compute; reflexivity)
           ltac:(vm_compute; reflexivity) ltac:(discriminate) Hall).
Defined.

Lemma emit_properties_changed_not_emitting_witness :
  let s := mk_dstate bus_c ∅ false [] in
  let c := first_vtable bus_c "/bar" in
  let n := default (mk_node "" None [] [] [] [] false) (bus_nodes bus_c !! "/bar"%string) in
  let v := default (example_member true None) (bus_vtable_properties bus_c !! ("/bar", "com.x.I", "C")%string) in
  bus_vtable_properties bus_c !! ("/bar", "com.x.I", "C")%string = Some v /\
  flag_set (vt_flags (vm_vtable v)) SD_BUS_VTABLE_PROPERTY_EMITS_CHANGE = false /\
  sd_bus_emit_properties_changed_strv 1 "/bar" "com.x.I" ([] ++ ["C"] ++ []) s =
    (Some (Return (- Errno.EDOM)%Z), mk_dstate (set_modified bus_c false) ∅ false []).
Proof.
  intros s c n v.
  assert (Hv : bus_vtable_properties bus_c !! ("/bar", "com.x.I", "C")%string = Some v) by (vm_compute; reflexivity).
  assert (Hec : flag_set (vt_flags (vm_vtable v)) SD_BUS_VTABLE_PROPERTY_EMITS_CHANGE = false)
    by (vm_compute; reflexivity).
  split_and!; [exact Hv|exact Hec|].
  exact (emit_properties_changed_not_emitting 0 "/bar" "com.x.I" c n [] "C" [] v s eq_refl eq_refl eq_refl eq_refl
           ltac:(vm_compute; reflexivity) ltac:(vm_compute; reflexivity) ltac:(vm_compute; reflexivity)
           ltac:(vm_compute; reflexivity) (List.Forall_nil _) eq_refl Hv ltac:(vm_compute; reflexivity) Hec).
Defined.

Lemma interfaces_added_unknown_witness :
  let s := mk_dstate bus_ab ∅ false [] in
  emitter_guards bus_ab "/foo" = None /\
  lacks_interface bus_ab "com.x.J" "/foo" /\
  sd_bus_emit_interfaces_added_strv 1 "/foo" ["com.x.J"] s =
    (Some (- Errno.ENOENT)%Z, mk_dstate (set_modified bus_ab false) ∅ false []).
Proof.
  intros s.
  assert (Hg : emitter_guards bus_ab "/foo" = None) by (vm_compute; reflexivity).
  assert (Hl : lacks_interface bus_ab "com.x.J" "/foo").
  { intros n Hn. vm_compute in Hn. injection Hn as <-. repeat constructor. vm_compute. discriminate. }
  assert (Hps : Forall (lacks_interface bus_ab "com.x.J") (object_path_prefixes "/foo")).
  { replace (object_path_prefixes "/foo") with ["/"]%string by (vm_compute; reflexivity).
    repeat constructor. intros n Hn. vm_compute in Hn. injection Hn as <-. constructor. }
  split_and!; [exact Hg|exact Hl|].
  exact (interfaces_added_unknown 0 "/foo" "com.x.J" [] s Hg eq_refl Hl Hps).
Defined.

End SignalsProps.
