(* ===== verification/EmitResult.v ===== *)
(** * What the return code of PropertiesChanged says

    The spec (section 9, open questions) reads
    [sd_bus_emit_properties_changed_strv] (lines 2104-2144) as possibly
    returning -ENOENT after a signal was sent on an earlier pass of its
    restart loop.  The code does not: [emit_properties_changed_on_interface]
    sends the signal only as its last step and then returns 1, which ends
    the loop, and every other way out of it (an error, a tree modified by
    a callback, nothing to emit) sends nothing.  When the callbacks the
    emitter runs ([find] and getters) send no message themselves, a call
    sends exactly one PropertiesChanged signal of [path] and [interface]
    when it returns 1, and no message at all otherwise.

    The registration functions the callbacks may call send nothing
    ([SingleReply.api_step_wqueue]); the loops of the emitter keep the queue
    ([dm_pres] of [Preserve] with the predicate "the queue is [q]") and
    never return 1 ([dm_res] with [not_sent]). *)

From S2P Require Import Prelude ObjectPath Vtable Message BusState NodeStore Registration Reachable DispatchCore Access Callbacks Tree Introspect ObjectManager Dispatch DispatchProps Signals SignalsProps Preserve SingleReply.
Import ObjectPath Vtable Message BusState NodeStore Registration Reachable DispatchCore Access Callbacks Tree Introspect ObjectManager Dispatch DispatchProps Signals SignalsProps Preserve SingleReply.

Module EmitResult.

(** ** Results of a monadic computation *)

(** Every result [x] returns satisfies [R]. *)
Definition dm_res {A} (R : A -> Prop) (x : DM A) : Prop := forall s, R (fst (x s)).

Lemma dm_res_ret {A} (R : A -> Prop) a : R a -> dm_res R (mret a).
Proof. intros Ha s. exact Ha. Qed.

Lemma dm_res_bind {A B} (R : B -> Prop) (x : DM A) (f : A -> DM B) :
  (forall a, dm_res R (f a)) -> dm_res R (x ≫= f).
Proof. intros Hf s. unfold mbind, dm_bind. destruct (x s) as [a s']. apply Hf. Qed.

Lemma dm_res_bind_with {A B} (R1 : A -> Prop) (R : B -> Prop) (x : DM A) (f : A -> DM B) :
  dm_res R1 x -> (forall a, R1 a -> dm_res R (f a)) -> dm_res R (x ≫= f).
Proof. intros Hx Hf s. unfold mbind, dm_bind. specialize (Hx s). destruct (x s) as [a s']. by apply Hf. Qed.

Create HintDb emitres.

(** An outcome other than the 1 that follows the send. *)
Definition not_sent (o : outcome) : Prop :=
  match o with Return r => (r <= 0)%Z | AssertFailed => True end.

Definition early_not_sent {B} (res : outcome + B) : Prop :=
  match res with inl o => not_sent o | inr _ => True end.

Ltac res_with leaf :=
  repeat match goal with
  | |- dm_res _ (mret _) => apply dm_res_ret
  | |- dm_res _ (_ ≫= _) =>
      first [apply (dm_res_bind_with early_not_sent); [solve [eauto with emitres]|intros ? ?]
            |apply dm_res_bind; intros ?]
  | |- dm_res _ (match ?x with _ => _ end) => destruct x eqn:?
  | |- _ => solve [leaf]
  end.

Ltac not_sent_leaf :=
  cbn; first [exact I | lia | (rewrite ?Z.ltb_lt in *; lia)
             | (unfold Errno.EINVAL, Errno.ENOENT, Errno.EDOM, Errno.ENXIO; lia) | eauto].

Section Emit.
  Context `{BusValidators} `{DispatchEnv}.

(** The callbacks the emitter runs send no message of their own. *)
Definition emit_callbacks_silent : Prop :=
  (forall f p i u, ef_sends (fr_effects (env_find f p i u)) = []) /\
  (forall f p i mem u, ef_sends (gr_effects (env_getter f p i mem u)) = []).

Section Quiet.
  Hypothesis Hsil : emit_callbacks_silent.
  Variable q : list sd_bus_message.

Lemma find_effects_quiet f p i u : dm_pres (queue_is q) (apply_effects (fr_effects (env_find f p i u))).
Proof. apply apply_effects_quiet, Hsil. Qed.
Lemma getter_effects_quiet f p i mem u :
  dm_pres (queue_is q) (apply_effects (gr_effects (env_getter f p i mem u))).
Proof. apply apply_effects_quiet, Hsil. Qed.

Create HintDb quiet.
#[local] Hint Resolve dm_pres_reader get_bus_reads nodes_modified_reads read_mem_reads log_quiet
  find_effects_quiet getter_effects_quiet : quiet.

Ltac quiet := keep_with ltac:(eauto with quiet).

Lemma node_vtable_get_userdata_quiet p c : dm_pres (queue_is q) (node_vtable_get_userdata p c).
Proof. unfold node_vtable_get_userdata, invoke_find. cbv zeta. quiet. Qed.
Lemma invoke_property_get_quiet k vt v p i mem u : dm_pres (queue_is q) (invoke_property_get k vt v p i mem u).
Proof. unfold invoke_property_get. cbv zeta. quiet. Qed.
#[local] Hint Resolve node_vtable_get_userdata_quiet invoke_property_get_quiet : quiet.

Lemma changed_names_quiet prefix path iface c u names hi hc es :
  dm_pres (queue_is q) (changed_names prefix path iface c u names hi hc es).
Proof. revert hi hc es. induction names; intros; simpl; quiet. Qed.
#[local] Hint Resolve changed_names_quiet : quiet.

Lemma changed_vtables_quiet prefix path iface rf names vts hi hc es :
  dm_pres (queue_is q) (changed_vtables prefix path iface rf names vts hi hc es).
Proof. revert hi hc es. induction vts; intros; simpl; quiet. Qed.

Lemma invalidated_names_quiet prefix iface c names acc :
  dm_pres (queue_is q) (invalidated_names prefix iface c names acc).
Proof. revert acc. induction names; intros; simpl; quiet. Qed.
#[local] Hint Resolve invalidated_names_quiet : quiet.

Lemma invalidated_vtables_quiet prefix path iface rf names vts acc :
  dm_pres (queue_is q) (invalidated_vtables prefix path iface rf names vts acc).
Proof. revert acc. induction vts; intros; simpl; quiet. Qed.

End Quiet.

Lemma changed_names_res prefix path iface c u names hi hc es :
  dm_res early_not_sent (changed_names prefix path iface c u names hi hc es).
Proof. revert hi hc es. induction names; intros; simpl; res_with not_sent_leaf. Qed.
#[local] Hint Resolve changed_names_res : emitres.

Lemma changed_vtables_res prefix path iface rf names vts hi hc es :
  dm_res early_not_sent (changed_vtables prefix path iface rf names vts hi hc es).
Proof.
  revert hi hc es. induction vts; intros; simpl; res_with not_sent_leaf.
Qed.

Lemma invalidated_names_res prefix iface c names acc :
  dm_res early_not_sent (invalidated_names prefix iface c names acc).
Proof. revert acc. induction names; intros; simpl; res_with not_sent_leaf. Qed.
#[local] Hint Resolve invalidated_names_res : emitres.

Lemma invalidated_vtables_res prefix path iface rf names vts acc :
  dm_res early_not_sent (invalidated_vtables prefix path iface rf names vts acc).
Proof.
  revert acc. induction vts; intros; simpl; res_with not_sent_leaf.
Qed.

(** The queue [q'] is [q] with one PropertiesChanged signal of [path]
    and [iface] appended when the result is 1, and is [q] otherwise. *)
Definition signal_iff_one (path iface : string) (r : option outcome) (q q' : list sd_bus_message) : Prop :=
  (r = Some (Return 1%Z) /\ exists ch inv, q' = q ++ [properties_changed_signal path iface ch inv]) \/
  (r <> Some (Return 1%Z) /\ q' = q).

Lemma signal_iff_one_none path iface q : signal_iff_one path iface None q q.
Proof. by right. Qed.

Lemma not_sent_not_one o : not_sent o -> Some o <> Some (Return 1%Z).
Proof. destruct o; simpl; [intros ? [= ->]; lia|done]. Qed.

Lemma signal_iff_one_zero path iface o q q' :
  outcome_is_zero o = true -> signal_iff_one path iface (Some o) q q' -> q' = q.
Proof. intros Hz [([= ->] & _)|(_ & ->)]; [done|done]. Qed.

Section Interface.
  Hypothesis Hsil : emit_callbacks_silent.

Lemma on_interface_queue prefix path iface rf names s :
  let '(o, s') := emit_properties_changed_on_interface prefix path iface rf names s in
  signal_iff_one path iface (Some o) (bus_wqueue (ds_bus s)) (bus_wqueue (ds_bus s')).
Proof.
  unfold emit_properties_changed_on_interface, mbind, dm_bind, get_bus, mret, dm_ret.
  destruct (bus_nodes (ds_bus s) !! prefix) as [n|]; [|right; split; [intros [=]|done]].
  set (x := changed_vtables prefix path iface rf names (node_vtables n) false false []).
  pose proof (changed_vtables_quiet Hsil (bus_wqueue (ds_bus s)) prefix path iface rf names (node_vtables n)
                false false [] s eq_refl) as Q1.
  pose proof (changed_vtables_res prefix path iface rf names (node_vtables n) false false [] s) as R1.
  fold x in Q1, R1. destruct (x s) as [[o|[[hi hc] es]] s1]; simpl in Q1, R1 |- *; unfold queue_is in Q1.
  { right. split; [by apply not_sent_not_one|done]. }
  destruct (negb hi && negb hc); [right; split; [intros [=]|done]|].
  destruct hi.
  - set (y := invalidated_vtables prefix path iface rf names (node_vtables n) []).
    pose proof (invalidated_vtables_quiet Hsil (bus_wqueue (ds_bus s1)) prefix path iface rf names
                  (node_vtables n) [] s1 eq_refl) as Q2.
    pose proof (invalidated_vtables_res prefix path iface rf names (node_vtables n) [] s1) as R2.
    fold y in Q2, R2. destruct (y s1) as [[o|inv] s2]; simpl in Q2, R2 |- *; unfold queue_is in Q2.
    + right. split; [by apply not_sent_not_one|congruence].
    + left. split; [done|]. exists es, inv. unfold send, modify_bus. simpl. congruence.
  - left. split; [done|]. exists es, []. unfold send, modify_bus. simpl. congruence.
Qed.

Lemma emit_changed_prefixes_queue path iface names ps s :
  let '(r, s') := emit_changed_prefixes path iface names ps s in
  signal_iff_one path iface r (bus_wqueue (ds_bus s)) (bus_wqueue (ds_bus s')).
Proof.
  revert s. induction ps as [|p ps IH]; intros s; [apply signal_iff_one_none|].
  cbn [emit_changed_prefixes]. unfold mbind, dm_bind, nodes_modified, mret, dm_ret.
  pose proof (on_interface_queue p path iface true names s) as H1.
  destruct (emit_properties_changed_on_interface p path iface true names s) as [o s1].
  destruct (outcome_is_zero o) eqn:Hz; simpl; [|exact H1].
  apply (signal_iff_one_zero _ _ _ _ _ Hz) in H1. rewrite <-H1.
  destruct (bus_nodes_modified (ds_bus s1)); [apply signal_iff_one_none|apply IH].
Qed.

Lemma emit_properties_changed_loop_queue fuel path iface names s :
  let '(r, s') := emit_properties_changed_loop fuel path iface names s in
  signal_iff_one path iface r (bus_wqueue (ds_bus s)) (bus_wqueue (ds_bus s')).
Proof.
  revert s. induction fuel as [|fuel IH]; intros s; [apply signal_iff_one_none|].
  cbn [emit_properties_changed_loop]. unfold mbind, dm_bind, nodes_modified, mret, dm_ret, modify_bus.
  set (s0 := mk_dstate _ _ _ _).
  pose proof (on_interface_queue path path iface false names s0) as H1.
  destruct (emit_properties_changed_on_interface path path iface false names s0) as [o s1].
  destruct (outcome_is_zero o) eqn:Hz; simpl; [|exact H1].
  apply (signal_iff_one_zero _ _ _ _ _ Hz) in H1. change (bus_wqueue (ds_bus s0)) with (bus_wqueue (ds_bus s)) in H1.
  rewrite <-H1. destruct (bus_nodes_modified (ds_bus s1)); [apply IH|].
  pose proof (emit_changed_prefixes_queue path iface names (object_path_prefixes path) s1) as H2.
  destruct (emit_changed_prefixes path iface names (object_path_prefixes path) s1) as [[o'|] s2]; [exact H2|].
  destruct H2 as [([=] & _)|(_ & H2)]. rewrite <-H2.
  destruct (bus_nodes_modified (ds_bus s2)); [apply IH|]. right. split; [intros [= Hc]; lia|done].
Qed.

End Interface.

(** C38: the return code of [sd_bus_emit_properties_changed_strv] says
    whether the signal was sent.  When the [find] callbacks and getters
    it runs send no message of their own, a call, with any number of
    passes of its restart loop and whatever the callbacks register,
    either returns 1 and has sent exactly one PropertiesChanged signal of
    [path] and [iface], or returns something else (an error, -ENOENT, 0
    for an empty list, or runs out of passes) and has sent nothing: it
    never returns -ENOENT after a signal went out. *)
Theorem emit_properties_changed_strv_signal fuel path iface names s :
  emit_callbacks_silent ->
  let '(r, s') := sd_bus_emit_properties_changed_strv fuel path iface names s in
  signal_iff_one path iface r (bus_wqueue (ds_bus s)) (bus_wqueue (ds_bus s')).
Proof.
  intros Hsil. unfold sd_bus_emit_properties_changed_strv, mbind, dm_bind, get_bus, mret, dm_ret.
  repeat match goal with |- context [if ?c then _ else _] => destruct c end;
    try (right; split; [intros Hc; vm_compute in Hc; discriminate Hc|done]).
  apply (emit_properties_changed_loop_queue Hsil).
Qed.


End Emit.

(** ** Witness *)

#[local] Existing Instance example_env.

Lemma emit_properties_changed_strv_signal_witness :
  emit_callbacks_silent /\
  let s := mk_dstate bus_ab ∅ false [] in
  let '(r, s') := sd_bus_emit_properties_changed_strv 2 "/foo" "com.x.I" ["A"; "B"] s in
  signal_iff_one "/foo" "com.x.I" r (bus_wqueue (ds_bus s)) (bus_wqueue (ds_bus s')).
Proof.
  assert (Hsil : emit_callbacks_silent) by (split; intros; cbn; repeat case_match; reflexivity).
  split; [exact Hsil|]. intros s. exact (emit_properties_changed_strv_signal 2 "/foo" "com.x.I" ["A"; "B"] s Hsil).
Defined.

End EmitResult.
