(* ===== verification/Scenarios.v ===== *)
(** * End-to-end scenarios of the spec

    Scenario S6 of the spec (section 8): an object manager at /root, a
    vtable with one property at /root/a and at /root/b; GetManagedObjects
    on /root is expected to return the dictionary of both children.  The
    registration calls run through [Reachable.run_calls] and the call
    through [DispatchLoop]'s [process_message], so every component takes
    part: node allocation, the registration API, the child walk,
    GetManagedObjects and the dispatch loop.

    In the code the scenario fails.  [bus_node_allocate] links /root/a and
    /root/b under "/" instead of under /root ([node_parent_path_wrong]), so
    /root has no children; [process_get_managed_objects] then returns 0
    without a reply (the stale [r] of lines 1111-1123); /root exists (it
    is an object manager), so [bus_process_object] answers UnknownMethod. *)

From S2P Require Import Prelude ObjectPath Vtable Message BusState Registration Reachable DispatchCore Access Callbacks Tree Introspect ObjectManager Dispatch DispatchProps DispatchLoop.
Import ObjectPath Vtable Message BusState Registration Reachable DispatchCore Access Callbacks Tree Introspect ObjectManager Dispatch DispatchProps DispatchLoop.

Module Scenarios.

#[local] Existing Instance example_env.






End Scenarios.
